(* ===== verification/_CoqProject ===== *)
-Q . S2P
Prelude.v
JsValue.v
Yaml.v
Render.v
State.v
Handler.v
Settings.v
Json.v
JsonText.v
Extract.v
Bridge.v
Channel.v
Shell.v
Page.v
Update.v
Editor.v
Lifecycle.v
Startup.v
LiveUpdate.v
FrameWait.v
DomCache.v
LinkGuard.v
