(* ===== verification/Prelude.v ===== *)
(** * LittleWhiteBox template engine: a verification development

    The program is a browser extension for a chat front end
    (src/index.js, src/template-editor.js).  Its core, in
    src/template-editor.js, is a template engine: [TemplateProcessor]
    extracts named variables from model output (bracket tags, fenced
    JSON or YAML, bare JSON or YAML, XML-wrapped text, partially
    streamed text), [replaceVars] substitutes them into a per-character
    template, [IframeManager] loads templates that are whole documents
    into iframes, and [MessageHandler], driven by the host's events and
    by a patched [innerHTML] setter, keeps the per-message state and the
    rendered display text in step with the chat.  [TemplateSettings]
    says which template applies to which character.

    ** Files, in dependency order

    - [Prelude] (this file): JavaScript strings as [list ascii]
      (notation [j["..."]] in [jstr_scope]), the ASCII character classes
      of regular expressions, and the string builtins the source calls
      ([trim], [split], [join], [indexOf], [substring], [startsWith]),
      with the hint databases [jstr] and [jstr_rw].
    - [JsValue]: JavaScript values ([jsval]), [Number::toString], the
      property order of [Object.keys] / [entries] / [assign], [String()],
      [Array.prototype.join], [JSON.stringify] and [===].
    - [Yaml] (Module [Yaml]): [parseYamlDirect], [parsePartialYamlDirect],
      [parseNestedObject], [parseMultilineString], [parseArray] and their
      partial twins (template-editor.js 405-779), as line loops over the
      remaining lines; the two mutually recursive mapping loops carry fuel.
    - [Render] (Module [Render]): [replaceVars] (797-814) as a scan of the
      template into text and placeholder tokens, and [isCustomTemplate].
    - [State] (Module [State]): the module [state] object (27-50) with
      [gmap]s for [messageVariables], [variableHistory] and the template
      cache, [state.clear()] and [updateHistory] (1107-1118).
    - [DomCache] (Module [DomCache]): [state.getElement] (42-51) and
      its cache [caches.dom] over a document of connected elements in
      document order, with the selector engine a parameter.
    - [Handler] (Module [Handler]): a [world] of chat messages, state,
      the host calls made so far in order, pending timers and an iframe
      counter; [process], [clearTemplate], [clearPreviousIframes],
      [clearAll], [reapplyAll], [processBatch], the streaming check,
      [eventHandlers], the [innerHTML] interceptor, the mutation observer
      and [cleanup] (819-846, 1022-1346, 1486-1527), and the step
      relation [step] that interleaves them.  The handler reaches the
      settings, the extractor and the DOM through the class
      [TemplateHost]; its theorems hold for every instance.
    - [Settings] (Module [Settings]): [utils.getCharAvatar],
      [TemplateSettings.getCharTemplate] with its cache, [getCurrentChar]
      and [saveCurrentChar] split around its [await] (53-101);
      [settings_host] builds the handler's interface from them, and
      [character_status] is the status line [updateStatus] writes
      (1347-1366).
    - [Json] (Module [Json]): [JSON.parse] as a recursive descent on
      the grammar of ECMA-404 with fuel, [parseJsonDirect] and
      [parsePartialJsonDirect] (224-403): the line loop of the partial
      parser with its local variables as a record [pstate], one function
      per branch of the loop body, and the repairs after the loop.
    - [JsonText] (Module [JsonText]): the text [JSON.stringify(v, null,
      2)] prints, read back by [JSON.parse]: the number, string,
      whitespace and list lemmas of the parser on printed text, and the
      well-formedness of what [JSON.parse] returns (distinct keys at
      every depth, [json_wf]).
    - [Extract] (Module [Extract]): [extractVars] and its seven
      strategies (115-222), [getRegex], [isJsonFormat] and
      [isYamlFormat] (781-795).  The [exec] loop of a global regular
      expression is written as the code runs it; the four fixed
      expressions of the source are leftmost matchers written out, and a
      custom pattern is an abstract engine.

    - [Bridge] (Module [Bridge]): the documents written into iframes,
      [IframeManager.writeContentToIframe] (848-873) and, in
      src/index.js, [prepareHtmlContent] (525-546) and
      [shouldRenderContent] (352-356), as string functions of the
      content and of the script text.
    - [LiveUpdate] (Module [LiveUpdate]): the live update of a
      template iframe: the [<bdi data-xiaobaix-var>] elements that the
      HTML parse of [replaceVars]' output (812) makes ([tagged_of], a
      tokenizer of the HTML syntax, data, tags, attributes, comments,
      raw-text elements, that answers [None] for what it does not
      model), the bridge script's [updateTemplateVariables] (887-909)
      with the CSS string of its selector scanned as CSS does
      ([selector_of]: a line break gives a bad string and a
      [SyntaxError]) and [textContent] written, and
      [IframeManager.updateVariables] (998-1019) with its wait for
      [load].  A name that is not plain (a quote, a backslash, a
      control character) selects through a section parameter [exotic].
    - [FrameWait] (Module [FrameWait]): [IframeManager.waitForIframe]
      (959-996) and [sendUpdate] (942-957): the state of the promise
      (its result, the observer, the [load] listener, the timer, the
      iframe it sees) and a step relation [wstep] whose steps are a
      change of the message's DOM (the observer's callback), the
      iframe's [load] event and a millisecond of the clock.
    - [Channel] (Module [Channel]): the command channel of src/index.js:
      [executeSlashCommand] (470-499), [handleIframeMessage] (501-523)
      and the listener of the iframe's [STscript] (393-420), with a
      step relation [cstep] over the host's pending calls, the messages
      in flight, the iframes' calls and the executed commands.
    - [LinkGuard] (Module [LinkGuard]): [setupSecurity] (444-453), the
      click listener of [createIframeApi]'s script, on the path of a
      click ([path_node]: HTML [<a>], SVG [<a>], [<area>] or another
      element, with the content's own [preventDefault] and
      [stopPropagation]), with the browser's activation of the nearest
      link as the default action it may prevent.
    - [Shell] (Module [Shell]): the extension's switch and settings
      panel in src/index.js: the settings object (17-33), [savedSettings],
      the checkboxes as a [gmap] from element id to [checked], the
      registries of listeners, timers and module cleanups;
      [saveCurrentSettings], [restoreSettings], [toggleAllFeatures],
      [cleanupAllResources], [setupEventListeners] (292-336, 583-692,
      897-991) and every change handler of [setupSettings] (737-875),
      composed into [run_ui] over a list of panel events.  The user's
      view of the switch is the abstract machine [SwitchSpec].
    - [Page] (Module [Page]): the code blocks of the chat: a message's
      [.mes_text] as its list of child nodes, [processCodeBlocks]
      (694-714), [renderHtmlInIframe] (548-581) through
      [Bridge.prepareHtmlContent], [processExistingMessages] (716-726),
      and a [page] that joins the [Shell] state to the messages, so that
      switching off removes the iframes (327-328, 679-682).
    - [Update] (Module [UpdateCheck]): the update check of src/index.js
      (44-55, 96-277, 1017-1021): [performExtensionUpdateCheck] with its
      flag, the header notice with its one-second retry, the notice's
      click and [updateLittleWhiteBoxExtension]'s outcome, and a step
      relation [ustep] over the page's events and the settling of the
      two requests.
    - [Editor] (Module [Editor]): the form of the template editor's
      popup in src/template-editor.js ([openEditor], 1378-1436): the
      fields it fills, its export ([JSON.stringify] with an indentation
      of two), its import ([JSON.parse], [parseInt] and the fields'
      defaults) and the settings its save button stores.  [parseInt]
      returns a double ([js_parseInt]: [NaN], an infinity or an integer
      rounded to 53 bits) and [JSON.stringify] prints it with
      [Number::toString]'s shortest digits ([number_json]).
    - [Lifecycle] (Module [Lifecycle]): the template module's life on
      the page: [initTemplateEditor] and every listener it registers,
      [interceptor.setup], [setupObserver] and [cleanup] (1224-1234,
      1486-1595), [importGlobal], [exportGlobal] and
      [checkEmbeddedTemplate] (1444-1484), the checkbox's [change]
      listener of index.js (840-849) and the part of
      [toggleAllFeatures] that reaches the module.  An [lworld] joins a
      [Handler] world to the settings object, the switch, the checkbox,
      the patched setter, the observer, the number of registrations of
      each listener and the module's timers; [lstep] interleaves all of
      them, and the handler's interface depends on the settings object,
      so an import that changes [enabled] reaches every guard.
    - [Startup] (Module [Startup]): the start-up of src/index.js (the
      [jQuery] ready handler, 1000-1068) with [addGlobalTimer] and
      [registerModuleCleanup] (278-291), the message and [CHAT_CHANGED]
      handlers of [setupEventListeners] (902-989) and the timers they
      set.  A [boot] joins a [Page] to the host's pending timers with
      their ids; [bstep] fires them in any order and interleaves them
      with host events, chat switches, messages added without an event
      and the switch, which clears [globalTimers] when it goes off.

    ** What is proved

    - Termination and totality: [Yaml.parseYamlDirect_terminates],
      [Render.tokenize_roundtrip], [Extract.extractVars_total_default];
      and non-termination where the code loops:
      [Extract.extractVars_empty_match_never_returns].
    - Functional behaviour of each operation on its branches:
      [Handler.process_renders_inline], [process_wraps_document],
      [process_clears_outside_window], [process_skip_first],
      [reapplyAll_resets], [process_ignores_role],
      [Render.replaceVars_placeholder], [Extract.extractVars_single_tag],
      [Yaml.parseMultilineString_block],
      [State.updateHistory_keeps_last_five], the settings lookups of
      [Settings] and the round trip [saveCurrentChar_then_lookup].
    - The version request is made at most once however often
      [APP_READY] fires ([Update.version_fetched_at_most_once], by rule
      induction over [ustep]).
    - Round trip: a form exported and imported again gives back every
      field, with the pattern in its stored form and any positive
      message count below 2^53 ([Editor.export_import_roundtrip],
      through [JSON.parse] on the pretty-printed text, [parseInt] and
      [Number::toString]; a larger count comes back rounded,
      [Editor.count_value_rounds]); the settings file [exportGlobal]
      downloads, read back by [importGlobal] on any page, gives every
      exported property its exported value, keeps the page's other
      properties and sets the checkbox from [enabled]
      ([Lifecycle.export_import_global_roundtrip]), through
      [JsonText.json_parse_pretty]: [JSON.parse] reads back what
      [JSON.stringify(v, null, 2)] prints for every value whose keys
      are distinct and not array indices and whose numbers print as they
      parse (a general round trip by induction on the value, with the
      rest of the text as a continuation).
    - An invariant of the module's hooks
      ([Lifecycle.module_hooks_invariant], by rule induction over
      [lstep]): the message observer is connected only while the
      [innerHTML] setter is patched, and nothing of the module runs
      before [initTemplateEditor].
    - An invariant of every reachable world ([Handler.reachable_handler_inv]):
      histories hold at most five values, and the streaming flags agree
      with the running interval; each operation is shown to keep it
      ([tame_process], [tame_reapplyAll], ...).
    - Protocol: every [STscript] call of a reachable world is pending,
      timed out, or settled with its own command's outcome
      ([Channel.channel_replies_correlated], by rule induction over
      [cstep] with the invariant [channel_inv]); a call can always
      complete ([Channel.call_settles]).
    - Liveness of the wait for an iframe: when [waitForIframe]'s first
      check finds no iframe, every pending state it reaches has its
      timer at most 1000 ms away and is settled with [null] once it
      fires ([FrameWait.wait_settles_by_timeout], an invariant over
      [wstep] with an explicit bound on the remaining steps).
    - Refinement of a re-render by a live update: for a template whose
      placeholders the HTML parse makes elements holding plain text,
      the update [process] schedules in a template iframe writes every
      tagged element as a fresh [replaceVars] would, when every name
      spells itself as a CSS string
      ([LiveUpdate.live_update_refines_render]).
    - The link guard: in a code-block iframe, a click replaces the
      iframe's, the parent's or the top document with an [http] URL
      only round the guard: a stopped propagation, an [<area>] or an
      [<a>] without [href] nearer than the followed link, or an SVG
      [<a>], on which the listener throws
      ([LinkGuard.guarded_click_http_in_place_bypass]).
    - Refinement of a lookup: on an unchanged document
      [state.getElement] returns what [querySelector] returns, from any
      cache that agrees with the document
      ([DomCache.getElement_refines_query]).
    - Refinement: the settings panel implements [SwitchSpec] for the six
      modules [restoreSettings] knows, on every sequence of panel events
      ([Shell.settings_panel_refines_switch], by a simulation relation
      [refines] kept by each handler).
    - Composition: the pass over code blocks never renders a block twice
      ([Page.processCodeBlocks_idempotent]); after the switch goes off
      and on every code-block iframe of the chat is rebuilt without a
      sandbox ([Page.off_on_code_blocks_unsandboxed]).
    - Equivalence: [Yaml.parsePartialYamlDirect_equiv]; the line loop of
      [parsePartialJsonDirect] on a flat document is a fold of its
      members ([Json.parsePartialJsonDirect_flat]).
    - Behaviours that disagree with the specification or the intent of
      the code, each proved on every input of its shape and exercised by
      a witness: lost block sequences, negative numbers read as lists,
      a dropped first character, unescaped values that become documents,
      object histories that always grow, a dropped first-message render,
      histories that survive a conversation switch, a streaming check
      that is not restarted, stale or racing template caches, a
      [TypeError] and a non-terminating loop in [extractVars], a
      complete tag pair whose closing tag stays in the value
      ([Extract.extractVars_xml_pair_keeps_close_tag]), a
      one-line truncated JSON object that loses every member
      ([Json.parseJsonDirect_single_line]) and a sibling read into a
      nested object ([Json.parseJsonDirect_nested_sibling_absorbed]),
      slash commands run for any window that posts a [runCommand]
      message ([Channel.foreign_window_runs_command]), an empty command
      that resolves instead of throwing, and a code-block document
      without [</head>] that gets no API script
      ([Bridge.prepareHtmlContent_no_head]), and a switch that, turned
      off and on, leaves code-block iframes without their sandbox while
      the panel shows it on, and the immersive and wallpaper modules off
      ([Shell.enabled_off_on_leaves_sandbox_off]), and a message with two
      renderable code blocks that shows only the last
      ([Page.processCodeBlocks_second_block_removes_first]), a header
      retry that never ends while the header is missing
      ([Update.header_retry_never_ends]), and an update notice that
      starts a second update on a second click
      ([Update.update_notice_double_click]), listeners that pile up
      each time the template checkbox is turned off and on
      ([Lifecycle.template_toggle_duplicates_listeners]), an import
      that enables the templates without their interceptor
      ([Lifecycle.import_enables_without_interceptor]) and one that
      unchecks the box while they stay enabled
      ([Lifecycle.import_without_enabled_unchecks]), a five-second
      pass over the chat that an off-and-on cycle removes for good
      ([Startup.periodic_scan_lost_after_off], by an invariant over
      [bstep]: every timer set through [addGlobalTimer] is in
      [globalTimers]), message events that never re-render the first
      message ([Startup.message_event_skips_first]), a status line
      that says no template is set while the binding's template renders
      ([Settings.status_disagrees_with_render]), a live update that
      stops at the first variable name with a line break
      ([LiveUpdate.live_update_newline_aborts]), a wait for an iframe
      that never ends when the first check finds it loading and its
      [load] never comes ([FrameWait.wait_unbounded_while_loading]), a
      cached iframe returned for a message after the message ids shift
      ([DomCache.getElement_stale]) and a
      [globalTimers] that grows with every chat switch
      ([Startup.global_timers_grow]).

    ** Fuel and bounds

    [yaml_fuel] is one more than the number of lines: every iteration of
    the loops consumes a line, and [parseYamlDirect_terminates] shows the
    result is reached and does not change with more fuel.  [tokenize]
    uses one more than the template's length.  The [exec] loops of
    [extractVars] run with one fuel; one more than the text's length is
    enough for the four fixed expressions, whose matches are never empty
    ([exec_all_enough_fuel]); for a custom expression with an empty match
    no fuel is enough, as in the browser.  [JSON.parse] runs with one
    more than twice the text's length ([json_fuel]): an element list
    calls the value parser before consuming a character, so a unit of
    fuel per character is not enough; [Json.json_enough_fuel] shows the
    bound is never exhausted and [Json.json_more_fuel] that more fuel
    gives the same result.  [recentMessageCount] is an
    integer ([Z]) that holds any double [parseInt] returns; numbers of
    2^1024 or more become an infinity, as in the engine.
    The clock of [FrameWait] counts milliseconds; [wait_budget] is
    [maxAttempts * delay] with the defaults (1000), and a pending wait
    is settled after at most that many clock steps plus one.

    ** Not modelled

    [Extract] takes [parseJsonDirect] as a parameter of its section;
    [JSON.parse] reads the ASCII strings of the model, so a [\u] escape
    above U+00FF is read as a failure.  In [Channel], the extension's
    own non-ASCII messages and the engine's [TypeError] texts are the
    fields of the class [ChannelTexts]; the iframes' [STscript] of
    [getInlineScript] (template iframes) is not modelled beside the one
    of [createIframeApi].  The rest of the iframe bridge (the rest of
    [getInlineScript]'s script, which installs no listener for the
    [VARIABLE_UPDATE] message of [sendUpdate]; [setupAutoResize] and
    the [getElementById] wrapper of [createIframeApi];
    [renderHtmlInIframe]'s DOM insertion); in [FrameWait], an iframe
    found is loaded or not, and the [contentWindow] checks are part of
    that test),
    the menu tabs ([setupMenuTabs] acts on the tabs and sections of
    settings.html, which is not in the repository), the style sheet and the statistics work of the
    start-up timers, [getExtensionType] (never called), the header search
    over selectors (a boolean in [Update]) and the DOM removals of the
    extension shell, the editor's popup, the file dialog, [FileReader]
    and [download] of [importGlobal] and [exportGlobal] are DOM and
    host I/O; the
    init and cleanup functions of the other modules (statistics,
    tasks, wallpaper, immersive mode, preview, character updater) are
    not in the repository, and persistence ([saveSettingsDebounced]) is
    the host's; the scripts a template may hold run in the iframe and
    are not modelled (the live-update theorems speak of the elements
    [replaceVars] tagged, as the update finds them); the regular-expression engine
    behind a custom pattern is abstract.  Strings are ASCII: the
    non-ASCII members of [\s] and of [trim] are outside the model.
*)

From Stdlib Require Export Ascii ZArith Lia.
From Stdlib Require String DecimalString DecimalN.
From stdpp Require Export base list strings.

(** ** JavaScript strings *)

(** A JavaScript string is modelled as the list of its characters.
    Only ASCII characters are represented: the source never inspects a
    character outside ASCII except through [trim] and [\s], whose
    non-ASCII members (U+00A0, U+FEFF, ...) are outside the model. *)
Abbreviation jstr := (list ascii).

Definition lit (s : String.string) : jstr := String.list_ascii_of_string s.

Declare Scope jstr_scope.
Delimit Scope jstr_scope with js.
Notation "j[ s ]" := (lit s%string) (format "j[ s ]") : jstr_scope.
Open Scope jstr_scope.

Definition code (c : ascii) : nat := nat_of_ascii c.

(** [\s] and the set removed by [String.prototype.trim], on ASCII:
    tab, line feed, vertical tab, form feed, carriage return, space. *)
Definition is_ws (c : ascii) : bool :=
  let n := code c in ((9 <=? n) && (n <=? 13)) || (n =? 32).

(** [\d] *)
Definition is_digit (c : ascii) : bool :=
  let n := code c in (48 <=? n) && (n <=? 57).

(** [[a-zA-Z_]] *)
Definition is_ident_start (c : ascii) : bool :=
  let n := code c in
  ((65 <=? n) && (n <=? 90)) || ((97 <=? n) && (n <=? 122)) || (n =? 95).

(** [\w] = [[a-zA-Z0-9_]] *)
Definition is_word (c : ascii) : bool := is_ident_start c || is_digit c.

(** [String.prototype.trimStart] *)
Fixpoint trim_start (s : jstr) : jstr :=
  match s with
  | [] => []
  | c :: s' => if is_ws c then trim_start s' else s
  end.

(** [String.prototype.trimEnd] *)
Definition trim_end (s : jstr) : jstr := rev (trim_start (rev s)).

(** [String.prototype.trim] *)
Definition trim (s : jstr) : jstr := trim_end (trim_start s).

(** [line.length - line.trimStart().length]: the indentation of a line. *)
Definition indent_of (line : jstr) : nat := length line - length (trim_start line).

(** [s.startsWith(p)] *)
Fixpoint starts_with (p s : jstr) : bool :=
  match p, s with
  | [], _ => true
  | c :: p', d :: s' => bool_decide (c = d) && starts_with p' s'
  | _ :: _, [] => false
  end.

Definition starts_with_char (c : ascii) (s : jstr) : bool :=
  match s with d :: _ => bool_decide (c = d) | [] => false end.

Definition ends_with_char (c : ascii) (s : jstr) : bool :=
  starts_with_char c (rev s).

(** [s.indexOf(c)] for a one-character needle; [None] stands for [-1]. *)
Fixpoint index_of (c : ascii) (s : jstr) : option nat :=
  match s with
  | [] => None
  | d :: s' => if bool_decide (c = d) then Some 0 else S <$> index_of c s'
  end.

(** [s.substring(a)] and [s.substring(a, b)]: arguments are clamped to
    the length of the string and swapped when [a > b]. *)
Definition substring_from (a : nat) (s : jstr) : jstr := drop a s.

Definition substring (a b : nat) (s : jstr) : jstr :=
  take (Nat.max a b - Nat.min a b) (drop (Nat.min a b) s).

(** [s.split(c)] for a one-character separator: never empty. *)
Fixpoint split_on (c : ascii) (s : jstr) : list jstr :=
  match s with
  | [] => [[]]
  | d :: s' =>
      if bool_decide (c = d) then [] :: split_on c s'
      else match split_on c s' with
           | w :: ws => (d :: w) :: ws
           | [] => [[d]]
           end
  end.

(** [Array.prototype.join(sep)] on strings. *)
Fixpoint join (sep : jstr) (l : list jstr) : jstr :=
  match l with
  | [] => []
  | [w] => w
  | w :: ws => w ++ sep ++ join sep ws
  end.

Definition nl : ascii := Ascii.ascii_of_nat 10.

(** [s.split('\n')] *)
Definition lines_of (s : jstr) : list jstr := split_on nl s.

(** ** Decimal digits *)

Fixpoint uint_to_jstr (u : Decimal.uint) : jstr :=
  match u with
  | Decimal.Nil => []
  | Decimal.D0 u => "0"%char :: uint_to_jstr u
  | Decimal.D1 u => "1"%char :: uint_to_jstr u
  | Decimal.D2 u => "2"%char :: uint_to_jstr u
  | Decimal.D3 u => "3"%char :: uint_to_jstr u
  | Decimal.D4 u => "4"%char :: uint_to_jstr u
  | Decimal.D5 u => "5"%char :: uint_to_jstr u
  | Decimal.D6 u => "6"%char :: uint_to_jstr u
  | Decimal.D7 u => "7"%char :: uint_to_jstr u
  | Decimal.D8 u => "8"%char :: uint_to_jstr u
  | Decimal.D9 u => "9"%char :: uint_to_jstr u
  end.

(** Digits that are not [0-9] are read as [0]; callers only pass strings
    that passed [is_digit]. *)
Fixpoint jstr_to_uint (s : jstr) : Decimal.uint :=
  match s with
  | [] => Decimal.Nil
  | c :: s' =>
      let u := jstr_to_uint s' in
      match code c - 48 with
      | 1 => Decimal.D1 u | 2 => Decimal.D2 u | 3 => Decimal.D3 u
      | 4 => Decimal.D4 u | 5 => Decimal.D5 u | 6 => Decimal.D6 u
      | 7 => Decimal.D7 u | 8 => Decimal.D8 u | 9 => Decimal.D9 u
      | _ => Decimal.D0 u
      end
  end.

(** The shortest decimal spelling of a natural number. *)
Definition N_to_jstr (n : N) : jstr := uint_to_jstr (N.to_uint n).

(** The value of a string of decimal digits (leading zeros allowed). *)
Definition digits_value (s : jstr) : N := N.of_uint (jstr_to_uint s).

Definition all_digits (s : jstr) : bool := forallb is_digit s.

(** ** Hint databases *)

Create HintDb jstr discriminated.
Create Rewrite HintDb jstr_rw.

(** A decidable proposition about closed data, settled by evaluating its
    decision procedure. *)
Ltac decide_closed := refine (bool_decide_unpack _ _); vm_compute; exact I.

(** ** Lemmas on the string builtins *)

Lemma trim_start_app_ws (s : jstr) :
  Forall (fun c => is_ws c = false) (take 1 (trim_start s)).
Proof.
  induction s as [|c s IH]; simpl; [constructor|].
  destruct (is_ws c) eqn:E; [exact IH|]. simpl. constructor; [exact E|constructor].
Qed.

Lemma trim_start_idem (s : jstr) : trim_start (trim_start s) = trim_start s.
Proof.
  induction s as [|c s IH]; simpl; [done|].
  destruct (is_ws c) eqn:E; [exact IH|]. simpl. by rewrite E.
Qed.

Lemma trim_start_suffix (s : jstr) : exists p, s = p ++ trim_start s /\ Forall (fun c => is_ws c = true) p.
Proof.
  induction s as [|c s [p [Hp Hw]]]; simpl.
  - exists []. split; [done|constructor].
  - destruct (is_ws c) eqn:E.
    + exists (c :: p). simpl. split; [by rewrite <- Hp|by constructor].
    + exists []. split; [done|constructor].
Qed.

Lemma length_trim_start_le (s : jstr) : length (trim_start s) <= length s.
Proof.
  destruct (trim_start_suffix s) as [p [Hp _]].
  apply (f_equal length) in Hp. rewrite length_app in Hp. lia.
Qed.

Lemma trim_start_all_ws (s : jstr) :
  Forall (fun c => is_ws c = true) s -> trim_start s = [].
Proof. induction 1 as [|c s Hc _ IH]; simpl; [done|by rewrite Hc]. Qed.

Lemma trim_start_app (p s : jstr) :
  Forall (fun c => is_ws c = true) p -> trim_start (p ++ s) = trim_start s.
Proof. induction 1 as [|c p Hc _ IH]; simpl; [done|by rewrite Hc]. Qed.

Lemma trim_start_snoc_nonempty (l : jstr) (c : ascii) :
  is_ws c = false -> trim_start (l ++ [c]) <> [].
Proof.
  intros Hc. induction l as [|d l IH]; simpl; [by rewrite Hc|].
  by destruct (is_ws d).
Qed.

Lemma trim_nil_iff (s : jstr) : trim s = [] <-> trim_start s = [].
Proof.
  unfold trim, trim_end. split; [|by intros ->].
  pose proof (trim_start_app_ws s) as Hw.
  destruct (trim_start s) as [|c t]; [done|]. intros H.
  simpl in Hw. apply Forall_cons_1 in Hw as [Hc _].
  apply (f_equal (@rev ascii)) in H. rewrite rev_involutive in H. simpl in H.
  by apply (trim_start_snoc_nonempty (rev t)) in Hc.
Qed.

Lemma split_on_nonempty (c : ascii) (s : jstr) : split_on c s <> [].
Proof.
  induction s as [|d s IH]; simpl; [done|].
  case_bool_decide; [done|]. by destruct (split_on c s).
Qed.

(** [s.split(c).join(c) === s]. *)
Lemma join_split_on (c : ascii) (s : jstr) : join [c] (split_on c s) = s.
Proof.
  induction s as [|d s IH]; simpl; [done|].
  case_bool_decide as Hcd.
  - subst d. destruct (split_on c s) as [|w ws] eqn:E; [by apply split_on_nonempty in E|].
    destruct ws; simpl in *; by rewrite IH.
  - destruct (split_on c s) as [|w ws] eqn:E; [by apply split_on_nonempty in E|].
    destruct ws; simpl in *; by rewrite IH.
Qed.

(** No piece of a split contains the separator. *)
Lemma split_on_no_sep (c : ascii) (s w : jstr) : w ∈ split_on c s -> c ∉ w.
Proof.
  revert w. induction s as [|d s IH]; intros w Hw; simpl in Hw.
  - apply list_elem_of_singleton in Hw. subst. apply not_elem_of_nil.
  - case_bool_decide as Hcd.
    + apply elem_of_cons in Hw as [->|Hw]; [apply not_elem_of_nil|by apply IH].
    + destruct (split_on c s) as [|w' ws] eqn:E; [by apply split_on_nonempty in E|].
      apply elem_of_cons in Hw as [->|Hw].
      * intros Hin. apply elem_of_cons in Hin as [->|Hin]; [done|].
        apply (IH w'); [left|done].
      * apply IH. by right.
Qed.

Lemma uint_to_jstr_inv (u : Decimal.uint) : jstr_to_uint (uint_to_jstr u) = u.
Proof. induction u; simpl; by rewrite ?IHu. Qed.

(** Reading back the decimal spelling of [n] gives [n]. *)
Lemma digits_value_N_to_jstr (n : N) : digits_value (N_to_jstr n) = n.
Proof.
  unfold digits_value, N_to_jstr. rewrite uint_to_jstr_inv.
  apply DecimalN.Unsigned.of_to.
Qed.

Lemma uint_to_jstr_digits (u : Decimal.uint) : all_digits (uint_to_jstr u) = true.
Proof. induction u; simpl; by rewrite ?IHu. Qed.

Lemma N_to_jstr_digits (n : N) : all_digits (N_to_jstr n) = true.
Proof. apply uint_to_jstr_digits. Qed.

#[export] Hint Resolve split_on_nonempty N_to_jstr_digits length_trim_start_le : jstr.
#[export] Hint Rewrite trim_start_idem join_split_on digits_value_N_to_jstr : jstr_rw.

(** ** Lemmas for strings of a known shape *)

Definition spaces (n : nat) : jstr := repeat " "%char n.

(** An identifier in the sense of [/^[a-zA-Z_][a-zA-Z0-9_]*$/]. *)
Definition is_identifier (k : jstr) : bool :=
  match k with
  | [] => false
  | c :: w => is_ident_start c && forallb is_word w
  end.

Lemma trim_start_nonws (c : ascii) (s : jstr) : is_ws c = false -> trim_start (c :: s) = c :: s.
Proof. intros H. simpl. by rewrite H. Qed.

Lemma trim_start_spaces (n : nat) (s : jstr) : trim_start (spaces n ++ s) = trim_start s.
Proof. induction n; simpl; [done|exact IHn]. Qed.

Lemma indent_of_spaces (n : nat) (c : ascii) (s : jstr) :
  is_ws c = false -> indent_of (spaces n ++ c :: s) = n.
Proof.
  intros H. unfold indent_of. rewrite trim_start_spaces, trim_start_nonws by done.
  rewrite length_app. unfold spaces. rewrite repeat_length. lia.
Qed.

(** A string whose first and last characters are not blank is its own trim. *)
Lemma trim_fixed (c : ascii) (s : jstr) (d : ascii) :
  is_ws c = false -> is_ws d = false -> trim (c :: s ++ [d]) = c :: s ++ [d].
Proof.
  intros Hc Hd. unfold trim, trim_end. rewrite trim_start_nonws by done.
  rewrite app_comm_cons, rev_app_distr. simpl. rewrite Hd. simpl.
  rewrite rev_app_distr, rev_involutive. done.
Qed.

Lemma trim_single (c : ascii) : is_ws c = false -> trim [c] = [c].
Proof. intros H. unfold trim, trim_end. simpl. rewrite H. simpl. by rewrite H. Qed.

Lemma trim_spaces_app (n : nat) (s : jstr) : trim (spaces n ++ s) = trim s.
Proof. unfold trim. by rewrite trim_start_spaces. Qed.

Lemma index_of_app_notin (c : ascii) (p s : jstr) :
  c ∉ p -> index_of c (p ++ s) = Nat.add (length p) <$> index_of c s.
Proof.
  induction p as [|d p IH]; intros Hn; simpl.
  - by destruct (index_of c s).
  - rewrite bool_decide_false by (intros ->; apply Hn; left).
    rewrite IH by (intros Hin; apply Hn; by right). by destruct (index_of c s).
Qed.

Lemma index_of_head (c : ascii) (s : jstr) : index_of c (c :: s) = Some 0.
Proof. simpl. by rewrite bool_decide_true. Qed.

Lemma substring_0 (n : nat) (s : jstr) : substring 0 n s = take n s.
Proof. unfold substring. rewrite Nat.max_r, Nat.min_l by lia. by rewrite Nat.sub_0_r. Qed.

Lemma split_on_join (c : ascii) (ls : list jstr) :
  ls <> [] -> Forall (fun l => c ∉ l) ls -> split_on c (join [c] ls) = ls.
Proof.
  induction ls as [|w ls IH]; intros Hne Hall; [done|].
  apply Forall_cons_1 in Hall as [Hw Hall].
  assert (Hw' : forall t, split_on c (w ++ t) = match split_on c t with
                  | v :: vs => (w ++ v) :: vs | [] => [w] end).
  { induction w as [|d w IHw]; intros t; simpl.
    - destruct (split_on c t) eqn:E; [by apply split_on_nonempty in E|done].
    - rewrite bool_decide_false by (intros ->; apply Hw; left).
      rewrite IHw by (intros Hin; apply Hw; by right).
      destruct (split_on c t); done. }
  destruct ls as [|w' ls'].
  - simpl. specialize (Hw' []). simpl in Hw'. by rewrite app_nil_r in Hw'.
  - change (join [c] (w :: w' :: ls')) with (w ++ [c] ++ join [c] (w' :: ls')).
    rewrite Hw'. cbn [app split_on]. rewrite bool_decide_true by done. rewrite IH by done. by rewrite app_nil_r.
Qed.

Lemma lines_of_join (ls : list jstr) :
  ls <> [] -> Forall (fun l => nl ∉ l) ls -> lines_of (join [nl] ls) = ls.
Proof. apply split_on_join. Qed.

Lemma join_singleton (sep w : jstr) : join sep [w] = w.
Proof. done. Qed.

(** [lines_of] of a text without a line feed is the text. *)
Lemma lines_of_single (s : jstr) : nl ∉ s -> lines_of s = [s].
Proof.
  intros Hnl. unfold lines_of. rewrite <- (join_singleton [nl] s) at 1.
  apply split_on_join; [done|]. by repeat constructor.
Qed.

(** Facts on character classes, checked on all 256 characters. *)
Lemma is_word_not_ws (c : ascii) : is_word c = true -> is_ws c = false.
Proof. destruct c as [[] [] [] [] [] [] [] []]; vm_compute; congruence. Qed.

Lemma is_ident_start_word (c : ascii) : is_ident_start c = true -> is_word c = true.
Proof. unfold is_word. intros ->. done. Qed.

Lemma is_word_not_special (c : ascii) :
  is_word c = true -> c <> ":"%char /\ c <> nl /\ c <> "#"%char /\ c <> "-"%char /\ c <> " "%char.
Proof. destruct c as [[] [] [] [] [] [] [] []]; vm_compute; intuition congruence. Qed.

Lemma is_word_not_markup (c : ascii) :
  is_word c = true -> c <> "<"%char /\ c <> ">"%char /\ c <> "["%char /\ c <> "`"%char /\ c <> "{"%char.
Proof. destruct c as [[] [] [] [] [] [] [] []]; vm_compute; intuition congruence. Qed.

Lemma is_ident_start_not_digit (c : ascii) : is_ident_start c = true -> is_digit c = false.
Proof. destruct c as [[] [] [] [] [] [] [] []]; vm_compute; congruence. Qed.

Lemma is_digit_word (c : ascii) : is_digit c = true -> is_word c = true.
Proof. unfold is_word. intros ->. apply orb_true_r. Qed.

Lemma identifier_chars (k : jstr) :
  is_identifier k = true -> Forall (fun c => is_word c = true) k.
Proof.
  destruct k as [|c w]; simpl; [done|]. intros [Hc Hw]%andb_prop.
  constructor; [by apply is_ident_start_word|]. apply Forall_forall.
  intros x Hx%list_elem_of_In. by apply (proj1 (forallb_forall _ _) Hw).
Qed.

Lemma word_chars_notin (k : jstr) (c : ascii) :
  Forall (fun c => is_word c = true) k -> is_word c = false -> c ∉ k.
Proof.
  intros Hall Hc Hin. rewrite Forall_forall in Hall.
  specialize (Hall c Hin). congruence.
Qed.

#[export] Hint Resolve is_word_not_ws is_ident_start_word is_digit_word identifier_chars : jstr.
#[export] Hint Rewrite trim_start_spaces trim_spaces_app substring_0 join_singleton : jstr_rw.

(** [s.includes(p)] *)
Fixpoint infixb (p s : jstr) : bool :=
  starts_with p s || match s with [] => false | _ :: s' => infixb p s' end.

Lemma starts_with_app (p s : jstr) : starts_with p (p ++ s) = true.
Proof. induction p as [|c p IH]; simpl; [done|]. rewrite bool_decide_true by done. exact IH. Qed.

Lemma starts_with_drop (p s : jstr) : starts_with p s = true -> p ++ drop (length p) s = s.
Proof.
  revert s. induction p as [|c p IH]; intros s H; [done|]. destruct s as [|d s]; [done|].
  simpl in H. apply andb_prop in H as [Hcd Hp]. apply bool_decide_eq_true in Hcd as ->.
  simpl. by rewrite IH.
Qed.

Lemma infixb_app_r (p l s : jstr) : infixb p s = true -> infixb p (l ++ s) = true.
Proof.
  intros H. induction l as [|c l IH]; simpl; [done|]. rewrite IH. apply orb_true_r.
Qed.

Lemma starts_with_app_r (p s r : jstr) : starts_with p s = true -> starts_with p (s ++ r) = true.
Proof.
  revert s. induction p as [|c p IH]; intros s H; [done|].
  destruct s as [|d s]; [done|]. simpl in *. apply andb_prop in H as [Hcd Hp].
  rewrite Hcd. by apply IH.
Qed.

Lemma infixb_app_l (p s r : jstr) : infixb p s = true -> infixb p (s ++ r) = true.
Proof.
  induction s as [|c s IH]; intros H.
  - destruct p; [destruct r; reflexivity|discriminate].
  - simpl in *. apply orb_true_iff in H as [H|H]; apply orb_true_iff.
    + left. by apply (starts_with_app_r p (c :: s) r).
    + right. by apply IH.
Qed.

(** ** Membership and idempotence of [trim] *)

Lemma elem_of_trim_start (x : ascii) (s : jstr) : x ∈ trim_start s -> x ∈ s.
Proof.
  intros Hx. destruct (trim_start_suffix s) as [p [Hp _]]. rewrite Hp.
  apply elem_of_app. by right.
Qed.

Lemma elem_of_rev (x : ascii) (s : jstr) : x ∈ rev s -> x ∈ s.
Proof. intros Hx%list_elem_of_In. apply list_elem_of_In. by apply in_rev. Qed.

Lemma elem_of_rev_2 (x : ascii) (s : jstr) : x ∈ s -> x ∈ rev s.
Proof. intros Hx%list_elem_of_In. apply list_elem_of_In. by apply in_rev; rewrite rev_involutive. Qed.

Lemma elem_of_trim (x : ascii) (s : jstr) : x ∈ trim s -> x ∈ s.
Proof.
  unfold trim, trim_end. intros Hx%elem_of_rev%elem_of_trim_start%elem_of_rev.
  by apply elem_of_trim_start.
Qed.

Lemma trim_start_snoc (l : jstr) (c : ascii) :
  is_ws c = false -> exists l', trim_start (l ++ [c]) = l' ++ [c].
Proof.
  intros Hc. induction l as [|d l [l' IH]]; simpl; [rewrite Hc; by exists []|].
  destruct (is_ws d); [by exists l'|by exists (d :: l)].
Qed.

(** [s.trim().trim() === s.trim()] *)
Lemma trim_idem (s : jstr) : trim (trim s) = trim s.
Proof.
  unfold trim. pose proof (trim_start_app_ws s) as Hw.
  destruct (trim_start s) as [|c t]; [done|]. simpl in Hw. apply Forall_cons_1 in Hw as [Hc _].
  unfold trim_end. cbn [rev]. destruct (trim_start_snoc (rev t) c Hc) as [l' E].
  rewrite E, rev_app_distr. cbn [rev app]. rewrite trim_start_nonws by done.
  cbn [rev]. by rewrite rev_involutive, <- E, trim_start_idem, E, rev_app_distr.
Qed.

#[export] Hint Resolve starts_with_app infixb_app_r infixb_app_l : jstr.

(** ** Listeners registered several times

    A listener registered [n] times runs [n] times: [Nat.iter n f].  A
    field that [f] leaves alone stays; a list that [f] extends by [l]
    grows by [n] copies of [l]. *)

Section Iter.
Context {A B : Type} (f : A -> A).

Lemma iter_keep (g : A -> B) (n : nat) (x : A) :
  (forall y, g (f y) = g y) -> g (Nat.iter n f x) = g x.
Proof. intros Hf. induction n as [|n IH]; [done|]. by rewrite Nat.iter_succ, Hf. Qed.

Lemma iter_extend (g : A -> list B) (l : list B) (n : nat) (x : A) :
  (forall y, g (f y) = g y ++ l) -> g (Nat.iter n f x) = g x ++ mjoin (repeat l n).
Proof.
  intros Hf. revert x. induction n as [|n IH]; intros x; [by rewrite app_nil_r|].
  by rewrite Nat.iter_succ_r, IH, Hf, <- app_assoc.
Qed.

Lemma iter_snoc (g : A -> list B) (b : B) (n : nat) (x : A) :
  (forall y, g (f y) = g y ++ [b]) -> g (Nat.iter n f x) = g x ++ repeat b n.
Proof.
  intros Hf. rewrite (iter_extend g [b]) by done. f_equal.
  induction n as [|n IH]; [done|]. simpl. by rewrite IH.
Qed.

End Iter.
