(* ===== verification/JsValue.v ===== *)
(** * JavaScript values produced and consumed by the template engine

    The parsers of src/template-editor.js build plain JavaScript data:
    strings, numbers (from [parseInt], [parseFloat], [JSON.parse]),
    arrays and objects, and [replaceVars] turns them back into text with
    [String(v)], [Array.prototype.join] and [JSON.stringify].  This file
    models those values ([jsval]) and the ECMAScript operations the
    source applies to them:
    - numbers as exact decimals [m * 10^e] with [Number::toString];
    - objects as association lists in property-creation order, with the
      ECMAScript own-key order (array indices first, ascending) used by
      [Object.keys], [Object.entries], [Object.assign], [JSON.stringify];
    - property access [v[k]], [Object.assign], strict equality [===].
    These are ECMAScript semantics, not code of the repository; the
    file's definitions are the vocabulary of the component files. *)

From S2P Require Import Prelude.

(** ** Numbers *)

(** A finite number [(-1)^neg * mant * 10^exp].  Every number the source
    creates is a decimal literal read by [parseInt], [parseFloat] or
    [JSON.parse]; it is kept exact, which agrees with IEEE-754 doubles
    for literals of at most 15 significant digits within the double
    range (see the header of [Prelude] for the bound). *)
Record jsnum := JsNum { num_neg : bool; num_mant : N; num_exp : Z }.

Definition num_of_N (n : N) : jsnum := JsNum false n 0.

Fixpoint drop_while (p : ascii -> bool) (s : jstr) : jstr :=
  match s with
  | [] => []
  | c :: s' => if p c then drop_while p s' else s
  end.

Definition is_zero_char (c : ascii) : bool := bool_decide (c = "0"%char).

(** The significant digits of a nonzero mantissa and the exponent [e]
    such that the value is [digits * 10^e], digits without trailing
    zeros. *)
Definition num_digits (n : jsnum) : jstr * Z :=
  let ds := N_to_jstr (num_mant n) in
  let r := drop_while is_zero_char (rev ds) in
  (rev r, (num_exp n + Z.of_nat (length ds - length r))%Z).

Definition zeros (k : nat) : jstr := repeat "0"%char k.

Definition Z_to_jstr (z : Z) : jstr := N_to_jstr (Z.to_N (Z.abs z)).

(** [Number::toString(x)] (ECMA-262 6.1.6.1.20) for a finite [x]. *)
Definition number_to_string (x : jsnum) : jstr :=
  if decide (num_mant x = 0%N) then j["0"] else
  let sign := if num_neg x then j["-"] else [] in
  let '(s, e) := num_digits x in
  let k := Z.of_nat (length s) in
  let n := (k + e)%Z in
  sign ++
  (if ((k <=? n) && (n <=? 21))%Z then s ++ zeros (Z.to_nat (n - k))
   else if ((0 <? n) && (n <=? 21))%Z then take (Z.to_nat n) s ++ j["."] ++ drop (Z.to_nat n) s
   else if ((-6 <? n) && (n <=? 0))%Z then j["0."] ++ zeros (Z.to_nat (- n)) ++ s
   else
     let ex := (n - 1)%Z in
     let esign := if (0 <=? ex)%Z then j["+"] else j["-"] in
     match s with
     | [d] => [d] ++ j["e"] ++ esign ++ Z_to_jstr ex
     | d :: rest => [d] ++ j["."] ++ rest ++ j["e"] ++ esign ++ Z_to_jstr ex
     | [] => j["0"]
     end).

(** The mathematical value, used for [===] on numbers ([0 === -0]). *)
Definition num_eqb (x y : jsnum) : bool :=
  if decide (num_mant x = 0%N) then bool_decide (num_mant y = 0%N)
  else negb (bool_decide (num_mant y = 0%N)) && eqb (num_neg x) (num_neg y)
       && bool_decide (num_digits x = num_digits y).

(** ** Values *)

#[warnings="-register-all"]
Inductive jsval :=
| JNull
| JBool (b : bool)
| JNum (n : jsnum)
| JStr (s : jstr)
| JArr (xs : list jsval)
| JObj (ps : list (jstr * jsval)).

(** Induction with hypotheses on the elements of arrays and objects. *)
Section jsval_ind.
Variable P : jsval -> Prop.
Hypothesis HNull : P JNull.
Hypothesis HBool : forall b, P (JBool b).
Hypothesis HNum : forall n, P (JNum n).
Hypothesis HStr : forall s, P (JStr s).
Hypothesis HArr : forall xs, Forall P xs -> P (JArr xs).
Hypothesis HObj : forall ps, Forall (fun kv => P kv.2) ps -> P (JObj ps).

Fixpoint jsval_ind' (v : jsval) : P v :=
    match v with
    | JNull => HNull
    | JBool b => HBool b
    | JNum n => HNum n
    | JStr s => HStr s
    | JArr xs => HArr xs
        ((fix go l : Forall P l :=
            match l with [] => Forall_nil_2 _ | x :: l' => Forall_cons_2 _ _ _ (jsval_ind' x) (go l') end) xs)
    | JObj ps => HObj ps
        ((fix go l : Forall (fun kv => P kv.2) l :=
            match l with [] => Forall_nil_2 _ | kv :: l' => Forall_cons_2 _ _ _ (jsval_ind' kv.2) (go l') end) ps)
    end.
End jsval_ind.

(** ** Property keys *)

(** A canonical array index: ["0"] or digits without a leading zero,
    at most [2^32 - 2]. *)
Definition is_array_index (k : jstr) : bool :=
  bool_decide (k <> []) && all_digits k
  && (bool_decide (k = j["0"]) || negb (starts_with_char "0"%char k))
  && (digits_value k <=? 4294967294)%N.

Fixpoint insert_by_index {A} (kv : jstr * A) (l : list (jstr * A)) : list (jstr * A) :=
  match l with
  | [] => [kv]
  | kv' :: l' =>
      if (digits_value kv.1 <=? digits_value kv'.1)%N then kv :: l
      else kv' :: insert_by_index kv l'
  end.

(** [OrdinaryOwnPropertyKeys]: integer indices ascending, then the other
    string keys in creation order. *)
Definition own_entries {A} (ps : list (jstr * A)) : list (jstr * A) :=
  foldr insert_by_index [] (filter (fun kv => is_array_index kv.1 = true) ps)
  ++ filter (fun kv => is_array_index kv.1 = false) ps.

Definition index_entries {A} (f : A -> jsval) (xs : list A) : list (jstr * jsval) :=
  imap (fun i x => (N_to_jstr (N.of_nat i), f x)) xs.

(** [Object.entries(v)] (and the keys of [Object.keys], the properties
    copied by [Object.assign]) for every value the source passes. *)
Definition enum_entries (v : jsval) : list (jstr * jsval) :=
  match v with
  | JObj ps => own_entries ps
  | JArr xs => index_entries id xs
  | JStr s => index_entries (fun c => JStr [c]) s
  | _ => []
  end.

(** [Object.keys(v).length] *)
Definition key_count (v : jsval) : nat := length (enum_entries v).

(** [o[k] = v] on an object: an existing key keeps its place. *)
Fixpoint obj_set (k : jstr) (v : jsval) (ps : list (jstr * jsval)) : list (jstr * jsval) :=
  match ps with
  | [] => [(k, v)]
  | (k', v') :: ps' => if decide (k = k') then (k, v) :: ps' else (k', v') :: obj_set k v ps'
  end.

Fixpoint obj_get (k : jstr) (ps : list (jstr * jsval)) : option jsval :=
  match ps with
  | [] => None
  | (k', v) :: ps' => if decide (k = k') then Some v else obj_get k ps'
  end.

(** [Object.assign(target, source)] with an object target. *)
Definition obj_assign (ps : list (jstr * jsval)) (src : jsval) : list (jstr * jsval) :=
  foldl (fun acc kv => obj_set kv.1 kv.2 acc) ps (enum_entries src).

(** [v[k]] for own properties; [None] is [undefined].  Properties
    inherited from the prototypes are outside the model. *)
Definition js_get (v : jsval) (k : jstr) : option jsval :=
  match v with
  | JObj ps => obj_get k ps
  | JArr xs =>
      if decide (k = j["length"]) then Some (JNum (num_of_N (N.of_nat (length xs))))
      else if is_array_index k then xs !! N.to_nat (digits_value k) else None
  | JStr s =>
      if decide (k = j["length"]) then Some (JNum (num_of_N (N.of_nat (length s))))
      else if is_array_index k then (fun c => JStr [c]) <$> s !! N.to_nat (digits_value k) else None
  | _ => None
  end.

(** [a === b] for the values the source compares.  Arrays and objects
    compare by reference; every array or object reaching a comparison in
    the source was freshly built by a parse, so two of them are never
    the same reference. *)
Definition strict_eqb (a b : jsval) : bool :=
  match a, b with
  | JNull, JNull => true
  | JBool x, JBool y => eqb x y
  | JNum x, JNum y => num_eqb x y
  | JStr x, JStr y => bool_decide (x = y)
  | _, _ => false
  end.

(** ** Conversions to strings *)

(** [String(v)], and [Array.prototype.join] (separator [","] by default,
    [null] elements as the empty string). *)
(** [if (value)]: the truthiness of a value. *)
Definition js_truthy (v : jsval) : bool :=
  match v with
  | JNull => false
  | JBool b => b
  | JNum n => negb (num_mant n =? 0)%N
  | JStr s => bool_decide (s <> [])
  | _ => true
  end.

Fixpoint to_js_string (v : jsval) : jstr :=
  match v with
  | JNull => j["null"]
  | JBool true => j["true"]
  | JBool false => j["false"]
  | JNum n => number_to_string n
  | JStr s => s
  | JArr xs => join j[","] (map (fun x => match x with JNull => [] | _ => to_js_string x end) xs)
  | JObj _ => j["[object Object]"]
  end.

Definition array_join (sep : jstr) (xs : list jsval) : jstr :=
  join sep (map (fun x => match x with JNull => [] | _ => to_js_string x end) xs).

Definition dq : ascii := ascii_of_nat 34.
Definition bslash : ascii := ascii_of_nat 92.

Definition hex_digit (n : nat) : ascii :=
  if n <? 10 then ascii_of_nat (48 + n) else ascii_of_nat (87 + n).

(** [QuoteJSONString] on ASCII characters. *)
Definition json_escape_char (c : ascii) : jstr :=
  match code c with
  | 8 => [bslash; "b"%char]
  | 9 => [bslash; "t"%char]
  | 10 => [bslash; "n"%char]
  | 12 => [bslash; "f"%char]
  | 13 => [bslash; "r"%char]
  | 34 => [bslash; dq]
  | 92 => [bslash; bslash]
  | n => if n <? 32 then [bslash; "u"%char; "0"%char; "0"%char; hex_digit (n / 16); hex_digit (n mod 16)]
         else [c]
  end.

Definition json_quote (s : jstr) : jstr := [dq] ++ mjoin (map json_escape_char s) ++ [dq].

(** [JSON.stringify(v)] without indentation. *)
Fixpoint json_stringify (v : jsval) : jstr :=
  match v with
  | JNull => j["null"]
  | JBool true => j["true"]
  | JBool false => j["false"]
  | JNum n => number_to_string n
  | JStr s => json_quote s
  | JArr xs => j["["] ++ join j[","] (map json_stringify xs) ++ j["]"]
  | JObj ps =>
      j["{"] ++ join j[","] (map (fun kv => json_quote kv.1 ++ j[":"] ++ kv.2)
                   (own_entries (map (fun kv => (kv.1, json_stringify kv.2)) ps))) ++ j["}"]
  end.

(** [JSON.stringify(value, null, 2)] below the indentation [ind]. *)
Fixpoint json_pretty (ind : jstr) (v : jsval) : jstr :=
  let ind' := ind ++ j["  "] in
  let sep := [","%char; nl] ++ ind' in
  match v with
  | JArr [] => j["[]"]
  | JArr xs => j["["] ++ [nl] ++ ind' ++ join sep (map (json_pretty ind') xs) ++ [nl] ++ ind ++ j["]"]
  | JObj [] => j["{}"]
  | JObj ps =>
      j["{"] ++ [nl] ++ ind' ++
      join sep (map (fun kv => json_quote kv.1 ++ j[": "] ++ kv.2)
                    (own_entries (map (fun kv => (kv.1, json_pretty ind' kv.2)) ps))) ++
      [nl] ++ ind ++ j["}"]
  | _ => json_stringify v
  end.

(** ** Lemmas *)

Lemma length_insert_by_index {A} (kv : jstr * A) (l : list (jstr * A)) :
  length (insert_by_index kv l) = S (length l).
Proof. induction l as [|kv' l IH]; simpl; [done|]. case_match; simpl; lia. Qed.

Lemma length_own_entries {A} (ps : list (jstr * A)) : length (own_entries ps) = length ps.
Proof.
  unfold own_entries. rewrite length_app.
  assert (Hf : forall l : list (jstr * A), length (foldr insert_by_index [] l) = length l).
  { induction l; simpl; [done|]. by rewrite length_insert_by_index, IHl. }
  rewrite Hf. induction ps as [|kv ps IH]; [done|].
  rewrite !filter_cons. repeat case_decide; simpl; destruct (is_array_index kv.1); simpl in *; try lia; congruence.
Qed.

(** [Object.keys(o).length] of an object is its number of properties. *)
Lemma key_count_obj (ps : list (jstr * jsval)) : key_count (JObj ps) = length ps.
Proof. apply length_own_entries. Qed.

Lemma obj_get_set_eq (k : jstr) (v : jsval) (ps : list (jstr * jsval)) :
  obj_get k (obj_set k v ps) = Some v.
Proof.
  induction ps as [|[k' v'] ps IH]; simpl; [by rewrite decide_True|].
  case_decide; simpl; [by rewrite decide_True|]. rewrite decide_False by done. exact IH.
Qed.

Lemma obj_get_set_ne (k k' : jstr) (v : jsval) (ps : list (jstr * jsval)) :
  k' <> k -> obj_get k' (obj_set k v ps) = obj_get k' ps.
Proof.
  intros Hne. induction ps as [|[k0 v0] ps IH]; simpl.
  - by rewrite decide_False.
  - case_decide; simpl; subst.
    + rewrite !decide_False by done. done.
    + case_decide; [done|exact IH].
Qed.

Lemma obj_set_nil (k : jstr) (v : jsval) : obj_set k v [] = [(k, v)].
Proof. done. Qed.

#[export] Hint Rewrite @length_own_entries key_count_obj obj_get_set_eq obj_set_nil : jstr_rw.

(** *** Lookup after [Object.assign] *)

Lemma obj_get_app (k : jstr) (l1 l2 : list (jstr * jsval)) :
  obj_get k (l1 ++ l2) = match obj_get k l1 with Some v => Some v | None => obj_get k l2 end.
Proof. induction l1 as [|[k' v'] l1 IH]; simpl; [done|]. by case_decide. Qed.

(** Assigning the properties [l] one after the other: the last one
    named [k] wins. *)
Lemma obj_get_foldl_set (k : jstr) (l acc : list (jstr * jsval)) :
  obj_get k (foldl (fun acc kv => obj_set kv.1 kv.2 acc) acc l) =
  match obj_get k (reverse l) with Some v => Some v | None => obj_get k acc end.
Proof.
  revert acc. induction l as [|[k' v'] l IH]; intros acc; [done|].
  rewrite reverse_cons, obj_get_app. simpl. rewrite IH.
  destruct (obj_get k (reverse l)); [done|]. simpl.
  case_decide; subst; [apply obj_get_set_eq|by apply obj_get_set_ne].
Qed.

Lemma obj_get_None (k : jstr) (l : list (jstr * jsval)) : obj_get k l = None <-> k ∉ l.*1.
Proof.
  induction l as [|[k' v'] l IH]; simpl; [split; [intros _; apply not_elem_of_nil|done]|].
  rewrite elem_of_cons. case_decide; [split; [done|]; intros Hn; by destruct Hn; left|].
  rewrite IH. naive_solver.
Qed.

Lemma obj_get_Some_NoDup (k : jstr) (v : jsval) (l : list (jstr * jsval)) :
  NoDup l.*1 -> obj_get k l = Some v <-> (k, v) ∈ l.
Proof.
  induction l as [|[k' v'] l IH]; simpl; intros Hnd.
  - split; [done|]. intros Hin. by apply elem_of_nil in Hin.
  - apply NoDup_cons in Hnd as [Hk' Hnd]. rewrite elem_of_cons, <- IH by done.
    case_decide; subst.
    + split; [intros [= ->]; by left|]. intros [[= ->]|Hin]; [done|].
      destruct Hk'. apply list_elem_of_fmap. eexists; split; [|apply IH; [done|exact Hin]]; done.
    + naive_solver.
Qed.

Lemma obj_get_Permutation (k : jstr) (l1 l2 : list (jstr * jsval)) :
  NoDup l1.*1 -> l1 ≡ₚ l2 -> obj_get k l1 = obj_get k l2.
Proof.
  intros Hnd Hp. assert (Hnd2 : NoDup l2.*1) by (by rewrite <- Hp).
  destruct (obj_get k l1) as [v|] eqn:E.
  - symmetry. apply obj_get_Some_NoDup; [done|]. rewrite <- Hp. by apply obj_get_Some_NoDup.
  - symmetry. apply obj_get_None. rewrite <- Hp. by apply obj_get_None.
Qed.

Lemma insert_by_index_Permutation {A} (kv : jstr * A) (l : list (jstr * A)) :
  insert_by_index kv l ≡ₚ kv :: l.
Proof.
  induction l as [|kv' l IH]; simpl; [done|]. case_match; [done|].
  rewrite IH. apply Permutation_swap.
Qed.

(** The own-key order is a reordering of the properties. *)
Lemma own_entries_Permutation {A} (ps : list (jstr * A)) : own_entries ps ≡ₚ ps.
Proof.
  unfold own_entries.
  assert (Hf : forall l : list (jstr * A), foldr insert_by_index [] l ≡ₚ l).
  { induction l as [|kv l IH]; simpl; [done|]. by rewrite insert_by_index_Permutation, IH. }
  rewrite Hf. etrans; [|apply (filter_app_complement (fun kv => is_array_index kv.1 = true))].
  f_equiv. rewrite (list_filter_iff _ (fun kv : jstr * A => is_array_index kv.1 <> true)); [done|].
  intros kv. by destruct (is_array_index kv.1).
Qed.

(** [Object.assign(target, src)] then [target[k]], for a source whose
    keys are distinct. *)
Lemma obj_get_assign (k : jstr) (ps : list (jstr * jsval)) (src : list (jstr * jsval)) :
  NoDup src.*1 ->
  obj_get k (obj_assign ps (JObj src)) =
  match obj_get k src with Some v => Some v | None => obj_get k ps end.
Proof.
  intros Hnd. unfold obj_assign, enum_entries. rewrite obj_get_foldl_set.
  rewrite (obj_get_Permutation k (reverse (own_entries src)) src); [done| |].
  - by rewrite fmap_reverse, reverse_Permutation, own_entries_Permutation.
  - by rewrite reverse_Permutation, own_entries_Permutation.
Qed.

(** A key absent from the source keeps its value, whatever the source. *)
Lemma obj_get_assign_absent (k : jstr) (ps src : list (jstr * jsval)) :
  obj_get k src = None -> obj_get k (obj_assign ps (JObj src)) = obj_get k ps.
Proof.
  intros Hn. unfold obj_assign, enum_entries. rewrite obj_get_foldl_set.
  enough (Hr : obj_get k (reverse (own_entries src)) = None) by (by rewrite Hr).
  apply obj_get_None. apply obj_get_None in Hn. by rewrite fmap_reverse, reverse_Permutation, own_entries_Permutation.
Qed.

Lemma obj_set_present (k : jstr) (v : jsval) (ps : list (jstr * jsval)) :
  NoDup ps.*1 -> (k, v) ∈ ps -> obj_set k v ps = ps.
Proof.
  induction ps as [|[k' v'] ps IH]; cbn; intros Hnd Hin; [by apply elem_of_nil in Hin|].
  apply NoDup_cons in Hnd as [Hk' Hnd]. apply elem_of_cons in Hin as [[= -> ->]|Hin].
  - by rewrite decide_True.
  - case_decide; [subst|by rewrite IH].
    destruct Hk'. apply list_elem_of_fmap. by exists (k', v).
Qed.

(** [Object.assign(o, o)] for an object with distinct keys leaves it as
    it is. *)
Lemma obj_assign_self (ps : list (jstr * jsval)) : NoDup ps.*1 -> obj_assign ps (JObj ps) = ps.
Proof.
  intros Hnd. unfold obj_assign, enum_entries.
  assert (Hsub : forall kv, kv ∈ own_entries ps -> kv ∈ ps).
  { intros kv Hkv. apply list_elem_of_In. eapply Permutation_in; [apply own_entries_Permutation|].
    by apply list_elem_of_In. }
  revert Hsub. generalize (own_entries ps) as l. induction l as [|kv l IH]; intros Hsub; [done|].
  cbn [foldl]. rewrite obj_set_present; [| done | destruct kv; apply Hsub; left].
  apply IH. intros kv' Hkv'. apply Hsub. by right.
Qed.
