(* ===== verification/Yaml.v ===== *)
(** * The line-oriented YAML parser of [TemplateProcessor]

    Models [parseYamlDirect], [parsePartialYamlDirect],
    [parseMultilineString], [parsePartialMultilineString],
    [parseNestedObject], [parsePartialNestedObject], [parseArray],
    [parsePartialArray] and the scalar coercion they share
    (src/template-editor.js, lines 386-760).

    The source walks an array of lines with an index [i]; here a loop
    walks the suffix [lines.slice(i)] and returns the suffix where it
    stopped (the source's [nextIndex]).  The loops of
    [parseNestedObject] and [parseYamlDirect] recurse into each other
    through the returned index, so they take a fuel argument; the
    theorems show that [1 + lines.length] units of fuel always suffice
    and that more fuel changes nothing.  The complete and the partial
    variants of the source differ only in which helpers they call, so
    the loops are written once in a Section over those helpers and
    instantiated twice. *)

From S2P Require Import Prelude JsValue.

Module Yaml.

Abbreviation props := (list (jstr * jsval)).

(** ** Scalars *)

Definition is_quote (c : ascii) : bool := bool_decide (c = dq) || bool_decide (c = "'"%char).

(** [value.replace(/^["']|["']$/g, '')]: one leading and one trailing
    quote, of either kind, are removed independently. *)
Definition strip_quotes (v : jstr) : jstr :=
  match v with
  | [] => []
  | c :: rest =>
      if is_quote c then
        (match rev rest with d :: _ => if is_quote d then removelast rest else rest | [] => rest end)
      else
        (match rev v with d :: _ => if is_quote d then removelast v else v | [] => v end)
  end.

(** [/^\d+$/] *)
Definition is_int_literal (v : jstr) : bool := bool_decide (v <> []) && all_digits v.

(** [/^\d+\.\d+$/] *)
Definition is_float_literal (v : jstr) : bool :=
  match index_of "."%char v with
  | Some i => is_int_literal (take i v) && is_int_literal (drop (S i) v)
  | None => false
  end.

(** [parseFloat] on a string accepted by [is_float_literal]. *)
Definition parse_float_literal (v : jstr) : jsnum :=
  match index_of "."%char v with
  | Some i => JsNum false (digits_value (take i v ++ drop (S i) v)) (- Z.of_nat (length (drop (S i) v)))
  | None => num_of_N (digits_value v)
  end.

(** The scalar branch shared by every parser:
    quote stripping, then [parseInt], [parseFloat] or the string. *)
Definition coerce_scalar (value : jstr) : jsval :=
  let clean := strip_quotes value in
  if is_int_literal clean then JNum (num_of_N (digits_value clean))
  else if is_float_literal clean then JNum (parse_float_literal clean)
  else JStr clean.

Definition is_blank_or_comment (t : jstr) : bool :=
  bool_decide (t = []) || starts_with_char "#"%char t.

(** [trimmed.indexOf(':')] when it is [> 0]. *)
Definition colon_index (t : jstr) : option nat :=
  match index_of ":"%char t with
  | Some (S k) => Some (S k)
  | _ => None
  end.

(** ** Block scalars ([key: |] and [key: >]) *)

(** [/\s+/g -> ' '] *)
Fixpoint collapse_ws (in_ws : bool) (s : jstr) : jstr :=
  match s with
  | [] => []
  | c :: s' =>
      if is_ws c then (if in_ws then collapse_ws true s' else " "%char :: collapse_ws true s')
      else c :: collapse_ws false s'
  end.

Section Multiline.
(** The only difference of the two variants: how a content line is cut. *)
Variable cut : nat -> jstr -> jstr.

Fixpoint multiline_lines (base : nat) (rest : list jstr) : list jstr * list jstr :=
    match rest with
    | [] => ([], [])
    | line :: rest' =>
        if bool_decide (trim line = []) then
          let '(c, r) := multiline_lines base rest' in ([] :: c, r)
        else if indent_of line <=? base then ([], rest)
        else let '(c, r) := multiline_lines base rest' in (cut base line :: c, r)
    end.

Definition multiline_value (preserve : bool) (content : list jstr) : jstr :=
    trim (if preserve then join [nl] content else collapse_ws false (join j[" "] content)).

(** [rest] are the lines after the key line. *)
Definition multiline_with (rest : list jstr) (base : nat) (preserve : bool) : jstr * list jstr :=
    let '(c, r) := multiline_lines base rest in (multiline_value preserve c, r).
End Multiline.

(** [parseMultilineString]: [line.substring(baseIndent + 2)]. *)
Definition parseMultilineString (rest : list jstr) (base : nat) (preserve : bool) : jstr * list jstr :=
  multiline_with (fun b line => substring_from (b + 2) line) rest base preserve.

(** [parsePartialMultilineString]:
    [line.substring(Math.min(baseIndent + 2, line.length))]. *)
Definition parsePartialMultilineString (rest : list jstr) (base : nat) (preserve : bool) : jstr * list jstr :=
  multiline_with (fun b line => substring_from (Nat.min (b + 2) (length line)) line) rest base preserve.

(** ** Sequences *)

(** The item pushed for [- value], if any. *)
Definition array_item (t : jstr) : list jsval :=
  let v := trim (substring_from 1 t) in
  if bool_decide (v = []) then [] else [coerce_scalar v].

Fixpoint array_loop (base : nat) (rest : list jstr) : list jsval * list jstr :=
  match rest with
  | [] => ([], [])
  | line :: rest' =>
      let t := trim line in
      if is_blank_or_comment t then array_loop base rest'
      else if (indent_of line <=? base) && negb (starts_with_char "-"%char t) then ([], rest)
      else
        let '(xs, r) := array_loop base rest' in
        ((if starts_with_char "-"%char t then array_item t else []) ++ xs, r)
  end.

(** [parseArray(lines, startIndex, baseIndent, firstItem)]; [from_key] is
    [lines.slice(startIndex)], starting with the key line. *)
Definition parseArray (from_key : list jstr) (base : nat) (first_item : jstr) : list jsval * list jstr :=
  if starts_with_char "-"%char first_item then
    let '(xs, r) := array_loop base (tail from_key) in (array_item first_item ++ xs, r)
  else array_loop base from_key.

(** [parsePartialArray] has the same body as [parseArray]. *)
Definition parsePartialArray (from_key : list jstr) (base : nat) (first_item : jstr) : list jsval * list jstr :=
  if starts_with_char "-"%char first_item then
    let '(xs, r) := array_loop base (tail from_key) in (array_item first_item ++ xs, r)
  else array_loop base from_key.

(** ** Mappings *)

Definition is_block_marker (v : jstr) : bool := bool_decide (v = j["|"]) || bool_decide (v = j[">"]).

(** The second disjunct of the sequence test:
    [value === '' && i + 1 < lines.length && lines[i + 1].trim().startsWith('-')]. *)
Definition next_starts_dash (value : jstr) (rest' : list jstr) : bool :=
  bool_decide (value = []) &&
  match rest' with l :: _ => starts_with_char "-"%char (trim l) | [] => false end.

Section Loops.
Variable multiline : list jstr -> nat -> bool -> jstr * list jstr.
Variable array : list jstr -> nat -> jstr -> list jsval * list jstr.

(** The loop of [parseNestedObject(lines, startIndex, baseIndent)] from
    line [i]; [None] only when the fuel is exhausted. *)
Fixpoint nested_loop (fuel : nat) (base : nat) (rest : list jstr) (obj : props)
      : option (props * list jstr) :=
    match fuel with
    | 0 => None
    | S fuel' =>
      match rest with
      | [] => Some (obj, [])
      | line :: rest' =>
        let t := trim line in
        if is_blank_or_comment t then nested_loop fuel' base rest' obj
        else if indent_of line <=? base then Some (obj, rest)
        else match colon_index t with
        | None => nested_loop fuel' base rest' obj
        | Some ci =>
          let key := trim (substring 0 ci t) in
          let value := trim (substring_from (S ci) t) in
          let ind := indent_of line in
          if is_block_marker value then
            let '(v, r) := multiline rest' ind (bool_decide (value = j["|"])) in
            nested_loop fuel' base r (obj_set key (JStr v) obj)
          else if bool_decide (value = []) || bool_decide (value = j["{}"]) then
            match nested_loop fuel' ind rest' [] with
            | Some (child, r) => nested_loop fuel' base r (obj_set key (JObj child) obj)
            | None => None
            end
          else if starts_with_char "-"%char value || next_starts_dash value rest' then
            let '(xs, r) := array (line :: rest') ind
                              (if starts_with_char "-"%char value then value else []) in
            nested_loop fuel' base r (obj_set key (JArr xs) obj)
          else nested_loop fuel' base rest' (obj_set key (coerce_scalar value) obj)
        end
      end
    end.

(** The loop of [parseYamlDirect] / [parsePartialYamlDirect]. *)
Fixpoint yaml_loop (fuel : nat) (rest : list jstr) (vars : props) : option props :=
    match fuel with
    | 0 => None
    | S fuel' =>
      match rest with
      | [] => Some vars
      | line :: rest' =>
        let t := trim line in
        if is_blank_or_comment t then yaml_loop fuel' rest' vars
        else match colon_index t with
        | None => yaml_loop fuel' rest' vars
        | Some ci =>
          let key := trim (substring 0 ci t) in
          let after := trim (substring_from (S ci) t) in
          let ind := indent_of line in
          if is_block_marker after then
            let '(v, r) := multiline rest' ind (bool_decide (after = j["|"])) in
            yaml_loop fuel' r (obj_set key (JStr v) vars)
          else if bool_decide (after = []) || bool_decide (after = j["{}"]) then
            match nested_loop fuel' ind rest' [] with
            | Some (child, r) =>
                yaml_loop fuel' r
                  (obj_set key (if 0 <? key_count (JObj child) then JObj child else JStr []) vars)
            | None => None
            end
          else if starts_with_char "-"%char after || next_starts_dash after rest' then
            let '(xs, r) := array (line :: rest') ind
                              (if starts_with_char "-"%char after then after else []) in
            yaml_loop fuel' r (obj_set key (JArr xs) vars)
          else yaml_loop fuel' rest' (obj_set key (coerce_scalar after) vars)
        end
      end
    end.
End Loops.

(** [parseNestedObject(lines, startIndex, baseIndent)]: [rest] are the
    lines after line [startIndex]. *)
Definition parseNestedObject (fuel : nat) (rest : list jstr) (base : nat) : option (props * list jstr) :=
  nested_loop parseMultilineString parseArray fuel base rest [].

Definition parsePartialNestedObject (fuel : nat) (rest : list jstr) (base : nat) : option (props * list jstr) :=
  nested_loop parsePartialMultilineString parsePartialArray fuel base rest [].

(** The fuel given by the entry points: one unit per line, plus one. *)
Definition yaml_fuel (lines : list jstr) : nat := S (length lines).

(** The mapping accumulated by [parseYamlDirect]'s loop. *)
Definition yaml_vars (content : jstr) : props :=
  let lines := lines_of content in
  default [] (yaml_loop parseMultilineString parseArray (yaml_fuel lines) lines []).

(** [parseYamlDirect(yamlContent)]: [None] is [null]. *)
Definition parseYamlDirect (content : jstr) : option jsval :=
  let vars := yaml_vars content in
  if 0 <? key_count (JObj vars) then Some (JObj vars) else None.

(** [parsePartialYamlDirect(yamlContent)]: never [null]. *)
Definition parsePartialYamlDirect (content : jstr) : jsval :=
  let lines := lines_of content in
  JObj (default [] (yaml_loop parsePartialMultilineString parsePartialArray (yaml_fuel lines) lines [])).


(** ** Lines of a known shape *)

Lemma index_of_notin (c : ascii) (s : jstr) : c ∉ s -> index_of c s = None.
Proof.
  induction s as [|d s IH]; intros Hn; simpl; [done|].
  rewrite bool_decide_false by (intros ->; apply Hn; left).
  rewrite IH; [done|]. intros Hin; apply Hn; by right.
Qed.

Lemma colon_index_notin (l : jstr) : ":"%char ∉ l -> colon_index (trim l) = None.
Proof.
  intros Hn. unfold colon_index. rewrite index_of_notin; [done|].
  intros Hin%elem_of_trim. contradiction.
Qed.

Lemma blank_or_comment_dash (t : jstr) :
  starts_with_char "-"%char t = true -> is_blank_or_comment t = false.
Proof. destruct t as [|c t]; [done|]. unfold is_blank_or_comment, starts_with_char. intros H.
  apply bool_decide_eq_true in H. subst. done. Qed.

(** A string with a non-blank first character and a non-blank last
    character (or a single character) is its own trim. *)
Lemma trim_id (c : ascii) (s : jstr) :
  is_ws c = false -> (s = [] \/ exists s' d, s = s' ++ [d] /\ is_ws d = false) ->
  trim (c :: s) = c :: s.
Proof.
  intros Hc [->|[s' [d [-> Hd]]]]; [by apply trim_single|]. by apply trim_fixed.
Qed.

Lemma identifier_split (k : jstr) :
  is_identifier k = true ->
  exists c w, k = c :: w /\ is_ident_start c = true /\ Forall (fun c => is_word c = true) k.
Proof.
  intros Hk. pose proof (identifier_chars k Hk) as Hall.
  destruct k as [|c w]; [done|]. exists c, w. simpl in Hk.
  apply andb_prop in Hk as [Hc _]. done.
Qed.

Lemma identifier_trim (k : jstr) : is_identifier k = true -> trim k = k.
Proof.
  intros Hk. destruct (identifier_split k Hk) as [c [w [-> [Hc Hall]]]].
  apply trim_id; [by apply is_word_not_ws, is_ident_start_word|].
  destruct w as [|x w] using rev_ind; [by left|right]. exists w, x. split; [done|].
  apply is_word_not_ws. rewrite Forall_forall in Hall. apply Hall.
  right. apply elem_of_app. right. by left.
Qed.

(** The facts the parsers read off a line [k: rest] with an identifier key. *)
Lemma key_line (k rest : jstr) :
  is_identifier k = true ->
  colon_index (k ++ ":"%char :: rest) = Some (length k)
  /\ trim (substring 0 (length k) (k ++ ":"%char :: rest)) = k
  /\ substring_from (S (length k)) (k ++ ":"%char :: rest) = rest
  /\ indent_of (k ++ ":"%char :: rest) = 0
  /\ is_blank_or_comment (k ++ ":"%char :: rest) = false
  /\ nl ∉ k.
Proof.
  intros Hk. destruct (identifier_split k Hk) as [c [w [Hkw [Hc Hall]]]].
  assert (Hnc : ":"%char ∉ k) by (apply word_chars_notin; [done|reflexivity]).
  split; [|split; [|split; [|split; [|split]]]].
  - unfold colon_index. rewrite index_of_app_notin, index_of_head by done.
    rewrite Hkw. simpl. by rewrite Nat.add_0_r.
  - rewrite substring_0, take_app_length. by apply identifier_trim.
  - unfold substring_from. replace (S (length k)) with (length k + 1) by lia. rewrite <- drop_drop.
    by rewrite drop_app_length.
  - rewrite Hkw. simpl. apply (indent_of_spaces 0). by apply is_word_not_ws, is_ident_start_word.
  - rewrite Hkw. unfold is_blank_or_comment. apply orb_false_iff. split.
    + by apply bool_decide_false.
    + simpl. apply bool_decide_false. intros <-. revert Hc. vm_compute. done.
  - apply word_chars_notin; [done|reflexivity].
Qed.


Lemma key_line_trim (k rest : jstr) :
  is_identifier k = true ->
  (rest = [] \/ exists r' d, rest = r' ++ [d] /\ is_ws d = false) ->
  trim (k ++ ":"%char :: rest) = k ++ ":"%char :: rest.
Proof.
  intros Hk Hr. destruct (identifier_split k Hk) as [c [w [-> [Hc _]]]].
  simpl. apply trim_id; [by apply is_word_not_ws, is_ident_start_word|right].
  destruct Hr as [->|[r' [d [-> Hd]]]].
  - exists w, ":"%char. split; [done|reflexivity].
  - exists (w ++ ":"%char :: r'), d. split; [by rewrite <- app_assoc|done].
Qed.

Lemma digit_char_facts (c : ascii) :
  is_digit c = true -> is_quote c = false /\ is_ws c = false /\ c <> nl /\ c <> ":"%char.
Proof. destruct c as [[] [] [] [] [] [] [] []]; vm_compute; intuition congruence. Qed.

(** The facts the parsers read off a string of decimal digits. *)
Lemma int_literal_facts (ds : jstr) :
  is_int_literal ds = true ->
  (exists ds' d, ds = ds' ++ [d] /\ is_ws d = false)
  /\ trim ds = ds /\ strip_quotes ds = ds /\ (nl ∉ ds) /\ ds <> [].
Proof.
  unfold is_int_literal, all_digits. intros [Hne%bool_decide_eq_true Hd]%andb_prop.
  assert (Hall : forall c, c ∈ ds -> is_digit c = true).
  { intros c Hc%list_elem_of_In. by apply (proj1 (forallb_forall _ _) Hd). }
  destruct (exists_last Hne) as [ds' [d Hds]].
  assert (Hdd : is_digit d = true) by (apply Hall; rewrite Hds; apply elem_of_app; right; by left).
  destruct ds as [|c rest]; [done|].
  assert (Hc : is_digit c = true) by (apply Hall; left).
  destruct (digit_char_facts c Hc) as (Hqc & Hwc & _).
  destruct (digit_char_facts d Hdd) as (Hqd & Hwd & _).
  split; [exists ds', d; by split|]. split; [|split; [|split; [|done]]].
  - apply trim_id; [done|]. destruct ds' as [|c' ds'']; simpl in Hds; injection Hds as <- Hrest; [by left|].
    right. by exists ds'', d.
  - unfold strip_quotes. rewrite Hqc, Hds, rev_unit, Hqd. by rewrite <- Hds.
  - intros Hin. apply Hall in Hin. by destruct (digit_char_facts nl Hin) as (_ & _ & ? & _).
Qed.

Lemma parseArray_single (line : jstr) (base : nat) (first : jstr) :
  starts_with_char "-"%char first = true -> parseArray [line] base first = (array_item first, []).
Proof. intros H. unfold parseArray. rewrite H. simpl. by rewrite app_nil_r. Qed.

Lemma nested_loop_dash_lines (fuel base : nat) (items : list jstr) (obj : props) :
  length items < fuel ->
  Forall (fun l => base < indent_of l /\ starts_with_char "-"%char (trim l) = true /\ (":"%char ∉ l)) items ->
  nested_loop parseMultilineString parseArray fuel base items obj = Some (obj, []).
Proof.
  intros Hf Hall. revert fuel Hf.
  induction Hall as [|l items [Hi [Hd Hc]] _ IH]; intros fuel Hf;
    (destruct fuel as [|fuel]; [simpl in Hf; lia|]); cbn [nested_loop]; [done|].
  rewrite blank_or_comment_dash by done.
  replace (indent_of l <=? base) with false by (symmetry; apply Nat.leb_gt; lia).
  rewrite colon_index_notin by done. apply IH. simpl in Hf. lia.
Qed.

(** ** Termination: the fuel is enough, and more fuel changes nothing *)

Lemma multiline_lines_shorter (cut : nat -> jstr -> jstr) (base : nat) (rest : list jstr) :
  length (multiline_lines cut base rest).2 <= length rest.
Proof.
  induction rest as [|line rest IH]; simpl; [lia|].
  case_bool_decide; [destruct (multiline_lines cut base rest); simpl in *; lia|].
  destruct (indent_of line <=? base); [simpl; lia|].
  destruct (multiline_lines cut base rest); simpl in *; lia.
Qed.

Lemma multiline_with_shorter cut rest base preserve :
  length (multiline_with cut rest base preserve).2 <= length rest.
Proof.
  unfold multiline_with. pose proof (multiline_lines_shorter cut base rest).
  destruct (multiline_lines cut base rest); simpl in *; lia.
Qed.

Lemma array_loop_shorter (base : nat) (rest : list jstr) :
  length (array_loop base rest).2 <= length rest.
Proof.
  induction rest as [|line rest IH]; simpl; [lia|].
  destruct (is_blank_or_comment (trim line)); [lia|].
  destruct (_ && _); [simpl; lia|].
  destruct (array_loop base rest); simpl in *; lia.
Qed.

Lemma parseArray_shorter line rest base first :
  starts_with_char "-"%char first = true ->
  length (parseArray (line :: rest) base first).2 <= length rest.
Proof.
  intros Hf. unfold parseArray. rewrite Hf. simpl.
  pose proof (array_loop_shorter base rest).
  destruct (array_loop base rest); simpl in *; lia.
Qed.


Section LoopFacts.
Variable multiline : list jstr -> nat -> bool -> jstr * list jstr.
Variable array : list jstr -> nat -> jstr -> list jsval * list jstr.
Hypothesis multiline_shorter : forall rest b p, length (multiline rest b p).2 <= length rest.
Hypothesis array_shorter : forall line rest b f,
    starts_with_char "-"%char f = true -> length (array (line :: rest) b f).2 <= length rest.

(** In the sequence branch the value is never empty: the empty value was
    taken by the mapping branch before. *)
Lemma seq_branch_dash (value : jstr) rest' :
    (bool_decide (value = []) || bool_decide (value = j["{}"])) = false ->
    (starts_with_char "-"%char value || next_starts_dash value rest') = true ->
    starts_with_char "-"%char value = true.
  Proof.
    intros H1 H2. apply orb_false_iff in H1 as [H1 _].
    unfold next_starts_dash in H2. rewrite H1 in H2. by rewrite orb_false_r in H2.
  Qed.

(** Apply the induction hypothesis to the recursive call of the goal. *)
Ltac loop_ih IH :=
    match goal with
    | |- context [nested_loop multiline array _ ?b ?r ?o] =>
        let Heq := fresh "Heq" in let Hr := fresh "Hr" in
        destruct (IH b r o) as [[?o' ?r'] [Heq Hr]]; [simpl in *; lia|rewrite Heq; simpl in Hr]
    | |- context [yaml_loop multiline array _ ?r ?o] => apply IH; simpl in *; lia
    end.

(** Name the suffix returned by a helper, with its length bound. *)
Ltac helper_suffix :=
    match goal with
    | |- context [multiline ?x ?y ?z] =>
        pose proof (multiline_shorter x y z); destruct (multiline x y z); simpl in *
    | Hd : starts_with_char "-"%char ?f = true |- context [array (?l :: ?x) ?y ?f] =>
        pose proof (array_shorter l x y f Hd); destruct (array (l :: x) y f); simpl in *
    end.

Ltac close_total := eexists; split; [done|simpl in *; lia].

Lemma nested_loop_total fuel base rest obj :
    length rest < fuel ->
    exists r, nested_loop multiline array fuel base rest obj = Some r /\ length r.2 <= length rest.
  Proof.
    revert base rest obj. induction fuel as [|fuel IH]; intros base rest obj Hlt; [lia|].
    destruct rest as [|line rest']; cbn [nested_loop]; [close_total|].
    simpl in Hlt.
    destruct (is_blank_or_comment (trim line)); [loop_ih IH; close_total|].
    destruct (indent_of line <=? base); [close_total|].
    destruct (colon_index (trim line)) as [ci|]; [|loop_ih IH; close_total].
    destruct (is_block_marker _); [helper_suffix; loop_ih IH; close_total|].
    destruct (bool_decide _ || bool_decide _) eqn:Hmap.
    { loop_ih IH. loop_ih IH. close_total. }
    destruct (starts_with_char _ _ || next_starts_dash _ _) eqn:Hseq;
      [|loop_ih IH; close_total].
    pose proof (seq_branch_dash _ _ Hmap Hseq) as Hd. rewrite Hd.
    helper_suffix. loop_ih IH. close_total.
  Qed.

Lemma yaml_loop_total fuel rest vars :
    length rest < fuel -> exists r, yaml_loop multiline array fuel rest vars = Some r.
  Proof.
    revert rest vars. induction fuel as [|fuel IH]; intros rest vars Hlt; [lia|].
    destruct rest as [|line rest']; cbn [yaml_loop]; [by eexists|]. simpl in Hlt.
    destruct (is_blank_or_comment (trim line)); [loop_ih IH|].
    destruct (colon_index (trim line)) as [ci|]; [|loop_ih IH].
    destruct (is_block_marker _); [helper_suffix; loop_ih IH|].
    destruct (bool_decide _ || bool_decide _) eqn:Hmap.
    { destruct (nested_loop_total fuel (indent_of line) rest' []) as [[child r0] [-> Hr0]]; [lia|].
      loop_ih IH. }
    destruct (starts_with_char _ _ || next_starts_dash _ _) eqn:Hseq; [|loop_ih IH].
    pose proof (seq_branch_dash _ _ Hmap Hseq) as Hd. rewrite Hd.
    helper_suffix. loop_ih IH.
  Qed.

(** Case on every test of the unfolded loop body in [H]. *)
Ltac split_body H :=
    repeat match type of H with
    | context [match ?x with _ => _ end] => destruct x eqn:?
    end.

Lemma nested_loop_more_fuel fuel fuel' base rest obj r :
    nested_loop multiline array fuel base rest obj = Some r -> fuel <= fuel' ->
    nested_loop multiline array fuel' base rest obj = Some r.
  Proof.
    revert fuel' base rest obj r. induction fuel as [|fuel IH]; intros fuel' base rest obj r H Hle; [done|].
    destruct fuel' as [|fuel']; [lia|]. assert (Hle' : fuel <= fuel') by lia.
    destruct rest as [|line rest']; cbn [nested_loop] in *; [done|].
    split_body H; simplify_eq; try done;
      repeat match goal with E : nested_loop _ _ fuel _ _ _ = Some _ |- _ =>
        rewrite (IH fuel' _ _ _ _ E Hle'); clear E end; eauto.
  Qed.

Lemma yaml_loop_more_fuel fuel fuel' rest vars r :
    yaml_loop multiline array fuel rest vars = Some r -> fuel <= fuel' ->
    yaml_loop multiline array fuel' rest vars = Some r.
  Proof.
    revert fuel' rest vars r. induction fuel as [|fuel IH]; intros fuel' rest vars r H Hle; [done|].
    destruct fuel' as [|fuel']; [lia|]. assert (Hle' : fuel <= fuel') by lia.
    destruct rest as [|line rest']; cbn [yaml_loop] in *; [done|].
    split_body H; simplify_eq; try done;
      repeat match goal with E : nested_loop _ _ fuel _ _ _ = Some _ |- _ =>
        rewrite (nested_loop_more_fuel fuel fuel' _ _ _ _ E Hle'); clear E end;
      try match goal with E : (0 <? _) = _ |- _ => rewrite E end; eauto.
  Qed.
End LoopFacts.

(** ** The partial variants compute the same as the complete ones *)

Lemma multiline_lines_ext (cut1 cut2 : nat -> jstr -> jstr) base rest :
  (forall b l, cut1 b l = cut2 b l) ->
  multiline_lines cut1 base rest = multiline_lines cut2 base rest.
Proof.
  intros Hc. induction rest as [|l rest IH]; simpl; [done|]. rewrite IH, Hc. done.
Qed.

Lemma parsePartialMultilineString_eq rest base p :
  parsePartialMultilineString rest base p = parseMultilineString rest base p.
Proof.
  unfold parsePartialMultilineString, parseMultilineString, multiline_with.
  rewrite (multiline_lines_ext _ (fun b line => substring_from (b + 2) line)); [done|].
  intros b l. unfold substring_from. destruct (Nat.min_spec (b + 2) (length l)) as [[_ ->]|[? ->]]; [done|].
  rewrite !drop_ge by lia. done.
Qed.

Section LoopExt.
Variables (m1 m2 : list jstr -> nat -> bool -> jstr * list jstr).
Variables (a1 a2 : list jstr -> nat -> jstr -> list jsval * list jstr).
Hypothesis Hm : forall rest b p, m1 rest b p = m2 rest b p.
Hypothesis Ha : forall l b f, a1 l b f = a2 l b f.

Lemma nested_loop_ext fuel base rest obj :
    nested_loop m1 a1 fuel base rest obj = nested_loop m2 a2 fuel base rest obj.
  Proof.
    revert base rest obj. induction fuel as [|fuel IH]; intros base rest obj; [done|].
    destruct rest as [|line rest']; cbn [nested_loop]; [done|].
    repeat first [rewrite IH | rewrite Hm | rewrite Ha | case_match]; done.
  Qed.

Lemma yaml_loop_ext fuel rest vars :
    yaml_loop m1 a1 fuel rest vars = yaml_loop m2 a2 fuel rest vars.
  Proof.
    revert rest vars. induction fuel as [|fuel IH]; intros rest vars; [done|].
    destruct rest as [|line rest']; cbn [yaml_loop]; [done|].
    repeat first [rewrite IH | rewrite nested_loop_ext | rewrite Hm | rewrite Ha | case_match]; done.
  Qed.
End LoopExt.

(** ** Properties of the parser *)

(** C3: [parseYamlDirect] terminates on every input: its loop returns
    within the fuel [1 + lines.length], and any larger fuel gives the
    same mapping, so the result does not depend on the bound. *)
Theorem parseYamlDirect_terminates (content : jstr) :
  exists vars,
    yaml_loop parseMultilineString parseArray (yaml_fuel (lines_of content)) (lines_of content) [] = Some vars
    /\ yaml_vars content = vars
    /\ forall fuel, yaml_fuel (lines_of content) <= fuel ->
         yaml_loop parseMultilineString parseArray fuel (lines_of content) [] = Some vars.
Proof.
  destruct (yaml_loop_total parseMultilineString parseArray
              (fun rest b p => multiline_with_shorter _ rest b p) parseArray_shorter
              (yaml_fuel (lines_of content)) (lines_of content) []) as [vars Hv];
    [unfold yaml_fuel; lia|].
  exists vars. split; [done|]. split; [unfold yaml_vars; by rewrite Hv|].
  intros fuel Hf. by eapply yaml_loop_more_fuel.
Qed.

(** C34: [parsePartialYamlDirect] is [parseYamlDirect] with [null]
    replaced by the empty object: the clamped substring of
    [parsePartialMultilineString] never changes a line. *)
Theorem parsePartialYamlDirect_equiv (content : jstr) :
  parsePartialYamlDirect content = default (JObj []) (parseYamlDirect content).
Proof.
  unfold parsePartialYamlDirect, parseYamlDirect, yaml_vars.
  rewrite (yaml_loop_ext _ parseMultilineString _ parseArray); [|apply parsePartialMultilineString_eq|done].
  destruct (yaml_loop _ _ _ _ _) as [vars|]; simpl; [|done].
  rewrite key_count_obj. destruct vars; done.
Qed.

(** The line after a block scalar ends it: the end of the text, or a
    non-blank line indented no deeper than the key. *)
Definition ends_block (base : nat) (rest : list jstr) : Prop :=
  match rest with [] => True | l :: _ => trim l <> [] /\ indent_of l <= base end.

Lemma trim_cons_nonempty (c : ascii) (w : jstr) : is_ws c = false -> trim (c :: w) <> [].
Proof. intros Hc Ht%trim_nil_iff. by rewrite trim_start_nonws in Ht. Qed.

Lemma multiline_lines_end cut base rest :
  ends_block base rest -> multiline_lines cut base rest = ([], rest).
Proof.
  destruct rest as [|l rest]; [done|]. intros [Ht Hi]. simpl.
  rewrite bool_decide_false by done. by apply Nat.leb_le in Hi as ->.
Qed.

Lemma multiline_lines_padded base ls rest :
  Forall (fun l => exists c w, l = c :: w /\ is_ws c = false) ls -> ends_block base rest ->
  multiline_lines (fun b line => substring_from (b + 2) line) base
    (map (fun l => spaces (base + 2) ++ l) ls ++ rest) = (ls, rest).
Proof.
  intros Hls Hend. induction Hls as [|l ls [c [w [-> Hc]]] _ IH]; simpl; [by apply multiline_lines_end|].
  rewrite bool_decide_false by (rewrite trim_spaces_app; by apply trim_cons_nonempty).
  rewrite indent_of_spaces, IH by done.
  replace (base + 2 <=? base) with false by (symmetry; apply Nat.leb_gt; lia).
  unfold substring_from, spaces. rewrite drop_app_length'; [done|by rewrite repeat_length].
Qed.

(** A literal block scalar [key: |] whose content lines are indented
    two columns deeper than the key yields those lines without their
    indentation, joined by newlines and trimmed; the block ends at the
    first non-blank line indented no deeper than the key, and parsing
    resumes there. *)
Theorem parseMultilineString_block (base : nat) (ls rest : list jstr) :
  Forall (fun l => exists c w, l = c :: w /\ is_ws c = false) ls ->
  ends_block base rest ->
  parseMultilineString (map (fun l => spaces (base + 2) ++ l) ls ++ rest) base true
  = (trim (join [nl] ls), rest).
Proof.
  intros Hls Hend. unfold parseMultilineString, multiline_with.
  by rewrite multiline_lines_padded.
Qed.

(** The example of the specification:
    [desc: |\n  line one\n  line two\nkey2: x]. *)
Lemma parseMultilineString_block_witness :
  parseMultilineString [j["  line one"]; j["  line two"]; j["key2: x"]] 0 true
  = (j["line one"] ++ [nl] ++ j["line two"], [j["key2: x"]]).
Proof.
  apply (parseMultilineString_block 0 [j["line one"]; j["line two"]] [j["key2: x"]]).
  - repeat constructor; eexists _, _; split; reflexivity.
  - split; vm_compute; [discriminate|lia].
Defined.

(** a block-scalar content line indented exactly one column deeper
    than its key loses its first non-blank character, because the
    source cuts [line.substring(baseIndent + 2)] whatever the actual
    indentation is. *)
Theorem parseMultilineString_one_deeper_drops_char (base : nat) (c : ascii) (w : jstr) (rest : list jstr) :
  is_ws c = false -> ends_block base rest ->
  parseMultilineString ((spaces (S base) ++ c :: w) :: rest) base true = (trim w, rest).
Proof.
  intros Hc Hend. unfold parseMultilineString, multiline_with. cbn [multiline_lines].
  rewrite bool_decide_false by (rewrite trim_spaces_app; by apply trim_cons_nonempty).
  rewrite indent_of_spaces by done.
  replace (S base <=? base) with false by (symmetry; apply Nat.leb_gt; lia).
  rewrite multiline_lines_end by done.
  unfold substring_from, spaces. replace (base + 2) with (S base + 1) by lia.
  rewrite <- drop_drop, drop_app_length'; [done|by rewrite repeat_length].
Qed.

(** [d: |] followed by [ x1]: the block's value is ["1"], not ["x1"]. *)
Lemma parseMultilineString_one_deeper_witness :
  parseMultilineString [j[" x1"]] 0 true = (j["1"], []).
Proof. apply (parseMultilineString_one_deeper_drops_char 0 "x"%char j["1"] []); done. Defined.

(** C35: a block sequence under a key ([key:] followed by indented
    [- item] lines) is lost: the value is the empty string.  The test
    [afterColon === ''] of the mapping branch comes first, so the
    sequence branch's second condition can never hold and the item
    lines, which have no colon, are skipped by [parseNestedObject]. *)
Theorem parseYamlDirect_block_sequence_lost (k : jstr) (items : list jstr) :
  is_identifier k = true ->
  Forall (fun l => 0 < indent_of l /\ starts_with_char "-"%char (trim l) = true
                   /\ (":"%char ∉ l) /\ nl ∉ l) items ->
  parseYamlDirect (join [nl] ((k ++ [":"%char]) :: items)) = Some (JObj [(k, JStr [])]).
Proof.
  intros Hk Hitems. destruct (key_line k [] Hk) as (Hci & Hkey & Hafter & Hind & Hbl & Hnl).
  unfold parseYamlDirect, yaml_vars. rewrite lines_of_join; [|done|].
  2:{ constructor; [|by eapply Forall_impl; [exact Hitems|intros l (_ & _ & _ & ?)]].
      intros [Hin|Hin%list_elem_of_singleton]%elem_of_app; [done|discriminate]. }
  unfold yaml_fuel. cbn [length]. cbn [yaml_loop]. rewrite key_line_trim by (auto; by left).
  rewrite Hbl, Hci, Hkey, Hafter, Hind. change (is_block_marker (trim [])) with false.
  rewrite (bool_decide_true (trim [] = [])) by done.
  rewrite nested_loop_dash_lines; [|lia|by eapply Forall_impl; [exact Hitems|intros l (? & ? & ? & _)]].
  cbn -[key_count]. by rewrite !key_count_obj.
Qed.

(** [items:] then [  - a] and [  - b]: the list is replaced by [""]. *)
Lemma parseYamlDirect_block_sequence_witness :
  parseYamlDirect (join [nl] [j["items:"]; j["  - a"]; j["  - b"]]) = Some (JObj [(j["items"], JStr [])]).
Proof.
  apply (parseYamlDirect_block_sequence_lost j["items"] [j["  - a"]; j["  - b"]]).
  - reflexivity.
  - apply (bool_decide_unpack _). vm_compute. reflexivity.
Defined.

(** a negative number scalar [key: -N] becomes the one-element list
    [[N]]: a value starting with [-] is always read as the first item of
    a sequence, and the item loses its sign. *)
Theorem parseYamlDirect_negative_number_is_list (k ds : jstr) :
  is_identifier k = true -> is_int_literal ds = true ->
  parseYamlDirect (k ++ j[": -"] ++ ds) = Some (JObj [(k, JArr [JNum (num_of_N (digits_value ds))])]).
Proof.
  intros Hk Hds. destruct (int_literal_facts ds Hds) as ([ds' [d [Hdseq Hd]]] & Htr & Hsq & Hnlds & Hne).
  change (k ++ j[": -"] ++ ds) with (k ++ ":"%char :: " "%char :: "-"%char :: ds).
  destruct (key_line k (" "%char :: "-"%char :: ds) Hk) as (Hci & Hkey & Hafter & Hind & Hbl & Hnl).
  unfold parseYamlDirect, yaml_vars.
  change (lines_of (k ++ ":"%char :: " "%char :: "-"%char :: ds))
    with (lines_of (join [nl] [k ++ ":"%char :: " "%char :: "-"%char :: ds])).
  rewrite lines_of_join; [|done|].
  2:{ constructor; [|constructor]. intros [Hin|Hin]%elem_of_app; [done|].
      repeat (apply elem_of_cons in Hin as [Hin|Hin]; [discriminate|]). done. }
  unfold yaml_fuel. cbn [length]. remember (S 0) as f eqn:Hf. cbn [yaml_loop].
  rewrite key_line_trim; [|done|right; exists (" "%char :: "-"%char :: ds'), d; by rewrite Hdseq].
  rewrite Hbl, Hci, Hkey, Hafter.
  assert (Ha : trim (" "%char :: "-"%char :: ds) = "-"%char :: ds).
  { change (" "%char :: "-"%char :: ds) with (spaces 1 ++ "-"%char :: ds).
    rewrite trim_spaces_app. apply trim_id; [done|right].
    by exists ds', d. }
  rewrite Ha. unfold is_block_marker. rewrite !bool_decide_false by done.
  cbn [orb starts_with_char]. rewrite bool_decide_true by done. cbn [orb].
  rewrite parseArray_single by (cbn; by rewrite bool_decide_true).
  assert (Hitem : array_item ("-"%char :: ds) = [JNum (num_of_N (digits_value ds))]).
  { unfold array_item. change (substring_from 1 ("-"%char :: ds)) with ds. rewrite Htr, bool_decide_false by done.
    unfold coerce_scalar. by rewrite Hsq, Hds. }
  rewrite Hitem. subst f. cbn -[key_count]. by rewrite !key_count_obj.
Qed.

(** [t: -3] is read as [[3]]. *)
Lemma parseYamlDirect_negative_number_witness :
  parseYamlDirect j["t: -3"] = Some (JObj [(j["t"], JArr [JNum (num_of_N 3)])]).
Proof. apply (parseYamlDirect_negative_number_is_list j["t"] j["3"]); reflexivity. Defined.

Lemma is_word_not_quote (c : ascii) : is_word c = true -> is_quote c = false.
Proof. destruct c as [[] [] [] [] [] [] [] []]; vm_compute; congruence. Qed.

(** A value that opens with a letter and does not end with a quote
    stays a string. *)
Lemma coerce_scalar_word (c d : ascii) (w : jstr) :
  is_ident_start c = true -> is_quote d = false -> coerce_scalar (c :: w ++ [d]) = JStr (c :: w ++ [d]).
Proof.
  intros Hc Hd. pose proof (is_ident_start_not_digit c Hc) as Hdig.
  apply is_ident_start_word, is_word_not_quote in Hc.
  unfold coerce_scalar, strip_quotes. rewrite Hc, app_comm_cons, rev_app_distr. cbn [rev app]. rewrite Hd.
  unfold is_int_literal, is_float_literal. cbn [all_digits forallb]. rewrite Hdig, andb_false_r. cbn [andb].
  destruct (index_of "."%char _) as [[|i]|]; [done| |done]. cbn [take].
  unfold is_int_literal at 1. cbn [all_digits forallb]. by rewrite Hdig, !andb_false_r.
Qed.

(** A one-line mapping [k: v] whose value has at least two characters
    and is neither [{}] nor a sequence item: the scalar branch. *)
Lemma parseYamlDirect_scalar_line (k w : jstr) (c d : ascii) :
  is_identifier k = true -> is_ws c = false -> is_ws d = false -> nl ∉ c :: w ++ [d] ->
  c :: w ++ [d] <> j["{}"] -> c <> "-"%char ->
  parseYamlDirect (k ++ j[": "] ++ c :: w ++ [d]) = Some (JObj [(k, coerce_scalar (c :: w ++ [d]))]).
Proof.
  intros Hk Hc Hd Hnl Hbr Hdash. set (v := c :: w ++ [d]).
  change (k ++ j[": "] ++ v) with (k ++ ":"%char :: " "%char :: v).
  destruct (key_line k (" "%char :: v) Hk) as (Hci & Hkey & Hafter & Hind & Hbl & Hnlk).
  unfold parseYamlDirect, yaml_vars.
  rewrite lines_of_single.
  2:{ intros [Hin|Hin]%elem_of_app; [done|].
      repeat (apply elem_of_cons in Hin as [Hin|Hin]; [discriminate|]). done. }
  unfold yaml_fuel. cbn [length yaml_loop].
  rewrite key_line_trim; [|done|right; by exists (" "%char :: c :: w), d].
  rewrite Hbl, Hci, Hkey, Hafter.
  assert (Ha : trim (" "%char :: v) = v).
  { change (" "%char :: v) with (spaces 1 ++ v). rewrite trim_spaces_app. by apply trim_fixed. }
  assert (Hlen : 2 <= length v) by (unfold v; simpl; rewrite length_app; simpl; lia).
  assert (Hbm : is_block_marker v = false).
  { unfold is_block_marker. rewrite !bool_decide_false; [done| |]; intros Hv; rewrite Hv in Hlen; simpl in Hlen; lia. }
  rewrite Ha, Hbm, !bool_decide_false by (done || (intros Hv; rewrite Hv in Hlen; simpl in Hlen; lia)).
  assert (Hs : starts_with_char "-"%char v = false) by (unfold v; cbn; by rewrite bool_decide_false by congruence).
  rewrite Hs. cbn -[key_count coerce_scalar]. by rewrite key_count_obj.
Qed.

End Yaml.
