(* ===== verification/Render.v ===== *)
(** * The template renderer: [TemplateProcessor.replaceVars]

    [replaceVars(tmpl, vars)] (src/template-editor.js, lines 797-815)
    replaces every match of [/\[\[([^\]]+)\]\]/g] by a [<bdi>] element
    tagged with the trimmed variable name and holding the variable's
    value as text; [utils.isCustomTemplate] (line 59) decides whether
    the result is a full document to be put into an iframe.

    [String.prototype.replace] with a global regular expression scans
    the template left to right: at each position either the pattern
    matches (and the match is replaced) or one character is copied.
    [tokenize] is that scan; [replaceVars] renders its tokens.  At a
    given position the pattern has at most one match: [[^\]]+] cannot
    stop before a [']'], so it takes the longest run of other
    characters, and the match exists iff [']]'] follows that run. *)

From S2P Require Import Prelude JsValue.

Module Render.

Inductive token :=
| TText (s : jstr)
| TVar (name : jstr).

Definition rbracket : ascii := "]"%char.
Definition lbracket : ascii := "["%char.

(** [[^\]]+] taken greedily: the run before the first [']']. *)
Fixpoint span_name (s : jstr) : jstr * jstr :=
  match s with
  | [] => ([], [])
  | c :: s' =>
      if bool_decide (c = rbracket) then ([], s)
      else let '(n, r) := span_name s' in (c :: n, r)
  end.

(** [/\[\[([^\]]+)\]\]/] anchored at the head of [s]: the captured name and
    the text after the match. *)
Definition match_placeholder (s : jstr) : option (jstr * jstr) :=
  match s with
  | a :: b :: s' =>
      if bool_decide (a = lbracket) && bool_decide (b = lbracket) then
        match span_name s' with
        | ((_ :: _) as n, c :: d :: r) =>
            if bool_decide (c = rbracket) && bool_decide (d = rbracket) then Some (n, r) else None
        | _ => None
        end
      else None
  | _ => None
  end.

(** The global scan; every step consumes at least one character, so
    [1 + length s] steps reach the end (the fuel only bounds the loop). *)
Fixpoint tokenize_fuel (fuel : nat) (s : jstr) : list token :=
  match fuel with
  | 0 => [TText s]
  | S f =>
      match s with
      | [] => []
      | c :: s' =>
          match match_placeholder s with
          | Some (name, rest) => TVar name :: tokenize_fuel f rest
          | None => TText [c] :: tokenize_fuel f s'
          end
      end
  end.

Definition tokenize (s : jstr) : list token := tokenize_fuel (S (length s)) s.

(** The text a token was read from. *)
Definition token_source (t : token) : jstr :=
  match t with
  | TText s => s
  | TVar name => [lbracket; lbracket] ++ name ++ [rbracket; rbracket]
  end.

(** The stringification of the replacement function: [null]/[undefined]
    as [''], arrays by [join(', ')], other objects by [JSON.stringify],
    everything else by [String(value)]. *)
Definition render_value (v : option jsval) : jstr :=
  match v with
  | None | Some JNull => []
  | Some (JArr xs) => array_join j[", "] xs
  | Some (JObj ps) => json_stringify (JObj ps)
  | Some v => to_js_string v
  end.

(** [<bdi data-xiaobaix-var="${cleanVarName}">${value}</bdi>] *)
Definition bdi_span (name value : jstr) : jstr :=
  j["<bdi data-xiaobaix-var="] ++ [dq] ++ name ++ [dq] ++ j[">"] ++ value ++ j["</bdi>"].

Definition render_token (vars : jsval) (t : token) : jstr :=
  match t with
  | TText s => s
  | TVar name => let n := trim name in bdi_span n (render_value (js_get vars n))
  end.

(** [replaceVars(tmpl, vars)]; a missing template renders as [''], as
    the empty template does. *)
Definition replaceVars (tmpl : jstr) (vars : jsval) : jstr :=
  mjoin (map (render_token vars) (tokenize tmpl)).

(** [utils.isCustomTemplate] *)
Definition isCustomTemplate (content : jstr) : bool :=
  infixb j["<html"] content || infixb j["<!DOCTYPE"] content || infixb j["<script"] content.

(** ** Lemmas *)

Lemma span_name_app (s : jstr) : (span_name s).1 ++ (span_name s).2 = s.
Proof.
  induction s as [|c s IH]; simpl; [done|].
  case_bool_decide; [done|]. destruct (span_name s) as [n r]. simpl in *. by rewrite IH.
Qed.

Lemma span_name_no_bracket (s : jstr) : rbracket ∉ (span_name s).1.
Proof.
  induction s as [|c s IH]; simpl; [apply not_elem_of_nil|].
  case_bool_decide as Hc; [apply not_elem_of_nil|]. destruct (span_name s) as [n r]. simpl in *.
  intros [Heq|Hin]%elem_of_cons; [apply Hc; by symmetry|by apply IH].
Qed.

Lemma span_name_stop (n r : jstr) : rbracket ∉ n -> span_name (n ++ rbracket :: r) = (n, rbracket :: r).
Proof.
  induction n as [|c n IH]; intros Hn; cbn [span_name app].
  - by rewrite bool_decide_true.
  - rewrite bool_decide_false by (intros ->; apply Hn; left).
    rewrite IH; [done|]. intros Hin; apply Hn; by right.
Qed.

Lemma match_placeholder_source (s name rest : jstr) :
  match_placeholder s = Some (name, rest) -> s = token_source (TVar name) ++ rest.
Proof.
  unfold match_placeholder. destruct s as [|a [|b s']]; try discriminate.
  case_bool_decide as Ha; case_bool_decide as Hb; simpl; try discriminate. subst.
  pose proof (span_name_app s') as Happ.
  destruct (span_name s') as [[|x n] [|c [|d r]]]; try discriminate.
  case_bool_decide; case_bool_decide; simpl; try discriminate. intros [= <- <-]. subst.
  simpl in *. by rewrite <- !app_assoc.
Qed.

Lemma match_placeholder_intro (name rest : jstr) :
  name <> [] -> rbracket ∉ name ->
  match_placeholder (token_source (TVar name) ++ rest) = Some (name, rest).
Proof.
  intros Hne Hn. unfold match_placeholder. cbn [token_source app].
  rewrite (bool_decide_true (lbracket = lbracket)) by done. cbn [andb].
  rewrite <- app_assoc. cbn [app]. rewrite span_name_stop by done.
  destruct name; [done|]. by rewrite (bool_decide_true (rbracket = rbracket)).
Qed.

Lemma match_placeholder_not_bracket (c : ascii) (s : jstr) :
  c <> lbracket -> match_placeholder (c :: s) = None.
Proof. intros Hc. destruct s; [done|]. simpl. by rewrite bool_decide_false. Qed.

Lemma match_placeholder_shorter (s name rest : jstr) :
  match_placeholder s = Some (name, rest) -> length rest < length s.
Proof.
  intros H%match_placeholder_source. rewrite H, length_app. simpl. lia.
Qed.

(** Enough fuel: any bound above [length s] gives the same scan. *)
Lemma tokenize_fuel_enough (n m : nat) (s : jstr) :
  length s < n -> length s < m -> tokenize_fuel n s = tokenize_fuel m s.
Proof.
  revert m s. induction n as [|n IH]; intros m s Hn Hm; [lia|].
  destruct m as [|m]; [lia|].
    destruct s as [|c s']; [done|]. cbn [tokenize_fuel].
    destruct (match_placeholder (c :: s')) as [[name rest]|] eqn:E.
    + apply match_placeholder_shorter in E. simpl in E, Hn, Hm. f_equal. apply IH; lia.
    + simpl in Hn, Hm. f_equal. apply IH; lia.
Qed.

Lemma tokenize_text (c : ascii) (s : jstr) :
  c <> lbracket -> tokenize (c :: s) = TText [c] :: tokenize s.
Proof.
  intros Hc. unfold tokenize. cbn [tokenize_fuel length].
  by rewrite match_placeholder_not_bracket.
Qed.

Lemma tokenize_var (name rest : jstr) :
  name <> [] -> rbracket ∉ name ->
  tokenize (token_source (TVar name) ++ rest) = TVar name :: tokenize rest.
Proof.
  intros Hne Hn. pose proof (match_placeholder_intro name rest Hne Hn) as Hm.
  pose proof (match_placeholder_shorter _ _ _ Hm) as Hl.
  unfold tokenize at 1. remember (token_source (TVar name) ++ rest) as s eqn:Es.
  destruct s as [|c s']; [done|]. cbn [tokenize_fuel]. rewrite Hm. f_equal.
  unfold tokenize. apply tokenize_fuel_enough; simpl in Hl |- *; lia.
Qed.

Lemma replaceVars_text (c : ascii) (s : jstr) (vars : jsval) :
  c <> lbracket -> replaceVars (c :: s) vars = c :: replaceVars s vars.
Proof. intros Hc. unfold replaceVars. by rewrite tokenize_text. Qed.

Lemma replaceVars_no_bracket (pre s : jstr) (vars : jsval) :
  lbracket ∉ pre -> replaceVars (pre ++ s) vars = pre ++ replaceVars s vars.
Proof.
  induction pre as [|c pre IH]; intros Hn; [done|]. simpl.
  rewrite replaceVars_text by (intros ->; apply Hn; left).
  rewrite IH; [done|]. intros Hin; apply Hn; by right.
Qed.

(** ** Properties *)

(** The placeholder scan is lossless: reading back the source text of
    the tokens of any template gives the template, so [replaceVars]
    copies every character outside a [[[name]]] match unchanged. *)
Theorem tokenize_roundtrip (tmpl : jstr) : mjoin (map token_source (tokenize tmpl)) = tmpl.
Proof.
  unfold tokenize. generalize (S (length tmpl)) as n. intros n. revert tmpl.
  induction n as [|n IH]; intros s; simpl; [by rewrite app_nil_r|].
  destruct s as [|c s']; [done|].
  destruct (match_placeholder (c :: s')) as [[name rest]|] eqn:E; simpl; rewrite IH; [|done].
  by apply match_placeholder_source in E.
Qed.

(** C4: a placeholder [[[name]]] preceded by text without ['['] is
    replaced by a [<bdi>] element carrying the trimmed name and the
    variable's stringified value (empty when the variable is missing),
    and the rest of the template is rendered independently. *)
Theorem replaceVars_placeholder (pre name post : jstr) (vars : jsval) :
  lbracket ∉ pre -> name <> [] -> rbracket ∉ name ->
  replaceVars (pre ++ j["[["] ++ name ++ j["]]"] ++ post) vars
  = pre ++ bdi_span (trim name) (render_value (js_get vars (trim name))) ++ replaceVars post vars.
Proof.
  intros Hpre Hne Hn. rewrite replaceVars_no_bracket by done. f_equal.
  assert (E : j["[["] ++ name ++ j["]]"] ++ post = token_source (TVar name) ++ post)
    by (simpl; by rewrite <- app_assoc).
  rewrite E. unfold replaceVars at 1. by rewrite tokenize_var.
Qed.

(** The scenario of the specification: [Hello [[name]], score: [[score]]]
    with [{name: "Aria", score: 42}]. *)
Lemma replaceVars_placeholder_witness :
  replaceVars j["Hello [[name]], score: [[score]]"]
    (JObj [(j["name"], JStr j["Aria"]); (j["score"], JNum (num_of_N 42))])
  = j["Hello "] ++ bdi_span j["name"] j["Aria"] ++ j[", score: "] ++ bdi_span j["score"] j["42"].
Proof.
  change j["Hello [[name]], score: [[score]]"] with (j["Hello "] ++ j["[["] ++ j["name"] ++ j["]]"] ++ j[", score: [[score]]"]).
  rewrite (replaceVars_placeholder j["Hello "] j["name"] j[", score: [[score]]"]).
  - vm_compute. reflexivity.
  - apply (bool_decide_unpack _). vm_compute. reflexivity.
  - discriminate.
  - apply (bool_decide_unpack _). vm_compute. reflexivity.
Defined.

(** C36: variable values are inserted without HTML escaping: a value that
    contains [<script] turns the whole rendered template into a
    "document", which [MessageHandler.process] then loads into an
    iframe with scripts enabled. *)
Theorem replaceVars_script_value_makes_document (pre name post s : jstr) (vars : jsval) :
  lbracket ∉ pre -> name <> [] -> rbracket ∉ name ->
  js_get vars (trim name) = Some (JStr s) -> infixb j["<script"] s = true ->
  isCustomTemplate (replaceVars (pre ++ j["[["] ++ name ++ j["]]"] ++ post) vars) = true.
Proof.
  intros Hpre Hne Hn Hget Hs. rewrite replaceVars_placeholder, Hget by done.
  unfold isCustomTemplate. apply orb_true_iff. right. simpl render_value.
  set (n := trim name). set (rest := replaceVars post vars).
  replace (pre ++ bdi_span n s ++ rest) with
    ((pre ++ j["<bdi data-xiaobaix-var="] ++ [dq] ++ n ++ [dq] ++ j[">"]) ++ s ++ (j["</bdi>"] ++ rest))
    by (unfold bdi_span; by rewrite <- !app_assoc).
  by apply infixb_app_r, infixb_app_l.
Qed.

Lemma replaceVars_script_value_witness :
  isCustomTemplate (replaceVars j["Status: [[mood]]"] (JObj [(j["mood"], JStr j["<script>alert(1)</script>"])])) = true.
Proof.
  change j["Status: [[mood]]"] with (j["Status: "] ++ j["[["] ++ j["mood"] ++ j["]]"] ++ []).
  apply (replaceVars_script_value_makes_document j["Status: "] j["mood"] [] j["<script>alert(1)</script>"]).
  - apply (bool_decide_unpack _). vm_compute. reflexivity.
  - discriminate.
  - apply (bool_decide_unpack _). vm_compute. reflexivity.
  - reflexivity.
  - reflexivity.
Defined.

End Render.
