(* ===== verification/State.v ===== *)
(** * The per-message state of the template engine

    The module-level [state] object of src/template-editor.js (lines
    27-50) and the settings record of a character ([DEFAULT_CHAR_SETTINGS],
    lines 18-25).  [state.messageVariables] and [state.variableHistory]
    are JavaScript [Map]s keyed by message id; they are [gmap]s here,
    since no code iterates over them in an order that matters.
    [MessageHandler.updateHistory] (lines 1107-1118) appends each
    extracted value to its variable's history, unless it is [===] to
    the last recorded value, and keeps the last five values.

    The DOM lookup cache [state.caches.dom] of [state.getElement] is
    modelled in DomCache.v; the compiled-regex cache
    [state.caches.regex] only memoises [getRegex] and is not modelled. *)

From S2P Require Import Prelude JsValue.
From stdpp Require Import gmap.

Module State.

(** [CharacterTemplateConfig]; [recentMessageCount] is whatever number
    the settings hold ([0] standing for a missing or [NaN] value, which
    the code replaces by [5]). *)
Record char_settings := CharSettings {
  cs_enabled : bool;
  cs_template : jstr;
  cs_customRegex : jstr;
  cs_limitToRecentMessages : bool;
  cs_recentMessageCount : Z;
  cs_skipFirstMessage : bool
}.

(** [DEFAULT_CHAR_SETTINGS] *)
Definition DEFAULT_CHAR_SETTINGS : char_settings :=
  CharSettings false [] j["\[([^\]]+)\]([\s\S]*?)\[\/\1\]"] false 5 false.

Abbreviation var_history := (gmap jstr (list jsval)).

Record tstate := TState {
  isStreamingCheckActive : bool;
  messageVariables : gmap nat jsval;
  template_cache : gmap jstr (option char_settings);
  variableHistory : gmap nat var_history;
  streaming_timer : bool;   (** [state.observers.streaming !== null] *)
  isGenerating : bool
}.

Definition empty_state : tstate := TState false ∅ ∅ ∅ false false.

Definition set_messageVariables (m : gmap nat jsval) (st : tstate) : tstate :=
  TState (isStreamingCheckActive st) m (template_cache st) (variableHistory st)
         (streaming_timer st) (isGenerating st).

Definition set_variableHistory (h : gmap nat var_history) (st : tstate) : tstate :=
  TState (isStreamingCheckActive st) (messageVariables st) (template_cache st) h
         (streaming_timer st) (isGenerating st).

Definition set_template_cache (c : gmap jstr (option char_settings)) (st : tstate) : tstate :=
  TState (isStreamingCheckActive st) (messageVariables st) c (variableHistory st)
         (streaming_timer st) (isGenerating st).

(** [state.clear()]: the variables and the caches, not the history. *)
Definition state_clear (st : tstate) : tstate :=
  set_template_cache ∅ (set_messageVariables ∅ st).

(** ** [MessageHandler.updateHistory] *)

Definition history_cap : nat := 5.

(** One variable: push unless [===] to the last value, then drop the
    oldest when more than [history_cap] are kept. *)
Definition push_history (h : list jsval) (v : jsval) : list jsval :=
  if match last h with None => true | Some l => negb (strict_eqb l v) end then
    let h' := h ++ [v] in
    if history_cap <? length h' then tail h' else h'
  else h.

Definition update_var_history (history : var_history) (kv : jstr * jsval) : var_history :=
  <[kv.1 := push_history (default [] (history !! kv.1)) kv.2]> history.

Definition updateHistory (messageId : nat) (vars : jsval) (st : tstate) : tstate :=
  let history := default ∅ (variableHistory st !! messageId) in
  let history' := foldl update_var_history history (enum_entries vars) in
  set_variableHistory (<[messageId := history']> (variableHistory st)) st.

(** The invariant: no variable keeps more than [history_cap] values. *)
Definition history_bounded (st : tstate) : Prop :=
  forall id h name l, variableHistory st !! id = Some h -> h !! name = Some l -> length l <= history_cap.

(** ** Lemmas *)

Definition lastn {A} (n : nat) (l : list A) : list A := drop (length l - n) l.

Lemma length_push_history (h : list jsval) (v : jsval) :
  length h <= history_cap -> length (push_history h v) <= history_cap.
Proof.
  unfold push_history. intros Hh. case_match; [|done]. cbn zeta.
  assert (Hl : length (h ++ [v]) = S (length h)) by (rewrite length_app; simpl; lia).
  destruct (history_cap <? length (h ++ [v])) eqn:E.
  - destruct (h ++ [v]) as [|x t]; simpl in *; lia.
  - apply Nat.ltb_ge in E. lia.
Qed.

Lemma var_history_bounded (history : var_history) (kvs : list (jstr * jsval)) :
  map_Forall (fun _ l => length l <= history_cap) history ->
  map_Forall (fun _ l => length l <= history_cap) (foldl update_var_history history kvs).
Proof.
  revert history. induction kvs as [|kv kvs IH]; intros history Hh; simpl; [done|].
  apply IH. unfold update_var_history. apply map_Forall_insert_2; [|done].
  apply length_push_history. destruct (history !! kv.1) eqn:E; simpl; [|unfold history_cap; lia].
  by apply (Hh kv.1).
Qed.

Lemma last_lastn {A} (n : nat) (l : list A) : 0 < n -> last (lastn n l) = last l.
Proof.
  intros Hn. unfold lastn. destruct l as [|x l] using rev_ind; [done|].
  rewrite length_app. simpl. rewrite drop_app_le by lia. by rewrite !last_snoc.
Qed.

Lemma lastn_small {A} (n : nat) (l : list A) : length l <= n -> lastn n l = l.
Proof. intros H. unfold lastn. by replace (length l - n) with 0 by lia. Qed.

Lemma length_lastn {A} (n : nat) (l : list A) : length (lastn n l) = Nat.min n (length l).
Proof. unfold lastn. rewrite length_drop. lia. Qed.

Lemma tail_drop_app {A} (k : nat) (l r : list A) :
  k < length l -> tail (drop k l ++ r) = drop (S k) l ++ r.
Proof.
  revert k. induction l as [|x l IH]; intros k Hk; simpl in Hk; [lia|].
  destruct k as [|k]; [done|]. simpl. apply IH. lia.
Qed.

(** Pushing a value different from the last one keeps the last five of
    the whole sequence. *)
Lemma push_history_lastn (pre : list jsval) (v : jsval) :
  match last pre with Some l => strict_eqb l v = false | None => True end ->
  push_history (lastn history_cap pre) v = lastn history_cap (pre ++ [v]).
Proof.
  intros Hl. unfold push_history. rewrite last_lastn by (unfold history_cap; lia).
  replace (match last pre with Some l => negb (strict_eqb l v) | None => true end) with true
    by (destruct (last pre); [by rewrite Hl|done]).
  rewrite length_app, length_lastn. cbn [length]. unfold history_cap.
  destruct (Nat.le_gt_cases (length pre) 4) as [Hs|Hs].
  - rewrite (proj2 (Nat.ltb_ge _ _)) by lia.
    rewrite (lastn_small _ pre) by lia. rewrite lastn_small; [done|rewrite length_app; simpl; lia].
  - rewrite (proj2 (Nat.ltb_lt _ _)) by lia. unfold lastn.
    rewrite tail_drop_app by lia. rewrite length_app. simpl.
    rewrite drop_app_le by lia. f_equal. f_equal. lia.
Qed.

Lemma own_entries_single {A} (k : jstr) (v : A) : own_entries [(k, v)] = [(k, v)].
Proof.
  unfold own_entries. rewrite !filter_cons.
  destruct (is_array_index k) eqn:E; repeat case_decide; simpl in *; try congruence; done.
Qed.

(** The history of one variable across passes of [updateHistory] that
    each extract a single variable. *)
Definition var_hist (id : nat) (name : jstr) (st : tstate) : list jsval :=
  default [] (variableHistory st !! id ≫= fun h => h !! name).

Lemma var_hist_updateHistory (id : nat) (name : jstr) (v : jsval) (st : tstate) :
  var_hist id name (updateHistory id (JObj [(name, v)]) st) = push_history (var_hist id name st) v.
Proof.
  unfold var_hist, updateHistory. simpl. rewrite lookup_insert_eq. simpl.
  rewrite own_entries_single. simpl. unfold update_var_history. simpl.
  rewrite lookup_insert_eq. simpl.
  destruct (variableHistory st !! id); simpl; [done|]. by rewrite lookup_empty.
Qed.

Fixpoint consecutive_distinct (l : list jsval) : Prop :=
  match l with
  | x :: ((y :: _) as l') => strict_eqb x y = false /\ consecutive_distinct l'
  | _ => True
  end.

Lemma last_distinct (pre vs : list jsval) (v : jsval) :
  consecutive_distinct (pre ++ v :: vs) ->
  match last pre with Some l => strict_eqb l v = false | None => True end.
Proof.
  induction pre as [|x pre IH]; [done|].
  destruct pre as [|y pre]; simpl in *; [tauto|]. intros [_ H]. by apply IH.
Qed.

Lemma foldl_push_history_lastn (pre vs : list jsval) :
  consecutive_distinct (pre ++ vs) ->
  foldl push_history (lastn history_cap pre) vs = lastn history_cap (pre ++ vs).
Proof.
  revert pre. induction vs as [|v vs IH]; intros pre H; simpl; [by rewrite app_nil_r|].
  rewrite push_history_lastn by (eapply last_distinct; exact H).
  rewrite IH; rewrite <- app_assoc; done.
Qed.

Lemma var_hist_passes (id : nat) (name : jstr) (vs : list jsval) (st : tstate) :
  var_hist id name (foldl (fun st v => updateHistory id (JObj [(name, v)]) st) st vs)
  = foldl push_history (var_hist id name st) vs.
Proof.
  revert st. induction vs as [|v vs IH]; intros st; simpl; [done|].
  by rewrite IH, var_hist_updateHistory.
Qed.

(** [updateHistory] keeps every variable's history within
    [history_cap] values. *)
Lemma history_bounded_updateHistory (id : nat) (vars : jsval) (st : tstate) :
  history_bounded st -> history_bounded (updateHistory id vars st).
Proof.
  intros H id' h name l. unfold updateHistory. simpl.
  destruct (decide (id' = id)) as [->|Hne].
  - rewrite lookup_insert_eq. intros [= <-] Hl.
    assert (Hb : map_Forall (fun _ l => length l <= history_cap) (default ∅ (variableHistory st !! id))).
    { destruct (variableHistory st !! id) as [h0|] eqn:E; simpl; [|apply map_Forall_empty].
      intros k l0 Hk. by apply (H id h0 k l0). }
    exact (var_history_bounded _ _ Hb name l Hl).
  - rewrite lookup_insert_ne by done. apply H.
Qed.

Lemma history_bounded_ext (st st' : tstate) :
  variableHistory st' = variableHistory st -> history_bounded st -> history_bounded st'.
Proof. intros E H id h name l. rewrite E. apply H. Qed.

Lemma history_bounded_delete (id : nat) (st st' : tstate) :
  variableHistory st' = delete id (variableHistory st) -> history_bounded st -> history_bounded st'.
Proof.
  intros E H id' h name l. rewrite E. destruct (decide (id' = id)) as [->|Hne].
  - by rewrite lookup_delete_eq.
  - rewrite lookup_delete_ne by done. apply H.
Qed.

Lemma history_bounded_empty (st : tstate) :
  variableHistory st = ∅ -> history_bounded st.
Proof. intros E id h name l. by rewrite E, lookup_empty. Qed.

Create HintDb state discriminated.
#[export] Hint Resolve history_bounded_updateHistory history_bounded_empty : state.

(** ** Properties *)

(** When each pass extracts a value different from the previous
    pass's value, the history of the variable after the passes is the
    last five values, oldest first. *)
Theorem updateHistory_keeps_last_five (id : nat) (name : jstr) (vs : list jsval) (st : tstate) :
  var_hist id name st = [] -> consecutive_distinct vs ->
  var_hist id name (foldl (fun st v => updateHistory id (JObj [(name, v)]) st) st vs)
  = lastn history_cap vs.
Proof.
  intros Hst Hvs. rewrite var_hist_passes, Hst.
  apply (foldl_push_history_lastn [] vs Hvs).
Qed.

(** The test of the specification: seven distinct values, five kept. *)
Lemma updateHistory_keeps_last_five_witness :
  var_hist 0 j["mood"]
    (foldl (fun st v => updateHistory 0 (JObj [(j["mood"], v)]) st) empty_state
       (map (fun n => JNum (num_of_N n)) [1; 2; 3; 4; 5; 6; 7]%N))
  = map (fun n => JNum (num_of_N n)) [3; 4; 5; 6; 7]%N.
Proof.
  rewrite (updateHistory_keeps_last_five 0 j["mood"]); [reflexivity|reflexivity|].
  vm_compute. tauto.
Defined.

(** An object or array value is recorded again on every pass even
    when it is structurally the same as the last recorded value: [!==]
    compares them by reference, and each pass builds fresh objects. *)
Theorem push_history_object_always (h : list jsval) (ps : list (jstr * jsval)) :
  length h <= history_cap ->
  push_history h (JObj ps) = lastn history_cap (h ++ [JObj ps]).
Proof.
  intros Hh. rewrite <- (lastn_small history_cap h Hh) at 1.
  apply push_history_lastn. by destruct (last h) as [[]|].
Qed.

Lemma push_history_object_always_witness :
  push_history [JObj [(j["hp"], JNum (num_of_N 3))]] (JObj [(j["hp"], JNum (num_of_N 3))])
  = [JObj [(j["hp"], JNum (num_of_N 3))]; JObj [(j["hp"], JNum (num_of_N 3))]].
Proof. rewrite push_history_object_always; [reflexivity|simpl; unfold history_cap; lia]. Defined.

End State.
