(* ===== verification/Handler.v ===== *)
(** * The message lifecycle: [MessageHandler] of src/template-editor.js

    The chat is a list of message records; a step of the handler reads
    and writes the chat, the module [state] (State.v) and calls the host
    ([updateMessageBlock], timers, the iframe bridge).  A [world] holds
    the chat, the state, the host calls made so far in the order the
    code makes them, and a counter standing for the fresh iframe ids
    ([Date.now()] and [Math.random()] in [IframeManager.createWrapper]).

    The handler reaches the settings, the extractor and the DOM through
    the interface [TemplateHost]: a client of those components, it is
    proved against their contract, which Settings.v and Extract.v
    discharge. *)

From S2P Require Import Prelude JsValue Render State.
From stdpp Require Import gmap.

Module Handler.
Import Render State.

(** A chat message: the fields the code reads ([msg.extra.display_text]
    is [display_text]; [None] when the property is absent). *)
Record message := Message {
  mes : jstr;
  is_user : bool;
  is_system : bool;
  force_avatar : bool;
  original_avatar : option jstr;
  msg_name : option jstr;
  display_text : option jstr
}.

Definition set_display_text (d : option jstr) (m : message) : message :=
  Message (mes m) (is_user m) (is_system m) (force_avatar m) (original_avatar m) (msg_name m) d.

(** [if (msg.extra?.display_text)]: a non-empty string. *)
Definition has_display_text (m : message) : bool :=
  match display_text m with Some (_ :: _) => true | _ => false end.

(** The host calls, in the order they are made. *)
Inductive effect :=
| ERerender (id : nat)                              (** [updateMessageBlock(id, msg, { rerenderMessage: true })] *)
| EDeferredRerender (id : nat)                      (** the same, queued in [state.pendingUpdates] by [clearAll] *)
| EWriteIframe (iframe : jstr) (content : jstr)     (** [setTimeout(() => writeContentToIframe(...), 0)] *)
| EUpdateVariables (id : nat) (vars : jsval) (delay : nat)
| ESendUpdate (id : nat) (vars : jsval) (delay : nat).

(** Work scheduled with [setTimeout] or [requestIdleCallback]. *)
Inductive task :=
| TProcess (id : nat)          (** [MessageHandler.process(id)] *)
| TSwipeFollowUp (id : nat)    (** the body of the [MESSAGE_SWIPED] timer *)
| TReapply.                    (** [updateStatus(); MessageHandler.reapplyAll()] *)

Record world := World {
  w_chat : list message;
  w_state : tstate;
  w_effects : list effect;
  w_pending : list task;
  w_iframe_seq : nat
}.

Definition set_chat (c : list message) (w : world) : world :=
  World c (w_state w) (w_effects w) (w_pending w) (w_iframe_seq w).
Definition set_state (st : tstate) (w : world) : world :=
  World (w_chat w) st (w_effects w) (w_pending w) (w_iframe_seq w).
Definition emit (e : effect) (w : world) : world :=
  World (w_chat w) (w_state w) (w_effects w ++ [e]) (w_pending w) (w_iframe_seq w).
Definition schedule (ts : list task) (w : world) : world :=
  World (w_chat w) (w_state w) (w_effects w) (w_pending w ++ ts) (w_iframe_seq w).
Definition bump_iframe_seq (w : world) : world :=
  World (w_chat w) (w_state w) (w_effects w) (w_pending w) (S (w_iframe_seq w)).
Definition map_state (f : tstate -> tstate) (w : world) : world := set_state (f (w_state w)) w.

(** [getCharTemplate] may only fill the template cache. *)
Definition only_cache (st st' : tstate) : Prop :=
  exists c, st' = set_template_cache c st.

(** What the handler needs of the rest of the program. *)
Class TemplateHost := {
  templates_enabled : bool;                                  (** [TemplateSettings.get().enabled] *)
  getCharAvatar : message -> option jstr;                    (** [utils.getCharAvatar] *)
  getCharTemplate : option jstr -> tstate -> option char_settings * tstate;
  extractVars : jstr -> jstr -> option jsval;                (** [None]: the extractor throws *)
  substituteParams : jstr -> option jstr;                    (** [None]: missing or throwing *)
  iframe_in_dom : nat -> bool;                               (** [mes[mesid=i] iframe.xiaobaix-iframe] *)
  getCharTemplate_only_cache : forall a st, only_cache st (getCharTemplate a st).2
}.

(** ** [IframeManager.createWrapper] (lines 819-846) *)

Definition quoted (s : jstr) : jstr := [dq] ++ s ++ [dq].

Definition iframe_id (seq : nat) : jstr := j["xiaobaix-"] ++ N_to_jstr (N.of_nat seq).

Definition wrapper_html (iframeId : jstr) : jstr :=
  [nl] ++ spaces 8 ++ j["<div class="] ++ quoted j["xiaobaix-iframe-wrapper"]
  ++ j[" style="] ++ quoted j["margin: 10px 0;"] ++ j[">"]
  ++ [nl] ++ spaces 12 ++ j["<iframe id="] ++ quoted iframeId ++ j[" class="] ++ quoted j["xiaobaix-iframe"]
  ++ [nl] ++ spaces 16 ++ j["style="]
  ++ quoted j["width:100%;border:none;background:transparent;overflow:hidden;margin:0;padding:0;display:block"]
  ++ [nl] ++ spaces 16 ++ j["frameborder="] ++ quoted j["0"] ++ j[" scrolling="] ++ quoted j["no"]
  ++ j["></iframe>"]
  ++ [nl] ++ spaces 8 ++ j["</div>"]
  ++ [nl] ++ spaces 4.

Section Host.
Context `{TemplateHost}.

Definition createWrapper (content : jstr) (w : world) : jstr * world :=
  let processed := default content (substituteParams content) in
  let iframeId := iframe_id (w_iframe_seq w) in
  (wrapper_html iframeId, emit (EWriteIframe iframeId processed) (bump_iframe_seq w)).

(** ** Clearing a message's render *)

(** The common body of [clearTemplate] (lines 1098-1105) and of the
    branch of [clearPreviousIframes] that finds an iframe (1087-1092). *)
Definition clearTemplate (id : nat) (msg : message) (w : world) : world :=
  let w := if has_display_text msg
           then emit (ERerender id) (set_chat (<[id := set_display_text None msg]> (w_chat w)) w)
           else w in
  map_state (fun st => set_variableHistory (delete id (variableHistory st))
                         (set_messageVariables (delete id (messageVariables st)) st)) w.

(** [for (let i = currentMessageId - 1; i >= 0; i--)]: [i] counts the
    messages still to examine. *)
Fixpoint clear_previous_loop (i : nat) (avatar : option jstr) (w : world) : world :=
  match i with
  | 0 => w
  | S i' =>
      match w_chat w !! i' with
      | None => clear_previous_loop i' avatar w
      | Some msg =>
          if is_system msg || is_user msg then clear_previous_loop i' avatar w
          else if negb (bool_decide (getCharAvatar msg = avatar)) then clear_previous_loop i' avatar w
          else if iframe_in_dom i' then clearTemplate i' msg w
          else clear_previous_loop i' avatar w
      end
  end.

Definition clearPreviousIframes (currentMessageId : nat) (avatar : option jstr) (w : world) : world :=
  if length (w_chat w) =? 0 then w else clear_previous_loop currentMessageId avatar w.

(** ** [MessageHandler.process] (lines 1022-1069) *)

(** [tmplSettings.recentMessageCount || 5] *)
Definition recent_count (ts : char_settings) : Z :=
  if (cs_recentMessageCount ts =? 0)%Z then 5%Z else cs_recentMessageCount ts.

(** [Math.max(0, ctx.chat.length - recentCount)] *)
Definition min_message_id (len : nat) (ts : char_settings) : Z :=
  Z.max 0 (Z.of_nat len - recent_count ts).

Definition outside_recent (id len : nat) (ts : char_settings) : bool :=
  cs_limitToRecentMessages ts && (Z.of_nat id <? min_message_id len ts)%Z.

Definition process (id : nat) (w : world) : world :=
  if negb templates_enabled then w else
  match w_chat w !! id with
  | None => w
  | Some msg =>
    if force_avatar msg || is_user msg || is_system msg then w else
    let avatar := getCharAvatar msg in
    let (tmpl, st) := getCharTemplate avatar (w_state w) in
    let w := set_state st w in
    match tmpl with
    | None => w
    | Some ts =>
      if cs_skipFirstMessage ts && (id =? 0) then w else
      if outside_recent id (length (w_chat w)) ts then clearTemplate id msg w else
      match extractVars (mes msg) (cs_customRegex ts) with
      | None => w
      | Some vars =>
        let w := map_state (fun st => updateHistory id vars
                   (set_messageVariables (<[id := vars]> (messageVariables st)) st)) w in
        let displayText := replaceVars (cs_template ts) vars in
        let '(displayText, w) :=
          if isCustomTemplate displayText then
            let '(wrapper, w) := createWrapper displayText w in
            let w := if cs_limitToRecentMessages ts then clearPreviousIframes id avatar w else w in
            (wrapper, emit (EUpdateVariables id vars 300) w)
          else (displayText, w) in
        let w := match displayText with
                 | [] => w
                 | _ => emit (ERerender id)
                          (set_chat (alter (set_display_text (Some displayText)) id (w_chat w)) w)
                 end in
        emit (ESendUpdate id vars 300) w
      end
    end
  end.

(** ** [MessageHandler.clearAll] (lines 1169-1189) *)

(** [delete msg.extra.display_text] when it is set. *)
Definition clear_display (m : message) : message :=
  if has_display_text m then set_display_text None m else m.

(** The ids whose render [clearAll] queues in [state.pendingUpdates],
    in the order [ctx.chat.forEach] visits them. *)
Fixpoint display_ids (i : nat) (c : list message) : list nat :=
  match c with
  | [] => []
  | m :: c' => (if has_display_text m then [i] else []) ++ display_ids (S i) c'
  end.

(** The queued renders run together in the next animation frame; they
    are the [EDeferredRerender] calls, in insertion order, written when
    [clearAll] queues them.  Within one call the ids are distinct, so
    the [Map]'s keys change nothing; an id queued again by a second
    [clearAll] before the frame (after a [process] set its display text
    anew) renders once in the browser and twice here. *)
Definition clearAll (w : world) : world :=
  if length (w_chat w) =? 0 then w else
  let w' := World (map clear_display (w_chat w)) (w_state w)
                  (w_effects w ++ map EDeferredRerender (display_ids 0 (w_chat w)))
                  (w_pending w) (w_iframe_seq w) in
  map_state (fun st => set_variableHistory ∅ (set_messageVariables ∅ st)) w'.

(** ** [MessageHandler.reapplyAll] and [processBatch] (lines 1120-1167) *)

(** The [reduce] of [reapplyAll]: the ids to process, and the state
    after the [getCharTemplate] calls (which fill the cache). *)
Fixpoint select_ids (id len : nat) (c : list message) (st : tstate) : list nat * tstate :=
  match c with
  | [] => ([], st)
  | msg :: c' =>
    if is_system msg || is_user msg then select_ids (S id) len c' st else
    let (tmpl, st) := getCharTemplate (getCharAvatar msg) st in
    let keep := match tmpl with
                | Some ts => cs_enabled ts && negb (bool_decide (cs_template ts = []))
                             && negb (outside_recent id len ts)
                | None => false
                end in
    let (ids, st) := select_ids (S id) len c' st in
    ((if keep then [id] else []) ++ ids, st)
  end.

(** [processBatch] hands the ids to idle callbacks (or to 16 ms timers)
    that call [process] on each in turn: they become pending tasks. *)
Definition processBatch (ids : list nat) (w : world) : world :=
  schedule (map TProcess ids) w.

Definition reapplyAll (w : world) : world :=
  if negb templates_enabled then w else
  if length (w_chat w) =? 0 then w else
  let w := clearAll w in
  let (ids, st) := select_ids 0 (length (w_chat w)) (w_chat w) (w_state w) in
  processBatch ids (set_state st w).

(** ** The streaming check (lines 1191-1222) *)

Definition set_flags (active timer generating : bool) (st : tstate) : tstate :=
  TState active (messageVariables st) (template_cache st) (variableHistory st) timer generating.

(** [setInterval] is set unless a timer is already running. *)
Definition startStreamingCheck (st : tstate) : tstate :=
  if streaming_timer st then st
  else set_flags (isStreamingCheckActive st) true (isGenerating st) st.

Definition stopStreamingCheck (st : tstate) : tstate :=
  if streaming_timer st then set_flags (isStreamingCheckActive st) false false st else st.

(** One firing of the 2 s interval. *)
Definition streaming_tick (w : world) : world :=
  if negb (isGenerating (w_state w)) then w else
  match length (w_chat w) with
  | 0 => w
  | S lastId =>
    match w_chat w !! lastId with
    | None => w
    | Some lastMsg =>
      if is_system lastMsg || is_user lastMsg then w else
      let (tmpl, st) := getCharTemplate (getCharAvatar lastMsg) (w_state w) in
      match tmpl with
      | Some _ => process lastId (set_state st w)
      | None => set_state st w
      end
    end
  end.

(** ** [eventHandlers] (lines 1298-1346) *)

Inductive event :=
| MESSAGE_UPDATED (id : nat)
| MESSAGE_SWIPED (id : nat)
| STREAM_TOKEN_RECEIVED
| GENERATION_ENDED
| CHAT_CHANGED
| CHARACTER_SELECTED.

Definition stop_and_deactivate (st : tstate) : tstate :=
  let st := stopStreamingCheck st in set_flags false (streaming_timer st) (isGenerating st) st.

Definition handle_event (e : event) (w : world) : world :=
  match e with
  | MESSAGE_UPDATED id => schedule [TProcess id] w
  | MESSAGE_SWIPED id => schedule [TSwipeFollowUp id] (map_state stop_and_deactivate w)
  | STREAM_TOKEN_RECEIVED =>
      if isStreamingCheckActive (w_state w) then w
      else map_state (fun st => startStreamingCheck (set_flags true (streaming_timer st) true st)) w
  | GENERATION_ENDED =>
      let w := map_state stop_and_deactivate w in
      match length (w_chat w) with 0 => w | S lastId => schedule [TProcess lastId] w end
  | CHAT_CHANGED | CHARACTER_SELECTED => schedule [TReapply] (map_state state_clear w)
  end.

(** The [MESSAGE_SWIPED] timer: [process(id)], then the variables are
    extracted again and sent to the iframe 300 ms later. *)
Definition swipe_follow_up (id : nat) (w : world) : world :=
  let w := process id w in
  match w_chat w !! id with
  | None => w
  | Some msg =>
    if is_system msg || is_user msg then w else
    let (tmpl, st) := getCharTemplate (getCharAvatar msg) (w_state w) in
    let w := set_state st w in
    match tmpl with
    | None => w
    | Some ts =>
      match extractVars (mes msg) (cs_customRegex ts) with
      | None => w
      | Some vars => emit (EUpdateVariables id vars 300) w
      end
    end
  end.

Definition run_task (t : task) (w : world) : world :=
  match t with
  | TProcess id => process id w
  | TSwipeFollowUp id => swipe_follow_up id w
  | TReapply => reapplyAll w
  end.

(** [cleanup] (lines 1486-1504): the streaming timer stops, the state is
    cleared and so is the history; [isStreamingCheckActive] is left as
    it was. *)
Definition cleanup (w : world) : world :=
  map_state (fun st => set_variableHistory ∅ (state_clear (stopStreamingCheck st))) w.

(** ** The [innerHTML] interceptor (lines 1224-1296) *)

(** What the patched setter does with the assignment. *)
Inductive write_result :=
| Writes (html : jstr)   (** [interceptor.originalSetter.call(this, html)] *)
| Skips                  (** returns without writing *)
| Throws.                (** [extractVars] throws out of the setter *)

(** [target] is the message id of the element when it is a [.mes_text]
    inside a [.mes] whose [mesid] parses, and [has_wrapper] whether the
    element already holds a [.xiaobaix-iframe-wrapper]. *)
Definition intercept (target : option nat) (has_wrapper : bool) (value : jstr) (w : world)
    : world * write_result :=
  if negb templates_enabled then (w, Writes value) else
  match target with
  | None => (w, Writes value)
  | Some id =>
    match w_chat w !! id with
    | None => (w, Writes value)
    | Some msg =>
      if is_system msg || is_user msg then (w, Writes value) else
      let (tmpl, st) := getCharTemplate (getCharAvatar msg) (w_state w) in
      let w := set_state st w in
      match tmpl with
      | None => (w, Writes value)
      | Some ts =>
        if cs_skipFirstMessage ts && (id =? 0) then (w, Skips) else
        if outside_recent id (length (w_chat w)) ts
        then (set_chat (<[id := clear_display msg]> (w_chat w)) w, Writes (mes msg)) else
        if has_wrapper then (w, Skips) else
        match extractVars (mes msg) (cs_customRegex ts) with
        | None => (w, Throws)
        | Some vars =>
          let w := map_state (fun st => updateHistory id vars
                     (set_messageVariables (<[id := vars]> (messageVariables st)) st)) w in
          let displayText := replaceVars (cs_template ts) vars in
          if bool_decide (trim displayText = []) then (w, Writes value) else
          if isCustomTemplate displayText then
            let '(wrapper, w) := createWrapper displayText w in
            (emit (EUpdateVariables id vars 150) w, Writes wrapper)
          else (set_chat (alter (set_display_text (Some displayText)) id (w_chat w)) w, Writes value)
        end
      end
    end
  end.

(** The [MutationObserver] of [initTemplateEditor] (lines 1515-1527):
    the ids of the message elements added to [#chat] go to
    [processBatch]. *)
Definition observe_new_messages (ids : list nat) (w : world) : world :=
  if negb templates_enabled then w else
  match ids with [] => w | _ => processBatch ids w end.

Definition set_pending (ts : list task) (w : world) : world :=
  World (w_chat w) (w_state w) (w_effects w) ts (w_iframe_seq w).

(** The behaviours of the handler: an event, a pending task (in any
    order: the delays do not order them against host events), a tick of
    the running interval, an edit of the chat by the host, [cleanup],
    message elements added to the chat, or an [innerHTML] assignment to
    a message element. *)
Inductive step : world -> world -> Prop :=
| StepEvent e w : step w (handle_event e w)
| StepTask pre t post w : w_pending w = pre ++ t :: post -> step w (run_task t (set_pending (pre ++ post) w))
| StepTick w : streaming_timer (w_state w) = true -> step w (streaming_tick w)
| StepChat c w : step w (set_chat c w)
| StepCleanup w : step w (cleanup w)
| StepObserve ids w : step w (observe_new_messages ids w)
| StepIntercept target has_wrapper value w :
    step w (intercept target has_wrapper value w).1.

Definition initial_world (chat : list message) : world := World chat empty_state [] [] 0.

Definition reachable (chat : list message) (w : world) : Prop := rtc step (initial_world chat) w.

End Host.

(** ** Examples

    A host where every message with an avatar uses the template [ts]
    and the extractor returns [vars]. *)

Definition fixed_template (ts : char_settings) (a : option jstr) (st : tstate)
    : option char_settings * tstate :=
  (match a with Some _ => Some ts | None => None end, st).

Lemma fixed_template_only_cache (ts : char_settings) (a : option jstr) (st : tstate) :
  only_cache st (fixed_template ts a st).2.
Proof. exists (template_cache st). by destruct st. Qed.

Definition example_host (ts : char_settings) (vars : jsval) : TemplateHost := {|
  templates_enabled := true;
  getCharAvatar := original_avatar;
  getCharTemplate := fixed_template ts;
  extractVars := fun _ _ => Some vars;
  substituteParams := fun s => Some s;
  iframe_in_dom := fun _ => false;
  getCharTemplate_only_cache := fixed_template_only_cache ts
|}.

Definition ex_vars : jsval := JObj [(j["hp"], JNum (num_of_N 42))].
Definition ex_msg : message := Message j["[hp]42[/hp]"] false false false (Some j["aria.png"]) None None.
Definition ex_inline : char_settings := CharSettings true j["HP: [[hp]]"] [] false 5 false.
Definition ex_page : char_settings := CharSettings true j["<html>[[hp]]</html>"] [] false 5 false.
Definition ex_window (n : Z) (skip : bool) : char_settings :=
  CharSettings true j["HP: [[hp]]"] [] true n skip.

(** ** Lemmas *)

(** Reduce the projections of the world updates, and nothing else. *)
Ltac wsimpl := try cbn [w_state w_chat w_effects w_pending w_iframe_seq emit bump_iframe_seq
                    map_state set_state set_chat schedule set_pending fst snd
                    set_variableHistory set_messageVariables set_template_cache set_flags updateHistory
                    messageVariables variableHistory template_cache isStreamingCheckActive
                    streaming_timer isGenerating] in *.

Section Lemmas.
Context `{TemplateHost}.

Definition flags (st : tstate) : bool * bool * bool :=
  (isStreamingCheckActive st, streaming_timer st, isGenerating st).

(** [st'] keeps the streaming flags of [st] and the history bound. *)
Definition tame (st st' : tstate) : Prop :=
  flags st' = flags st /\ (history_bounded st -> history_bounded st').

Lemma tame_refl (st : tstate) : tame st st.
Proof. done. Qed.

Lemma tame_trans (st1 st2 st3 : tstate) : tame st1 st2 -> tame st2 st3 -> tame st1 st3.
Proof. intros [E1 H1] [E2 H2]. split; [congruence|tauto]. Qed.

Lemma tame_getCharTemplate (a : option jstr) (st : tstate) : tame st (getCharTemplate a st).2.
Proof.
  destruct (getCharTemplate_only_cache a st) as [c ->].
  split; [done|]. by apply (history_bounded_ext st).
Qed.

Lemma tame_record (id : nat) (vars : jsval) (m : gmap nat jsval) (st : tstate) :
  tame st (updateHistory id vars (set_messageVariables m st)).
Proof.
  split; [done|]. intros Hb. apply history_bounded_updateHistory.
  by apply (history_bounded_ext st).
Qed.

Lemma tame_delete (id : nat) (m : gmap nat jsval) (st : tstate) :
  tame st (set_variableHistory (delete id (variableHistory st)) (set_messageVariables m st)).
Proof. split; [done|]. by apply (history_bounded_delete id st). Qed.

Lemma tame_forget (m : gmap nat jsval) (st : tstate) :
  tame st (set_variableHistory ∅ (set_messageVariables m st)).
Proof. split; [done|]. intros _. by apply history_bounded_empty. Qed.

Lemma tame_state_clear (st : tstate) : tame st (state_clear st).
Proof. split; [done|]. by apply (history_bounded_ext st). Qed.

#[local] Hint Resolve tame_refl tame_getCharTemplate tame_record tame_delete tame_forget
  tame_state_clear : state.

(** Apply [tame_trans] through the state a branch of an operation ends in. *)
Ltac tame_step := first [ by eauto with state | eapply tame_trans; [eassumption|] ].

Lemma tame_post_record (id : nat) (vars : jsval) (m : gmap nat jsval) (st st' : tstate) :
  tame st st' -> tame st (updateHistory id vars (set_messageVariables m st')).
Proof. intros Ht. eapply tame_trans; [exact Ht|apply tame_record]. Qed.

Lemma tame_post_getCharTemplate (a : option jstr) (st st' : tstate) :
  tame st st' -> tame st (getCharTemplate a st').2.
Proof. intros Ht. eapply tame_trans; [exact Ht|apply tame_getCharTemplate]. Qed.

Lemma tame_clearTemplate (id : nat) (msg : message) (w : world) :
  tame (w_state w) (w_state (clearTemplate id msg w)).
Proof. unfold clearTemplate. case_match; apply tame_delete. Qed.

Lemma tame_clear_previous_loop (i : nat) (avatar : option jstr) (w : world) :
  tame (w_state w) (w_state (clear_previous_loop i avatar w)).
Proof.
  induction i as [|i IH]; simpl; [done|].
  repeat case_match; auto using tame_clearTemplate.
Qed.

Lemma tame_post_clearTemplate (id : nat) (msg : message) (st : tstate) (w : world) :
  tame st (w_state w) -> tame st (w_state (clearTemplate id msg w)).
Proof. intros Ht. eapply tame_trans; [exact Ht|apply tame_clearTemplate]. Qed.

Lemma tame_post_clearPreviousIframes (id : nat) (avatar : option jstr) (st : tstate) (w : world) :
  tame st (w_state w) -> tame st (w_state (clearPreviousIframes id avatar w)).
Proof.
  intros Ht. eapply tame_trans; [exact Ht|]. unfold clearPreviousIframes.
  case_match; [done|apply tame_clear_previous_loop].
Qed.

#[local] Hint Resolve tame_post_record tame_post_getCharTemplate tame_post_clearTemplate
  tame_post_clearPreviousIframes : state.
#[local] Hint Extern 2 (tame _ (w_state _)) => progress wsimpl : state.

(** Split an operation into its branches and chain the [tame] steps. *)
Ltac tame_branches :=
  repeat (case_match || (wsimpl; progress simplify_eq)); wsimpl; eauto with state.

Lemma tame_process (id : nat) (w : world) : tame (w_state w) (w_state (process id w)).
Proof.
  unfold process. destruct templates_enabled; [|done]. simpl.
  destruct (w_chat w !! id) as [msg|]; [|done].
  case_match; [done|].
  pose proof (tame_getCharTemplate (getCharAvatar msg) (w_state w)) as Ht.
  destruct (getCharTemplate _ _) as [tmpl st]. wsimpl. tame_branches.
Qed.

Lemma tame_clearAll (w : world) : tame (w_state w) (w_state (clearAll w)).
Proof. unfold clearAll. case_match; [done|]. apply tame_forget. Qed.

Lemma tame_select_ids (id len : nat) (c : list message) (st : tstate) :
  tame st (select_ids id len c st).2.
Proof.
  revert id st. induction c as [|msg c IH]; intros id st; simpl; [done|].
  case_match; [apply IH|].
  pose proof (tame_getCharTemplate (getCharAvatar msg) st) as Ht.
  destruct (getCharTemplate _ _) as [tmpl st']. simpl in Ht.
  specialize (IH (S id) st'). destruct (select_ids _ _ _ _) as [ids st'']. simpl in *.
  by eapply tame_trans.
Qed.

Lemma tame_reapplyAll (w : world) : tame (w_state w) (w_state (reapplyAll w)).
Proof.
  unfold reapplyAll. destruct templates_enabled; [|done]. simpl. case_match; [done|].
  pose proof (tame_clearAll w) as Ht.
  pose proof (tame_select_ids 0 (length (w_chat (clearAll w))) (w_chat (clearAll w)) (w_state (clearAll w))) as Hs.
  destruct (select_ids _ _ _ _) as [ids st]. simpl in *. by eapply tame_trans.
Qed.

Lemma tame_streaming_tick (w : world) : tame (w_state w) (w_state (streaming_tick w)).
Proof.
  unfold streaming_tick. case_match; [done|]. destruct (length (w_chat w)) as [|n]; [done|].
  destruct (w_chat w !! n) as [m|]; [|done]. case_match; [done|].
  pose proof (tame_getCharTemplate (getCharAvatar m) (w_state w)) as Ht.
  destruct (getCharTemplate _ _) as [[ts|] st]; simpl in *; [|done].
  eapply tame_trans; [exact Ht|]. apply (tame_process n (set_state st w)).
Qed.

Lemma tame_swipe_follow_up (id : nat) (w : world) : tame (w_state w) (w_state (swipe_follow_up id w)).
Proof.
  unfold swipe_follow_up. pose proof (tame_process id w) as Hp.
  destruct (w_chat (process id w) !! id) as [msg|]; [|done]. case_match; [done|].
  pose proof (tame_post_getCharTemplate (getCharAvatar msg) _ _ Hp) as Ht.
  destruct (getCharTemplate _ _) as [tmpl st]. wsimpl. tame_branches.
Qed.

Lemma tame_intercept (target : option nat) (has_wrapper : bool) (value : jstr) (w : world) :
  tame (w_state w) (w_state (intercept target has_wrapper value w).1).
Proof.
  unfold intercept. destruct templates_enabled; [|done]. simpl.
  destruct target as [id|]; [|done]. destruct (w_chat w !! id) as [msg|]; [|done].
  case_match; [done|].
  pose proof (tame_getCharTemplate (getCharAvatar msg) (w_state w)) as Ht.
  destruct (getCharTemplate _ _) as [tmpl st]. wsimpl. tame_branches.
Qed.

Lemma tame_run_task (t : task) (w : world) : tame (w_state w) (w_state (run_task t w)).
Proof.
  destruct t; simpl; auto using tame_process, tame_swipe_follow_up, tame_reapplyAll.
Qed.


(** The invariant of the handler's state: every history is bounded, a
    generating flag implies a running interval, and a running interval
    implies the active flag. *)
Definition streaming_ok (st : tstate) : Prop :=
  (isGenerating st = true -> streaming_timer st = true) /\
  (streaming_timer st = true -> isStreamingCheckActive st = true).

Definition handler_inv (w : world) : Prop := history_bounded (w_state w) /\ streaming_ok (w_state w).

Lemma handler_inv_tame (w w' : world) :
  tame (w_state w) (w_state w') -> handler_inv w -> handler_inv w'.
Proof.
  intros [Hf Hb] [Hh Hs]. split; [by apply Hb|]. revert Hs. unfold flags, streaming_ok in *.
  destruct (w_state w), (w_state w'); simpl in *; by simplify_eq.
Qed.

Lemma streaming_ok_stop_and_deactivate (st : tstate) :
  streaming_ok st -> streaming_ok (stop_and_deactivate st).
Proof.
  destruct st as [a mv c h [] []]; unfold streaming_ok; cbn; intuition congruence.
Qed.

Lemma history_bounded_stop_and_deactivate (st : tstate) :
  history_bounded st -> history_bounded (stop_and_deactivate st).
Proof.
  apply history_bounded_ext. unfold stop_and_deactivate, stopStreamingCheck. by case_match.
Qed.

Lemma handler_inv_stop (w : world) : handler_inv w -> handler_inv (map_state stop_and_deactivate w).
Proof.
  intros [Hh Hs]. split; [by apply history_bounded_stop_and_deactivate|].
  by apply streaming_ok_stop_and_deactivate.
Qed.

Lemma handler_inv_event (e : event) (w : world) : handler_inv w -> handler_inv (handle_event e w).
Proof.
  intros Hi. destruct e; cbn [handle_event].
  - done.
  - by apply handler_inv_stop.
  - case_match; [done|]. destruct Hi as [Hh Hs]. split.
    { revert Hh. apply history_bounded_ext. wsimpl. unfold startStreamingCheck. by case_match. }
    revert Hs. wsimpl. unfold startStreamingCheck.
    destruct (w_state w) as [a mv c h [] []]; unfold streaming_ok; cbn; intuition congruence.
  - pose proof (handler_inv_stop w Hi). by case_match.
  - apply (handler_inv_tame w); [apply tame_state_clear|done].
  - apply (handler_inv_tame w); [apply tame_state_clear|done].
Qed.

Lemma handler_inv_cleanup (w : world) : handler_inv w -> handler_inv (cleanup w).
Proof.
  intros [Hh Hs]. split; [by apply history_bounded_empty|].
  revert Hs. unfold cleanup. wsimpl. unfold stopStreamingCheck, state_clear. destruct (w_state w) as [a mv c h [] []]; unfold streaming_ok; cbn; intuition congruence.
Qed.

Lemma handler_inv_step (w w' : world) : step w w' -> handler_inv w -> handler_inv w'.
Proof.
  intros Hs Hi. destruct Hs.
  - by apply handler_inv_event.
  - apply (handler_inv_tame (set_pending (pre ++ post) w)); [apply tame_run_task|done].
  - apply (handler_inv_tame w); [apply tame_streaming_tick|done].
  - done.
  - by apply handler_inv_cleanup.
  - unfold observe_new_messages. destruct templates_enabled; [|done]. simpl. destruct ids; exact Hi.
  - apply (handler_inv_tame w); [apply tame_intercept|done].
Qed.

Lemma handler_inv_rtc (w w' : world) : rtc step w w' -> handler_inv w -> handler_inv w'.
Proof. induction 1; eauto using handler_inv_step. Qed.

Lemma handler_inv_initial (chat : list message) : handler_inv (initial_world chat).
Proof. split; [by apply history_bounded_empty|]. by split. Qed.

(** A token event does nothing while the check is marked active. *)
Lemma token_ignored_when_active (w : world) (k : nat) :
  isStreamingCheckActive (w_state w) = true ->
  Nat.iter k (handle_event STREAM_TOKEN_RECEIVED) w = w.
Proof.
  intros Ha. induction k as [|k IH]; [done|]. rewrite Nat.iter_succ, IH. simpl. by rewrite Ha.
Qed.

Lemma only_cache_trans (st1 st2 st3 : tstate) :
  only_cache st1 st2 -> only_cache st2 st3 -> only_cache st1 st3.
Proof. intros [c1 ->] [c2 ->]. by exists c2. Qed.

Lemma select_ids_only_cache (id len : nat) (c : list message) (st : tstate) :
  only_cache st (select_ids id len c st).2.
Proof.
  revert id st. induction c as [|msg c IH]; intros id st; simpl.
  - exists (template_cache st). by destruct st.
  - case_match; [apply IH|].
    pose proof (getCharTemplate_only_cache (getCharAvatar msg) st) as Hg.
    destruct (getCharTemplate _ _) as [tmpl st']. simpl in Hg.
    specialize (IH (S id) st'). destruct (select_ids _ _ _ _) as [ids st'']. simpl in *.
    by eapply only_cache_trans.
Qed.

(** The messages [reapplyAll] hands to [processBatch]: not from the user
    or the system, and with an enabled, non-empty template under which
    the id is inside the window. *)
Definition reapply_eligible (len id : nat) (msg : message) : Prop :=
  is_system msg || is_user msg = false /\
  exists st ts st', getCharTemplate (getCharAvatar msg) st = (Some ts, st') /\
    cs_enabled ts = true /\ cs_template ts <> [] /\ outside_recent id len ts = false.

Lemma select_ids_spec (id0 len : nat) (c : list message) (st : tstate) :
  Forall (fun id => id0 <= id /\ exists msg, c !! (id - id0) = Some msg /\ reapply_eligible len id msg)
    (select_ids id0 len c st).1.
Proof.
  revert id0 st. induction c as [|msg c IH]; intros id0 st; simpl; [done|].
  assert (Hs : forall st', Forall (fun id => id0 <= id /\ exists m, (msg :: c) !! (id - id0) = Some m
                                   /\ reapply_eligible len id m) (select_ids (S id0) len c st').1).
  { intros st'. eapply Forall_impl; [apply IH|]. intros id [Hle (m & Hm & He)]. split; [lia|].
    exists m. split; [|done]. replace (id - id0) with (S (id - S id0)) by lia. done. }
  case_match eqn:Er; [apply Hs|].
  destruct (getCharTemplate _ _) as [tmpl st'] eqn:Eg.
  specialize (Hs st'). destruct (select_ids _ _ _ _) as [ids st'']. simpl in *.
  apply Forall_app. split; [|done].
  destruct tmpl as [ts|]; [|done]. case_match eqn:Ek; [|done]. constructor; [|done].
  split; [lia|]. exists msg. rewrite Nat.sub_diag. split; [done|]. split; [done|].
  exists st, ts, st'. apply andb_prop in Ek as [Ek Ho]. apply andb_prop in Ek as [Ee Et].
  apply negb_true_iff in Ho, Et. rewrite bool_decide_eq_false in Et. done.
Qed.

(** The branch of [process] that clears a message outside the window. *)
Lemma process_outside_recent_eq (id : nat) (w : world) (msg : message) (ts : char_settings) (st : tstate) :
  templates_enabled = true -> w_chat w !! id = Some msg ->
  force_avatar msg || is_user msg || is_system msg = false ->
  getCharTemplate (getCharAvatar msg) (w_state w) = (Some ts, st) ->
  cs_skipFirstMessage ts && (id =? 0) = false ->
  outside_recent id (length (w_chat w)) ts = true ->
  process id w = clearTemplate id msg (set_state st w).
Proof.
  intros Hen Hm Hr Hg Hs Ho. unfold process. rewrite Hen, Hm. simpl.
  rewrite Hr, Hg. wsimpl. by rewrite Hs, Ho.
Qed.

(** What [clearTemplate] leaves of a message and of its state. *)
Lemma clearTemplate_spec (id : nat) (msg : message) (w : world) :
  w_chat w !! id = Some msg ->
  let w' := clearTemplate id msg w in
  w_chat w' !! id = Some (clear_display msg) /\
  (forall k, k <> id -> w_chat w' !! k = w_chat w !! k) /\
  messageVariables (w_state w') !! id = None /\ variableHistory (w_state w') !! id = None /\
  w_effects w' = w_effects w ++ (if has_display_text msg then [ERerender id] else []).
Proof.
  intros Hm. cbv zeta. unfold clearTemplate, clear_display.
  destruct (has_display_text msg); wsimpl;
    (split; [|split; [|by rewrite ?lookup_delete_eq, ?app_nil_r]]); try done.
  - rewrite list_lookup_insert_eq; [done|]. by eapply lookup_lt_Some.
  - intros k Hk. by rewrite list_lookup_insert_ne.
Qed.

End Lemmas.

(** ** Properties *)

Section Claims.
Context `{TemplateHost}.

(** C1: when a message passes every guard of [process] and its
    rendered template is not a document, [process] records the
    extracted variables, stores the rendered text as the message's
    display text (when it is not empty), asks the host to re-render
    that message and schedules the push of the variables to its
    iframe; no other message changes. *)
Theorem process_renders_inline (id : nat) (w : world) (msg : message) (ts : char_settings)
    (st : tstate) (vars : jsval) :
  templates_enabled = true -> w_chat w !! id = Some msg ->
  force_avatar msg || is_user msg || is_system msg = false ->
  getCharTemplate (getCharAvatar msg) (w_state w) = (Some ts, st) ->
  cs_skipFirstMessage ts && (id =? 0) = false ->
  outside_recent id (length (w_chat w)) ts = false ->
  extractVars (mes msg) (cs_customRegex ts) = Some vars ->
  isCustomTemplate (replaceVars (cs_template ts) vars) = false ->
  let text := replaceVars (cs_template ts) vars in
  let w' := process id w in
  w_chat w' !! id = Some (if bool_decide (text = []) then msg else set_display_text (Some text) msg) /\
  (forall k, k <> id -> w_chat w' !! k = w_chat w !! k) /\
  messageVariables (w_state w') !! id = Some vars /\
  w_effects w' = w_effects w ++ (if bool_decide (text = []) then [] else [ERerender id])
                 ++ [ESendUpdate id vars 300].
Proof.
  intros Hen Hm Hr Hg Hs Ho He Hc. cbv zeta. unfold process. rewrite Hen, Hm. cbn [negb].
  rewrite Hr, Hg. wsimpl. rewrite Hs, Ho, He, Hc.
  destruct (replaceVars (cs_template ts) vars) as [|a t]; wsimpl;
    (case_bool_decide; [|try congruence]); try discriminate.
  - rewrite lookup_insert_eq. repeat split; done.
  - rewrite list_lookup_alter, Hm, lookup_insert_eq. repeat split; try done.
    + by case_decide.
    + intros k Hk. by rewrite list_lookup_alter_ne.
    + by rewrite <- app_assoc.
Qed.

(** [process] leaves the world untouched for a message written by
    the user, a system message, or a message with a forced avatar. *)
Theorem process_ignores_role (id : nat) (w : world) (msg : message) :
  w_chat w !! id = Some msg -> force_avatar msg || is_user msg || is_system msg = true ->
  process id w = w.
Proof.
  intros Hm Hr. unfold process. destruct templates_enabled; [|done]. cbn [negb].
  by rewrite Hm, Hr.
Qed.

(** C7: with "skip first message" set, processing message 0 writes no
    display text, creates no iframe, calls no host function and records
    no variables: at most the template cache is filled. *)
Theorem process_skip_first (w : world) (msg : message) (ts : char_settings) (st : tstate) :
  w_chat w !! 0 = Some msg ->
  getCharTemplate (getCharAvatar msg) (w_state w) = (Some ts, st) ->
  cs_skipFirstMessage ts = true ->
  let w' := process 0 w in
  w_chat w' = w_chat w /\ w_effects w' = w_effects w /\ w_pending w' = w_pending w /\
  w_iframe_seq w' = w_iframe_seq w /\
  messageVariables (w_state w') = messageVariables (w_state w) /\
  variableHistory (w_state w') = variableHistory (w_state w).
Proof.
  intros Hm Hg Hs. cbv zeta. unfold process. destruct templates_enabled; [|done]. cbn [negb].
  rewrite Hm. case_match; [done|].
  pose proof (getCharTemplate_only_cache (getCharAvatar msg) (w_state w)) as [c Hc].
  rewrite Hg in Hc |- *. simpl in Hc. subst st. wsimpl. by rewrite Hs.
Qed.

(** C6: with "limit to recent messages" set, a message whose id is
    below [max(0, L - N)] has its display text removed (the host is asked
    to re-render it if it had one) and its variables and history
    dropped; no other message changes. *)
Theorem process_clears_outside_window (id : nat) (w : world) (msg : message) (ts : char_settings)
    (st : tstate) :
  templates_enabled = true -> w_chat w !! id = Some msg ->
  force_avatar msg || is_user msg || is_system msg = false ->
  getCharTemplate (getCharAvatar msg) (w_state w) = (Some ts, st) ->
  cs_skipFirstMessage ts && (id =? 0) = false ->
  cs_limitToRecentMessages ts = true ->
  (Z.of_nat id < Z.max 0 (Z.of_nat (length (w_chat w)) - recent_count ts))%Z ->
  let w' := process id w in
  w_chat w' !! id = Some (clear_display msg) /\
  (forall k, k <> id -> w_chat w' !! k = w_chat w !! k) /\
  messageVariables (w_state w') !! id = None /\ variableHistory (w_state w') !! id = None /\
  w_effects w' = w_effects w ++ (if has_display_text msg then [ERerender id] else []).
Proof.
  intros Hen Hm Hr Hg Hs Hl Hlt. cbv zeta.
  rewrite (process_outside_recent_eq id w msg ts st); try done.
  - exact (clearTemplate_spec id msg (set_state st w) Hm).
  - unfold outside_recent, min_message_id. rewrite Hl. simpl. lia.
Qed.

(** a negative [recentMessageCount] (the editor stores any
    integer [parseInt] returns) puts every message outside the window:
    each one [process] reaches has its render cleared. *)
Theorem process_negative_count_clears (id : nat) (w : world) (msg : message) (ts : char_settings)
    (st : tstate) :
  templates_enabled = true -> w_chat w !! id = Some msg ->
  force_avatar msg || is_user msg || is_system msg = false ->
  getCharTemplate (getCharAvatar msg) (w_state w) = (Some ts, st) ->
  cs_skipFirstMessage ts && (id =? 0) = false ->
  cs_limitToRecentMessages ts = true -> (cs_recentMessageCount ts < 0)%Z ->
  w_chat (process id w) !! id = Some (clear_display msg) /\
  variableHistory (w_state (process id w)) !! id = None.
Proof.
  intros Hen Hm Hr Hg Hs Hl Hneg.
  rewrite (process_outside_recent_eq id w msg ts st); try done.
  - pose proof (clearTemplate_spec id msg (set_state st w) Hm) as (H1 & _ & _ & H2 & _). done.
  - apply lookup_lt_Some in Hm. unfold outside_recent, min_message_id, recent_count. rewrite Hl.
    destruct (cs_recentMessageCount ts =? 0)%Z eqn:E; [lia|]. simpl. lia.
Qed.

(** when the rendered template is a document ([<html],
    [<!DOCTYPE] or [<script]) and the window is not limited, the display
    text becomes the wrapper of a fresh iframe (with no [sandbox]
    attribute), the document after [substituteParams] is written into
    that iframe, and the variables are pushed to it twice, 300 ms later,
    by [updateVariables] and by [sendUpdate]. *)
Theorem process_wraps_document (id : nat) (w : world) (msg : message) (ts : char_settings)
    (st : tstate) (vars : jsval) :
  templates_enabled = true -> w_chat w !! id = Some msg ->
  force_avatar msg || is_user msg || is_system msg = false ->
  getCharTemplate (getCharAvatar msg) (w_state w) = (Some ts, st) ->
  cs_skipFirstMessage ts && (id =? 0) = false ->
  cs_limitToRecentMessages ts = false ->
  extractVars (mes msg) (cs_customRegex ts) = Some vars ->
  isCustomTemplate (replaceVars (cs_template ts) vars) = true ->
  let text := replaceVars (cs_template ts) vars in
  let iframe := iframe_id (w_iframe_seq w) in
  let w' := process id w in
  w_chat w' !! id = Some (set_display_text (Some (wrapper_html iframe)) msg) /\
  messageVariables (w_state w') !! id = Some vars /\
  w_iframe_seq w' = S (w_iframe_seq w) /\
  w_effects w' = w_effects w ++ [EWriteIframe iframe (default text (substituteParams text));
                                 EUpdateVariables id vars 300; ERerender id; ESendUpdate id vars 300].
Proof.
  intros Hen Hm Hr Hg Hs Hl He Hc. cbv zeta. unfold process. rewrite Hen, Hm. cbn [negb].
  rewrite Hr, Hg. wsimpl. rewrite Hs.
  replace (outside_recent id (length (w_chat w)) ts) with false by (unfold outside_recent; by rewrite Hl).
  rewrite He, Hc. unfold createWrapper. rewrite Hl. wsimpl.
  remember (wrapper_html (iframe_id (w_iframe_seq w))) as wr eqn:Ew.
  destruct wr as [|c t]; [by unfold wrapper_html in Ew|]. wsimpl.
  rewrite list_lookup_alter, Hm, lookup_insert_eq. repeat split; try done.
  - by case_decide.
  - by rewrite <- !app_assoc.
Qed.

(** the [innerHTML] interceptor, for message 0 of a character
    whose template skips the first message, returns without calling the
    original setter: whatever the host assigns to that element is
    dropped, so the first message is never shown, not even untemplated. *)
Theorem intercept_skip_first_drops_write (w : world) (msg : message) (ts : char_settings)
    (st : tstate) (has_wrapper : bool) (value : jstr) :
  templates_enabled = true -> w_chat w !! 0 = Some msg ->
  is_system msg || is_user msg = false ->
  getCharTemplate (getCharAvatar msg) (w_state w) = (Some ts, st) ->
  cs_skipFirstMessage ts = true ->
  (intercept (Some 0) has_wrapper value w).2 = Skips.
Proof.
  intros Hen Hm Hr Hg Hs. unfold intercept. rewrite Hen, Hm. cbn [negb].
  rewrite Hr, Hg. wsimpl. by rewrite Hs.
Qed.

(** C2: in every world reachable from a fresh chat, through any
    interleaving of host events, pending timers, ticks of the streaming
    interval, edits of the chat, [cleanup] and [innerHTML] assignments,
    every variable history holds at most five values, [isGenerating]
    implies a running interval, and a running interval implies
    [isStreamingCheckActive]. *)
Theorem reachable_handler_inv (chat : list message) (w : world) :
  reachable chat w -> handler_inv w.
Proof. intros Hr. exact (handler_inv_rtc _ _ Hr (handler_inv_initial chat)). Qed.

(** [cleanup] stops the interval but leaves
    [isStreamingCheckActive] set, so no later [STREAM_TOKEN_RECEIVED]
    starts the check again (until a [GENERATION_ENDED] or a swipe):
    after the module is switched off and on during a generation, the
    streaming re-render does not run for the rest of that generation. *)
Theorem cleanup_streaming_not_restarted (w : world) (k : nat) :
  isStreamingCheckActive (w_state w) = true ->
  let w' := Nat.iter k (handle_event STREAM_TOKEN_RECEIVED) (cleanup w) in
  streaming_timer (w_state w') = false /\ isStreamingCheckActive (w_state w') = true.
Proof.
  intros Ha. cbv zeta.
  assert (Hc : streaming_timer (w_state (cleanup w)) = false /\
               isStreamingCheckActive (w_state (cleanup w)) = true).
  { unfold cleanup, stopStreamingCheck. wsimpl. by case_match. }
  rewrite (token_ignored_when_active (cleanup w) k); [done|apply Hc].
Qed.

(** [reapplyAll] on a non-empty chat removes every display
    text, forgets every message's variables and history, and schedules
    [process] for exactly a list of ids each of which is eligible: a
    character message with an enabled, non-empty template and an id
    inside that template's window. *)
Theorem reapplyAll_resets (w : world) :
  templates_enabled = true -> w_chat w <> [] ->
  let w' := reapplyAll w in
  w_chat w' = map clear_display (w_chat w) /\
  messageVariables (w_state w') = ∅ /\ variableHistory (w_state w') = ∅ /\
  exists ids, w_pending w' = w_pending w ++ map TProcess ids /\
    Forall (fun id => exists msg, w_chat w' !! id = Some msg /\
                        reapply_eligible (length (w_chat w)) id msg) ids.
Proof.
  intros Hen Hne. cbv zeta. unfold reapplyAll. rewrite Hen. cbn [negb].
  destruct (length (w_chat w) =? 0) eqn:E; [destruct (w_chat w); simpl in *; congruence|].
  unfold clearAll. rewrite E. wsimpl.
  pose proof (select_ids_only_cache 0 (length (map clear_display (w_chat w))) (map clear_display (w_chat w))
                (set_variableHistory ∅ (set_messageVariables ∅ (w_state w)))) as [c Hc].
  pose proof (select_ids_spec 0 (length (map clear_display (w_chat w))) (map clear_display (w_chat w))
                (set_variableHistory ∅ (set_messageVariables ∅ (w_state w)))) as Hs.
  destruct (select_ids _ _ _ _) as [ids st]. simpl in Hc, Hs. subst st.
  unfold processBatch. wsimpl. rewrite length_map in Hs. split; [done|]. split; [done|]. split; [done|].
  exists ids. split; [done|]. eapply Forall_impl; [exact Hs|]. intros id [_ (m & Hm & He)].
  rewrite Nat.sub_0_r in Hm. by exists m.
Qed.

(** a switch to an empty conversation keeps every message's
    variable history: [state.clear()] does not touch
    [state.variableHistory], and [reapplyAll] returns before [clearAll]
    when the chat is empty; the first message of the new conversation
    then continues the history of message 0 of the old one. *)
Theorem chat_changed_keeps_history (w : world) :
  w_chat w = [] ->
  variableHistory (w_state (run_task TReapply (handle_event CHAT_CHANGED w)))
  = variableHistory (w_state w).
Proof.
  intros Hc. cbn [handle_event run_task]. unfold reapplyAll. wsimpl. rewrite Hc.
  by destruct templates_enabled.
Qed.

End Claims.


(** ** Witnesses *)

Definition ex_host (ts : char_settings) : TemplateHost := example_host ts ex_vars.

Lemma process_renders_inline_witness :
  let text := replaceVars (cs_template ex_inline) ex_vars in
  let w' := @process (ex_host ex_inline) 0 (initial_world [ex_msg]) in
  w_chat w' !! 0 = Some (if bool_decide (text = []) then ex_msg else set_display_text (Some text) ex_msg) /\
  (forall k, k <> 0 -> w_chat w' !! k = w_chat (initial_world [ex_msg]) !! k) /\
  messageVariables (w_state w') !! 0 = Some ex_vars /\
  w_effects w' = w_effects (initial_world [ex_msg]) ++ (if bool_decide (text = []) then [] else [ERerender 0])
                 ++ [ESendUpdate 0 ex_vars 300].
Proof.
  exact (@process_renders_inline (ex_host ex_inline) 0 (initial_world [ex_msg]) ex_msg ex_inline
           empty_state ex_vars eq_refl eq_refl eq_refl eq_refl eq_refl eq_refl eq_refl eq_refl).
Defined.

Lemma process_ignores_role_witness :
  let m := Message j["hi"] true false false None None None in
  @process (ex_host ex_inline) 0 (initial_world [m]) = initial_world [m].
Proof. intros m. exact (@process_ignores_role (ex_host ex_inline) 0 (initial_world [m]) m eq_refl eq_refl). Defined.

Lemma process_skip_first_witness :
  let w := initial_world [ex_msg] in
  let w' := @process (ex_host (ex_window 5 true)) 0 w in
  w_chat w' = w_chat w /\ w_effects w' = w_effects w /\ w_pending w' = w_pending w /\
  w_iframe_seq w' = w_iframe_seq w /\
  messageVariables (w_state w') = messageVariables (w_state w) /\
  variableHistory (w_state w') = variableHistory (w_state w).
Proof.
  exact (@process_skip_first (ex_host (ex_window 5 true)) (initial_world [ex_msg]) ex_msg (ex_window 5 true) empty_state
           eq_refl eq_refl eq_refl).
Defined.

(** Seven messages, a window of five: message 1 is below [7 - 5]. *)
Lemma process_clears_outside_window_witness :
  let w := initial_world (repeat ex_msg 7) in
  let w' := @process (ex_host (ex_window 5 false)) 1 w in
  w_chat w' !! 1 = Some (clear_display ex_msg) /\
  (forall k, k <> 1 -> w_chat w' !! k = w_chat w !! k) /\
  messageVariables (w_state w') !! 1 = None /\ variableHistory (w_state w') !! 1 = None /\
  w_effects w' = w_effects w ++ (if has_display_text ex_msg then [ERerender 1] else []).
Proof.
  apply (@process_clears_outside_window (ex_host (ex_window 5 false)) 1 (initial_world (repeat ex_msg 7)) ex_msg (ex_window 5 false)
           empty_state); reflexivity.
Defined.

Lemma process_negative_count_clears_witness :
  let w := initial_world (repeat ex_msg 3) in
  w_chat (@process (ex_host (ex_window (-1) false)) 2 w) !! 2 = Some (clear_display ex_msg) /\
  variableHistory (w_state (@process (ex_host (ex_window (-1) false)) 2 w)) !! 2 = None.
Proof.
  apply (@process_negative_count_clears (ex_host (ex_window (-1) false)) 2 (initial_world (repeat ex_msg 3)) ex_msg
           (ex_window (-1) false) empty_state); reflexivity.
Defined.

Lemma process_wraps_document_witness :
  let w := initial_world [ex_msg] in
  let text := replaceVars (cs_template ex_page) ex_vars in
  let iframe := iframe_id (w_iframe_seq w) in
  let w' := @process (ex_host ex_page) 0 w in
  w_chat w' !! 0 = Some (set_display_text (Some (wrapper_html iframe)) ex_msg) /\
  messageVariables (w_state w') !! 0 = Some ex_vars /\
  w_iframe_seq w' = S (w_iframe_seq w) /\
  w_effects w' = w_effects w ++ [EWriteIframe iframe (default text (@substituteParams (ex_host ex_page) text));
                                 EUpdateVariables 0 ex_vars 300; ERerender 0; ESendUpdate 0 ex_vars 300].
Proof.
  exact (@process_wraps_document (ex_host ex_page) 0 (initial_world [ex_msg]) ex_msg ex_page empty_state ex_vars
           eq_refl eq_refl eq_refl eq_refl eq_refl eq_refl eq_refl eq_refl).
Defined.

Lemma intercept_skip_first_drops_write_witness :
  (@intercept (ex_host (ex_window 5 true)) (Some 0) false j["<p>hello</p>"] (initial_world [ex_msg])).2
  = Skips.
Proof.
  exact (@intercept_skip_first_drops_write (ex_host (ex_window 5 true)) (initial_world [ex_msg]) ex_msg (ex_window 5 true)
           empty_state false j["<p>hello</p>"] eq_refl eq_refl eq_refl eq_refl eq_refl).
Defined.

(** A world reached by a token event. *)
Lemma reachable_handler_inv_witness :
  handler_inv (handle_event STREAM_TOKEN_RECEIVED (initial_world [ex_msg])).
Proof.
  apply (@reachable_handler_inv (ex_host ex_inline) [ex_msg]).
  apply rtc_once. apply StepEvent.
Defined.

Lemma cleanup_streaming_not_restarted_witness :
  let w := handle_event STREAM_TOKEN_RECEIVED (initial_world [ex_msg]) in
  let w' := Nat.iter 3 (handle_event STREAM_TOKEN_RECEIVED) (cleanup w) in
  streaming_timer (w_state w') = false /\ isStreamingCheckActive (w_state w') = true.
Proof. exact (cleanup_streaming_not_restarted (handle_event STREAM_TOKEN_RECEIVED (initial_world [ex_msg])) 3 eq_refl). Defined.

Lemma reapplyAll_resets_witness :
  let w := initial_world [ex_msg] in
  let w' := @reapplyAll (ex_host ex_inline) w in
  w_chat w' = map clear_display (w_chat w) /\
  messageVariables (w_state w') = ∅ /\ variableHistory (w_state w') = ∅ /\
  exists ids, w_pending w' = w_pending w ++ map TProcess ids /\
    Forall (fun id => exists msg, w_chat w' !! id = Some msg /\
                        @reapply_eligible (ex_host ex_inline) (length (w_chat w)) id msg) ids.
Proof. apply (@reapplyAll_resets (ex_host ex_inline)); [reflexivity|discriminate]. Defined.

(** The history of message 0 of a conversation survives a switch to a
    new, empty one. *)
Lemma chat_changed_keeps_history_witness :
  let w := World [] (updateHistory 0 ex_vars empty_state) [] [] 0 in
  variableHistory (w_state (@run_task (ex_host ex_inline) TReapply
                              (handle_event CHAT_CHANGED w)))
  = variableHistory (w_state w).
Proof. exact (@chat_changed_keeps_history (ex_host ex_inline) (World [] (updateHistory 0 ex_vars empty_state) [] [] 0) eq_refl). Defined.

End Handler.
