(* ===== verification/Settings.v ===== *)
(** * Template settings: [TemplateSettings] and [utils.getCharAvatar]

    The host's globals ([characters], [this_chid], [selected_group],
    [window.isXiaobaixEnabled], [findChar]) and the extension settings
    ([extension_settings.LittleWhiteBox.templateEditor]) form a [host]
    record.  [getCharTemplate] reads them and fills the template cache of
    the module state (State.v); [saveCurrentChar] clears that cache and,
    after an [await], writes the character's embedded settings and its
    binding, so it is split into the two halves around the [await].

    The settings objects are complete [char_settings] records: the
    editor saves [{ ...binding, ...charSettings }] with [charSettings]
    built from every field of the form.

    [settings_host] is the lookup half of the handler's interface
    [Handler.TemplateHost], and [settings_host_cache] discharges its law.
    [character_status] is the status line of the panel ([updateStatus]),
    which reads [getCurrentChar] rather than [getCharTemplate]. *)

From S2P Require Import Prelude JsValue Render State Handler.
From stdpp Require Import gmap.

Module Settings.
Import State Handler.

Record character := Character {
  ch_avatar : option jstr;
  ch_name : jstr;
  ch_embedded : option char_settings   (** [character.data.extensions['xiaobaix-template']] *)
}.

(** [extension_settings.LittleWhiteBox.templateEditor] *)
Record template_settings := TemplateSettingsRec {
  ts_enabled : bool;
  characterBindings : gmap jstr char_settings
}.

Record host := Host {
  characters : list character;
  this_chid : option nat;               (** [undefined], or an index *)
  selected_group : bool;
  xiaobaix_enabled : bool;              (** [window.isXiaobaixEnabled ?? true] *)
  settings : template_settings;
  find_char_avatar : jstr -> option jstr (** [findChar({ name, allowAvatar: true })?.avatar] *)
}.

(** A string in a [||] chain: the empty string is falsy. *)
Definition truthy (o : option jstr) : option jstr :=
  match o with Some (_ :: _) => o | _ => None end.

Definition or_else {A} (o : option A) (d : option A) : option A :=
  match o with Some _ => o | None => d end.

(** [utils.getCharAvatar] (lines 53-55) *)
Definition getCharAvatar (h : host) (msg : message) : option jstr :=
  or_else (truthy (original_avatar msg))
    (or_else (match truthy (msg_name msg) with Some n => truthy (find_char_avatar h n) | None => None end)
       (if selected_group h then None else
        match this_chid h with
        | Some i => truthy (characters h !! i ≫= ch_avatar)
        | None => None
        end)).

(** [utils.isEnabled] (line 57) *)
Definition isEnabled (h : host) : bool := xiaobaix_enabled h && ts_enabled (settings h).

Definition current_character (h : host) : option character :=
  this_chid h ≫= fun i => characters h !! i.

(** [TemplateSettings.getCurrentChar] (lines 71-76).  A binding is a
    complete [char_settings] record (what [saveCurrentChar] stores), so
    the spread [{ ...DEFAULT_CHAR_SETTINGS, ...binding }] is the binding
    itself; a binding with missing fields is not represented. *)
Definition getCurrentChar (h : host) : char_settings :=
  match current_character h with
  | None => DEFAULT_CHAR_SETTINGS
  | Some c =>
    match ch_embedded c with
    | Some e => e
    | None =>
      match ch_avatar c ≫= fun a => characterBindings (settings h) !! a with
      | Some b => b
      | None => DEFAULT_CHAR_SETTINGS
      end
    end
  end.

(** The enabled settings embedded in the current character, when its
    avatar is [avatar] (lines 93-96). *)
Definition embedded_for (h : host) (avatar : jstr) : option char_settings :=
  match current_character h with
  | Some c =>
    if bool_decide (ch_avatar c = Some avatar) then
      match ch_embedded c with Some e => if cs_enabled e then Some e else None | None => None end
    else None
  | None => None
  end.

(** [characterBindings[avatar]?.enabled ? characterBindings[avatar] : null] *)
Definition binding_for (h : host) (avatar : jstr) : option char_settings :=
  match characterBindings (settings h) !! avatar with
  | Some b => if cs_enabled b then Some b else None
  | None => None
  end.

(** [TemplateSettings.getCharTemplate] (lines 88-101) *)
Definition getCharTemplate (h : host) (avatar : option jstr) (st : tstate)
    : option char_settings * tstate :=
  match truthy avatar with
  | None => (None, st)
  | Some a =>
    if negb (isEnabled h) then (None, st) else
    match template_cache st !! a with
    | Some r => (r, st)
    | None =>
      let result := or_else (embedded_for h a) (binding_for h a) in
      (result, set_template_cache (<[a := result]> (template_cache st)) st)
    end
  end.

(** [TemplateSettings.saveCurrentChar] (lines 78-86), up to the
    [await]: the cache is cleared; the character's index and avatar are
    kept for the second half. *)
Definition saveCurrentChar_begin (h : host) (st : tstate) : option (nat * option jstr) * tstate :=
  match this_chid h with
  | Some i =>
    match characters h !! i with
    | Some c => (Some (i, ch_avatar c), set_template_cache ∅ st)
    | None => (None, st)
    end
  | None => (None, st)
  end.

Definition set_embedded (cs : char_settings) (c : character) : character :=
  Character (ch_avatar c) (ch_name c) (Some cs).

(** After the [await]: [writeExtensionField] stores the settings in the
    character, and the binding becomes [{ ...binding, ...charSettings }],
    that is [charSettings]. *)
Definition saveCurrentChar_finish (i : nat) (avatar : option jstr) (cs : char_settings) (h : host) : host :=
  let bindings := match avatar with
                  | Some a => <[a := cs]> (characterBindings (settings h))
                  | None => characterBindings (settings h)
                  end in
  Host (alter (set_embedded cs) i (characters h)) (this_chid h) (selected_group h) (xiaobaix_enabled h)
       (TemplateSettingsRec (ts_enabled (settings h)) bindings) (find_char_avatar h).

(** The line [updateStatus] (lines 1347-1366) writes into
    [#template_character_status]. *)
Inductive status :=
| StatusNoCharacter            (** the request to choose a character, class [no-character] *)
| StatusEnabled (name : jstr)  (** [name] with "template enabled", class [has-settings] *)
| StatusNotSet (name : jstr).  (** [name] with "no template set", class [no-character] *)

(** [updateStatus]: nothing when the element is absent; the current
    character's [getCurrentChar] decides, enabled with a non-empty
    template. *)
Definition character_status (present : bool) (h : host) : option status :=
  if negb present then None else
  match current_character h with
  | None => Some StatusNoCharacter
  | Some c =>
    let cs := getCurrentChar h in
    if cs_enabled cs && negb (bool_decide (cs_template cs = [])) then Some (StatusEnabled (ch_name c))
    else Some (StatusNotSet (ch_name c))
  end.

(** ** The lookup half of the handler's interface *)

Lemma settings_host_cache (h : host) (a : option jstr) (st : tstate) :
  only_cache st (getCharTemplate h a st).2.
Proof.
  unfold getCharTemplate.
  repeat case_match; simpl; first [by eexists | exists (template_cache st); by destruct st].
Qed.

Definition settings_host (h : host) (extract : jstr -> jstr -> option jsval)
    (subst : jstr -> option jstr) (dom : nat -> bool) : TemplateHost := {|
  templates_enabled := ts_enabled (settings h);
  Handler.getCharAvatar := getCharAvatar h;
  Handler.getCharTemplate := getCharTemplate h;
  extractVars := extract;
  substituteParams := subst;
  iframe_in_dom := dom;
  getCharTemplate_only_cache := settings_host_cache h
|}.

(** ** Examples: Aria is the current character, Bo another one with
    enabled embedded settings. *)

Definition sx_cs (t : jstr) (en : bool) : char_settings := CharSettings en t [] false 5 false.
Definition sx_aria (emb : option char_settings) : character := Character (Some j["aria.png"]) j["Aria"] emb.
Definition sx_bo : character := Character (Some j["bo.png"]) j["Bo"] (Some (sx_cs j["B"] true)).

Definition sx_host (emb : option char_settings) (bindings : gmap jstr char_settings) : host :=
  Host [sx_aria emb; sx_bo] (Some 0) false true (TemplateSettingsRec true bindings) (fun _ => None).

(** ** Lemmas *)

Lemma truthy_cons (c : ascii) (a : jstr) : truthy (Some (c :: a)) = Some (c :: a).
Proof. done. Qed.

Lemma getCharTemplate_miss (h : host) (a : jstr) (st : tstate) :
  a <> [] -> isEnabled h = true -> template_cache st !! a = None ->
  getCharTemplate h (Some a) st
  = (or_else (embedded_for h a) (binding_for h a),
     set_template_cache (<[a := or_else (embedded_for h a) (binding_for h a)]> (template_cache st)) st).
Proof.
  intros Ha He Hc. unfold getCharTemplate. destruct a as [|x a]; [done|].
  rewrite truthy_cons, He, Hc. done.
Qed.

Lemma getCharTemplate_hit (h : host) (a : jstr) (st : tstate) (r : option char_settings) :
  a <> [] -> isEnabled h = true -> template_cache st !! a = Some r ->
  getCharTemplate h (Some a) st = (r, st).
Proof.
  intros Ha He Hc. unfold getCharTemplate. destruct a as [|x a]; [done|].
  rewrite truthy_cons, He, Hc. done.
Qed.

Lemma current_character_finish (h : host) (i : nat) (c : character) (a : option jstr) (cs : char_settings) :
  this_chid h = Some i -> characters h !! i = Some c ->
  current_character (saveCurrentChar_finish i a cs h) = Some (set_embedded cs c).
Proof.
  intros Hi Hc. unfold current_character, saveCurrentChar_finish. simpl. rewrite Hi. simpl.
  rewrite list_lookup_alter, Hc. simpl. by case_decide.
Qed.

Lemma isEnabled_finish (h : host) (i : nat) (a : option jstr) (cs : char_settings) :
  isEnabled (saveCurrentChar_finish i a cs h) = isEnabled h.
Proof. done. Qed.

(** ** Properties *)

(** On a cache miss, the enabled settings embedded in the current
    character take precedence over that avatar's binding, whatever the
    binding holds. *)
Theorem getCharTemplate_embedded_first (h : host) (st : tstate) (c : character) (a : jstr)
    (e : char_settings) :
  a <> [] -> isEnabled h = true -> template_cache st !! a = None ->
  current_character h = Some c -> ch_avatar c = Some a -> ch_embedded c = Some e -> cs_enabled e = true ->
  (getCharTemplate h (Some a) st).1 = Some e.
Proof.
  intros Ha He Hc Hcur Hav Hem Hen. rewrite getCharTemplate_miss by done. simpl.
  unfold embedded_for. rewrite Hcur, Hav, Hem, Hen. by rewrite bool_decide_true.
Qed.

(** for an avatar that is not the current character's, the
    settings embedded in that character are never read: the lookup
    returns the binding (when enabled) even when the character with
    that avatar carries enabled embedded settings of its own. *)
Theorem getCharTemplate_other_avatar_binding (h : host) (st : tstate) (a : jstr) :
  a <> [] -> isEnabled h = true -> template_cache st !! a = None ->
  (forall c, current_character h = Some c -> ch_avatar c <> Some a) ->
  (getCharTemplate h (Some a) st).1 = binding_for h a.
Proof.
  intros Ha He Hc Hcur. rewrite getCharTemplate_miss by done. simpl.
  unfold embedded_for. destruct (current_character h) as [c|] eqn:E; [|done].
  rewrite bool_decide_false by (by apply Hcur). done.
Qed.

(** A lookup fills the cache, and every later lookup of the same
    avatar returns the same result, [null] included, under any settings
    that keep the module enabled: bindings imported by [importGlobal]
    or edited embedded settings are not seen until the cache is
    cleared. *)
Theorem getCharTemplate_cached (h h' : host) (st : tstate) (a : jstr) :
  a <> [] -> isEnabled h = true -> isEnabled h' = true ->
  let '(r, st') := getCharTemplate h (Some a) st in
  getCharTemplate h' (Some a) st' = (r, st').
Proof.
  intros Ha He He'. destruct (template_cache st !! a) as [r|] eqn:Hc.
  - rewrite (getCharTemplate_hit h a st r) by done. by apply getCharTemplate_hit.
  - rewrite getCharTemplate_miss by done. apply getCharTemplate_hit; [done..|].
    simpl. by rewrite lookup_insert_eq.
Qed.

(** saving the current character's settings and then looking
    its avatar up gives the saved settings when they are enabled, and
    [null] otherwise. *)
Theorem saveCurrentChar_then_lookup (h : host) (st : tstate) (i : nat) (c : character) (a : jstr)
    (cs : char_settings) :
  this_chid h = Some i -> characters h !! i = Some c -> ch_avatar c = Some a -> a <> [] ->
  isEnabled h = true ->
  let st1 := (saveCurrentChar_begin h st).2 in
  (getCharTemplate (saveCurrentChar_finish i (Some a) cs h) (Some a) st1).1
  = if cs_enabled cs then Some cs else None.
Proof.
  intros Hi Hc Hav Ha He. cbv zeta. unfold saveCurrentChar_begin. rewrite Hi, Hc. simpl.
  rewrite getCharTemplate_miss; [|done|by rewrite isEnabled_finish|simpl; apply lookup_empty]. simpl.
  unfold embedded_for. rewrite (current_character_finish h i c) by done. simpl.
  rewrite Hav, bool_decide_true by done.
  unfold binding_for. simpl. rewrite lookup_insert_eq. by destruct (cs_enabled cs).
Qed.

(** [saveCurrentChar] clears the cache before awaiting
    [writeExtensionField]; a lookup of the avatar while it waits (a
    streaming tick, an event) caches the old settings, and after the
    save completes every lookup still returns the old settings. *)
Theorem saveCurrentChar_race_keeps_old (h : host) (st : tstate) (i : nat) (c : character) (a : jstr)
    (old cs : char_settings) :
  this_chid h = Some i -> characters h !! i = Some c -> ch_avatar c = Some a -> a <> [] ->
  isEnabled h = true -> ch_embedded c = Some old -> cs_enabled old = true ->
  let st1 := (saveCurrentChar_begin h st).2 in
  let st2 := (getCharTemplate h (Some a) st1).2 in
  (getCharTemplate (saveCurrentChar_finish i (Some a) cs h) (Some a) st2).1 = Some old.
Proof.
  intros Hi Hc Hav Ha He Hold Hen. cbv zeta. unfold saveCurrentChar_begin. rewrite Hi, Hc. simpl.
  rewrite (getCharTemplate_miss h a); [|done|done|simpl; apply lookup_empty]. simpl.
  rewrite (getCharTemplate_hit _ a _ (or_else (embedded_for h a) (binding_for h a)));
    [| done | by rewrite isEnabled_finish | simpl; by rewrite lookup_insert_eq].
  simpl. unfold embedded_for, current_character. rewrite Hi. simpl. rewrite Hc, Hav, Hold, Hen.
  by rewrite bool_decide_true.
Qed.

(** C25: The status line (and the editor) read [getCurrentChar], which
    returns the current character's embedded settings even when they
    are disabled, while rendering reads [getCharTemplate], which then
    falls back to the character's binding: with disabled embedded
    settings and an enabled binding, the status says no template is set
    while the character's messages render with the binding. *)
Theorem status_disagrees_with_render (h : host) (st : tstate) (c : character) (a : jstr) (e b : char_settings) :
  a <> [] -> isEnabled h = true -> template_cache st !! a = None ->
  current_character h = Some c -> ch_avatar c = Some a -> ch_embedded c = Some e -> cs_enabled e = false ->
  characterBindings (settings h) !! a = Some b -> cs_enabled b = true ->
  character_status true h = Some (StatusNotSet (ch_name c)) /\ (getCharTemplate h (Some a) st).1 = Some b.
Proof.
  intros Ha He Hc Hcur Hav Hem Hen Hb Hbe. split.
  - unfold character_status, getCurrentChar. by rewrite Hcur, Hem, Hen.
  - rewrite getCharTemplate_miss by done. unfold embedded_for, binding_for.
    rewrite Hcur, Hav, Hem, Hen, bool_decide_true by done. cbn. by rewrite Hb, Hbe.
Qed.

(** ** Witnesses *)

Lemma getCharTemplate_embedded_first_witness :
  (getCharTemplate (sx_host (Some (sx_cs j["E"] true)) {[ j["aria.png"] := sx_cs j["G"] true ]})
     (Some j["aria.png"]) empty_state).1 = Some (sx_cs j["E"] true).
Proof.
  apply (getCharTemplate_embedded_first _ _ (sx_aria (Some (sx_cs j["E"] true)))); done.
Defined.

(** Bo's own embedded settings are enabled, yet Bo's messages get no
    template while Aria is the current character. *)
Lemma getCharTemplate_other_avatar_binding_witness :
  (getCharTemplate (sx_host None ∅) (Some j["bo.png"]) empty_state).1
  = binding_for (sx_host None ∅) j["bo.png"].
Proof.
  apply getCharTemplate_other_avatar_binding; [done|done|done|].
  intros c Hc. injection Hc as <-. discriminate.
Defined.

Lemma getCharTemplate_cached_witness :
  let '(r, st') := getCharTemplate (sx_host None ∅) (Some j["aria.png"]) empty_state in
  getCharTemplate (sx_host None {[ j["aria.png"] := sx_cs j["G"] true ]}) (Some j["aria.png"]) st'
  = (r, st').
Proof. apply getCharTemplate_cached; done. Defined.

Lemma saveCurrentChar_then_lookup_witness :
  let h := sx_host None ∅ in
  let st1 := (saveCurrentChar_begin h empty_state).2 in
  (getCharTemplate (saveCurrentChar_finish 0 (Some j["aria.png"]) (sx_cs j["N"] true) h)
     (Some j["aria.png"]) st1).1
  = if cs_enabled (sx_cs j["N"] true) then Some (sx_cs j["N"] true) else None.
Proof. apply (saveCurrentChar_then_lookup _ _ 0 (sx_aria None)); done. Defined.

Lemma saveCurrentChar_race_keeps_old_witness :
  let h := sx_host (Some (sx_cs j["E"] true)) ∅ in
  let st1 := (saveCurrentChar_begin h empty_state).2 in
  let st2 := (getCharTemplate h (Some j["aria.png"]) st1).2 in
  (getCharTemplate (saveCurrentChar_finish 0 (Some j["aria.png"]) (sx_cs j["N"] true) h)
     (Some j["aria.png"]) st2).1 = Some (sx_cs j["E"] true).
Proof. apply (saveCurrentChar_race_keeps_old _ _ 0 (sx_aria (Some (sx_cs j["E"] true)))); done. Defined.

Lemma status_disagrees_with_render_witness :
  character_status true (sx_host (Some (sx_cs j["E"] false)) {[ j["aria.png"] := sx_cs j["G"] true ]})
    = Some (StatusNotSet j["Aria"]) /\
  (getCharTemplate (sx_host (Some (sx_cs j["E"] false)) {[ j["aria.png"] := sx_cs j["G"] true ]})
     (Some j["aria.png"]) empty_state).1 = Some (sx_cs j["G"] true).
Proof.
  exact (status_disagrees_with_render (sx_host (Some (sx_cs j["E"] false)) {[ j["aria.png"] := sx_cs j["G"] true ]})
           empty_state (sx_aria (Some (sx_cs j["E"] false))) j["aria.png"]
           (sx_cs j["E"] false) (sx_cs j["G"] true) ltac:(done) eq_refl eq_refl eq_refl eq_refl eq_refl eq_refl
           eq_refl eq_refl).
Defined.

End Settings.
