(* ===== verification/Json.v ===== *)
(** * JSON: [JSON.parse] and the JSON parsers of [TemplateProcessor]

    [JSON.parse] is the ECMAScript builtin: the grammar of ECMA-404 read
    by recursive descent.  Its three mutually recursive functions carry
    fuel and tell a syntax error ([PFail]) from an exhausted bound
    ([PNoFuel]); [json_enough_fuel] shows that [json_fuel], one more
    than twice the length of the text, is never exhausted and
    [json_more_fuel] that more fuel changes nothing, so [json_parse] is
    the builtin.
    Numbers are kept exact (see [JsValue]); a [\u] escape above [ÿ]
    is outside the ASCII strings of the model and read as a failure.

    [parseJsonDirect] (src/template-editor.js, lines 224-230) and
    [parsePartialJsonDirect] (232-403) are modelled line by line: the
    partial parser is a loop over the lines with its seven variables as
    a record. *)

From S2P Require Import Prelude JsValue.

Module Json.

(** ** The grammar of ECMA-404 *)

Inductive parse_res (A : Type) :=
| POk (a : A) (rest : jstr)
| PFail
| PNoFuel.
Arguments POk {A} a rest.
Arguments PFail {A}.
Arguments PNoFuel {A}.

(** JSON whitespace: tab, line feed, carriage return, space. *)
Definition is_json_ws (c : ascii) : bool :=
  let n := code c in (n =? 9) || (n =? 10) || (n =? 13) || (n =? 32).

Fixpoint skip_ws (s : jstr) : jstr :=
  match s with
  | c :: s' => if is_json_ws c then skip_ws s' else s
  | [] => []
  end.

Definition is_ch (c : ascii) (n : nat) : bool := code c =? n.

Definition hex_value (c : ascii) : option nat :=
  let n := code c in
  if (48 <=? n) && (n <=? 57) then Some (n - 48)
  else if (97 <=? n) && (n <=? 102) then Some (n - 87)
  else if (65 <=? n) && (n <=? 70) then Some (n - 55)
  else None.

(** [\uXXXX] for a code unit the model represents. *)
Definition unicode_escape (a b c d : ascii) : option ascii :=
  match hex_value a, hex_value b, hex_value c, hex_value d with
  | Some 0, Some 0, Some x, Some y => Some (ascii_of_nat (16 * x + y))
  | _, _, _, _ => None
  end.

(** The single-character escapes: a backslash before a quote, a
    backslash, a slash, [b], [f], [n], [r] or [t]. *)
Definition simple_escape (e : ascii) : option ascii :=
  match code e with
  | 34 => Some dq | 92 => Some bslash | 47 => Some "/"%char
  | 98 => Some (ascii_of_nat 8) | 102 => Some (ascii_of_nat 12)
  | 110 => Some (ascii_of_nat 10) | 114 => Some (ascii_of_nat 13) | 116 => Some (ascii_of_nat 9)
  | _ => None
  end.

(** The characters of a string after its opening quote, and the text
    after its closing quote. *)
Fixpoint json_string (s : jstr) : option (jstr * jstr) :=
  match s with
  | [] => None
  | c :: s' =>
    if is_ch c 34 then Some ([], s')
    else if is_ch c 92 then
      match s' with
      | e :: s'' =>
        if is_ch e 117 then
          match s'' with
          | a :: b :: c1 :: d :: r =>
            match unicode_escape a b c1 d with
            | Some x => (fun pr => (x :: pr.1, pr.2)) <$> json_string r
            | None => None
            end
          | _ => None
          end
        else match simple_escape e with
             | Some x => (fun pr => (x :: pr.1, pr.2)) <$> json_string s''
             | None => None
             end
      | [] => None
      end
    else if code c <? 32 then None
    else (fun pr => (c :: pr.1, pr.2)) <$> json_string s'
  end.

Fixpoint span_digits (s : jstr) : jstr * jstr :=
  match s with
  | c :: s' => if is_digit c then let '(d, r) := span_digits s' in (c :: d, r) else ([], s)
  | [] => ([], [])
  end.

(** [-? (0 | [1-9][0-9]* ) (.[0-9]+)? ([eE][+-]?[0-9]+)?] *)
Definition json_number (s : jstr) : option (jsnum * jstr) :=
  let '(neg, s1) := match s with c :: r => if is_ch c 45 then (true, r) else (false, s) | [] => (false, s) end in
  let int_part := match s1 with
                  | c :: r => if is_ch c 48 then Some ([c], r)
                              else if is_digit c then let '(d, r') := span_digits r in Some (c :: d, r')
                              else None
                  | [] => None
                  end in
  match int_part with
  | None => None
  | Some (ip, s2) =>
    let frac := match s2 with
                | c :: r => if is_ch c 46 then
                              let '(d, r') := span_digits r in
                              match d with [] => None | _ => Some (d, r') end
                            else Some ([], s2)
                | [] => Some ([], s2)
                end in
    match frac with
    | None => None
    | Some (fp, s3) =>
      let expo := match s3 with
                  | c :: r => if is_ch c 101 || is_ch c 69 then
                                let '(eneg, r1) := match r with
                                                   | x :: r' => if is_ch x 45 then (true, r')
                                                                else if is_ch x 43 then (false, r') else (false, r)
                                                   | [] => (false, r)
                                                   end in
                                let '(d, r2) := span_digits r1 in
                                match d with
                                | [] => None
                                | _ => Some ((if eneg then - Z.of_N (digits_value d) else Z.of_N (digits_value d))%Z, r2)
                                end
                              else Some (0%Z, s3)
                  | [] => Some (0%Z, s3)
                  end in
      match expo with
      | None => None
      | Some (e, s4) => Some (JsNum neg (digits_value (ip ++ fp)) (e - Z.of_nat (length fp))%Z, s4)
      end
    end
  end.

Definition opt_res {A} (o : option (A * jstr)) : parse_res A :=
  match o with Some (a, r) => POk a r | None => PFail end.

Fixpoint json_value (fuel : nat) (s : jstr) {struct fuel} : parse_res jsval :=
  match fuel with
  | 0 => PNoFuel
  | S f =>
    match skip_ws s with
    | [] => PFail
    | c :: r =>
      if is_ch c 123 then
        match skip_ws r with
        | c' :: r' => if is_ch c' 125 then POk (JObj []) r' else json_members f (skip_ws r) []
        | [] => PFail
        end
      else if is_ch c 91 then
        match skip_ws r with
        | c' :: r' => if is_ch c' 93 then POk (JArr []) r' else json_elements f (skip_ws r) []
        | [] => PFail
        end
      else if is_ch c 34 then opt_res ((fun pr => (JStr pr.1, pr.2)) <$> json_string r)
      else if starts_with j["true"] (c :: r) then POk (JBool true) (drop 4 (c :: r))
      else if starts_with j["false"] (c :: r) then POk (JBool false) (drop 5 (c :: r))
      else if starts_with j["null"] (c :: r) then POk JNull (drop 4 (c :: r))
      else opt_res ((fun pr => (JNum pr.1, pr.2)) <$> json_number (c :: r))
    end
  end
(** [s] is just after ['{'] or [',']: a member, then [','] or ['}']. *)
with json_members (fuel : nat) (s : jstr) (acc : list (jstr * jsval)) {struct fuel} : parse_res jsval :=
  match fuel with
  | 0 => PNoFuel
  | S f =>
    match skip_ws s with
    | c :: r =>
      if is_ch c 34 then
        match json_string r with
        | Some (k, r1) =>
          match skip_ws r1 with
          | c1 :: r2 =>
            if is_ch c1 58 then
              match json_value f r2 with
              | POk v r3 =>
                match skip_ws r3 with
                | c3 :: r4 =>
                  if is_ch c3 44 then json_members f r4 (obj_set k v acc)
                  else if is_ch c3 125 then POk (JObj (obj_set k v acc)) r4
                  else PFail
                | [] => PFail
                end
              | PFail => PFail
              | PNoFuel => PNoFuel
              end
            else PFail
          | [] => PFail
          end
        | None => PFail
        end
      else PFail
    | [] => PFail
    end
  end
(** [s] is just after ['['] or [',']: a value, then [','] or [']']. *)
with json_elements (fuel : nat) (s : jstr) (acc : list jsval) {struct fuel} : parse_res jsval :=
  match fuel with
  | 0 => PNoFuel
  | S f =>
    match json_value f s with
    | POk v r =>
      match skip_ws r with
      | c :: r' =>
        if is_ch c 44 then json_elements f r' (acc ++ [v])
        else if is_ch c 93 then POk (JArr (acc ++ [v])) r'
        else PFail
      | [] => PFail
      end
    | PFail => PFail
    | PNoFuel => PNoFuel
    end
  end.

(** The fuel [json_parse] gives: an element list calls [json_value]
    without consuming a character first, so two units per character. *)
Definition json_fuel (s : jstr) : nat := S (2 * length s).

(** [JSON.parse(text)]: a value, then only whitespace; [None] is a
    [SyntaxError]. *)
Definition json_parse (s : jstr) : option jsval :=
  match json_value (json_fuel s) s with
  | POk v r => if bool_decide (skip_ws r = []) then Some v else None
  | _ => None
  end.

(** ** [parseJsonDirect] and [parsePartialJsonDirect] (lines 224-403) *)

(** The class of non-quote characters, starred: the characters before
    the next quote, and the rest. *)
Fixpoint span_not_quote (s : jstr) : jstr * jstr :=
  match s with
  | c :: s' => if is_ch c 34 then ([], s) else let '(a, r) := span_not_quote s' in (c :: a, r)
  | [] => ([], [])
  end.

(** The prefix the four line patterns share, a quoted key of at least
    one character, spaces, a colon and spaces: the key and the rest.
    [\s*] is greedy and stops at a non-space, so no backtracking. *)
Definition key_prefix (t : jstr) : option (jstr * jstr) :=
  match t with
  | q :: r =>
    if is_ch q 34 then
      match span_not_quote r with
      | (k, _ :: r1) =>
        match k, trim_start r1 with
        | _ :: _, c :: r2 => if is_ch c 58 then Some (k, trim_start r2) else None
        | _, _ => None
        end
      | (_, []) => None
      end
    else None
  | [] => None
  end.

(** [[,]?$] *)
Definition opt_comma_end (s : jstr) : bool :=
  match s with [] => true | [c] => is_ch c 44 | _ => false end.

(** [stringMatch] (line 255): the key prefix, a quoted string of
    non-quote characters, an optional comma, the end: key and value. *)
Definition string_match (t : jstr) : option (jstr * jstr) :=
  match key_prefix t with
  | Some (k, q :: r) =>
    if is_ch q 34 then
      match span_not_quote r with
      | (v, _ :: r') => if opt_comma_end r' then Some (k, v) else None
      | (_, []) => None
      end
    else None
  | _ => None
  end.

(** [numMatch] (line 261): the key prefix, [\d+], an optional comma,
    the end: key and digits. *)
Definition num_match (t : jstr) : option (jstr * jstr) :=
  match key_prefix t with
  | Some (k, r) =>
    let '(d, r') := span_digits r in
    match d with [] => None | _ => if opt_comma_end r' then Some (k, d) else None end
  | None => None
  end.

(** [.] matches every character but a line terminator; on ASCII, line
    feed and carriage return. *)
Definition no_line_term (s : jstr) : bool := forallb (fun c => negb (is_ch c 10 || is_ch c 13)) s.

(** [arrayStartMatch] (line 267) with [o] the code of ['['], and
    [objStartMatch] (line 288) with that of ['{']: the key prefix, the
    bracket, any characters to the end: key and the rest of the line. *)
Definition open_match (o : nat) (t : jstr) : option (jstr * jstr) :=
  match key_prefix t with
  | Some (k, c :: r) => if is_ch c o && no_line_term r then Some (k, r) else None
  | _ => None
  end.

(** [(s.match(/\[/g) || []).length] for the character of code [n]. *)
Definition count_ch (n : nat) (s : jstr) : Z := Z.of_nat (length (filter (fun c => is_ch c n = true) s)).

(** [s.replace(/,\s*$/, '')]: the only candidate comma is the last
    character that is not a space. *)
Definition strip_trailing_comma (s : jstr) : jstr :=
  match drop_while is_ws (rev s) with
  | c :: r => if is_ch c 44 then rev r else s
  | [] => s
  end.

(** [for (const attempt of attempts) try { v = JSON.parse(attempt); break; } catch {}],
    and the nested [try]/[catch] chains, which try in the same order. *)
Fixpoint first_parse (attempts : list jstr) : option jsval :=
  match attempts with
  | a :: rest => match json_parse a with Some v => Some v | None => first_parse rest end
  | [] => None
  end.

Definition lbr_c : ascii := ascii_of_nat 91.
Definition rbr_c : ascii := ascii_of_nat 93.
Definition lbrace_c : ascii := ascii_of_nat 123.
Definition rbrace_c : ascii := ascii_of_nat 125.

(** The local variables of the loop ([inString] is declared and never
    used). *)
Record pstate := PState {
  ps_vars : list (jstr * jsval);
  ps_currentKey : option jstr;
  ps_braceLevel : Z;
  ps_bracketLevel : Z;
  ps_inObject : bool;
  ps_inArray : bool;
  ps_objectContent : jstr }.

Definition pstate_init : pstate := PState [] None 0 0 false false [].

(** [vars[currentKey] = v]: a [null] key is the property named null. *)
Definition key_of (k : option jstr) : jstr := match k with Some k => k | None => j["null"] end.

Definition assign_first (k : option jstr) (attempts : list jstr) (vars : list (jstr * jsval))
    : list (jstr * jsval) :=
  match first_parse attempts with Some v => obj_set (key_of k) v vars | None => vars end.

Definition with_vars (vars : list (jstr * jsval)) (st : pstate) : pstate :=
  PState vars (ps_currentKey st) (ps_braceLevel st) (ps_bracketLevel st) (ps_inObject st)
    (ps_inArray st) (ps_objectContent st).

(** The branch of [arrayStartMatch] (lines 267-286). *)
Definition start_array (k rest : jstr) (st : pstate) : pstate :=
  let content := lbr_c :: rest in
  let level := (1 + (count_ch 91 rest - count_ch 93 rest))%Z in
  if (level =? 0)%Z then
    PState (assign_first (Some k) [content] (ps_vars st)) None (ps_braceLevel st) level
      (ps_inObject st) false []
  else PState (ps_vars st) (Some k) (ps_braceLevel st) level (ps_inObject st) true content.

(** The branch of [objStartMatch] (lines 288-307). *)
Definition start_object (k rest : jstr) (st : pstate) : pstate :=
  let content := lbrace_c :: rest in
  let level := (1 + (count_ch 123 rest - count_ch 125 rest))%Z in
  if (level =? 0)%Z then
    PState (assign_first (Some k) [content] (ps_vars st)) None level (ps_bracketLevel st)
      false (ps_inArray st) []
  else PState (ps_vars st) (Some k) level (ps_bracketLevel st) true (ps_inArray st) content.

(** [if (inArray) ...] (lines 309-340): the line is appended, untrimmed;
    at depth 0 the fragment is parsed, then without its trailing comma,
    then with a quote and a bracket appended, then with a bracket. *)
Definition continue_array (line trimmed : jstr) (st : pstate) : pstate :=
  if ps_inArray st then
    let content := ps_objectContent st ++ nl :: line in
    let level := (ps_bracketLevel st + (count_ch 91 trimmed - count_ch 93 trimmed))%Z in
    if (level <=? 0)%Z then
      let cleaned := strip_trailing_comma content in
      PState (assign_first (ps_currentKey st) [content; cleaned; cleaned ++ [dq; rbr_c]; cleaned ++ [rbr_c]]
                (ps_vars st))
        None (ps_braceLevel st) 0 (ps_inObject st) false []
    else PState (ps_vars st) (ps_currentKey st) (ps_braceLevel st) level (ps_inObject st) true content
  else st.

(** [if (inObject) ...] (lines 342-365): a fragment that does not parse
    is kept as a string. *)
Definition continue_object (line trimmed : jstr) (st : pstate) : pstate :=
  if ps_inObject st then
    let content := ps_objectContent st ++ nl :: line in
    let level := (ps_braceLevel st + (count_ch 123 trimmed - count_ch 125 trimmed))%Z in
    if (level <=? 0)%Z then
      let k := key_of (ps_currentKey st) in
      let vars := match first_parse [content; strip_trailing_comma content] with
                  | Some v => obj_set k v (ps_vars st)
                  | None => obj_set k (JStr content) (ps_vars st)
                  end in
      PState vars None 0 (ps_bracketLevel st) false (ps_inArray st) []
    else PState (ps_vars st) (ps_currentKey st) level (ps_bracketLevel st) true (ps_inArray st) content
  else st.

(** One iteration of [for (const line of lines)] (lines 251-366).  A
    pattern counts only outside an array and an object; otherwise the
    line falls through to the two accumulating blocks, in order. *)
Definition partial_line (st : pstate) (line : jstr) : pstate :=
  let trimmed := trim line in
  if bool_decide (trimmed = []) || bool_decide (trimmed = [lbrace_c]) || bool_decide (trimmed = [rbrace_c])
  then st else
  let free := negb (ps_inObject st) && negb (ps_inArray st) in
  match (if free then string_match trimmed else None) with
  | Some (k, v) => with_vars (obj_set k (JStr v) (ps_vars st)) st
  | None =>
  match (if free then num_match trimmed else None) with
  | Some (k, d) => with_vars (obj_set k (JNum (num_of_N (digits_value d))) (ps_vars st)) st
  | None =>
  match (if free then open_match 91 trimmed else None) with
  | Some (k, rest) => start_array k rest st
  | None =>
  match (if free then open_match 123 trimmed else None) with
  | Some (k, rest) => start_object k rest st
  | None => continue_object line trimmed (continue_array line trimmed st)
  end end end end.

(** [currentKey && objectContent] *)
Definition key_truthy (k : option jstr) : bool := match k with Some (_ :: _) => true | _ => false end.

(** The repairs after the loop (lines 368-400). *)
Definition partial_finish (st : pstate) : list (jstr * jsval) :=
  let content := ps_objectContent st in
  let k := ps_currentKey st in
  let open := key_truthy k && bool_decide (content <> []) in
  let vars := if ps_inArray st && open
              then assign_first k [content ++ [rbr_c]; strip_trailing_comma content ++ [rbr_c];
                                   content ++ [dq; rbr_c]] (ps_vars st)
              else ps_vars st in
  if ps_inObject st && open
  then assign_first k [content ++ [rbrace_c]; strip_trailing_comma content ++ [rbrace_c]] vars
  else vars.

(** [TemplateProcessor.parsePartialJsonDirect] (lines 232-403). *)
Definition parsePartialJsonDirect (s : jstr) : jsval :=
  if negb (starts_with_char lbrace_c s) then JObj [] else
  match json_parse s with
  | Some v => v
  | None => JObj (partial_finish (fold_left partial_line (lines_of s) pstate_init))
  end.

(** [TemplateProcessor.parseJsonDirect] (lines 224-230). *)
Definition parseJsonDirect (s : jstr) : jsval :=
  match json_parse (trim s) with Some v => v | None => parsePartialJsonDirect (trim s) end.

(** ** Reference readings and example documents *)

(** The member a line of a flat document gives: [stringMatch] or
    [numMatch] on the trimmed line. *)
Definition flat_member (line : jstr) : option (jstr * jsval) :=
  match string_match (trim line) with
  | Some (k, v) => Some (k, JStr v)
  | None =>
    match num_match (trim line) with
    | Some (k, d) => Some (k, JNum (num_of_N (digits_value d)))
    | None => None
    end
  end.

(** A line the loop skips: blank, or a lone brace. *)
Definition skipped_line (line : jstr) : bool :=
  let t := trim line in
  bool_decide (t = []) || bool_decide (t = [lbrace_c]) || bool_decide (t = [rbrace_c]).

Definition add_flat_member (acc : list (jstr * jsval)) (line : jstr) : list (jstr * jsval) :=
  match flat_member line with Some (k, v) => obj_set k v acc | None => acc end.

(** The state of the loop outside an array and an object. *)
Definition free_state (vars : list (jstr * jsval)) : pstate := PState vars None 0 0 false false [].

Definition quoted (s : jstr) : jstr := [dq] ++ s ++ [dq].
Definition doc (ls : list jstr) : jstr := join [nl] ls.

(** The example of the specification, on one line, truncated. *)
Definition ex_items_line : jstr :=
  j["{"] ++ quoted j["items"] ++ j[": ["] ++ quoted j["a"] ++ j[", "] ++ quoted j["b"].

(** A streamed object cut after two members. *)
Definition ex_flat : jstr :=
  doc [j["{"]; j["  "] ++ quoted j["name"] ++ j[": "] ++ quoted j["Aria"] ++ j[","];
       j["  "] ++ quoted j["score"] ++ j[": 42,"]].

(** The same, with the array on lines of its own. *)
Definition ex_items_lines : jstr :=
  doc [j["{"]; j["  "] ++ quoted j["items"] ++ j[": ["]; j["    "] ++ quoted j["a"] ++ j[","];
       j["    "] ++ quoted j["b"]].

(** A nested object closed on lines of their own, then a sibling. *)
Definition ex_nested : jstr :=
  doc [j["{"]; j["  "] ++ quoted j["a"] ++ j[": {"]; j["    "] ++ quoted j["b"] ++ j[": {"];
       j["      "] ++ quoted j["c"] ++ j[": 1"]; j["    }"]; j["  },"];
       j["  "] ++ quoted j["d"] ++ j[": 2,"]].

(** ** Fuel *)

Lemma length_skip_ws (s : jstr) : length (skip_ws s) <= length s.
Proof. induction s as [|c s IH]; simpl; [lia|]. case_match; simpl; lia. Qed.

Lemma json_string_length (s k r : jstr) : json_string s = Some (k, r) -> length r < length s.
Proof.
  revert k. induction s as [s IH] using (induction_ltof1 _ (@length ascii)); intros k Hs.
  destruct s as [|c s]; [done|]. cbn [json_string] in Hs.
  destruct (is_ch c 34); [injection Hs as <- <-; simpl; lia|].
  destruct (is_ch c 92).
  - destruct s as [|e s']; [done|]. destruct (is_ch e 117).
    + destruct s' as [|a [|b [|c1 [|d r']]]]; try done.
      destruct (unicode_escape a b c1 d); [|done].
      destruct (json_string r') as [[k' r'']|] eqn:E; [|done]. simpl in Hs. injection Hs as <- <-.
      apply (IH r') in E; [simpl; lia|unfold ltof; simpl; lia].
    + destruct (simple_escape e); [|done].
      destruct (json_string s') as [[k' r'']|] eqn:E; [|done]. simpl in Hs. injection Hs as <- <-.
      apply (IH s') in E; [simpl; lia|unfold ltof; simpl; lia].
  - destruct (code c <? 32); [done|].
    destruct (json_string s) as [[k' r'']|] eqn:E; [|done]. simpl in Hs. injection Hs as <- <-.
    apply (IH s) in E; [simpl; lia|unfold ltof; simpl; lia].
Qed.

Lemma span_digits_length (s d r : jstr) : span_digits s = (d, r) -> length d + length r = length s.
Proof.
  revert d r. induction s as [|c s IH]; intros d r Hs; simpl in Hs; [by injection Hs as <- <-|].
  destruct (is_digit c); [|injection Hs as <- <-; done].
  destruct (span_digits s) as [d' r'] eqn:E. injection Hs as <- <-. specialize (IH d' r' eq_refl). simpl. lia.
Qed.

Lemma json_number_length (s r : jstr) (n : jsnum) : json_number s = Some (n, r) -> length r < length s.
Proof.
  unfold json_number. intros H.
  repeat (case_match; simplify_eq/=);
    repeat match goal with E : span_digits _ = _ |- _ => apply span_digits_length in E end;
    simpl in *; lia.
Qed.

(** Length facts of the hypotheses in context, for [lia]. *)
Ltac json_len_facts :=
  repeat match goal with
  | E : json_string _ = Some ?p |- _ => is_var p; destruct p
  | E : json_number _ = Some ?p |- _ => is_var p; destruct p
  | E : json_string ?x = Some (_, ?y) |- _ => apply json_string_length in E
  | E : json_number ?x = Some (_, ?y) |- _ => apply json_number_length in E
  | E : skip_ws ?x = ?y |- _ => let L := fresh "L" in
      assert (L := length_skip_ws x); rewrite E in L; clear E
  end.

Lemma json_consumes (f : nat) :
  (forall s v r, json_value f s = POk v r -> length r < length s) /\
  (forall s acc v r, json_members f s acc = POk v r -> length r < length s) /\
  (forall s acc v r, json_elements f s acc = POk v r -> length r < length s).
Proof.
  induction f as [|f (IHv & IHm & IHe)]; [repeat split; done|].
  repeat split.
  - intros s v r H. cbn [json_value] in H. unfold opt_res, fmap, option_fmap, option_map in H.
    repeat (case_match; simplify_eq/=); json_len_facts;
      repeat match goal with
      | E : json_members f _ _ = POk _ _ |- _ => apply IHm in E
      | E : json_elements f _ _ = POk _ _ |- _ => apply IHe in E
      end; rewrite ?length_drop; simpl in *; lia.
  - intros s acc v r H. cbn [json_members] in H.
    repeat (case_match; simplify_eq/=); json_len_facts;
      repeat match goal with
      | E : json_value f _ = POk _ _ |- _ => apply IHv in E
      | E : json_members f _ _ = POk _ _ |- _ => apply IHm in E
      end; simpl in *; lia.
  - intros s acc v r H. cbn [json_elements] in H.
    repeat (case_match; simplify_eq/=); json_len_facts;
      repeat match goal with
      | E : json_value f _ = POk _ _ |- _ => apply IHv in E
      | E : json_elements f _ _ = POk _ _ |- _ => apply IHe in E
      end; simpl in *; lia.
Qed.

(** After the length facts, the branch a recursive call decides: its
    [PNoFuel] contradicts the bound, its [POk] shortens the text. *)
Ltac json_fuel_close IHv IHm IHe Cv Cm Ce :=
  json_len_facts;
  repeat match goal with
  | E : json_value _ _ = POk _ _ |- _ => apply Cv in E
  | E : json_members _ _ _ = POk _ _ |- _ => apply Cm in E
  | E : json_elements _ _ _ = POk _ _ |- _ => apply Ce in E
  end;
  first
  [ match goal with E : json_value _ ?x = PNoFuel |- _ => exfalso; apply (IHv x); [simpl in *; lia|exact E] end
  | apply IHm; simpl in *; lia
  | apply IHe; simpl in *; lia ].

(** With fuel above twice the length of the text, no function of the
    grammar runs out of it. *)
Lemma json_enough_fuel (f : nat) :
  (forall s, 2 * length s < f -> json_value f s <> PNoFuel) /\
  (forall s acc, 2 * length s + 1 < f -> json_members f s acc <> PNoFuel) /\
  (forall s acc, 2 * length s + 1 < f -> json_elements f s acc <> PNoFuel).
Proof.
  induction f as [|f (IHv & IHm & IHe)]; [repeat split; intros; lia|].
  destruct (json_consumes f) as (Cv & Cm & Ce).
  repeat split.
  - intros s Hf. cbn [json_value]. unfold opt_res, fmap, option_fmap, option_map.
    repeat (case_match; simplify_eq/=); try done; json_fuel_close IHv IHm IHe Cv Cm Ce.
  - intros s acc Hf. cbn [json_members].
    repeat (case_match; simplify_eq/=); try done; json_fuel_close IHv IHm IHe Cv Cm Ce.
  - intros s acc Hf. cbn [json_elements].
    repeat (case_match; simplify_eq/=); try done; json_fuel_close IHv IHm IHe Cv Cm Ce.
Qed.

(** A call that does not run out of fuel gives the same result with more. *)
Lemma json_more_fuel (f : nat) :
  (forall f' s, f <= f' -> json_value f s <> PNoFuel -> json_value f' s = json_value f s) /\
  (forall f' s acc, f <= f' -> json_members f s acc <> PNoFuel -> json_members f' s acc = json_members f s acc) /\
  (forall f' s acc, f <= f' -> json_elements f s acc <> PNoFuel -> json_elements f' s acc = json_elements f s acc).
Proof.
  induction f as [|f (IHv & IHm & IHe)]; [repeat split; intros; done|].
  repeat split; intros [|f'] s; try (intros; lia); [|intros acc..]; intros Hle;
    cbn [json_value json_members json_elements];
    repeat first
      [ match goal with
        | |- context [json_value f' ?x] =>
          let E := fresh "E" in
          destruct (json_value f x) eqn:E;
          [ rewrite (IHv f' x), E by (lia || congruence)
          | rewrite (IHv f' x), E by (lia || congruence)
          | intros Hn; exfalso; apply Hn; simpl; repeat case_match; done ]
        | |- _ -> json_members f' _ _ = _ => let Hn := fresh in intros Hn; apply IHm; [lia|exact Hn]
        | |- _ -> json_elements f' _ _ = _ => let Hn := fresh in intros Hn; apply IHe; [lia|exact Hn]
        end
      | case_match ]; try done.
Qed.

(** ** The line loop *)

(** No line pattern matches a text that does not open with a quote. *)
Lemma key_prefix_quote (t : jstr) (kr : jstr * jstr) :
  key_prefix t = Some kr -> exists r, t = dq :: r.
Proof.
  destruct t as [|c r]; [done|]. unfold key_prefix.
  destruct (is_ch c 34) eqn:Hc; [|done]. intros _. exists r.
  unfold is_ch, code in Hc. apply Nat.eqb_eq in Hc. f_equal.
  by rewrite <- (ascii_nat_embedding c), Hc.
Qed.

Lemma key_prefix_not_quote (c : ascii) (t : jstr) : c <> dq -> key_prefix (c :: t) = None.
Proof.
  intros Hc. destruct (key_prefix (c :: t)) as [kr|] eqn:E; [|done].
  apply key_prefix_quote in E as [r [= -> _]]. done.
Qed.

Lemma line_patterns_none (t : jstr) :
  key_prefix t = None ->
  string_match t = None /\ num_match t = None /\ open_match 91 t = None /\ open_match 123 t = None.
Proof. intros H. unfold string_match, num_match, open_match. by rewrite H. Qed.

(** From the free state a line no pattern reads changes nothing. *)
Lemma partial_line_unmatched (vars : list (jstr * jsval)) (line : jstr) :
  key_prefix (trim line) = None -> partial_line (free_state vars) line = free_state vars.
Proof.
  intros H. destruct (line_patterns_none _ H) as (H1 & H2 & H3 & H4).
  unfold partial_line. rewrite H1, H2, H3, H4. by case_match.
Qed.

Lemma flat_member_skipped (line : jstr) : skipped_line line = true -> flat_member line = None.
Proof.
  unfold skipped_line, flat_member. intros H.
  repeat (apply orb_true_iff in H as [H|H]); apply bool_decide_eq_true in H; by rewrite H.
Qed.

(** One line of a flat document. *)
Lemma partial_line_flat (vars : list (jstr * jsval)) (line : jstr) :
  skipped_line line = true \/ is_Some (flat_member line) ->
  partial_line (free_state vars) line = free_state (add_flat_member vars line).
Proof.
  unfold add_flat_member. intros [Hs|[kv Hm]].
  - rewrite flat_member_skipped by done. unfold partial_line. unfold skipped_line in Hs. by rewrite Hs.
  - rewrite Hm. destruct kv as [k v]. unfold flat_member in Hm. unfold partial_line.
    destruct (key_prefix (trim line)) as [[k' r]|] eqn:Hk;
      [|by destruct (line_patterns_none _ Hk) as (H1 & H2 & _); rewrite H1, H2 in Hm].
    apply key_prefix_quote in Hk as [r' Hr]. rewrite Hr in Hm |- *. cbn [negb andb].
    rewrite !bool_decide_false by done. cbn [orb].
    destruct (string_match (dq :: r')) as [[k1 v1]|]; [by simplify_eq|].
    destruct (num_match (dq :: r')) as [[k1 d1]|]; by simplify_eq.
Qed.

Lemma partial_loop_flat (ls : list jstr) (vars : list (jstr * jsval)) :
  Forall (fun l => skipped_line l = true \/ is_Some (flat_member l)) ls ->
  fold_left partial_line ls (free_state vars) = free_state (foldl add_flat_member vars ls).
Proof.
  intros Hall. revert vars. induction Hall as [|l ls Hl _ IH]; intros vars; [done|].
  cbn [fold_left foldl]. rewrite partial_line_flat by done. apply IH.
Qed.



(** ** Properties of [parseJsonDirect] *)

(** A text on one line that [JSON.parse] rejects gives the empty
    object: [parsePartialJsonDirect] reads members line by line, and the
    only line opens with a brace, which no line pattern accepts.  So the
    truncated one-line array of the specification loses [items]. *)
Theorem parseJsonDirect_single_line (s : jstr) :
  nl ∉ s -> json_parse (trim s) = None -> parseJsonDirect s = JObj [].
Proof.
  intros Hnl Hp. unfold parseJsonDirect, parsePartialJsonDirect. rewrite Hp.
  destruct (starts_with_char lbrace_c (trim s)) eqn:Hb; [|done]. cbn [negb].
  rewrite lines_of_single by (intros Hin%elem_of_trim; done). cbn [fold_left].
  change pstate_init with (free_state []). rewrite partial_line_unmatched; [done|].
  rewrite trim_idem. destruct (trim s) as [|c t]; [done|].
  apply bool_decide_eq_true in Hb as <-. by apply key_prefix_not_quote.
Qed.

Lemma parseJsonDirect_single_line_witness :
  (nl ∉ ex_items_line) /\ json_parse (trim ex_items_line) = None /\ parseJsonDirect ex_items_line = JObj [].
Proof.
  assert (H1 : nl ∉ ex_items_line) by (apply (bool_decide_unpack _); vm_compute; exact I).
  assert (H2 : json_parse (trim ex_items_line) = None) by (vm_compute; reflexivity).
  split; [exact H1|split; [exact H2|exact (parseJsonDirect_single_line ex_items_line H1 H2)]].
Defined.

(** C8: On a text that opens with a brace and that [JSON.parse]
    rejects, when every line is blank, a lone brace, or a string or
    integer member, [parsePartialJsonDirect] gives the object of those
    members in order, a repeated key keeping its first place and its
    last value. *)
Theorem parsePartialJsonDirect_flat (s : jstr) :
  starts_with_char lbrace_c s = true -> json_parse s = None ->
  Forall (fun l => skipped_line l = true \/ is_Some (flat_member l)) (lines_of s) ->
  parsePartialJsonDirect s = JObj (foldl add_flat_member [] (lines_of s)).
Proof.
  intros Hb Hp Hall. unfold parsePartialJsonDirect. rewrite Hb, Hp. cbn [negb].
  change pstate_init with (free_state []). by rewrite partial_loop_flat.
Qed.

Lemma parsePartialJsonDirect_flat_witness :
  parsePartialJsonDirect ex_flat
  = JObj [(j["name"], JStr j["Aria"]); (j["score"], JNum (num_of_N 42))].
Proof.
  rewrite (parsePartialJsonDirect_flat ex_flat); [reflexivity|reflexivity|vm_compute; reflexivity|].
  apply (bool_decide_unpack _). vm_compute. exact I.
Defined.

(** A closing brace alone on its line is skipped before the depth
    count sees it, so the depth of a nested object never returns to
    zero: the sibling [d] that follows is read into the object of [a]. *)
Example parseJsonDirect_nested_sibling_absorbed :
  parseJsonDirect ex_nested
  = JObj [(j["a"], JObj [(j["b"], JObj [(j["c"], JNum (num_of_N 1))]); (j["d"], JNum (num_of_N 2))])].
Proof. by vm_compute. Qed.

(** Split over lines, the truncated array of the specification is
    repaired: after the loop, the fragment with a closing bracket fails,
    the fragment without its trailing comma and with the bracket parses. *)
Example parseJsonDirect_items_lines_repaired :
  parseJsonDirect ex_items_lines = JObj [(j["items"], JArr [JStr j["a"]; JStr j["b"]])].
Proof. by vm_compute. Qed.

End Json.
