(* ===== verification/JsonText.v ===== *)
(** * JSON text: what [JSON.stringify] writes and [JSON.parse] reads

    The editor's export buttons write [JSON.stringify(value, null, 2)]
    ([JsValue.json_pretty]) and the import inputs read the file back
    with [JSON.parse] ([Json.json_parse]).  This file proves that the
    parser reads back every printed value of the shape the settings
    have ([plainb]: integers of at most 21 digits, strings, booleans,
    [null], arrays, objects with distinct keys that are not array
    indices), in the style of a serializer's round-trip law: the text
    of a value followed by any continuation parses to the value and
    leaves the continuation.  It also shows that every object
    [JSON.parse] builds has distinct keys ([json_wf]). *)

From S2P Require Import Prelude JsValue Json.

Module JsonText.
Import Json.

(** ** Values whose text reads back as themselves *)

(** An integer [Number::toString] spells with digits only: exponent
    zero, no negative zero, at most 21 digits. *)
Definition num_plain (n : jsnum) : bool :=
  (num_exp n =? 0)%Z && (if decide (num_mant n = 0%N) then negb (num_neg n) else true)
  && (length (N_to_jstr (num_mant n)) <=? 21).

Fixpoint plainb (v : jsval) : bool :=
  match v with
  | JNum n => num_plain n
  | JArr xs => forallb plainb xs
  | JObj ps => bool_decide (NoDup ps.*1) && forallb (fun kv => negb (is_array_index kv.1) && plainb kv.2) ps
  | _ => true
  end.

(** Objects built by [JSON.parse]: their keys are distinct, at every
    depth. *)
Fixpoint json_wf (v : jsval) : bool :=
  match v with
  | JArr xs => forallb json_wf xs
  | JObj ps => bool_decide (NoDup ps.*1) && forallb (fun kv => json_wf kv.2) ps
  | _ => true
  end.

(** What may follow a number for [json_number] to stop before it. *)
Definition num_stop (r : jstr) : bool :=
  match r with [] => true | c :: _ => negb (is_digit c || is_ch c 46 || is_ch c 101 || is_ch c 69) end.

Definition all_ws (s : jstr) : Prop := Forall (fun c => is_json_ws c = true) s.

(** ** Characters and strings *)

(** Character tests on known characters, evaluated. *)
Ltac eval_char_tests :=
  repeat (match goal with
  | |- context [is_ch ?c ?n] =>
      let b := eval vm_compute in (is_ch c n) in
      match b with true => change (is_ch c n) with true | false => change (is_ch c n) with false end
  | |- context [is_json_ws ?c] =>
      let b := eval vm_compute in (is_json_ws c) in
      match b with true => change (is_json_ws c) with true | false => change (is_json_ws c) with false end
  end; cbn iota beta zeta).

(** One escaped character, by cases on the 256 characters. *)
Lemma json_string_escape_char (a : ascii) (s : jstr) :
  json_string (json_escape_char a ++ s) = (fun pr => (a :: pr.1, pr.2)) <$> json_string s.
Proof. destruct a as [[] [] [] [] [] [] [] []]; reflexivity. Qed.

Lemma json_string_escaped (t r : jstr) (c : ascii) :
  is_ch c 34 = true -> json_string (mjoin (map json_escape_char t) ++ c :: r) = Some (t, r).
Proof.
  intros Hc. induction t as [|a t IH].
  - cbn. by rewrite Hc.
  - change (mjoin (map json_escape_char (a :: t))) with (json_escape_char a ++ mjoin (map json_escape_char t)).
    rewrite <- app_assoc, json_string_escape_char, IH. done.
Qed.

Lemma skip_ws_app (ws s : jstr) : all_ws ws -> skip_ws (ws ++ s) = skip_ws s.
Proof. induction 1 as [|c ws Hc _ IH]; [done|]. cbn. by rewrite Hc. Qed.

Lemma skip_ws_nonws (c : ascii) (s : jstr) : is_json_ws c = false -> skip_ws (c :: s) = c :: s.
Proof. intros Hc. cbn. by rewrite Hc. Qed.

Lemma json_value_ws (f : nat) (ws s : jstr) : all_ws ws -> json_value f (ws ++ s) = json_value f s.
Proof. intros Hws. destruct f; [done|]. cbn [json_value]. by rewrite skip_ws_app. Qed.

Lemma json_members_ws (f : nat) (ws s : jstr) acc : all_ws ws -> json_members f (ws ++ s) acc = json_members f s acc.
Proof. intros Hws. destruct f; [done|]. cbn [json_members]. by rewrite skip_ws_app. Qed.

(** ** Digits and integers *)

(** A digit is no sign and no whitespace, and [JSON.parse] reads a
    number from it. *)
Lemma json_digit_facts (d : ascii) :
  is_digit d = true ->
  is_json_ws d = false /\ is_ws d = false /\ is_ch d 45 = false /\ is_ch d 43 = false /\
  forall f s, json_value (S f) (d :: s) = opt_res ((fun pr => (JNum pr.1, pr.2)) <$> json_number (d :: s)).
Proof. destruct d as [[] [] [] [] [] [] [] []]; cbn; try discriminate; auto. Qed.

(** The decimal spelling of a positive number begins with a digit
    other than [0]. *)
Lemma N_to_jstr_head (n : N) :
  (0 < n)%N -> exists d ds, N_to_jstr n = d :: ds /\ is_digit d = true /\ is_ch d 48 = false.
Proof.
  intros Hn. unfold N_to_jstr.
  assert (Hnorm : N.to_uint n = Decimal.unorm (N.to_uint n)).
  { rewrite <- DecimalN.Unsigned.to_of, DecimalN.Unsigned.of_to. done. }
  destruct (N.to_uint n) as [|u|u|u|u|u|u|u|u|u|u] eqn:E; cbn; try (eexists _, _; split; [reflexivity|done]).
  - exfalso. assert (H0 : N.of_uint (N.to_uint n) = 0%N) by (rewrite E; reflexivity).
    rewrite DecimalN.Unsigned.of_to in H0. lia.
  - exfalso. unfold Decimal.unorm in Hnorm. cbn [Decimal.nzhead] in Hnorm.
    destruct (Decimal.nzhead u) eqn:Ez.
    1: { injection Hnorm as ->. assert (H0 : N.of_uint (N.to_uint n) = 0%N) by (rewrite E; reflexivity).
         rewrite DecimalN.Unsigned.of_to in H0. lia. }
    all: pose proof (DecimalFacts.nb_digits_nzhead u) as Hle; rewrite Ez, <- Hnorm in Hle; cbn in Hle; lia.
Qed.

Lemma span_digits_app (s r : jstr) :
  all_digits s = true -> (forall c r', r = c :: r' -> is_digit c = false) -> span_digits (s ++ r) = (s, r).
Proof.
  intros Hs Hr. unfold all_digits in Hs. induction s as [|c s IH]; cbn [span_digits app forallb] in *.
  - destruct r as [|c r']; [done|]. cbn [span_digits]. by rewrite (Hr c r' eq_refl).
  - apply andb_true_iff in Hs as [Hc Hs]. rewrite Hc, IH by done. done.
Qed.

Lemma drop_while_zeros (l : jstr) :
  l = repeat "0"%char (length l - length (drop_while is_zero_char l)) ++ drop_while is_zero_char l /\
  length (drop_while is_zero_char l) <= length l.
Proof.
  induction l as [|a l [IH Hle]]; [done|]. cbn [drop_while].
  destruct (is_zero_char a) eqn:Ea; [|cbn; rewrite Nat.sub_diag; done].
  unfold is_zero_char in Ea. apply bool_decide_eq_true in Ea as ->.
  cbn [length]. split; [|lia]. rewrite Nat.sub_succ_l by lia. cbn [repeat app]. by rewrite <- IH.
Qed.

Definition sign_text (neg : bool) : jstr := if neg then j["-"] else [].

(** [Number::toString] of a nonzero integer of at most 21 digits is its
    sign and decimal spelling. *)
Lemma number_to_string_int (neg : bool) (n : N) :
  (0 < n)%N -> length (N_to_jstr n) <= 21 -> number_to_string (JsNum neg n 0) = sign_text neg ++ N_to_jstr n.
Proof.
  intros Hn Hlen. unfold number_to_string, num_digits. cbn [num_mant num_neg num_exp].
  rewrite decide_False by lia. f_equal.
  set (ds := N_to_jstr n) in *. set (r := drop_while is_zero_char (rev ds)).
  destruct (drop_while_zeros (rev ds)) as [Hsplit Hle]. fold r in Hsplit, Hle. rewrite length_rev in Hsplit, Hle.
  assert (Hds : ds = rev r ++ repeat "0"%char (length ds - length r)).
  { rewrite <- (rev_involutive ds) at 1. rewrite Hsplit, rev_app_distr, rev_repeat. done. }
  rewrite length_rev.
  rewrite (proj2 (Z.leb_le _ _)) by lia. rewrite (proj2 (Z.leb_le _ (21%Z))) by lia. cbn [andb].
  replace (Z.to_nat (Z.of_nat (length r) + (0 + Z.of_nat (length ds - length r)) - Z.of_nat (length r)))
    with (length ds - length r) by lia.
  unfold zeros. symmetry. exact Hds.
Qed.

(** Every plain number is printed as its sign and digits. *)
Lemma number_text (n : jsnum) :
  num_plain n = true -> number_to_string n = sign_text (num_neg n) ++ N_to_jstr (num_mant n).
Proof.
  destruct n as [neg m e]. unfold num_plain. cbn [num_exp num_mant num_neg].
  intros H. apply andb_true_iff in H as [H Hlen]. apply andb_true_iff in H as [He Hz].
  apply Z.eqb_eq in He as ->. apply Nat.leb_le in Hlen.
  destruct (decide (m = 0%N)) as [->|Hm]; [destruct neg; [done|reflexivity]|].
  apply number_to_string_int; [lia|done].
Qed.

(** [json_number] reads an integer spelling back, before a character
    that cannot continue a number. *)
Lemma json_number_int (neg : bool) (m : N) (r : jstr) :
  num_stop r = true -> json_number (sign_text neg ++ N_to_jstr m ++ r) = Some (JsNum neg m 0, r).
Proof.
  intros Hr.
  assert (Hr' : forall c r', r = c :: r' -> is_digit c = false).
  { intros c r' ->. cbn in Hr. by destruct (is_digit c). }
  assert (Hds : exists ip, N_to_jstr m = ip /\ digits_value ip = m /\
                  ((ip = ["0"%char]) \/ exists d ds, ip = d :: ds /\ is_digit d = true /\ is_ch d 48 = false /\
                     is_ch d 45 = false /\ all_digits ds = true)).
  { exists (N_to_jstr m). split_and!; [done|apply digits_value_N_to_jstr|].
    destruct (decide (m = 0%N)) as [->|Hm]; [by left|right].
    destruct (N_to_jstr_head m ltac:(lia)) as (d & ds & E & Hd & H48). exists d, ds.
    pose proof (N_to_jstr_digits m) as Hall. rewrite E in Hall |- *. unfold all_digits in Hall |- *.
    cbn [forallb] in Hall. apply andb_true_iff in Hall as [_ Hall].
    destruct (json_digit_facts d Hd) as (_ & _ & H45 & _ & _). done. }
  destruct Hds as (ip & -> & Hv & [->|(d & ds & -> & Hd & H48 & H45 & Hall)]).
  - destruct neg; cbn [sign_text app lit String.list_ascii_of_string]; unfold json_number; eval_char_tests;
      (destruct r as [|c r0]; [by rewrite <- Hv|]); cbn in Hr;
      destruct (is_digit c), (is_ch c 46) eqn:E1, (is_ch c 101) eqn:E2, (is_ch c 69) eqn:E3; try discriminate;
      cbn; rewrite ?E1, ?E2, ?E3; by rewrite <- Hv.
  - destruct neg; cbn [sign_text app lit String.list_ascii_of_string]; unfold json_number; eval_char_tests;
      rewrite ?H45, H48, Hd, span_digits_app by done;
      (destruct r as [|c r0]; [by rewrite app_nil_r, <- Hv|]); cbn in Hr;
      destruct (is_digit c), (is_ch c 46) eqn:E1, (is_ch c 101) eqn:E2, (is_ch c 69) eqn:E3; try discriminate;
      cbn; rewrite ?E1, ?E2, ?E3, app_nil_r; by rewrite <- Hv.
Qed.

(** ** Reading printed values back *)

Lemma value_lift (f f' : nat) (s : jstr) (v : jsval) (r : jstr) :
  f <= f' -> json_value f s = POk v r -> json_value f' s = POk v r.
Proof. intros Hle H. rewrite (proj1 (json_more_fuel f) f' s Hle) by (by rewrite H). exact H. Qed.

Lemma members_lift (f f' : nat) (s : jstr) acc (v : jsval) (r : jstr) :
  f <= f' -> json_members f s acc = POk v r -> json_members f' s acc = POk v r.
Proof. intros Hle H. rewrite (proj1 (proj2 (json_more_fuel f)) f' s acc Hle) by (by rewrite H). exact H. Qed.

Lemma elements_lift (f f' : nat) (s : jstr) acc (v : jsval) (r : jstr) :
  f <= f' -> json_elements f s acc = POk v r -> json_elements f' s acc = POk v r.
Proof. intros Hle H. rewrite (proj2 (proj2 (json_more_fuel f)) f' s acc Hle) by (by rewrite H). exact H. Qed.

Lemma N_to_jstr_cons (m : N) : exists d ds, N_to_jstr m = d :: ds /\ is_digit d = true.
Proof.
  destruct (decide (m = 0%N)) as [->|Hm]; [by eexists _, _|].
  destruct (N_to_jstr_head m ltac:(lia)) as (d & ds & E & Hd & _). by exists d, ds.
Qed.

Lemma digit_not_delim (d : ascii) : is_digit d = true -> is_ch d 93 = false /\ is_ch d 125 = false.
Proof. destruct d as [[] [] [] [] [] [] [] []]; cbn; try discriminate; auto. Qed.

(** The text of a number, followed by a continuation. *)
Lemma json_value_number (f : nat) (n : jsnum) (rest : jstr) :
  num_plain n = true -> num_stop rest = true ->
  json_value (S f) (number_to_string n ++ rest) = POk (JNum n) rest.
Proof.
  intros Hn Hr. rewrite number_text by done.
  pose proof (json_number_int (num_neg n) (num_mant n) rest Hr) as Hnum.
  replace (JsNum (num_neg n) (num_mant n) 0) with n in Hnum
    by (destruct n as [neg m e]; unfold num_plain in Hn; cbn in *;
        apply andb_true_iff in Hn as [Hn _]; apply andb_true_iff in Hn as [He _]; by apply Z.eqb_eq in He as ->).
  destruct (N_to_jstr_cons (num_mant n)) as (d & ds & E & Hd). rewrite E in Hnum |- *.
  destruct (num_neg n); cbn [sign_text app lit String.list_ascii_of_string] in Hnum |- *.
  - change (json_value (S f) ("-"%char :: d :: ds ++ rest))
      with (opt_res ((fun pr => (JNum pr.1, pr.2)) <$> json_number ("-"%char :: d :: ds ++ rest))).
    by rewrite Hnum.
  - destruct (json_digit_facts d Hd) as (_ & _ & _ & _ & Hv). by rewrite Hv, Hnum.
Qed.

(** Printed text begins with a character that is no whitespace and
    no closing bracket. *)
Lemma pretty_head (ind : jstr) (v : jsval) :
  plainb v = true -> exists c s, json_pretty ind v = c :: s /\ is_json_ws c = false /\ is_ch c 93 = false.
Proof.
  intros Hv. destruct v as [|[]|n|t|[]|[]]; try (by eexists _, _).
  cbn [json_pretty json_stringify]. rewrite number_text by done.
  destruct (N_to_jstr_cons (num_mant n)) as (d & ds & E & Hd). rewrite E.
  destruct (num_neg n); [by eexists _, _|]. exists d, ds.
  destruct (json_digit_facts d Hd) as (? & _). destruct (digit_not_delim d Hd). done.
Qed.

Lemma own_entries_no_index {A} (ps : list (jstr * A)) :
  Forall (fun kv => is_array_index kv.1 = false) ps -> own_entries ps = ps.
Proof.
  intros Hall. unfold own_entries.
  assert (H1 : filter (fun kv => is_array_index kv.1 = true) ps = []).
  { induction Hall as [|kv ps Hkv _ IH]; [done|]. rewrite filter_cons. case_decide; [congruence|done]. }
  assert (H2 : filter (fun kv => is_array_index kv.1 = false) ps = ps).
  { clear H1. induction Hall as [|kv ps Hkv _ IH]; [done|]. rewrite filter_cons.
    case_decide; [by rewrite IH|contradiction]. }
  by rewrite H1, H2.
Qed.

(** Setting fresh keys one after the other appends them. *)
Lemma foldl_obj_set_fresh (l acc : list (jstr * jsval)) :
  NoDup (acc ++ l).*1 -> foldl (fun acc kv => obj_set kv.1 kv.2 acc) acc l = acc ++ l.
Proof.
  revert acc. induction l as [|[k v] l IH]; intros acc Hnd; [by rewrite app_nil_r|]. cbn [foldl fst snd].
  assert (Hk : k ∉ acc.*1).
  { rewrite fmap_app in Hnd. apply NoDup_app in Hnd as (_ & Hd & _). intros Hin. apply (Hd k Hin). by left. }
  assert (Hs : obj_set k v acc = acc ++ [(k, v)]).
  { clear IH Hnd. induction acc as [|[k' v'] acc IHa]; [done|]. cbn. rewrite decide_False by (intros ->; apply Hk; left).
    rewrite IHa; [done|]. intros Hin. apply Hk. by right. }
  rewrite Hs, IH; [by rewrite <- app_assoc|]. by rewrite <- app_assoc.
Qed.

Definition sep_text (ind' : jstr) : jstr := [","%char; nl] ++ ind'.

Lemma skip_ws_sep (ind' t : jstr) : skip_ws (sep_text ind' ++ t) = ","%char :: ([nl] ++ ind') ++ t.
Proof. done. Qed.

Lemma join_cons_ne (sep a : jstr) (l : list jstr) : l <> [] -> join sep (a :: l) = a ++ sep ++ join sep l.
Proof. by destruct l. Qed.

Section Lists.
Context (ind ind' rest : jstr) (Hind : all_ws ind) (Hind' : all_ws ind').

Lemma all_ws_nl (s : jstr) : all_ws s -> all_ws ([nl] ++ s).
Proof. intros Hs. constructor; [reflexivity|done]. Qed.

Lemma skip_ws_close (c : ascii) (r : jstr) : is_json_ws c = false -> skip_ws ([nl] ++ ind ++ c :: r) = c :: r.
Proof. intros Hc. rewrite app_assoc, skip_ws_app by (by apply all_ws_nl). by apply skip_ws_nonws. Qed.

(** The elements of an array after its ['['], each followed by
    [",\n"] and the indentation, the last by a line feed, the outer
    indentation and [']']. *)
Lemma elements_parse (x : jsval) (xs : list jsval) (acc : list jsval) :
  Forall (fun y => forall r, num_stop r = true -> exists f, json_value f (json_pretty ind' y ++ r) = POk y r) (x :: xs) ->
  exists f, forall ws, all_ws ws ->
    json_elements f (ws ++ join (sep_text ind') (map (json_pretty ind') (x :: xs)) ++ [nl] ++ ind ++ j["]"] ++ rest) acc
    = POk (JArr (acc ++ x :: xs)) rest.
Proof.
  revert x acc. induction xs as [|y xs IH]; intros x acc Hall; apply Forall_cons in Hall as [Hx Hall].
  - destruct (Hx ([nl] ++ ind ++ j["]"] ++ rest)) as [f1 Hf1]; [reflexivity|].
    exists (S f1). intros ws Hws. cbn [map join json_elements]. rewrite json_value_ws, Hf1 by done.
    change (j["]"] ++ rest) with ("]"%char :: rest). rewrite skip_ws_close by reflexivity. eval_char_tests. done.
  - destruct (IH y (acc ++ [x]) Hall) as [f2 Hf2].
    destruct (Hx (sep_text ind' ++ join (sep_text ind') (map (json_pretty ind') (y :: xs)) ++ [nl] ++ ind ++ j["]"] ++ rest))
      as [f1 Hf1]; [reflexivity|].
    exists (S (max f1 f2)). intros ws Hws. rewrite (map_cons (json_pretty ind') x), join_cons_ne by (cbn; congruence). cbn [json_elements].
    rewrite <- !app_assoc.
    rewrite json_value_ws by done. rewrite (value_lift f1 (max f1 f2) _ x _ ltac:(lia) Hf1).
    rewrite skip_ws_sep. eval_char_tests.
    rewrite (elements_lift f2 (max f1 f2) _ _ _ _ ltac:(lia) (Hf2 _ (all_ws_nl _ Hind'))).
    by rewrite <- app_assoc.
Qed.

Definition member_text (ind' : jstr) (kv : jstr * jsval) : jstr := json_quote kv.1 ++ j[": "] ++ json_pretty ind' kv.2.

(** One member ["k": v] of an object being read. *)
Lemma member_step (F : nat) (kv : jstr * jsval) (R : jstr) acc :
  json_value F ([" "%char] ++ json_pretty ind' kv.2 ++ R) = POk kv.2 R ->
  json_members (S F) (member_text ind' kv ++ R) acc =
  match skip_ws R with
  | c3 :: r4 => if is_ch c3 44 then json_members F r4 (obj_set kv.1 kv.2 acc)
                else if is_ch c3 125 then POk (JObj (obj_set kv.1 kv.2 acc)) r4 else PFail
  | [] => PFail
  end.
Proof.
  intros Hv. unfold member_text, json_quote. rewrite <- !app_assoc. cbn [json_members app skip_ws]. eval_char_tests.
  rewrite json_string_escaped by reflexivity. cbn [lit String.list_ascii_of_string app skip_ws]. eval_char_tests.
  cbn [app] in Hv. by rewrite Hv.
Qed.

(** The members of an object after its ['{']. *)
Lemma members_parse (kv : jstr * jsval) (ps : list (jstr * jsval)) acc :
  Forall (fun kv => forall r, num_stop r = true -> exists f, json_value f (json_pretty ind' kv.2 ++ r) = POk kv.2 r) (kv :: ps) ->
  exists f, forall ws, all_ws ws ->
    json_members f (ws ++ join (sep_text ind') (map (member_text ind') (kv :: ps)) ++ [nl] ++ ind ++ j["}"] ++ rest) acc
    = POk (JObj (foldl (fun acc kv => obj_set kv.1 kv.2 acc) acc (kv :: ps))) rest.
Proof.
  revert kv acc. induction ps as [|kv' ps IH]; intros kv acc Hall; apply Forall_cons in Hall as [Hx Hall].
  - destruct (Hx ([nl] ++ ind ++ j["}"] ++ rest)) as [f1 Hf1]; [reflexivity|].
    exists (S f1). intros ws Hws. cbn [map join]. rewrite json_members_ws by done.
    rewrite member_step by (rewrite json_value_ws; [exact Hf1|repeat constructor]).
    change (j["}"] ++ rest) with ("}"%char :: rest). rewrite skip_ws_close by reflexivity. eval_char_tests. done.
  - destruct (IH kv' (obj_set kv.1 kv.2 acc) Hall) as [f2 Hf2].
    destruct (Hx (sep_text ind' ++ join (sep_text ind') (map (member_text ind') (kv' :: ps)) ++ [nl] ++ ind ++ j["}"] ++ rest))
      as [f1 Hf1]; [reflexivity|].
    exists (S (max f1 f2)). intros ws Hws.
    rewrite (map_cons (member_text ind') kv), join_cons_ne by (cbn; congruence).
    rewrite json_members_ws by done. rewrite <- !app_assoc.
    rewrite member_step by (rewrite json_value_ws; [exact (value_lift f1 (max f1 f2) _ _ _ ltac:(lia) Hf1)|repeat constructor]).
    rewrite skip_ws_sep. eval_char_tests.
    by rewrite (members_lift f2 (max f1 f2) _ _ _ _ ltac:(lia) (Hf2 _ (all_ws_nl _ Hind'))).
Qed.

End Lists.

Lemma all_ws_indent (ind : jstr) : all_ws ind -> all_ws (ind ++ j["  "]).
Proof. intros H. apply Forall_app; split; [done|repeat constructor]. Qed.

Lemma forallb_Forall {A} (f : A -> bool) (l : list A) : forallb f l = true -> Forall (fun x => f x = true) l.
Proof. induction l as [|x l IH]; cbn; [done|]. intros [Hx Hl]%andb_true_iff. constructor; auto. Qed.

Lemma skip_ws_nl (t : jstr) : skip_ws (nl :: t) = skip_ws t.
Proof. reflexivity. Qed.

Lemma join_head (sep a : jstr) (l : list jstr) : exists u, join sep (a :: l) = a ++ u.
Proof. destruct l; [exists []; by rewrite app_nil_r|by eexists]. Qed.

(** After ['['] and the whitespace that follows, the parser reads the
    elements from their first character. *)
Lemma array_entry (f : nat) (ind' T : jstr) :
  all_ws ind' -> (exists c s, T = c :: s /\ is_json_ws c = false /\ is_ch c 93 = false) ->
  json_value (S f) (j["["] ++ [nl] ++ ind' ++ T) = json_elements f T [].
Proof.
  intros Hind' (c & s & -> & Hc & H93). cbn [json_value lit String.list_ascii_of_string app skip_ws]. eval_char_tests.
  rewrite skip_ws_nl, skip_ws_app, skip_ws_nonws by done. by rewrite H93.
Qed.

Lemma object_entry (f : nat) (ind' T : jstr) :
  all_ws ind' -> (exists s, T = dq :: s) ->
  json_value (S f) (j["{"] ++ [nl] ++ ind' ++ T) = json_members f T [].
Proof.
  intros Hind' (s & ->). cbn [json_value lit String.list_ascii_of_string app skip_ws]. eval_char_tests.
  rewrite skip_ws_nl, skip_ws_app by done. cbn [skip_ws]. by eval_char_tests.
Qed.

(** The text [json_pretty ind v] of a plain value, followed by any
    text that cannot continue a number, parses to [v] and leaves that
    text. *)
Lemma pretty_parses (v : jsval) :
  plainb v = true -> forall ind rest, all_ws ind -> num_stop rest = true ->
  exists f, json_value f (json_pretty ind v ++ rest) = POk v rest.
Proof.
  induction v as [|b|n|t|xs IH|ps IH] using jsval_ind'; intros Hv ind rest Hind Hr.
  - by exists 1.
  - exists 1. by destruct b.
  - exists 1. by apply json_value_number.
  - exists 1. cbn [json_pretty json_stringify]. unfold json_quote. rewrite <- app_assoc.
    cbn [app json_value skip_ws]. eval_char_tests. rewrite <- app_assoc. cbn [app]. by rewrite json_string_escaped.
  - destruct xs as [|x xs]; [by exists 1|]. cbn [plainb] in Hv. apply forallb_Forall in Hv.
    set (ind' := ind ++ j["  "]). pose proof (all_ws_indent ind Hind) as Hind'. fold ind' in Hind'.
    assert (Hall : Forall (fun y => forall r, num_stop r = true -> exists f, json_value f (json_pretty ind' y ++ r) = POk y r) (x :: xs)).
    { apply Forall_forall. intros y Hy r Hr'. rewrite Forall_forall in IH, Hv. apply IH; [done|by apply Hv|done|done]. }
    destruct (elements_parse ind ind' rest Hind Hind' x xs [] Hall) as [f Hf].
    destruct (pretty_head ind' x) as (c & s & Ec & Hc & Hc93); [by apply Forall_inv in Hv|].
    destruct (join_head (sep_text ind') (json_pretty ind' x) (map (json_pretty ind') xs)) as [u Eu].
    exists (S f). cbn [json_pretty]. fold ind'. change ([","%char; nl] ++ ind') with (sep_text ind').
    rewrite <- !app_assoc, array_entry; [exact (Hf [] ltac:(constructor))|done|].
    cbn [map]. rewrite Eu, Ec. by eexists _, _.
  - destruct ps as [|kv ps]; [by exists 1|]. cbn [plainb] in Hv.
    apply andb_true_iff in Hv as [Hnd Hv]. apply bool_decide_eq_true in Hnd. apply forallb_Forall in Hv.
    set (ind' := ind ++ j["  "]). pose proof (all_ws_indent ind Hind) as Hind'. fold ind' in Hind'.
    assert (Hall : Forall (fun kv => forall r, num_stop r = true -> exists f, json_value f (json_pretty ind' kv.2 ++ r) = POk kv.2 r) (kv :: ps)).
    { apply Forall_forall. intros y Hy r Hr'. rewrite Forall_forall in IH, Hv. specialize (Hv y Hy).
      apply andb_true_iff in Hv as [_ Hv]. by apply IH. }
    destruct (members_parse ind ind' rest Hind Hind' kv ps [] Hall) as [f Hf].
    exists (S f). cbn [json_pretty]. fold ind'. change ([","%char; nl] ++ ind') with (sep_text ind').
    rewrite own_entries_no_index.
    2: { apply Forall_fmap, Forall_forall. intros y Hy. rewrite Forall_forall in Hv. specialize (Hv y Hy).
         apply andb_true_iff in Hv as [Hk _]. cbn. by destruct (is_array_index y.1). }
    rewrite map_map. change (map _ (kv :: ps)) with (map (member_text ind') (kv :: ps)).
    rewrite <- !app_assoc, object_entry; [|done|].
    2: { destruct (join_head (sep_text ind') (member_text ind' kv) (map (member_text ind') ps)) as [u Eu].
         cbn [map]. rewrite Eu. by eexists. }
    etransitivity; [exact (Hf [] ltac:(constructor))|]. by rewrite foldl_obj_set_fresh.
Qed.

(** [JSON.parse] of the printed text of a plain value gives the value. *)
Lemma json_parse_pretty (v : jsval) : plainb v = true -> json_parse (json_pretty [] v) = Some v.
Proof.
  intros Hv. destruct (pretty_parses v Hv [] [] (Forall_nil_2 _) eq_refl) as [f Hf].
  rewrite app_nil_r in Hf. unfold json_parse.
  set (s := json_pretty [] v) in *. set (F := json_fuel s).
  assert (HF : json_value F s <> PNoFuel) by (apply (proj1 (json_enough_fuel F)); unfold F, json_fuel; lia).
  assert (E : json_value F s = POk v []).
  { rewrite <- (proj1 (json_more_fuel F) (max f F) s) by (lia || done).
    rewrite (proj1 (json_more_fuel f) (max f F) s) by (lia || by rewrite Hf). exact Hf. }
  by rewrite E.
Qed.

(** *** Objects built by [JSON.parse] have distinct keys *)

Lemma obj_set_keys (k : jstr) (v : jsval) (acc : list (jstr * jsval)) :
  NoDup acc.*1 -> NoDup (obj_set k v acc).*1 /\
  (forall kv, kv ∈ obj_set k v acc -> kv = (k, v) \/ kv ∈ acc).
Proof.
  induction acc as [|[k' v'] acc IH]; intros Hnd; cbn.
  - split; [apply NoDup_singleton|]. intros kv Hin. left. by apply list_elem_of_singleton in Hin.
  - apply NoDup_cons in Hnd as [Hk' Hnd]. case_decide; subst; cbn.
    + split; [by apply NoDup_cons|]. intros kv Hin. apply elem_of_cons in Hin as [->|Hin]; [by left|right; by right].
    + destruct (IH Hnd) as [Hnd' Hin']. split.
      * apply NoDup_cons. split; [|done]. intros Hk. apply list_elem_of_fmap in Hk as ([k2 v2] & Ek & Hk).
        cbn in Ek. subst k2. destruct (Hin' _ Hk) as [[= -> _]|Hk2]; [done|].
        apply Hk'. apply list_elem_of_fmap. by exists (k', v2).
      * intros kv Hin. apply elem_of_cons in Hin as [->|Hin]; [right; by left|].
        destruct (Hin' _ Hin) as [|]; [by left|right; by right].
Qed.

Lemma json_wf_obj_set (k : jstr) (v : jsval) (acc : list (jstr * jsval)) :
  json_wf (JObj acc) = true -> json_wf v = true -> json_wf (JObj (obj_set k v acc)) = true.
Proof.
  cbn [json_wf]. intros [Hnd Hall]%andb_true_iff Hv. apply bool_decide_eq_true in Hnd.
  destruct (obj_set_keys k v acc Hnd) as [Hnd' Hin]. apply andb_true_iff. split; [by apply bool_decide_eq_true|].
  apply forallb_forall. intros kv Hkv%list_elem_of_In. destruct (Hin kv Hkv) as [->|Hk]; [done|].
  apply forallb_Forall in Hall. rewrite Forall_forall in Hall. by apply Hall.
Qed.

Lemma json_wf_snoc (acc : list jsval) (v : jsval) :
  json_wf (JArr acc) = true -> json_wf v = true -> json_wf (JArr (acc ++ [v])) = true.
Proof. cbn [json_wf]. intros Ha Hv. rewrite forallb_app. cbn. by rewrite Ha, Hv. Qed.

Lemma json_value_wf (f : nat) :
  (forall s v r, json_value f s = POk v r -> json_wf v = true) /\
  (forall s acc v r, json_wf (JObj acc) = true -> json_members f s acc = POk v r -> json_wf v = true) /\
  (forall s acc v r, json_wf (JArr acc) = true -> json_elements f s acc = POk v r -> json_wf v = true).
Proof.
  induction f as [|f (IHv & IHm & IHe)]; [repeat split; done|]. repeat split.
  - intros s v r H. cbn [json_value] in H. unfold opt_res, fmap, option_fmap, option_map in H.
    repeat (case_match; simplify_eq/=); try done;
      match goal with
      | E : json_members _ _ _ = POk _ _ |- _ => eapply IHm; [|exact E]; reflexivity
      | E : json_elements _ _ _ = POk _ _ |- _ => eapply IHe; [|exact E]; reflexivity
      end.
  - intros s acc v r Ha H. cbn [json_members] in H.
    repeat (case_match; simplify_eq/=); try done;
      [eapply IHm; [|eauto]| ]; apply json_wf_obj_set; eauto.
  - intros s acc v r Ha H. cbn [json_elements] in H.
    repeat (case_match; simplify_eq/=); try done;
      [eapply IHe; [|eauto]| ]; apply json_wf_snoc; eauto.
Qed.

Lemma json_parse_wf (s : jstr) (v : jsval) : json_parse s = Some v -> json_wf v = true.
Proof.
  unfold json_parse. case_match eqn:E; [|done|done]. case_match; [|done]. intros [= <-].
  eapply (proj1 (json_value_wf _)), E.
Qed.

Lemma json_wf_obj_get (k : jstr) (ps : list (jstr * jsval)) (v : jsval) :
  json_wf (JObj ps) = true -> obj_get k ps = Some v -> json_wf v = true.
Proof.
  cbn [json_wf]. intros [Hnd Hall]%andb_true_iff Hg. apply bool_decide_eq_true in Hnd.
  apply obj_get_Some_NoDup in Hg; [|done]. apply forallb_Forall in Hall. rewrite Forall_forall in Hall.
  exact (Hall _ Hg).
Qed.

Lemma imap_values {A} (f : A -> jsval) (xs : list A) (g : nat -> A -> jstr * jsval) :
  (forall i x, (g i x).2 = f x) -> Forall (fun x => json_wf (f x) = true) xs ->
  Forall (fun kv => json_wf kv.2 = true) (imap g xs).
Proof.
  intros Hg Hxs. revert g Hg. induction Hxs as [|x xs Hx _ IH]; intros g Hg; [constructor|].
  rewrite imap_cons. constructor; [by rewrite Hg|]. apply IH. intros i y. apply Hg.
Qed.

(** The properties [Object.assign] copies from a well-formed value are
    well formed. *)
Lemma enum_entries_wf (v : jsval) :
  json_wf v = true -> Forall (fun kv => json_wf kv.2 = true) (enum_entries v).
Proof.
  destruct v as [| | | s | xs | ps]; cbn [json_wf enum_entries]; intros Hv; try constructor.
  - unfold index_entries. apply (imap_values (fun c => JStr [c])); [done|]. by apply Forall_forall.
  - unfold index_entries. apply (imap_values id); [done|]. by apply forallb_Forall.
  - apply andb_true_iff in Hv as [_ Hall]. apply forallb_Forall in Hall.
    rewrite Forall_forall in Hall |- *. intros kv Hkv. apply Hall.
    apply list_elem_of_In. eapply Permutation_in; [apply own_entries_Permutation|]. by apply list_elem_of_In.
Qed.

Lemma json_wf_obj_assign (acc : list (jstr * jsval)) (v : jsval) :
  json_wf (JObj acc) = true -> json_wf v = true -> json_wf (JObj (obj_assign acc v)) = true.
Proof.
  intros Hacc Hv. unfold obj_assign. revert acc Hacc.
  induction (enum_entries_wf v Hv) as [|kv l Hkv _ IH]; intros acc Hacc; [done|].
  cbn [foldl]. apply IH. by apply json_wf_obj_set.
Qed.

End JsonText.
