(* ===== verification/Extract.v ===== *)
(** * Variable extraction: [TemplateProcessor.extractVars] and its strategies

    [extractVars] (src/template-editor.js, lines 115-133) tries seven
    strategies in order and returns the first non-empty result.  Four of
    them run a global regular expression with the [exec] loop
    [while ((match = regex.exec(content)))]; the loop is written here as
    the code has it: each [exec] searches from [lastIndex] and sets
    [lastIndex] to the end of the match.  A compiled regular expression
    is a [regex_engine]; the four fixed expressions of the source are
    matchers written out below, and a custom pattern compiled by
    [new RegExp] is an engine the section takes as a parameter.  The
    loop carries fuel; [exec_all_enough_fuel] shows that the fixed
    expressions never exhaust [S (length content)], and
    [exec_all_empty_match] that an engine returning an empty match
    exhausts every fuel: the JavaScript loop does not terminate.

    [parseJsonDirect] ([JSON.parse], falling back to
    [parsePartialJsonDirect], modelled in Json.v) is a parameter of the
    section; the YAML strategies call the parser of Yaml.v.  The
    theorems show totality with the default grammar, the loop and the
    [TypeError] of a custom pattern, a single bracket tag, and a
    complete XML pair read by the incomplete-tag strategy. *)

From S2P Require Import Prelude JsValue Yaml.
From stdpp Require Import gmap.

Module Extract.
Import Yaml.

(** ** Results of code that may throw or not return *)

Inductive outcome (A : Type) :=
| Returns (a : A)
| Throws                 (** a [TypeError] escapes *)
| OutOfFuel.             (** the loop bound was reached *)
Arguments Returns {A} a.
Arguments Throws {A}.
Arguments OutOfFuel {A}.

(** ** The [exec] loop of a global regular expression *)

Record regex_match := RMatch {
  m_start : nat;
  m_end : nat;
  m_groups : list (option jstr)   (** [match[1]], [match[2]], ...; [None] is [undefined] *)
}.

(** [regex.exec(content)] from [lastIndex]: the leftmost match at or
    after it. *)
Record regex_engine := RegexEngine { exec : jstr -> nat -> option regex_match }.

Fixpoint exec_all (fuel : nat) (e : regex_engine) (content : jstr) (lastIndex : nat)
    : option (list regex_match) :=
  match fuel with
  | 0 => None
  | S fuel' =>
    match exec e content lastIndex with
    | None => Some []
    | Some m => (cons m) <$> exec_all fuel' e content (m_end m)
    end
  end.

(** A leftmost search: [at s] tries a match at the start of [s] and
    gives its length and groups. *)
Fixpoint search_from (at_ : jstr -> option (nat * list (option jstr))) (s : jstr) (i : nat)
    : option regex_match :=
  match at_ s with
  | Some (len, gs) => Some (RMatch i (i + len) gs)
  | None => match s with [] => None | _ :: s' => search_from at_ s' (S i) end
  end.

Definition engine_of (at_ : jstr -> option (nat * list (option jstr))) : regex_engine :=
  RegexEngine (fun content lastIndex => search_from at_ (drop lastIndex content) lastIndex).

(** ** Matching helpers *)

(** The characters before the first [c], and those after it. *)
Fixpoint split_at_char (c : ascii) (s : jstr) : option (jstr * jstr) :=
  match s with
  | [] => None
  | x :: s' => if bool_decide (x = c) then Some ([], s')
               else (fun pr => (x :: pr.1, pr.2)) <$> split_at_char c s' end.

Fixpoint take_while (p : ascii -> bool) (s : jstr) : jstr :=
  match s with
  | [] => []
  | x :: s' => if p x then x :: take_while p s' else []
  end.

(** A lazy [([\s\S]*?)] followed by [close]: the shortest prefix after
    which [close] starts. *)
Fixpoint lazy_until (close : jstr) (s : jstr) : option (jstr * jstr) :=
  if starts_with close s then Some ([], drop (length close) s)
  else match s with
       | [] => None
       | x :: s' => (fun pr => (x :: pr.1, pr.2)) <$> lazy_until close s'
       end.

(** ** [/\[([^\]]+)\]([\s\S]*?)\[\/\1\]/g], the default tag grammar *)

Definition lbr : ascii := "["%char.
Definition rbr : ascii := "]"%char.
Definition slash : ascii := "/"%char.

(** [[^\]]+] is followed by [\]], so the name runs to the first [']']. *)
Definition tag_at (s : jstr) : option (nat * list (option jstr)) :=
  match s with
  | x :: s' =>
    if bool_decide (x = lbr) then
      match split_at_char rbr s' with
      | Some ((_ :: _) as name, r) =>
        match lazy_until ([lbr; slash] ++ name ++ [rbr]) r with
        | Some (body, rest) => Some (length s - length rest, [Some name; Some body])
        | None => None
        end
      | _ => None
      end
    else None
  | [] => None
  end.

Definition default_engine : regex_engine := engine_of tag_at.

(** ** [/```${language}\s*\n([\s\S]*?)(?:\n```|$)/gi], the fenced code blocks *)

Definition backtick : ascii := "`"%char.
Definition fence : jstr := [backtick; backtick; backtick].

(** Case-insensitive comparison of a letter. *)
Definition lower (c : ascii) : ascii :=
  let n := code c in if (65 <=? n) && (n <=? 90) then ascii_of_nat (n + 32) else c.

Fixpoint starts_with_ci (p s : jstr) : bool :=
  match p, s with
  | [], _ => true
  | x :: p', y :: s' => bool_decide (lower x = lower y) && starts_with_ci p' s'
  | _, _ => false
  end.

(** The language alternatives of the source: [json], and [ya?ml]. *)
Inductive language := LangJson | LangYaml.

Definition language_words (l : language) : list jstr :=
  match l with LangJson => [j["json"]] | LangYaml => [j["yaml"]; j["yml"]] end.

(** [\s*\n]: the whitespace run up to and including its last newline. *)
Fixpoint ws_to_last_newline (s : jstr) : option nat :=
  match s with
  | x :: s' =>
    if is_ws x then
      match ws_to_last_newline s' with
      | Some k => Some (S k)
      | None => if bool_decide (x = nl) then Some 1 else None
      end
    else None
  | [] => None
  end.

(** [([\s\S]*?)(?:\n```|$)]: the shortest body followed by a closing
    fence or by the end of the text; the length consumed after the body. *)
Fixpoint lazy_fence_or_end (s : jstr) : jstr * nat :=
  if starts_with (nl :: fence) s then ([], 4)
  else match s with
       | [] => ([], 0)
       | x :: s' => let '(b, k) := lazy_fence_or_end s' in (x :: b, k)
       end.

Definition code_block_at (l : language) (s : jstr) : option (nat * list (option jstr)) :=
  if starts_with fence s then
    let s1 := drop 3 s in
    match filter (fun w => starts_with_ci w s1) (language_words l) with
    | w :: _ =>
      let s2 := drop (length w) s1 in
      match ws_to_last_newline s2 with
      | Some k =>
        let '(body, tail) := lazy_fence_or_end (drop k s2) in
        Some (3 + length w + k + length body + tail, [Some body])
      | None => None
      end
    | [] => None
    end
  else None.

Definition code_block_engine (l : language) : regex_engine := engine_of (code_block_at l).

(** ** The expression of line 138: an opening tag [<[^>]+>] whose
    [<]-free text contains [\{] or [\w+\s*:], then anything *)

Definition lt : ascii := "<"%char.
Definition gt : ascii := ">"%char.
Definition lbrace : ascii := "{"%char.
Definition rbrace : ascii := "}"%char.

(** [\w+\s*:] at the start of [s] *)
Definition key_colon_at (s : jstr) : bool :=
  let w := take_while is_word s in
  bool_decide (w <> []) && starts_with_char ":"%char (trim_start (drop (length w) s)).

(** Some position of the [<]-free run [run] starts [\{] or [\w+\s*:]. *)
Fixpoint some_suffix (p : jstr -> bool) (run : jstr) : bool :=
  match run with
  | [] => false
  | _ :: run' => p run || some_suffix p run'
  end.

(** [[^>]+>]: the tag runs to the first ['>'] and is not empty. *)
Definition open_tag (s : jstr) : option jstr :=
  match s with
  | x :: s' =>
    if bool_decide (x = lt) then
      match split_at_char gt s' with Some ((_ :: _), r) => Some r | _ => None end
    else None
  | [] => None
  end.

(** Both alternatives end in [[\s\S]*]: a match extends to the end of
    the text, and the group is everything after the tag. *)
Definition incomplete_xml_at (s : jstr) : option (nat * list (option jstr)) :=
  match open_tag s with
  | Some r =>
    if some_suffix (fun t => starts_with_char lbrace t || key_colon_at t) (take_while (fun c => negb (bool_decide (c = lt))) r)
    then Some (length s, [Some r]) else None
  | None => None
  end.

Definition incomplete_xml_engine : regex_engine := engine_of incomplete_xml_at.

(** ** [/<[^>]+>([\s\S]*?)<\/[^>]+>/g], a complete tag pair *)

Definition close_tag_at (s : jstr) : option nat :=
  match s with
  | x :: y :: s' =>
    if bool_decide (x = lt) && bool_decide (y = slash) then
      match split_at_char gt s' with Some ((_ :: _) as t, _) => Some (3 + length t) | _ => None end
    else None
  | _ => None
  end.

Fixpoint lazy_until_close_tag (s : jstr) : option (jstr * nat) :=
  match close_tag_at s with
  | Some k => Some ([], k)
  | None => match s with
            | [] => None
            | x :: s' => (fun pr => (x :: pr.1, pr.2)) <$> lazy_until_close_tag s'
            end
  end.

Definition xml_pair_at (s : jstr) : option (nat * list (option jstr)) :=
  match open_tag s with
  | Some r =>
    match lazy_until_close_tag r with
    | Some (body, k) => Some (length s - length r + length body + k, [Some body])
    | None => None
    end
  | None => None
  end.

Definition xml_pair_engine : regex_engine := engine_of xml_pair_at.

(** ** Format detection (lines 781-795) *)

Definition isJsonFormat (content : jstr) : bool :=
  let t := trim content in starts_with_char lbrace t || starts_with_char lbr t.

(** One line of [isYamlFormat]'s [some]. *)
Definition yaml_key_line (line : jstr) : bool :=
  let t := trim line in
  if is_blank_or_comment t then false else
  match colon_index t with
  | Some ci => is_identifier (trim (substring 0 ci t))
  | None => false
  end.

Definition isYamlFormat (content : jstr) : bool :=
  let t := trim content in
  negb (starts_with_char lbrace t) && negb (starts_with_char lbr t) && existsb yaml_key_line (lines_of t).

(** ** The strategies (lines 115-222) *)

Section Strategies.

(** [TemplateProcessor.parseJsonDirect]; [None] is [null]. *)
Variable parseJsonDirect : jstr -> option jsval.
(** [new RegExp(pattern, 'g')]; [None] when it throws a [SyntaxError]. *)
Variable compile : jstr -> option regex_engine.

(** [TemplateProcessor.getRegex] (lines 105-113): an invalid pattern
    falls back to the default grammar.  The cache only memoises. *)
Definition getRegex (pattern : jstr) : regex_engine :=
  match compile pattern with Some e => e | None => default_engine end.

(** [match[i + 1]] *)
Definition group (i : nat) (m : regex_match) : option jstr := default None (m_groups m !! i).

(** The loop of [extractRegex]: [vars[match[1].trim()] = match[2].trim()],
    a [TypeError] when a group is [undefined]. *)
Fixpoint regex_loop (fuel : nat) (e : regex_engine) (content : jstr) (lastIndex : nat)
    (vars : list (jstr * jsval)) : outcome (list (jstr * jsval)) :=
  match fuel with
  | 0 => OutOfFuel
  | S fuel' =>
    match exec e content lastIndex with
    | None => Returns vars
    | Some m =>
      match group 0 m, group 1 m with
      | Some name, Some value =>
          regex_loop fuel' e content (m_end m) (obj_set (trim name) (JStr (trim value)) vars)
      | _, _ => Throws
      end
    end
  end.

(** [Object.keys(vars).length ? vars : null] *)
Definition nonempty_obj (ps : list (jstr * jsval)) : option jsval :=
  if 0 <? key_count (JObj ps) then Some (JObj ps) else None.

Definition extractRegex (fuel : nat) (content customRegex : jstr) : outcome (option jsval) :=
  match regex_loop fuel (getRegex customRegex) content 0 [] with
  | Returns ps => Returns (nonempty_obj ps)
  | Throws => Throws
  | OutOfFuel => OutOfFuel
  end.

(** [if (parsed) Object.assign(vars, parsed)]: a falsy value has no
    enumerable property. *)
Definition assign_parsed (parser : jstr -> option jsval) (acc : list (jstr * jsval)) (m : regex_match)
    : list (jstr * jsval) :=
  match parser (trim (default [] (group 0 m))) with Some v => obj_assign acc v | None => acc end.

Definition extractFromCodeBlocks (fuel : nat) (content : jstr) (l : language)
    (parser : jstr -> option jsval) : outcome (option jsval) :=
  match exec_all fuel (code_block_engine l) content 0 with
  | None => OutOfFuel
  | Some ms => Returns (nonempty_obj (foldl (assign_parsed parser) [] ms))
  end.

(** A parse result counts when it has an own enumerable key. *)
Definition keyed (r : option jsval) : option jsval :=
  match r with Some v => if 0 <? key_count v then Some v else None | None => None end.

(** The body of the loops of [extractJsonFromIncompleteXml] (141-163)
    and [extractJsonFromXmlWrapper] (173-195); the latter also asks for
    a ['}'] before trying JSON. *)
Definition xml_inner_step (need_close : bool) (acc : list (jstr * jsval)) (m : regex_match)
    : list (jstr * jsval) :=
  let inner := trim (default [] (group 0 m)) in
  if bool_decide (inner = []) then acc else
  let json := if starts_with_char lbrace inner && (negb need_close || infixb [rbrace] inner)
              then keyed (parseJsonDirect inner) else None in
  match json with
  | Some v => obj_assign acc v
  | None =>
    if isYamlFormat inner then
      match keyed (parseYamlDirect inner) with Some v => obj_assign acc v | None => acc end
    else acc
  end.

Definition extract_xml (fuel : nat) (e : regex_engine) (need_close : bool) (content : jstr)
    : outcome (option jsval) :=
  match exec_all fuel e content 0 with
  | None => OutOfFuel
  | Some ms => Returns (nonempty_obj (foldl (xml_inner_step need_close) [] ms))
  end.

Definition extractJsonFromIncompleteXml (fuel : nat) (content : jstr) : outcome (option jsval) :=
  extract_xml fuel incomplete_xml_engine false content.

Definition extractJsonFromXmlWrapper (fuel : nat) (content : jstr) : outcome (option jsval) :=
  extract_xml fuel xml_pair_engine true content.

(** [const vars = extractor(); if (vars && Object.keys(vars).length) return vars;] *)
Definition first_nonempty (o : outcome (option jsval)) (k : outcome jsval) : outcome jsval :=
  match o with
  | Returns r => match keyed r with Some v => Returns v | None => k end
  | Throws => Throws
  | OutOfFuel => OutOfFuel
  end.

(** [TemplateProcessor.extractVars] (lines 115-133); every loop of the
    strategies runs with [fuel]. *)
Definition extractVars (fuel : nat) (content customRegex : jstr) : outcome jsval :=
  if bool_decide (content = []) then Returns (JObj []) else
  first_nonempty (extractRegex fuel content customRegex)
  (first_nonempty (extractFromCodeBlocks fuel content LangJson parseJsonDirect)
  (first_nonempty (extractJsonFromIncompleteXml fuel content)
  (first_nonempty (Returns (if isJsonFormat content then parseJsonDirect content else None))
  (first_nonempty (extractFromCodeBlocks fuel content LangYaml parseYamlDirect)
  (first_nonempty (Returns (if isYamlFormat content then parseYamlDirect content else None))
  (first_nonempty (extractJsonFromXmlWrapper fuel content)
  (Returns (JObj [])))))))).

End Strategies.

(** ** Engines for the examples *)

(** [new RegExp('()()', 'g')]: an empty match wherever [exec] starts. *)
Definition empty_groups_engine : regex_engine :=
  RegexEngine (fun c li => if li <=? length c then Some (RMatch li li [Some []; Some []]) else None).

(** [new RegExp(lit, 'g')] for a pattern of letters: no group. *)
Definition literal_engine (lit : jstr) : regex_engine :=
  engine_of (fun s => if starts_with lit s then Some (length lit, []) else None).

(** ** Lemmas *)

(** A matcher that consumes at least one character and stays in the text. *)
Definition consuming (at_ : jstr -> option (nat * list (option jstr))) : Prop :=
  forall s len gs, at_ s = Some (len, gs) -> 0 < len <= length s.

Lemma search_from_bounds (at_ : jstr -> option (nat * list (option jstr))) (s : jstr) (i : nat)
    (m : regex_match) :
  consuming at_ -> search_from at_ s i = Some m -> i < m_end m <= i + length s.
Proof.
  intros Hc. revert i. induction s as [|x s IH]; intros i Hs; simpl in Hs.
  - destruct (at_ []) as [[len gs]|] eqn:E; [|done]. apply Hc in E. simpl in E. lia.
  - destruct (at_ (x :: s)) as [[len gs]|] eqn:E.
    + injection Hs as <-. apply Hc in E. simpl in *. lia.
    + apply IH in Hs. simpl. lia.
Qed.

Lemma exec_engine_of_bounds (at_ : jstr -> option (nat * list (option jstr))) (c : jstr) (li : nat)
    (m : regex_match) :
  consuming at_ -> exec (engine_of at_) c li = Some m -> li < m_end m <= li + (length c - li).
Proof. intros Hc He. simpl in He. rewrite <- length_drop. by eapply search_from_bounds. Qed.

Lemma exec_all_enough_fuel (at_ : jstr -> option (nat * list (option jstr))) (fuel : nat) (c : jstr)
    (li : nat) :
  consuming at_ -> length c - li < fuel -> exists ms, exec_all fuel (engine_of at_) c li = Some ms.
Proof.
  intros Hc. revert li. induction fuel as [|fuel IH]; intros li Hf; [lia|]. simpl.
  destruct (search_from at_ (drop li c) li) as [m|] eqn:E; [|by eexists].
  pose proof (exec_engine_of_bounds at_ c li m Hc E) as Hb.
  destruct (IH (m_end m)) as [ms Hms]; [lia|]. rewrite Hms. by eexists.
Qed.

Lemma split_at_char_length (c : ascii) (s p r : jstr) :
  split_at_char c s = Some (p, r) -> length s = length p + S (length r).
Proof.
  revert p. induction s as [|x s IH]; intros p Hs; simpl in Hs; [done|].
  case_decide; [by injection Hs as <- <-|].
  destruct (split_at_char c s) as [[p' r']|] eqn:E; [|done]. simpl in Hs. injection Hs as <- <-.
  simpl. rewrite (IH p') by done. lia.
Qed.

Lemma starts_with_length (p s : jstr) : starts_with p s = true -> length p <= length s.
Proof.
  revert s. induction p as [|x p IH]; intros s Hs; simpl; [lia|].
  destruct s as [|y s]; simpl in Hs; [done|]. apply andb_prop in Hs as [_ Hs]. apply IH in Hs. simpl. lia.
Qed.

Lemma lazy_until_length (close s b r : jstr) :
  lazy_until close s = Some (b, r) -> length b + length r <= length s.
Proof.
  revert b r. induction s as [|x s IH]; intros b r Hs; simpl in Hs.
  - destruct (starts_with close []); [|done]. injection Hs as <- <-. rewrite length_drop. simpl. lia.
  - destruct (starts_with close (x :: s)) eqn:E.
    + injection Hs as <- <-. rewrite length_drop. simpl. lia.
    + destruct (lazy_until close s) as [[b' r']|] eqn:E'; [|done]. simpl in Hs.
      injection Hs as <- <-. specialize (IH b' r' eq_refl). simpl. lia.
Qed.

Lemma tag_at_consuming : consuming tag_at.
Proof.
  intros s len gs H. unfold tag_at in H. destruct s as [|x s]; [done|].
  case_decide; [|done].
  destruct (split_at_char rbr s) as [[[|n0 name] r]|] eqn:E1; try done.
  destruct (lazy_until _ r) as [[body rest]|] eqn:E2; [|done]. injection H as <- <-.
  apply split_at_char_length in E1. apply lazy_until_length in E2. simpl in *. lia.
Qed.

Lemma tag_at_groups (s : jstr) (len : nat) (gs : list (option jstr)) :
  tag_at s = Some (len, gs) -> exists name body, gs = [Some name; Some body].
Proof.
  unfold tag_at. destruct s as [|x s]; [done|]. case_decide; [|done].
  destruct (split_at_char rbr s) as [[[|n0 name] r]|]; try done.
  destruct (lazy_until _ r) as [[body rest]|]; [|done]. intros [= _ <-]. by eexists _, _.
Qed.

Lemma starts_with_ci_length (p s : jstr) : starts_with_ci p s = true -> length p <= length s.
Proof.
  revert s. induction p as [|x p IH]; intros s Hs; simpl; [lia|].
  destruct s as [|y s]; simpl in Hs; [done|]. apply andb_prop in Hs as [_ Hs]. apply IH in Hs. simpl. lia.
Qed.

Lemma ws_to_last_newline_length (s : jstr) (k : nat) :
  ws_to_last_newline s = Some k -> 0 < k <= length s.
Proof.
  revert k. induction s as [|x s IH]; intros k Hs; simpl in Hs; [done|].
  destruct (is_ws x); [|done].
  destruct (ws_to_last_newline s) as [k'|]; [injection Hs as <-; specialize (IH k' eq_refl); simpl; lia|].
  case_decide; [injection Hs as <-; simpl; lia|done].
Qed.

Lemma lazy_fence_or_end_length (s body : jstr) (k : nat) :
  lazy_fence_or_end s = (body, k) -> length body + k <= length s.
Proof.
  revert body. induction s as [|x s IH]; intros body Hs; cbn [lazy_fence_or_end] in Hs.
  - simpl in Hs. injection Hs as <- <-. simpl. lia.
  - destruct (starts_with (nl :: fence) (x :: s)) eqn:E.
    + injection Hs as <- <-. apply starts_with_length in E. simpl in *. lia.
    + destruct (lazy_fence_or_end s) as [b' k'] eqn:E'. injection Hs as <- <-.
      specialize (IH b' eq_refl). simpl. lia.
Qed.

Lemma code_block_at_consuming (l : language) : consuming (code_block_at l).
Proof.
  intros s len gs H. unfold code_block_at in H.
  destruct (starts_with fence s) eqn:Ef; [|done]. apply starts_with_length in Ef.
  destruct (filter _ _) as [|w ws] eqn:Ew; [done|].
  assert (Hw : starts_with_ci w (drop 3 s) = true).
  { assert (Hin : w ∈ filter (fun w => starts_with_ci w (drop 3 s)) (language_words l))
      by (rewrite Ew; constructor).
    apply list_elem_of_filter in Hin as [Hin _]. by destruct (starts_with_ci w (drop 3 s)). }
  apply starts_with_ci_length in Hw. rewrite length_drop in Hw.
  destruct (ws_to_last_newline _) as [k|] eqn:Ek; [|done]. apply ws_to_last_newline_length in Ek.
  rewrite !length_drop in Ek.
  destruct (lazy_fence_or_end _) as [body tail] eqn:Eb. apply lazy_fence_or_end_length in Eb.
  rewrite !length_drop in Eb. injection H as <- <-. unfold fence in Ef. simpl in Ef. lia.
Qed.

Lemma open_tag_length (s r : jstr) : open_tag s = Some r -> length r < length s.
Proof.
  unfold open_tag. destruct s as [|x s]; [done|]. case_decide; [|done].
  destruct (split_at_char gt s) as [[[|t0 t] r']|] eqn:E; try done. intros [= <-].
  apply split_at_char_length in E. simpl in *. lia.
Qed.

Lemma incomplete_xml_at_consuming : consuming incomplete_xml_at.
Proof.
  intros s len gs H. unfold incomplete_xml_at in H.
  destruct (open_tag s) as [r|] eqn:E; [|done]. apply open_tag_length in E.
  case_match; [|done]. injection H as <- <-. lia.
Qed.

Lemma close_tag_at_length (s : jstr) (k : nat) : close_tag_at s = Some k -> k <= length s.
Proof.
  unfold close_tag_at. destruct s as [|x [|y s]]; try done. case_match; [|done].
  destruct (split_at_char gt s) as [[[|t0 t] r]|] eqn:E; try done. intros [= <-].
  apply split_at_char_length in E. simpl in *. lia.
Qed.

Lemma lazy_until_close_tag_length (s body : jstr) (k : nat) :
  lazy_until_close_tag s = Some (body, k) -> length body + k <= length s.
Proof.
  revert body k. induction s as [|x s IH]; intros body k Hs; cbn [lazy_until_close_tag] in Hs.
  - destruct (close_tag_at []) as [k'|] eqn:E; [|done]. injection Hs as <- <-.
    apply close_tag_at_length in E. simpl in *. lia.
  - destruct (close_tag_at (x :: s)) as [k'|] eqn:E.
    + injection Hs as <- <-. apply close_tag_at_length in E. simpl in *. lia.
    + destruct (lazy_until_close_tag s) as [[b' k'']|] eqn:E'; [|done]. simpl in Hs.
      injection Hs as <- <-. specialize (IH b' k'' eq_refl). simpl. lia.
Qed.

Lemma xml_pair_at_consuming : consuming xml_pair_at.
Proof.
  intros s len gs H. unfold xml_pair_at in H.
  destruct (open_tag s) as [r|] eqn:E; [|done]. apply open_tag_length in E.
  destruct (lazy_until_close_tag r) as [[body k]|] eqn:E'; [|done].
  apply lazy_until_close_tag_length in E'. injection H as <- <-. lia.
Qed.

#[local] Hint Resolve tag_at_consuming code_block_at_consuming incomplete_xml_at_consuming
  xml_pair_at_consuming : core.

Lemma search_from_groups (at_ : jstr -> option (nat * list (option jstr))) (s : jstr) (i : nat)
    (m : regex_match) :
  search_from at_ s i = Some m -> exists s' len, at_ s' = Some (len, m_groups m).
Proof.
  revert i. induction s as [|x s IH]; intros i Hs; simpl in Hs.
  - destruct (at_ []) as [[len gs]|] eqn:E; [|done]. injection Hs as <-. by exists [], len.
  - destruct (at_ (x :: s)) as [[len gs]|] eqn:E; [|by apply IH in Hs].
    injection Hs as <-. by exists (x :: s), len.
Qed.

Lemma regex_loop_default (fuel : nat) (c : jstr) (li : nat) (vars : list (jstr * jsval)) :
  length c - li < fuel -> exists ps, regex_loop fuel default_engine c li vars = Returns ps.
Proof.
  revert li vars. induction fuel as [|fuel IH]; intros li vars Hf; [lia|]. cbn [regex_loop].
  destruct (exec default_engine c li) as [m|] eqn:E; [|by eexists].
  pose proof (exec_engine_of_bounds tag_at c li m tag_at_consuming E) as Hb.
  destruct (search_from_groups tag_at _ _ _ E) as (s' & len & Hg).
  destruct (tag_at_groups _ _ _ Hg) as (name & body & Hgs). unfold group. rewrite Hgs. simpl.
  apply IH. lia.
Qed.

(** An [exec] that returns an empty match at [lastIndex] leaves
    [lastIndex] where it was: the next [exec] returns the same match. *)
Lemma regex_loop_empty_match (e : regex_engine) (c : jstr) (li : nat) (m : regex_match) (n v : jstr) :
  exec e c li = Some m -> m_end m = li -> group 0 m = Some n -> group 1 m = Some v ->
  forall fuel vars, regex_loop fuel e c li vars = OutOfFuel.
Proof.
  intros He Hend H0 H1 fuel. induction fuel as [|fuel IH]; intros vars; [done|].
  cbn [regex_loop]. rewrite He, H0, H1, Hend. apply IH.
Qed.

Lemma first_nonempty_returns (o : outcome (option jsval)) (k : outcome jsval) :
  (exists r, o = Returns r) -> (exists v, k = Returns v) -> exists v, first_nonempty o k = Returns v.
Proof.
  intros [r ->] [v ->]. simpl. destruct (keyed r); by eexists.
Qed.

Lemma extract_xml_returns (fuel : nat) (pj : jstr -> option jsval) (at_ : jstr -> option (nat * list (option jstr)))
    (nc : bool) (c : jstr) :
  consuming at_ -> length c < fuel -> exists r, extract_xml pj fuel (engine_of at_) nc c = Returns r.
Proof.
  intros Hc Hf. unfold extract_xml. destruct (exec_all_enough_fuel at_ fuel c 0 Hc) as [ms ->]; [lia|].
  by eexists.
Qed.

Lemma extractFromCodeBlocks_returns (fuel : nat) (c : jstr) (l : language) (parser : jstr -> option jsval) :
  length c < fuel -> exists r, extractFromCodeBlocks fuel c l parser = Returns r.
Proof.
  intros Hf. unfold extractFromCodeBlocks, code_block_engine.
  destruct (exec_all_enough_fuel (code_block_at l) fuel c 0 (code_block_at_consuming l)) as [ms ->]; [lia|].
  by eexists.
Qed.

Lemma split_at_char_app (c : ascii) (p r : jstr) :
  c ∉ p -> split_at_char c (p ++ c :: r) = Some (p, r).
Proof.
  induction p as [|x p IH]; intros Hp; simpl; [by rewrite bool_decide_true|].
  rewrite bool_decide_false by (intros ->; apply Hp; constructor).
  rewrite IH; [done|]. intros Hin. apply Hp. by constructor.
Qed.

Lemma starts_with_cons_neq (x c : ascii) (p s : jstr) : x <> c -> starts_with (c :: p) (x :: s) = false.
Proof. intros Hne. simpl. by rewrite bool_decide_false by congruence. Qed.

(** The lazy body stops at the first place [close] starts; when the body
    has no character [close] starts with, that is after the body. *)
Lemma lazy_until_app (c : ascii) (close' body post : jstr) :
  c ∉ body -> lazy_until (c :: close') (body ++ c :: close' ++ post) = Some (body, post).
Proof.
  induction body as [|x body IH]; intros Hb; cbn [app lazy_until].
  - change (c :: close' ++ post) with ((c :: close') ++ post).
    rewrite starts_with_app. by rewrite drop_app_length.
  - rewrite starts_with_cons_neq by (intros ->; apply Hb; constructor).
    rewrite IH; [done|]. intros Hin. apply Hb. by constructor.
Qed.

Lemma search_from_hit (at_ : jstr -> option (nat * list (option jstr))) (s : jstr) (i len : nat)
    (gs : list (option jstr)) :
  at_ s = Some (len, gs) -> search_from at_ s i = Some (RMatch i (i + len) gs).
Proof. intros H. destruct s; simpl; by rewrite H. Qed.

Lemma search_from_tag_skip (pre r : jstr) (i : nat) :
  lbr ∉ pre -> search_from tag_at (pre ++ r) i = search_from tag_at r (i + length pre).
Proof.
  revert i. induction pre as [|x pre IH]; intros i Hp; simpl; [by rewrite Nat.add_0_r|].
  unfold tag_at at 1. rewrite bool_decide_false by (intros ->; apply Hp; constructor).
  rewrite IH by (intros Hin; apply Hp; by constructor). f_equal. lia.
Qed.

Lemma tag_at_tag (name body post : jstr) :
  rbr ∉ name -> name <> [] -> lbr ∉ body ->
  tag_at ([lbr] ++ name ++ [rbr] ++ body ++ [lbr; slash] ++ name ++ [rbr] ++ post)
  = Some (5 + length name + length body + length name, [Some name; Some body]).
Proof.
  intros Hn Hne Hb. unfold tag_at. cbn [app]. rewrite bool_decide_true by done.
  rewrite split_at_char_app by done. destruct name as [|n0 name]; [done|].
  replace (slash :: (n0 :: name) ++ rbr :: post) with ((slash :: (n0 :: name) ++ [rbr]) ++ post)
    by (simpl; by rewrite <- app_assoc).
  rewrite (lazy_until_app lbr (slash :: (n0 :: name) ++ [rbr]) body post) by done.
  f_equal. f_equal. simpl. repeat (rewrite ?length_app; simpl). lia.
Qed.

(** ** Texts without the character a matcher starts with *)

Lemma search_from_skip (at_ : jstr -> option (nat * list (option jstr))) (c : ascii) (pre r : jstr) (i : nat) :
  (forall x s, x <> c -> at_ (x :: s) = None) -> c ∉ pre ->
  search_from at_ (pre ++ r) i = search_from at_ r (i + length pre).
Proof.
  intros Hat. revert i. induction pre as [|x pre IH]; intros i Hp; simpl; [by rewrite Nat.add_0_r|].
  rewrite Hat by (intros ->; apply Hp; constructor).
  rewrite IH by (intros Hin; apply Hp; by constructor). f_equal. lia.
Qed.

Lemma exec_all_absent (at_ : jstr -> option (nat * list (option jstr))) (c : ascii) (fuel : nat) (content : jstr) :
  (forall x s, x <> c -> at_ (x :: s) = None) -> at_ [] = None -> c ∉ content -> 0 < fuel ->
  exec_all fuel (engine_of at_) content 0 = Some [].
Proof.
  intros Hat Hnil Hc Hf. destruct fuel as [|fuel]; [lia|]. cbn [exec_all exec engine_of].
  rewrite drop_0, <- (app_nil_r content), (search_from_skip at_ c) by done.
  cbn [search_from]. by rewrite Hnil.
Qed.

Lemma tag_at_other (x : ascii) (s : jstr) : x <> lbr -> tag_at (x :: s) = None.
Proof. intros Hx. unfold tag_at. by rewrite bool_decide_false. Qed.

Lemma code_block_at_other (l : language) (x : ascii) (s : jstr) :
  x <> backtick -> code_block_at l (x :: s) = None.
Proof. intros Hx. unfold code_block_at, fence. cbn [starts_with]. by rewrite bool_decide_false by congruence. Qed.

(** Without ['['], the tag loop finds nothing. *)
Lemma extractRegex_no_tag (compile : jstr -> option regex_engine) (fuel : nat) (content p : jstr) :
  getRegex compile p = default_engine -> lbr ∉ content -> 0 < fuel ->
  extractRegex compile fuel content p = Returns None.
Proof.
  intros Hg Hc Hf. unfold extractRegex. rewrite Hg. destruct fuel as [|fuel]; [lia|]. cbn [regex_loop].
  unfold default_engine, engine_of. cbn [exec].
  rewrite drop_0, <- (app_nil_r content), (search_from_skip tag_at lbr) by (done || apply tag_at_other).
  done.
Qed.

(** Without a backtick, no fenced block. *)
Lemma extractFromCodeBlocks_no_fence (fuel : nat) (content : jstr) (l : language) (parser : jstr -> option jsval) :
  backtick ∉ content -> 0 < fuel -> extractFromCodeBlocks fuel content l parser = Returns None.
Proof.
  intros Hc Hf. unfold extractFromCodeBlocks, code_block_engine.
  rewrite (exec_all_absent _ backtick) by (done || apply code_block_at_other). done.
Qed.

Lemma take_while_app_stop (p : ascii -> bool) (pre post : jstr) (x : ascii) :
  Forall (fun c => p c = true) pre -> p x = false -> take_while p (pre ++ x :: post) = pre.
Proof. induction 1 as [|c pre Hc _ IH]; intros Hx; simpl; [by rewrite Hx|by rewrite Hc, IH]. Qed.

Lemma take_while_app_all (p : ascii -> bool) (pre post : jstr) :
  Forall (fun c => p c = true) pre -> take_while p (pre ++ post) = pre ++ take_while p post.
Proof. induction 1 as [|c pre Hc _ IH]; simpl; [done|by rewrite Hc, IH]. Qed.

Lemma some_suffix_head (p : jstr -> bool) (run : jstr) : run <> [] -> p run = true -> some_suffix p run = true.
Proof. destruct run; [done|]. intros _ H. simpl. by rewrite H. Qed.

Lemma key_colon_at_key (k t : jstr) : is_identifier k = true -> key_colon_at (k ++ ":"%char :: t) = true.
Proof.
  intros Hk. pose proof (identifier_chars k Hk) as Hw. unfold key_colon_at.
  rewrite take_while_app_stop by done. rewrite drop_app_length.
  apply andb_true_intro. split; [apply bool_decide_eq_true; by destruct k|]. cbn. try case_bool_decide; done.
Qed.

(** The expression of line 138 matches a whole text that opens with a
    tag followed by [k:]; the group is everything after the tag. *)
Lemma incomplete_xml_at_key (tag k t : jstr) :
  tag <> [] -> gt ∉ tag -> is_identifier k = true ->
  incomplete_xml_at (lt :: tag ++ gt :: k ++ ":"%char :: t)
  = Some (length (lt :: tag ++ gt :: k ++ ":"%char :: t), [Some (k ++ ":"%char :: t)]).
Proof.
  intros Htag Hgt Hk. pose proof (identifier_chars k Hk) as Hw. unfold incomplete_xml_at, open_tag.
  rewrite bool_decide_true by done. rewrite split_at_char_app by done. destruct tag as [|t0 tag]; [done|].
  rewrite some_suffix_head; [done| |].
  - rewrite take_while_app_all; [by destruct k|].
    eapply Forall_impl; [exact Hw|]. intros c Hc. apply negb_true_iff, bool_decide_eq_false.
    unfold lt. apply is_word_not_markup, Hc.
  - rewrite take_while_app_all.
    + cbn [take_while]. rewrite bool_decide_false by done. cbn [negb].
      rewrite key_colon_at_key by done. apply orb_true_r.
    + eapply Forall_impl; [exact Hw|]. intros c Hc. apply negb_true_iff, bool_decide_eq_false.
      unfold lt. apply is_word_not_markup, Hc.
Qed.

Lemma starts_with_char_identifier (x : ascii) (k t : jstr) :
  is_identifier k = true -> is_word x = false -> starts_with_char x (k ++ t) = false.
Proof.
  intros Hk Hx. destruct (identifier_split k Hk) as [c [w [-> [Hc _]]]]. cbn.
  apply bool_decide_eq_false. intros ->. apply is_ident_start_word in Hc. congruence.
Qed.

(** [k: ...] on one line is YAML for [isYamlFormat]. *)
Lemma isYamlFormat_key_line (k rest : jstr) :
  is_identifier k = true -> nl ∉ rest -> (rest = [] \/ exists r' d, rest = r' ++ [d] /\ is_ws d = false) ->
  isYamlFormat (k ++ ":"%char :: rest) = true.
Proof.
  intros Hk Hnl Hr. destruct (key_line k rest Hk) as (Hci & Hkey & _ & _ & Hbl & Hnlk).
  unfold isYamlFormat. rewrite key_line_trim by done.
  rewrite !starts_with_char_identifier by done. cbn [negb andb].
  rewrite lines_of_single by (intros [Hin|[Hin|Hin]%elem_of_cons]%elem_of_app; [done|discriminate|done]).
  cbn [existsb]. unfold yaml_key_line. rewrite key_line_trim, Hbl, Hci, Hkey, Hk by done. done.
Qed.

(** The body of the loop of [extractJsonFromIncompleteXml] on a group
    [k: v] with a plain scalar [v]: the YAML branch assigns it. *)
Lemma xml_inner_step_key_line (pj : jstr -> option jsval) (nc : bool) (a b : nat) (k w : jstr) (c d : ascii) :
  is_identifier k = true -> is_ws c = false -> is_ws d = false -> nl ∉ c :: w ++ [d] ->
  c :: w ++ [d] <> j["{}"] -> c <> "-"%char ->
  xml_inner_step pj nc [] (RMatch a b [Some (k ++ j[": "] ++ c :: w ++ [d])])
  = [(k, coerce_scalar (c :: w ++ [d]))].
Proof.
  intros Hk Hc Hd Hnl Hbr Hdash.
  assert (Hr : k ++ j[": "] ++ c :: w ++ [d] = k ++ ":"%char :: (" "%char :: c :: w) ++ [d]) by reflexivity.
  unfold xml_inner_step, group. cbn [m_groups lookup list_lookup default id].
  rewrite Hr, key_line_trim by (done || (right; by eexists _, _)). rewrite <- Hr.
  rewrite bool_decide_false by (destruct k; done).
  rewrite starts_with_char_identifier by done. cbn [andb].
  rewrite Hr, isYamlFormat_key_line; [|done| |right; by eexists _, _].
  2:{ intros [Hin|Hin]%elem_of_cons; [discriminate|]. apply Hnl. by right. }
  rewrite <- Hr, parseYamlDirect_scalar_line by done.
  unfold keyed. rewrite key_count_obj. cbn -[is_array_index].
  unfold own_entries. cbn -[is_array_index]. by destruct (is_array_index k).
Qed.

(** ** Properties *)

(** C5: with the default tag grammar (the default pattern, or any
    pattern [new RegExp] rejects), [extractVars] returns on every text:
    no loop exhausts [1 + length content] iterations and nothing throws. *)
Theorem extractVars_total_default (pj : jstr -> option jsval) (compile : jstr -> option regex_engine)
    (fuel : nat) (content p : jstr) :
  getRegex compile p = default_engine -> length content < fuel ->
  exists v, extractVars pj compile fuel content p = Returns v.
Proof.
  intros Hg Hf. unfold extractVars. case_bool_decide; [by eexists|].
  apply first_nonempty_returns.
  { unfold extractRegex. rewrite Hg. destruct (regex_loop_default fuel content 0 []) as [ps ->]; [lia|].
    by eexists. }
  apply first_nonempty_returns; [by apply extractFromCodeBlocks_returns|].
  apply first_nonempty_returns; [by apply extract_xml_returns|].
  apply first_nonempty_returns; [by eexists|].
  apply first_nonempty_returns; [by apply extractFromCodeBlocks_returns|].
  apply first_nonempty_returns; [by eexists|].
  apply first_nonempty_returns; [by apply extract_xml_returns|].
  by eexists.
Qed.

(** C37: a custom pattern whose [exec] returns an empty match at the
    start (for instance [()()]) makes [extractVars] loop for ever:
    [lastIndex] stays at 0, and no bound on the iterations suffices. *)
Theorem extractVars_empty_match_never_returns (pj : jstr -> option jsval)
    (compile : jstr -> option regex_engine) (content p : jstr) (m : regex_match) (n v : jstr) :
  content <> [] -> exec (getRegex compile p) content 0 = Some m -> m_end m = 0 ->
  group 0 m = Some n -> group 1 m = Some v ->
  forall fuel, extractVars pj compile fuel content p = OutOfFuel.
Proof.
  intros Hc He Hend H0 H1 fuel. unfold extractVars. rewrite bool_decide_false by done.
  unfold extractRegex. by rewrite (regex_loop_empty_match _ content 0 m n v He Hend H0 H1).
Qed.

(** a custom pattern without two capturing groups (any valid
    pattern that matches, such as [hp]) makes [extractVars] throw a
    [TypeError] ([match[2].trim()] on [undefined]); the specification
    says it never throws. *)
Theorem extractVars_missing_group_throws (pj : jstr -> option jsval)
    (compile : jstr -> option regex_engine) (fuel : nat) (content p : jstr) (m : regex_match) :
  content <> [] -> 0 < fuel -> exec (getRegex compile p) content 0 = Some m ->
  group 0 m = None \/ group 1 m = None ->
  extractVars pj compile fuel content p = Throws.
Proof.
  intros Hc Hf He Hg. unfold extractVars. rewrite bool_decide_false by done.
  unfold extractRegex. destruct fuel as [|fuel]; [lia|]. cbn [regex_loop]. rewrite He.
  by destruct Hg as [-> | ->]; [|destruct (group 0 m)].
Qed.

(** a text holding one bracket tag [[name]body[/name]] (with no
    other ['['] around it) extracts the one variable [name.trim()] with
    the string [body.trim()]. *)
Theorem extractVars_single_tag (pj : jstr -> option jsval) (compile : jstr -> option regex_engine)
    (fuel : nat) (p pre name body post : jstr) :
  getRegex compile p = default_engine ->
  length (pre ++ [lbr] ++ name ++ [rbr] ++ body ++ [lbr; slash] ++ name ++ [rbr] ++ post) < fuel ->
  lbr ∉ pre -> rbr ∉ name -> name <> [] -> lbr ∉ body -> lbr ∉ post ->
  extractVars pj compile fuel (pre ++ [lbr] ++ name ++ [rbr] ++ body ++ [lbr; slash] ++ name ++ [rbr] ++ post) p
  = Returns (JObj [(trim name, JStr (trim body))]).
Proof.
  intros Hg Hf Hpre Hn Hne Hb Hpost. unfold extractVars.
  rewrite bool_decide_false by (destruct pre; discriminate).
  unfold extractRegex. rewrite Hg. assert (Hf2 : 2 <= fuel) by (rewrite !length_app in Hf; simpl in Hf; lia).
  destruct fuel as [|[|fuel]]; [lia|lia|]. cbn [regex_loop].
  set (content := pre ++ _). unfold default_engine, engine_of. cbn [exec]. rewrite drop_0.
  unfold content. rewrite search_from_tag_skip by done. rewrite (search_from_hit _ _ _ _ _ (tag_at_tag _ _ _ Hn Hne Hb)).
  unfold group. cbn [m_end m_groups lookup list_lookup default]. rewrite Nat.add_0_l.
  replace (length pre + (5 + length name + length body + length name))
    with (length (pre ++ [lbr] ++ name ++ [rbr] ++ body ++ [lbr; slash] ++ name ++ [rbr])).
  2:{ repeat (rewrite ?length_app; simpl). lia. }
  replace (pre ++ [lbr] ++ name ++ [rbr] ++ body ++ [lbr; slash] ++ name ++ [rbr] ++ post)
    with ((pre ++ [lbr] ++ name ++ [rbr] ++ body ++ [lbr; slash] ++ name ++ [rbr]) ++ post)
    by (by rewrite <- !app_assoc).
  rewrite drop_app_length.
  rewrite <- (app_nil_r post), (search_from_tag_skip post []) by done. cbn -[key_count].
  unfold keyed, nonempty_obj. rewrite key_count_obj. simpl. by rewrite key_count_obj.
Qed.

(** C33: a complete tag pair [<tag>k: v</tag>] is caught by the
    incomplete-tag expression of strategy 3 (whose [[\s\S]*] runs to the
    end of the text) before strategy 7 sees the pair: the closing tag is
    kept in the value, [k] maps to [v</tag>]. *)
Theorem extractVars_xml_pair_keeps_close_tag (pj : jstr -> option jsval)
    (compile : jstr -> option regex_engine) (fuel : nat) (p tag k v : jstr) :
  getRegex compile p = default_engine -> 2 <= fuel ->
  tag <> [] -> gt ∉ tag -> lbr ∉ tag -> backtick ∉ tag -> nl ∉ tag ->
  is_identifier k = true -> is_identifier v = true ->
  extractVars pj compile fuel ([lt] ++ tag ++ [gt] ++ k ++ j[": "] ++ v ++ [lt; slash] ++ tag ++ [gt]) p
  = Returns (JObj [(k, JStr (v ++ [lt; slash] ++ tag ++ [gt]))]).
Proof.
  intros Hg Hf Ht Hgt Hlbr Hbt Hnl Hk Hv.
  pose proof (identifier_chars k Hk) as Hwk. pose proof (identifier_chars v Hv) as Hwv.
  set (content := [lt] ++ tag ++ [gt] ++ k ++ j[": "] ++ v ++ [lt; slash] ++ tag ++ [gt]).
  assert (Hnot : forall x, is_word x = false -> x ∉ tag -> x ∉ [lt; gt; ":"%char; " "%char; slash] -> x ∉ content).
  { intros x Hx Htx Hsp Hin.
    pose proof (word_chars_notin k x Hwk Hx). pose proof (word_chars_notin v x Hwv Hx).
    unfold content in Hin. change j[": "] with [":"%char; " "%char] in Hin. set_solver. }
  assert (Hne : content <> []) by (unfold content; discriminate).
  unfold extractVars. rewrite bool_decide_false by exact Hne.
  rewrite extractRegex_no_tag by (done || lia || (apply Hnot; [done..|vm_compute; set_solver])).
  cbn [first_nonempty keyed].
  rewrite extractFromCodeBlocks_no_fence by (lia || (apply Hnot; [done..|vm_compute; set_solver])).
  cbn [first_nonempty keyed]. unfold extractJsonFromIncompleteXml, extract_xml.
  destruct fuel as [|[|fuel]]; [lia|lia|]. cbn [exec_all].
  assert (Hshape : content = lt :: tag ++ gt :: k ++ ":"%char :: (" "%char :: v ++ [lt; slash] ++ tag ++ [gt]))
    by reflexivity.
  unfold incomplete_xml_engine, engine_of. cbn [exec]. rewrite drop_0, Hshape.
  rewrite (search_from_hit _ _ _ _ _ (incomplete_xml_at_key _ _ _ Ht Hgt Hk)). cbn [m_end].
  rewrite Nat.add_0_l, drop_all.
  assert (Hnil : forall i, search_from incomplete_xml_at [] i = None) by reflexivity.
  rewrite Hnil. cbn [fmap option_fmap option_map foldl].
  destruct (identifier_split v Hv) as [c [w [Hvw [Hc _]]]].
  pose proof (is_ident_start_word c Hc) as Hcw.
  replace (k ++ ":"%char :: " "%char :: v ++ [lt; slash] ++ tag ++ [gt])
    with (k ++ j[": "] ++ c :: (w ++ [lt; slash] ++ tag) ++ [gt]) by (rewrite Hvw; simpl; by rewrite <- !app_assoc).
  rewrite xml_inner_step_key_line; [|done|by apply is_word_not_ws|done| | |].
  - rewrite coerce_scalar_word by done. unfold first_nonempty, nonempty_obj, keyed.
    rewrite key_count_obj. cbn -[key_count]. rewrite key_count_obj. cbn.
    rewrite Hvw. simpl. by rewrite <- !app_assoc.
  - assert (nl ∉ v) by (apply word_chars_notin; [done|reflexivity]). rewrite Hvw in H.
    assert (nl ∉ [lt; slash; gt]) by (vm_compute; set_solver). set_solver.
  - intros Heq. vm_compute in Heq. injection Heq as -> _. by vm_compute in Hcw.
  - apply is_word_not_special, Hcw.
Qed.

(** ** Witnesses *)

Lemma extractVars_total_default_witness :
  exists v, extractVars (fun _ => None) (fun _ => None) 10 j["hp: 3"] [] = Returns v.
Proof. apply extractVars_total_default; [reflexivity|simpl; lia]. Defined.

(** A thousand iterations do not end the loop (nor does any number). *)
Lemma extractVars_empty_match_never_returns_witness :
  extractVars (fun _ => None) (fun _ => Some empty_groups_engine) 1000 j["hp"] j["()()"] = OutOfFuel.
Proof.
  apply (extractVars_empty_match_never_returns _ _ _ _ (RMatch 0 0 [Some []; Some []]) [] []);
    [discriminate|reflexivity..].
Defined.

Lemma extractVars_missing_group_throws_witness :
  extractVars (fun _ => None) (fun _ => Some (literal_engine j["hp"])) 10 j["hp: 3"] j["hp"] = Throws.
Proof.
  apply (extractVars_missing_group_throws _ _ _ _ _ (RMatch 0 2 [])); [discriminate|lia|reflexivity|].
  left. reflexivity.
Defined.

(** A tag in a text that is also bare YAML: the tag wins. *)
Lemma extractVars_single_tag_witness :
  extractVars (fun _ => None) (fun _ => None) 40
    (j["mood: calm "] ++ [lbr] ++ j["hp"] ++ [rbr] ++ j[" 42 "] ++ [lbr; slash] ++ j["hp"] ++ [rbr] ++ j[" end"])
    j["x"]
  = Returns (JObj [(trim j["hp"], JStr (trim j[" 42 "]))]).
Proof.
  apply extractVars_single_tag; [reflexivity|simpl; lia|..];
    first [discriminate | apply (bool_decide_unpack _); vm_compute; reflexivity].
Defined.

(** [<s>mood: happy</s>] gives [mood = happy</s>]. *)
Lemma extractVars_xml_pair_keeps_close_tag_witness :
  extractVars (fun _ => None) (fun _ => None) 40
    ([lt] ++ j["s"] ++ [gt] ++ j["mood"] ++ j[": "] ++ j["happy"] ++ [lt; slash] ++ j["s"] ++ [gt]) j["x"]
  = Returns (JObj [(j["mood"], JStr (j["happy"] ++ [lt; slash] ++ j["s"] ++ [gt]))]).
Proof.
  apply extractVars_xml_pair_keeps_close_tag;
    first [reflexivity | lia | discriminate | apply (bool_decide_unpack _); vm_compute; exact I].
Defined.

End Extract.
