(* ===== verification/Bridge.v ===== *)
(** * The documents written into iframes

    [IframeManager.writeContentToIframe] (src/template-editor.js, lines
    848-873) writes a template that is a whole document into its iframe
    with the bridge script of [getInlineScript] inserted before the first
    [</body>] (else the first [</html>]), or wraps a fragment into a
    skeleton document; [prepareHtmlContent] (src/index.js, lines
    525-546) does the same for the code blocks that [shouldRenderContent]
    (352-356) selects, with the API script of [createIframeApi].  The
    scripts are JavaScript text the model keeps abstract: the functions
    take them as arguments.  [String.prototype.replace] with a string
    pattern replaces the first occurrence; neither script holds a [$],
    so the replacement is taken literally. *)

From S2P Require Import Prelude JsValue Json.

Module Bridge.
Import Json.

(** ** Strings *)

(** [s.replace(pat, rep)] with a string pattern and a literal replacement. *)
Fixpoint replace_first (pat rep s : jstr) : jstr :=
  if starts_with pat s then rep ++ drop (length pat) s
  else match s with [] => [] | c :: s' => c :: replace_first pat rep s' end.

(** No occurrence of [pat] starts before position [n] of [s]. *)
Definition no_match_before (pat s : jstr) (n : nat) : Prop :=
  forall i, i < n -> starts_with pat (drop i s) = false.

(** ** [writeContentToIframe] *)

(** [<script type="text/javascript">${this.getInlineScript()}</script>] *)
Definition bridge_script (inline : jstr) : jstr :=
  j["<script type="] ++ quoted j["text/javascript"] ++ j[">"] ++ inline ++ j["</script>"].

Definition insert_points (script : jstr) : list (jstr * jstr) :=
  [(j["</body>"], script ++ j["</body>"]); (j["</html>"], script ++ j["</html>"])].

(** [for (const [point, replacement] of insertPoints)] with its [break]. *)
Fixpoint insert_first (points : list (jstr * jstr)) (content : jstr) : jstr :=
  match points with
  | (point, replacement) :: rest =>
      if infixb point content then replace_first point replacement content else insert_first rest content
  | [] => content
  end.

Definition skeleton_head : jstr :=
  j["<!DOCTYPE html><html><head><meta charset="] ++ quoted j["utf-8"] ++ j["></head><body>"].

(** The text [writeContentToIframe(iframe, content)] writes, [script]
    being the bridge script. *)
Definition iframe_document (script content : jstr) : jstr :=
  let wrapped := insert_first (insert_points script) content in
  if bool_decide (wrapped = content) then skeleton_head ++ content ++ script ++ j["</body></html>"]
  else wrapped.

(** ** [prepareHtmlContent] and [shouldRenderContent] (src/index.js) *)

(** [<script>${createIframeApi()}</script>] *)
Definition api_script (api : jstr) : jstr := j["<script>"] ++ api ++ j["</script>"].

(** The template literal [baseTemplate], line by line. *)
Definition base_template (api : jstr) : jstr :=
  join [nl]
    [j["<!DOCTYPE html>"]; j["<html>"]; j["<head>"];
     j["    <meta charset="] ++ quoted j["UTF-8"] ++ j[">"];
     j["    <meta name="] ++ quoted j["viewport"] ++ j[" content="]
       ++ quoted j["width=device-width, initial-scale=1.0"] ++ j[">"];
     j["    <style>body { margin: 0; padding: 10px; font-family: inherit; color: inherit; background: transparent; }</style>"];
     j["    "] ++ api_script api;
     j["</head>"]].

Definition prepareHtmlContent (api htmlContent : jstr) : jstr :=
  if infixb j["<html"] htmlContent && infixb j["</html>"] htmlContent then
    replace_first j["</head>"] (api_script api ++ j["</head>"]) htmlContent
  else if infixb j["<body"] htmlContent && infixb j["</body>"] htmlContent then
    base_template api ++ htmlContent ++ j["</html>"]
  else base_template api ++ j["<body>"] ++ htmlContent ++ j["</body></html>"].

Definition shouldRenderContent (content : jstr) : bool :=
  bool_decide (content <> []) && existsb (fun tag => infixb tag content) [j["<html"]; j["<!DOCTYPE"]; j["<script"]].

(** ** Lemmas on [replace_first] *)

Lemma replace_first_absent (pat rep s : jstr) : infixb pat s = false -> replace_first pat rep s = s.
Proof.
  induction s as [|c s IH]; cbn [infixb replace_first]; intros H.
  - apply orb_false_iff in H as [-> _]. done.
  - apply orb_false_iff in H as [-> H]. by rewrite IH.
Qed.

Lemma infixb_first (pat s : jstr) :
  infixb pat s = true ->
  exists pre post, s = pre ++ pat ++ post /\ no_match_before pat s (length pre).
Proof.
  induction s as [|c s IH]; cbn [infixb]; intros H.
  - apply orb_true_iff in H as [H|H]; [|done]. destruct pat; [|done].
    exists [], []. split; [done|intros i Hi; simpl in Hi; lia].
  - destruct (starts_with pat (c :: s)) eqn:Hs.
    + exists [], (drop (length pat) (c :: s)). split; [|intros i Hi; simpl in Hi; lia].
      simpl. symmetry. by apply starts_with_drop.
    + cbn [orb] in H. destruct (IH H) as (pre & post & -> & Hno).
      exists (c :: pre), post. split; [done|]. intros [|i] Hi; [done|]. apply Hno. simpl in Hi. lia.
Qed.

Lemma replace_first_first (pat rep pre post : jstr) :
  no_match_before pat (pre ++ pat ++ post) (length pre) ->
  replace_first pat rep (pre ++ pat ++ post) = pre ++ rep ++ post.
Proof.
  induction pre as [|c pre IH]; intros Hno; cbn [app replace_first].
  - destruct (pat ++ post) as [|x s] eqn:E; cbn [replace_first];
      rewrite <- E, starts_with_app, drop_app_length; done.
  - rewrite (Hno 0 ltac:(simpl; lia) : starts_with pat (c :: pre ++ pat ++ post) = false).
    f_equal. apply IH.
    intros i Hi. apply (Hno (S i)). simpl. lia.
Qed.

Lemma replace_first_insert (pat script content : jstr) :
  infixb pat content = true ->
  exists pre post, content = pre ++ pat ++ post /\ no_match_before pat content (length pre) /\
    replace_first pat (script ++ pat) content = pre ++ script ++ pat ++ post.
Proof.
  intros H. destruct (infixb_first pat content H) as (pre & post & Hc & Hno).
  exists pre, post. split; [done|]. split; [done|]. subst content.
  rewrite replace_first_first by done. by rewrite <- app_assoc.
Qed.

Lemma app_insert_neq (pre script mid post : jstr) :
  script <> [] -> pre ++ script ++ mid ++ post <> pre ++ mid ++ post.
Proof.
  intros Hs Heq. apply (f_equal length) in Heq. rewrite !length_app in Heq.
  destruct script; [done|simpl in Heq; lia].
Qed.

(** ** Properties *)

(** [writeContentToIframe] inserts the bridge script once and
    removes nothing: before the first [</body>] when there is one, else
    before the first [</html>], else the content is wrapped in a
    skeleton document with the script after it. *)
Theorem iframe_document_spec (script content : jstr) :
  script <> [] ->
  (infixb j["</body>"] content = true ->
   exists pre post, content = pre ++ j["</body>"] ++ post /\ no_match_before j["</body>"] content (length pre)
     /\ iframe_document script content = pre ++ script ++ j["</body>"] ++ post) /\
  (infixb j["</body>"] content = false -> infixb j["</html>"] content = true ->
   exists pre post, content = pre ++ j["</html>"] ++ post /\ no_match_before j["</html>"] content (length pre)
     /\ iframe_document script content = pre ++ script ++ j["</html>"] ++ post) /\
  (infixb j["</body>"] content = false -> infixb j["</html>"] content = false ->
   iframe_document script content = skeleton_head ++ content ++ script ++ j["</body></html>"]).
Proof.
  intros Hs. unfold iframe_document, insert_points. cbn [insert_first]. split; [|split].
  - intros Hb. rewrite Hb. destruct (replace_first_insert j["</body>"] script content Hb) as (pre & post & Hc & Hno & ->).
    exists pre, post. rewrite bool_decide_false; [done|]. rewrite Hc. by apply app_insert_neq.
  - intros Hb Hh. rewrite Hb, Hh. destruct (replace_first_insert j["</html>"] script content Hh) as (pre & post & Hc & Hno & ->).
    exists pre, post. rewrite bool_decide_false; [done|]. rewrite Hc. by apply app_insert_neq.
  - intros Hb Hh. rewrite Hb, Hh. by rewrite bool_decide_true.
Qed.

(** a code block holding a whole document without [</head>] is
    written as it is: [prepareHtmlContent] replaces the missing
    [</head>], so the API script (STscript, and the resize messages that
    give the iframe, created with height 0, its height) is absent. *)
Theorem prepareHtmlContent_no_head (api h : jstr) :
  infixb j["<html"] h = true -> infixb j["</html>"] h = true -> infixb j["</head>"] h = false ->
  prepareHtmlContent api h = h.
Proof. intros H1 H2 H3. unfold prepareHtmlContent. rewrite H1, H2. by apply replace_first_absent. Qed.

(** ** Witnesses *)

Lemma iframe_document_spec_witness :
  j["S"] <> [] /\
  iframe_document j["S"] j["<p>hi</p>"] = skeleton_head ++ j["<p>hi</p>"] ++ j["S"] ++ j["</body></html>"].
Proof.
  split; [discriminate|].
  apply (proj2 (proj2 (iframe_document_spec j["S"] j["<p>hi</p>"] ltac:(discriminate)))); reflexivity.
Defined.

Lemma prepareHtmlContent_no_head_witness :
  prepareHtmlContent j["API"] j["<html><body>hi</body></html>"] = j["<html><body>hi</body></html>"].
Proof. apply prepareHtmlContent_no_head; reflexivity. Defined.

End Bridge.
