(* ===== verification/Channel.v ===== *)
(** * The command channel between the iframes and the host

    An iframe's [STscript(command)] (the API script of [createIframeApi],
    src/index.js lines 393-420) posts [{source: 'xiaobaix-iframe', type:
    'runCommand', command, id}] to the host window and waits for a reply
    with its [id]; the host's [handleIframeMessage] (501-523) runs
    [executeSlashCommand] (470-499) and posts the result or the error
    back to [event.source]; [resize] messages set an iframe's height.

    The model has a world of the host's iframes and pending command
    calls, the messages posted and not yet delivered, the iframes'
    [STscript] calls with their state, and the commands the host
    executed; [cstep] delivers any message in flight (the model does not
    rely on the order of delivery), settles any pending call, times a
    call out, and lets a window that is not one of the iframes post any
    data to the host.  Event data are JavaScript values ([jsval]); a
    property that is [undefined] is absent.  The host functions of
    [getContext()] are the class [CommandHost]; texts outside ASCII (the
    extension's own messages) and the engine's [TypeError] message are
    the class [ChannelTexts]. *)

From S2P Require Import Prelude JsValue Json.
From stdpp Require Import relations.

Module Channel.
Import Json.

(** ** [executeSlashCommand] *)

(** How [executeSlashCommands(command, true)] settles: a value ([None]
    is [undefined]) or a rejection with an [Error] of that message. *)
Inductive exec_result := ExOk (r : option jsval) | ExErr (msg : jstr).

(** The two functions [executeSlashCommand] takes from [getContext()];
    [None] when the property is not a function. *)
Class CommandHost := {
  substituteParams : option (jstr -> jstr);
  executeSlashCommands : option (jstr -> exec_result) }.

(** The texts the model cannot spell: the [error] of an empty command
    and the message thrown without [executeSlashCommands] (Chinese in
    the source), and the engine's [TypeError] message for a call of the
    property named. *)
Class ChannelTexts := {
  msg_empty : jstr;
  msg_no_executor : jstr;
  msg_not_function : jstr -> jstr }.

(** A host whose commands echo their text, texts for the examples, and
    one iframe, window 1. *)
Definition ex_command_host : CommandHost :=
  {| substituteParams := Some (fun s => s); executeSlashCommands := Some (fun c => ExOk (Some (JStr c))) |}.
Definition ex_texts : ChannelTexts :=
  {| msg_empty := j["empty"]; msg_no_executor := j["no executor"];
     msg_not_function := fun p => p ++ j[" is not a function"] |}.
Definition ex_is_iframe (w : nat) : bool := w =? 1.

(** [try { return JSON.parse(s); } catch { return s; }] *)
Definition parse_or_string (s : jstr) : jsval := match json_parse s with Some v => v | None => JStr s end.

(** The decoding of the result (lines 483-495). *)
Definition decode_result (r : option jsval) : jsval :=
  match r with
  | Some (JObj ps) =>
      match obj_get j["pipe"] ps with
      | Some (JStr p) => parse_or_string p
      | Some v => v
      | None => JObj ps
      end
  | Some (JStr s) => if bool_decide (trim s <> []) then parse_or_string s else JStr s
  | Some v => v
  | None => JStr []
  end.

(** Why the promise rejects: [command.startsWith] is not a function (a
    truthy command that is not a string), no [executeSlashCommands], no
    [substituteParams], or the command's own error. *)
Inductive cmd_error := ErrNotString | ErrNoExecutor | ErrNoSubstitute | ErrCommand (msg : jstr).

Inductive cmd_outcome := CmdResolved (v : jsval) | CmdRejected (e : cmd_error).

Section Command.
Context `{CommandHost} `{ChannelTexts}.

(** [command] with its leading slash ([command.startsWith('/')]). *)
Definition slash_command (s : jstr) : jstr := if starts_with_char "/"%char s then s else "/"%char :: s.

(** The text [executeSlashCommands] receives, when it is called. *)
Definition executed_command (command : option jsval) : option jstr :=
  match command with
  | Some (JStr s) =>
      if bool_decide (s = []) then None else
      match executeSlashCommands, substituteParams with
      | Some _, Some subst => Some (subst (slash_command s))
      | _, _ => None
      end
  | _ => None
  end.

Definition executeSlashCommand (command : option jsval) : cmd_outcome :=
  match command with
  | Some c =>
    if negb (js_truthy c) then CmdResolved (JObj [(j["error"], JStr msg_empty)]) else
    match c with
    | JStr s =>
      match executeSlashCommands, substituteParams with
      | None, _ => CmdRejected ErrNoExecutor
      | Some _, None => CmdRejected ErrNoSubstitute
      | Some exec, Some subst =>
        match exec (subst (slash_command s)) with
        | ExOk r => CmdResolved (decode_result r)
        | ExErr msg => CmdRejected (ErrCommand msg)
        end
      end
    | _ => CmdRejected ErrNotString
    end
  | None => CmdResolved (JObj [(j["error"], JStr msg_empty)])
  end.

(** [err.message || String(err)] *)
Definition error_text (e : cmd_error) : jstr :=
  match e with
  | ErrNotString => msg_not_function j["command.startsWith"]
  | ErrNoExecutor => msg_no_executor
  | ErrNoSubstitute => msg_not_function j["substituteParams"]
  | ErrCommand msg => if bool_decide (msg = []) then j["Error"] else msg
  end.

End Command.

(** ** Messages and [handleIframeMessage] *)

(** [target.postMessage(data, '*')] from window [m_from]. *)
Record message := Msg { m_from : nat; m_to : nat; m_data : jsval }.

Definition host_window : nat := 0.

(** [data[k] === tag] for a string [tag]. *)
Definition field_is (data : jsval) (k tag : jstr) : bool :=
  match js_get data k with Some (JStr s) => bool_decide (s = tag) | _ => false end.

(** [`${v}`] *)
Definition template_string (v : option jsval) : jstr :=
  match v with Some v => to_js_string v | None => j["undefined"] end.

(** A property whose value is [undefined] is left out. *)
Definition opt_prop (k : jstr) (v : option jsval) : list (jstr * jsval) :=
  match v with Some v => [(k, v)] | None => [] end.

(** [{ source: 'xiaobaix-iframe', type: 'runCommand', ...{ command, id } }] *)
Definition run_command_data (command id : jstr) : jsval :=
  JObj [(j["source"], JStr j["xiaobaix-iframe"]); (j["type"], JStr j["runCommand"]);
        (j["command"], JStr command); (j["id"], JStr id)].

Section Protocol.
Context `{CommandHost} `{ChannelTexts}.

(** The two replies of lines 514-519. *)
Definition reply_data (id : option jsval) (o : cmd_outcome) : jsval :=
  match o with
  | CmdResolved v =>
      JObj ([(j["source"], JStr j["xiaobaix-host"]); (j["type"], JStr j["commandResult"])]
            ++ opt_prop j["id"] id ++ [(j["result"], v)])
  | CmdRejected e =>
      JObj ([(j["source"], JStr j["xiaobaix-host"]); (j["type"], JStr j["commandError"])]
            ++ opt_prop j["id"] id ++ [(j["error"], JStr (error_text e))])
  end.

(** An [iframe.xiaobaix-iframe] of the host document: its
    [contentWindow] and its [style.height]. *)
Record iframe_el := IframeEl { if_window : nat; if_height : jstr }.

(** A call [executeSlashCommand(command)] not yet settled, with the
    [event.source] and [id] of the message that asked for it. *)
Record task := Task { t_source : nat; t_id : option jsval; t_command : option jsval }.

Record host := Host { h_iframes : list iframe_el; h_tasks : list task }.

(** [for (const iframe of iframes) if (iframe.contentWindow === event.source) { ...; break; }] *)
Fixpoint set_height (source : nat) (height : jstr) (ifs : list iframe_el) : list iframe_el :=
  match ifs with
  | [] => []
  | i :: ifs' => if bool_decide (if_window i = source) then IframeEl (if_window i) height :: ifs'
                 else i :: set_height source height ifs'
  end.

(** [handleIframeMessage(event)]: [source] is [event.source], [data]
    is [event.data].  The [runCommand] branch starts the asynchronous
    call, which [settle] ends. *)
Definition handleIframeMessage (h : host) (source : nat) (data : jsval) : host :=
  if negb (js_truthy data) || negb (field_is data j["source"] j["xiaobaix-iframe"]) then h
  else if field_is data j["type"] j["resize"] then
    Host (set_height source (template_string (js_get data j["height"]) ++ j["px"]) (h_iframes h)) (h_tasks h)
  else if field_is data j["type"] j["runCommand"] then
    Host (h_iframes h) (h_tasks h ++ [Task source (js_get data j["id"]) (js_get data j["command"])])
  else h.

(** The [.then] / [.catch] of the call: the reply to [event.source]. *)
Definition settle_message (t : task) : message :=
  Msg host_window (t_source t) (reply_data (t_id t) (executeSlashCommand (t_command t))).

(** ** The iframe side: [STscript] *)

Inductive req_state := Pending | Resolved (v : option jsval) | Rejected (msg : jstr).

Record request := Request { r_window : nat; r_id : jstr; r_command : jstr; r_state : req_state }.

(** [new Error(x).message] *)
Definition error_message (x : option jsval) : jstr :=
  match x with Some v => to_js_string v | None => [] end.

(** The listener of an [STscript] call on a message [data] reaching its
    window: a reply from the host of either type with its [id]. *)
Definition listen (w : nat) (data : jsval) (r : request) : request :=
  match r_state r with
  | Pending =>
    if bool_decide (r_window r = w) && js_truthy data && field_is data j["source"] j["xiaobaix-host"]
       && (field_is data j["type"] j["commandResult"] || field_is data j["type"] j["commandError"])
       && field_is data j["id"] (r_id r)
    then Request w (r_id r) (r_command r)
           (if field_is data j["type"] j["commandResult"] then Resolved (js_get data j["result"])
            else Rejected (error_message (js_get data j["error"])))
    else r
  | _ => r
  end.

(** The state an [STscript] call settles in on the reply for [o]. *)
Definition settled (o : cmd_outcome) : req_state :=
  match o with CmdResolved v => Resolved (Some v) | CmdRejected e => Rejected (error_text e) end.

(** ** The system *)

Record cworld := CWorld {
  cw_host : host;
  cw_queue : list message;
  cw_requests : list request;
  cw_log : list (nat * jstr)       (** [executeSlashCommands] calls: requester and text *)
}.

Definition log_of (t : task) : list (nat * jstr) :=
  match executed_command (t_command t) with Some c => [(t_source t, c)] | None => [] end.

Definition timeout (r : request) : request :=
  match r_state r with
  | Pending => Request (r_window r) (r_id r) (r_command r) (Rejected j["Command timeout"])
  | _ => r
  end.

Section Step.
(** The windows of the iframes that run the API script. *)
Variable is_iframe : nat -> bool.

Inductive cstep : cworld -> cworld -> Prop :=
| CCall (W : cworld) (w : nat) (id cmd : jstr) :
    is_iframe w = true -> w <> host_window ->
    Forall (fun r => r_window r <> w \/ r_id r <> id) (cw_requests W) ->
    cstep W (CWorld (cw_host W) (cw_queue W ++ [Msg w host_window (run_command_data cmd id)])
                    (cw_requests W ++ [Request w id cmd Pending]) (cw_log W))
| CDeliverHost (W : cworld) (pre post : list message) (m : message) :
    cw_queue W = pre ++ m :: post -> m_to m = host_window ->
    cstep W (CWorld (handleIframeMessage (cw_host W) (m_from m) (m_data m)) (pre ++ post)
                    (cw_requests W) (cw_log W))
| CSettle (W : cworld) (pre post : list task) (t : task) :
    h_tasks (cw_host W) = pre ++ t :: post ->
    cstep W (CWorld (Host (h_iframes (cw_host W)) (pre ++ post)) (cw_queue W ++ [settle_message t])
                    (cw_requests W) (cw_log W ++ log_of t))
| CDeliverFrame (W : cworld) (pre post : list message) (m : message) :
    cw_queue W = pre ++ m :: post -> m_to m <> host_window ->
    cstep W (CWorld (cw_host W) (pre ++ post) (map (listen (m_to m) (m_data m)) (cw_requests W)) (cw_log W))
| CTimeout (W : cworld) (i : nat) :
    cstep W (CWorld (cw_host W) (cw_queue W) (alter timeout i (cw_requests W)) (cw_log W))
| CForeign (W : cworld) (f : nat) (data : jsval) :
    is_iframe f = false -> f <> host_window ->
    cstep W (CWorld (cw_host W) (cw_queue W ++ [Msg f host_window data]) (cw_requests W) (cw_log W)).

(** ** The invariant of the channel *)

(** The calls of the iframes: window, id and command. *)
Definition calls (rs : list request) : list (nat * jstr * jstr) :=
  map (fun r => (r_window r, r_id r, r_command r)) rs.

(** A message to the host from an iframe is a call's request; a message
    to an iframe is the reply to one of its calls. *)
Definition msg_ok (rs : list request) (m : message) : Prop :=
  (m_to m = host_window -> is_iframe (m_from m) = true ->
   exists id cmd, (m_from m, id, cmd) ∈ calls rs /\ m_data m = run_command_data cmd id) /\
  (m_to m <> host_window -> is_iframe (m_to m) = true ->
   exists id cmd, (m_to m, id, cmd) ∈ calls rs
     /\ m_data m = reply_data (Some (JStr id)) (executeSlashCommand (Some (JStr cmd)))).

Definition task_ok (rs : list request) (t : task) : Prop :=
  is_iframe (t_source t) = true ->
  exists id cmd, (t_source t, id, cmd) ∈ calls rs /\ t_id t = Some (JStr id) /\ t_command t = Some (JStr cmd).

(** A call is pending, timed out, or settled with its own command's outcome. *)
Definition good_state (r : request) : Prop :=
  r_state r = Pending \/ r_state r = Rejected j["Command timeout"]
  \/ r_state r = settled (executeSlashCommand (Some (JStr (r_command r)))).

Definition channel_inv (W : cworld) : Prop :=
  NoDup (map (fun r => (r_window r, r_id r)) (cw_requests W)) /\
  Forall (fun r => is_iframe (r_window r) = true /\ good_state r) (cw_requests W) /\
  Forall (msg_ok (cw_requests W)) (cw_queue W) /\
  Forall (task_ok (cw_requests W)) (h_tasks (cw_host W)).

Definition channel_init (ifs : list iframe_el) : cworld := CWorld (Host ifs []) [] [] [].

End Step.
(** ** Lemmas *)

Lemma handle_run_command (h : host) (w : nat) (cmd id : jstr) :
  handleIframeMessage h w (run_command_data cmd id)
  = Host (h_iframes h) (h_tasks h ++ [Task w (Some (JStr id)) (Some (JStr cmd))]).
Proof. reflexivity. Qed.

Lemma listen_reply (w : nat) (i : jstr) (o : cmd_outcome) (r : request) :
  listen w (reply_data (Some (JStr i)) o) r
  = match r_state r with
    | Pending => if bool_decide (r_window r = w) && bool_decide (i = r_id r)
                 then Request w (r_id r) (r_command r) (settled o) else r
    | _ => r
    end.
Proof.
  unfold listen. destruct (r_state r); [|done..].
  destruct o as [v|e]; cbn -[error_text]; by rewrite ?andb_true_r.
Qed.

(** ** Lemmas on the invariant *)

Section Invariant.
Variable is_iframe : nat -> bool.
Hypothesis host_not_iframe : is_iframe host_window = false.

Lemma calls_listen (w : nat) (d : jsval) (rs : list request) : calls (map (listen w d) rs) = calls rs.
Proof.
  induction rs as [|r rs IH]; [done|]. cbn [map calls]. unfold calls in IH. rewrite IH. f_equal.
  unfold listen. destruct (r_state r); [|done..]. case_match eqn:E; [|done].
  repeat (apply andb_prop in E as [E _]). by apply bool_decide_eq_true in E as ->.
Qed.

Lemma calls_timeout (i : nat) (rs : list request) : calls (alter timeout i rs) = calls rs.
Proof.
  revert i. induction rs as [|r rs IH]; intros [|i]; [done|done| |]; cbn [alter list_alter map calls].
  - unfold timeout. by case_match.
  - unfold calls in IH. by rewrite IH.
Qed.

Lemma msg_ok_mono (rs rs' : list request) (m : message) :
  (forall x, x ∈ calls rs -> x ∈ calls rs') -> msg_ok is_iframe rs m -> msg_ok is_iframe rs' m.
Proof.
  intros Hin [H1 H2]. split.
  - intros Ht Hi. destruct (H1 Ht Hi) as (id & cmd & Hc & Hd). eauto.
  - intros Ht Hi. destruct (H2 Ht Hi) as (id & cmd & Hc & Hd). eauto.
Qed.

Lemma task_ok_mono (rs rs' : list request) (t : task) :
  (forall x, x ∈ calls rs -> x ∈ calls rs') -> task_ok is_iframe rs t -> task_ok is_iframe rs' t.
Proof. intros Hin Ht Hi. destruct (Ht Hi) as (id & cmd & Hc & Hd). eauto. Qed.

Lemma nodup_key_eq {A B} (f : A -> B) (l : list A) (x y : A) :
  NoDup (map f l) -> x ∈ l -> y ∈ l -> f x = f y -> x = y.
Proof.
  induction l as [|a l IH]; intros Hnd Hx Hy Hf; [by apply not_elem_of_nil in Hx|].
  cbn [map] in Hnd. apply NoDup_cons in Hnd as [Hna Hnd].
  apply elem_of_cons in Hx as [->|Hx]; apply elem_of_cons in Hy as [->|Hy]; try done.
  - destruct Hna. rewrite Hf. by apply list_elem_of_fmap_2.
  - destruct Hna. rewrite <- Hf. by apply list_elem_of_fmap_2.
  - by apply IH.
Qed.

Lemma keys_calls (rs : list request) :
  map (fun r => (r_window r, r_id r)) rs = map (fun c => (c.1.1, c.1.2)) (calls rs).
Proof. unfold calls. by rewrite map_map. Qed.

Lemma Forall_remove {A} (P : A -> Prop) (pre post : list A) (x : A) :
  Forall P (pre ++ x :: post) -> Forall P (pre ++ post) /\ P x.
Proof. rewrite !Forall_app, Forall_cons. tauto. Qed.

Lemma handle_tasks (h : host) (s : nat) (d : jsval) :
  h_tasks (handleIframeMessage h s d) = h_tasks h \/
  h_tasks (handleIframeMessage h s d) = h_tasks h ++ [Task s (js_get d j["id"]) (js_get d j["command"])].
Proof. unfold handleIframeMessage. repeat case_match; auto. Qed.

Lemma listen_other (w : nat) (d : jsval) (r : request) : r_window r <> w -> listen w d r = r.
Proof. intros Hw. unfold listen. destruct (r_state r); [|done..]. by rewrite bool_decide_false. Qed.

(** The reply to a call settles that call, and no other, with the
    outcome of its command. *)
Lemma listen_good (w : nat) (id cmd : jstr) (rs : list request) :
  NoDup (map (fun r => (r_window r, r_id r)) rs) -> (w, id, cmd) ∈ calls rs ->
  Forall (fun r => is_iframe (r_window r) = true /\ good_state r) rs ->
  Forall (fun r => is_iframe (r_window r) = true /\ good_state r)
    (map (listen w (reply_data (Some (JStr id)) (executeSlashCommand (Some (JStr cmd))))) rs).
Proof.
  intros Hnd Hc Hall. apply Forall_map. rewrite Forall_forall in Hall |- *. intros r Hr.
  destruct (Hall r Hr) as [Hi Hg]. rewrite listen_reply. destruct (r_state r) eqn:Es; [|done..].
  case_match eqn:E; [|done]. apply andb_prop in E as [E1 E2].
  apply bool_decide_eq_true in E1, E2. subst w id.
  unfold calls in Hc. apply list_elem_of_fmap in Hc as (r0 & Hk & Hr0).
  assert (r = r0) as <- by (apply (nodup_key_eq _ _ _ _ Hnd Hr Hr0); congruence).
  injection Hk as Hcmd. subst cmd. split; [done|]. unfold good_state. by right; right.
Qed.

Lemma calls_app_incl (rs new : list request) (x : nat * jstr * jstr) : x ∈ calls rs -> x ∈ calls (rs ++ new).
Proof. unfold calls. rewrite map_app. intros Hx. apply elem_of_app. by left. Qed.

Lemma inv_call (W : cworld) (w : nat) (id cmd : jstr) :
  channel_inv is_iframe W -> is_iframe w = true -> w <> host_window ->
  Forall (fun r => r_window r <> w \/ r_id r <> id) (cw_requests W) ->
  channel_inv is_iframe (CWorld (cw_host W) (cw_queue W ++ [Msg w host_window (run_command_data cmd id)])
                          (cw_requests W ++ [Request w id cmd Pending]) (cw_log W)).
Proof.
  intros (Hnd & Hrs & Hq & Ht) Hw Hwh Hfresh. unfold channel_inv; cbn [cw_requests cw_queue cw_host].
  split; [|split; [|split]].
  - rewrite map_app. apply NoDup_app. split; [done|]. split; [|apply NoDup_singleton].
    intros k Hk Hk'. apply list_elem_of_singleton in Hk'. subst k. apply list_elem_of_fmap in Hk as (r & Hrk & Hr).
    rewrite Forall_forall in Hfresh. destruct (Hfresh r Hr); simplify_eq/=; congruence.
  - apply Forall_app. split; [done|]. apply Forall_singleton. split; [done|by left].
  - apply Forall_app. split.
    + eapply Forall_impl; [exact Hq|]. intros m. apply msg_ok_mono, calls_app_incl.
    + apply Forall_singleton. split; cbn; [|done]. intros _ _. exists id, cmd. split; [|done].
      unfold calls. rewrite map_app. apply elem_of_app. right. by left.
  - eapply Forall_impl; [exact Ht|]. intros t. apply task_ok_mono, calls_app_incl.
Qed.

Lemma inv_deliver_host (W : cworld) (pre post : list message) (m : message) :
  channel_inv is_iframe W -> cw_queue W = pre ++ m :: post -> m_to m = host_window ->
  channel_inv is_iframe (CWorld (handleIframeMessage (cw_host W) (m_from m) (m_data m)) (pre ++ post)
                          (cw_requests W) (cw_log W)).
Proof.
  intros (Hnd & Hrs & Hq & Ht) Hqe Hto. unfold channel_inv; cbn [cw_requests cw_queue cw_host].
  rewrite Hqe in Hq. apply Forall_remove in Hq as [Hq [Hm _]].
  split; [done|]. split; [done|]. split; [done|].
  destruct (handle_tasks (cw_host W) (m_from m) (m_data m)) as [-> | ->]; [done|].
  apply Forall_app. split; [done|]. apply Forall_singleton. intros Hi. cbn in Hi.
  destruct (Hm Hto Hi) as (id & cmd & Hc & Hd). exists id, cmd. rewrite Hd. done.
Qed.

Lemma inv_settle (W : cworld) (pre post : list task) (t : task) :
  channel_inv is_iframe W -> h_tasks (cw_host W) = pre ++ t :: post ->
  channel_inv is_iframe (CWorld (Host (h_iframes (cw_host W)) (pre ++ post)) (cw_queue W ++ [settle_message t])
                          (cw_requests W) (cw_log W ++ log_of t)).
Proof.
  intros (Hnd & Hrs & Hq & Ht) Hte. unfold channel_inv; cbn [cw_requests cw_queue cw_host h_tasks].
  rewrite Hte in Ht. apply Forall_remove in Ht as [Ht Htt].
  split; [done|]. split; [done|]. split; [|done].
  apply Forall_app. split; [done|]. apply Forall_singleton. split; cbn.
  - intros _ Hi. by rewrite host_not_iframe in Hi.
  - intros _ Hi. destruct (Htt Hi) as (id & cmd & Hc & Hid & Hcmd). exists id, cmd. by rewrite Hid, Hcmd.
Qed.

Lemma inv_deliver_frame (W : cworld) (pre post : list message) (m : message) :
  channel_inv is_iframe W -> cw_queue W = pre ++ m :: post -> m_to m <> host_window ->
  channel_inv is_iframe (CWorld (cw_host W) (pre ++ post) (map (listen (m_to m) (m_data m)) (cw_requests W))
                          (cw_log W)).
Proof.
  intros (Hnd & Hrs & Hq & Ht) Hqe Hto. unfold channel_inv; cbn [cw_requests cw_queue cw_host].
  rewrite Hqe in Hq. apply Forall_remove in Hq as [Hq [_ Hm]].
  rewrite keys_calls, !calls_listen, <- keys_calls. split; [done|]. split.
  - destruct (is_iframe (m_to m)) eqn:Hi.
    + destruct (Hm Hto eq_refl) as (id & cmd & Hc & ->). by apply listen_good.
    + erewrite map_ext_in; [by rewrite map_id|]. intros r Hr%list_elem_of_In. apply listen_other.
      rewrite Forall_forall in Hrs. intros Heq. destruct (Hrs r Hr) as [Hri _]. congruence.
  - split; [eapply Forall_impl; [exact Hq|] | eapply Forall_impl; [exact Ht|]];
      [intros m'; apply msg_ok_mono | intros t; apply task_ok_mono]; by rewrite calls_listen.
Qed.

Lemma inv_timeout (W : cworld) (i : nat) :
  channel_inv is_iframe W ->
  channel_inv is_iframe (CWorld (cw_host W) (cw_queue W) (alter timeout i (cw_requests W)) (cw_log W)).
Proof.
  intros (Hnd & Hrs & Hq & Ht). unfold channel_inv; cbn [cw_requests cw_queue cw_host].
  rewrite keys_calls, !calls_timeout, <- keys_calls. split; [done|]. split.
  - apply Forall_alter; [done|]. intros r _ [Hi Hg]. unfold timeout.
    destruct (r_state r) eqn:Es; simpl; [split; [done|by right; left]|done..].
  - split; [eapply Forall_impl; [exact Hq|] | eapply Forall_impl; [exact Ht|]];
      [intros m'; apply msg_ok_mono | intros t; apply task_ok_mono]; by rewrite calls_timeout.
Qed.

Lemma inv_foreign (W : cworld) (f : nat) (d : jsval) :
  channel_inv is_iframe W -> is_iframe f = false ->
  channel_inv is_iframe (CWorld (cw_host W) (cw_queue W ++ [Msg f host_window d]) (cw_requests W) (cw_log W)).
Proof.
  intros (Hnd & Hrs & Hq & Ht) Hf. unfold channel_inv; cbn [cw_requests cw_queue cw_host].
  split; [done|]. split; [done|]. split; [|done]. apply Forall_app. split; [done|].
  apply Forall_singleton. split; cbn; [intros _ Hi; congruence|done].
Qed.

Lemma channel_inv_init (ifs : list iframe_el) : channel_inv is_iframe (channel_init ifs).
Proof. repeat split; constructor. Qed.

Lemma channel_inv_step (W W' : cworld) : channel_inv is_iframe W -> cstep is_iframe W W' -> channel_inv is_iframe W'.
Proof.
  intros Hinv Hs. destruct Hs;
    [by apply inv_call|by eapply inv_deliver_host|by eapply inv_settle|by eapply inv_deliver_frame
    |by apply inv_timeout|by apply inv_foreign].
Qed.

Lemma channel_inv_rtc (W W' : cworld) : channel_inv is_iframe W -> rtc (cstep is_iframe) W W' -> channel_inv is_iframe W'.
Proof. intros Hinv Hr. induction Hr; eauto using channel_inv_step. Qed.

(** A call runs to its end: the request reaches the host, the host
    settles the command, the reply reaches the iframe. *)
Lemma run_call (W : cworld) (w : nat) (id cmd : jstr) :
  is_iframe w = true -> w <> host_window -> Forall (fun r => r_window r <> w \/ r_id r <> id) (cw_requests W) ->
  exists W', rtc (cstep is_iframe) W W'
    /\ cw_requests W' = map (listen w (reply_data (Some (JStr id)) (executeSlashCommand (Some (JStr cmd)))))
                          (cw_requests W ++ [Request w id cmd Pending])
    /\ cw_log W' = cw_log W ++ log_of (Task w (Some (JStr id)) (Some (JStr cmd))).
Proof.
  intros Hw Hwh Hf. eexists. split.
  - eapply rtc_l; [by apply CCall|].
    eapply rtc_l; [eapply (CDeliverHost _ _ (cw_queue W) []); reflexivity|].
    eapply rtc_l; [eapply (CSettle _ _ (h_tasks (cw_host W)) []); reflexivity|].
    eapply rtc_l; [eapply (CDeliverFrame _ _ (cw_queue W ++ []) []); [reflexivity|exact Hwh]|].
    apply rtc_refl.
  - split; reflexivity.
Qed.

Lemma settled_last (w : nat) (id cmd : jstr) (o : cmd_outcome) (rs : list request) :
  Request w id cmd (settled o) ∈ map (listen w (reply_data (Some (JStr id)) o)) (rs ++ [Request w id cmd Pending]).
Proof.
  rewrite map_app. apply elem_of_app. right. cbn [map]. rewrite listen_reply. cbn.
  rewrite !bool_decide_true by done. by left.
Qed.


End Invariant.

(** ** Properties *)

(** C9: in every world reachable from the start, an [STscript] call is
    pending, timed out, or settled with the outcome of its own command:
    replies are correlated by [id] and go back to [event.source], so no
    call receives another call's result. *)
Theorem channel_replies_correlated (is_iframe : nat -> bool) (ifs : list iframe_el) (W : cworld) (r : request) :
  is_iframe host_window = false -> rtc (cstep is_iframe) (channel_init ifs) W -> r ∈ cw_requests W ->
  r_state r = Pending \/ r_state r = Rejected j["Command timeout"]
  \/ r_state r = settled (executeSlashCommand (Some (JStr (r_command r)))).
Proof.
  intros Hh Hr Hin. destruct (channel_inv_rtc is_iframe Hh _ _ (channel_inv_init is_iframe ifs) Hr)
    as (_ & Hrs & _). rewrite Forall_forall in Hrs. apply (Hrs r Hin).
Qed.

(** C38: a call of an iframe with a fresh id can always complete: there
    is a run after which it is settled with the outcome of
    [executeSlashCommand] on its command. *)
Theorem call_settles (is_iframe : nat -> bool) (W : cworld) (w : nat) (id cmd : jstr) :
  is_iframe w = true -> w <> host_window -> Forall (fun r => r_window r <> w \/ r_id r <> id) (cw_requests W) ->
  exists W', rtc (cstep is_iframe) W W'
    /\ Request w id cmd (settled (executeSlashCommand (Some (JStr cmd)))) ∈ cw_requests W'.
Proof.
  intros Hw Hwh Hf. destruct (run_call is_iframe W w id cmd Hw Hwh Hf) as (W' & Hr & Hreq & _).
  exists W'. split; [done|]. rewrite Hreq. apply settled_last.
Qed.

(** C39: a window that is not one of the extension's iframes gets a
    slash command executed: [handleIframeMessage] checks the [source]
    string of the data, which any sender can write, and never
    [event.source] or [event.origin]. *)
Theorem foreign_window_runs_command (is_iframe : nat -> bool) (W : cworld) (f : nat) (cmd id c : jstr) :
  is_iframe f = false -> f <> host_window -> executed_command (Some (JStr cmd)) = Some c ->
  exists W', rtc (cstep is_iframe) W W' /\ (f, c) ∈ cw_log W'.
Proof.
  intros Hf Hfh Hc. eexists. split.
  - eapply rtc_l; [by apply (CForeign _ _ f (run_command_data cmd id))|].
    eapply rtc_l; [eapply (CDeliverHost _ _ (cw_queue W) []); reflexivity|].
    eapply rtc_l; [eapply (CSettle _ _ (h_tasks (cw_host W)) []); reflexivity|].
    apply rtc_refl.
  - cbn [cw_log]. apply elem_of_app. right.
    match goal with |- _ ∈ log_of ?t => change t with (Task f (Some (JStr id)) (Some (JStr cmd))) end.
    unfold log_of. cbn [t_command t_source]. rewrite Hc. by left.
Qed.

(** The empty command is never rejected: a call [STscript('')]
    that is settled and not timed out resolves with the object
    [{ error: ... }], where the specification says the channel throws
    with a message. *)
Theorem empty_command_resolves (is_iframe : nat -> bool) (ifs : list iframe_el) (W : cworld) (r : request) :
  is_iframe host_window = false -> rtc (cstep is_iframe) (channel_init ifs) W -> r ∈ cw_requests W ->
  r_command r = [] -> r_state r <> Pending ->
  r_state r = Rejected j["Command timeout"] \/ r_state r = Resolved (Some (JObj [(j["error"], JStr msg_empty)])).
Proof.
  intros Hh Hr Hin Hc Hp. destruct (channel_inv_rtc is_iframe Hh _ _ (channel_inv_init is_iframe ifs) Hr)
    as (_ & Hrs & _). rewrite Forall_forall in Hrs. destruct (Hrs r Hin) as [_ [Hs|[Hs|Hs]]]; [done|by left|].
  right. rewrite Hs, Hc. reflexivity.
Qed.


End Protocol.

(** ** Witnesses *)

Lemma channel_replies_correlated_witness :
  exists W r, rtc (@cstep ex_command_host ex_texts ex_is_iframe) (channel_init []) W /\ r ∈ cw_requests W /\
    (r_state r = Pending \/ r_state r = Rejected j["Command timeout"]
     \/ r_state r = @settled ex_texts (@executeSlashCommand ex_command_host ex_texts (Some (JStr (r_command r))))).
Proof.
  destruct (@run_call ex_command_host ex_texts ex_is_iframe (channel_init []) 1 j["a"] j["help"]
              eq_refl ltac:(discriminate) (Forall_nil_2 _)) as (W & Hr & Hreq & _).
  set (r := Request 1 j["a"] j["help"] (@settled ex_texts (@executeSlashCommand ex_command_host ex_texts (Some (JStr j["help"]))))).
  assert (Hin : r ∈ cw_requests W) by (rewrite Hreq; apply settled_last).
  exists W, r. split; [done|]. split; [done|].
  exact (@channel_replies_correlated ex_command_host ex_texts ex_is_iframe [] W r eq_refl Hr Hin).
Defined.

Lemma call_settles_witness :
  exists W', rtc (@cstep ex_command_host ex_texts ex_is_iframe) (channel_init []) W'
    /\ Request 1 j["a"] j["help"] (Resolved (Some (JStr j["/help"]))) ∈ cw_requests W'.
Proof.
  apply (@call_settles ex_command_host ex_texts ex_is_iframe (channel_init []) 1 j["a"] j["help"]);
    [reflexivity|discriminate|constructor].
Defined.

Lemma foreign_window_runs_command_witness :
  exists W', rtc (@cstep ex_command_host ex_texts ex_is_iframe) (channel_init []) W' /\ (2, j["/help"]) ∈ cw_log W'.
Proof.
  apply (@foreign_window_runs_command ex_command_host ex_texts ex_is_iframe (channel_init []) 2 j["help"] j["x"]);
    [reflexivity|discriminate|reflexivity].
Defined.

Lemma empty_command_resolves_witness :
  exists W r, rtc (@cstep ex_command_host ex_texts ex_is_iframe) (channel_init []) W /\ r ∈ cw_requests W /\
    r_command r = [] /\ r_state r <> Pending /\
    (r_state r = Rejected j["Command timeout"] \/ r_state r = Resolved (Some (JObj [(j["error"], JStr j["empty"])]))).
Proof.
  destruct (@run_call ex_command_host ex_texts ex_is_iframe (channel_init []) 1 j["a"] []
              eq_refl ltac:(discriminate) (Forall_nil_2 _)) as (W & Hr & Hreq & _).
  set (r := Request 1 j["a"] [] (@settled ex_texts (@executeSlashCommand ex_command_host ex_texts (Some (JStr []))))).
  assert (Hin : r ∈ cw_requests W) by (rewrite Hreq; apply settled_last).
  assert (Hp : r_state r <> Pending) by discriminate.
  exists W, r. split; [done|]. split; [done|]. split; [done|]. split; [done|].
  exact (@empty_command_resolves ex_command_host ex_texts ex_is_iframe [] W r eq_refl Hr Hin eq_refl Hp).
Defined.

End Channel.
