(* ===== verification/Shell.v ===== *)
(** * The extension's on/off switch (src/index.js)

    The change handler of [#xiaobaix_enabled] (lines 737-746) calls
    [toggleAllFeatures] (648-692): switching off saves the settings
    ([saveCurrentSettings], 608-621), releases the registered listeners,
    timers and module cleanups ([cleanupAllResources], 292-336), turns
    every feature off in the settings and unchecks the checkboxes;
    switching on restores the saved values ([restoreSettings], 623-646)
    and registers the event listeners again ([setupEventListeners],
    897-992).  The settings object [extension_settings[EXT_ID]] is a
    record with a map from module name to its [enabled]; the checkboxes
    are a map from element id to [checked].  [renderHtmlInIframe]
    (548-581) gives a code-block iframe its [sandbox] attribute when
    [settings.sandboxMode] holds.  Persisting ([saveSettingsDebounced])
    and the features' own initialisation are host I/O and are not
    modelled. *)

From S2P Require Import Prelude JsValue.
From stdpp Require Import gmap.

Module Shell.

(** ** State *)

(** [settings]: [x_modules !! m] is [Some e] when the module object
    exists, [e] its [enabled] ([None] when undefined). *)
Record xsettings := XSettings {
  x_enabled : bool;
  x_sandboxMode : bool;
  x_memoryEnabled : bool;
  x_memoryInjectEnabled : bool;
  x_memoryInjectDepth : jsval;
  x_modules : gmap jstr (option bool) }.

(** [settings[m]?.enabled] *)
Definition module_enabled (s : xsettings) (m : jstr) : option bool :=
  match x_modules s !! m with Some e => e | None => None end.

(** [savedSettings]; [None] is [undefined].  The module entries are
    keyed by the names of [saveCurrentSettings]. *)
Record saved := Saved {
  sv_sandboxMode : option bool;
  sv_memoryEnabled : option bool;
  sv_memoryInjectEnabled : option bool;
  sv_memoryInjectDepth : option jsval;
  sv_modules : list (jstr * option bool) }.

(** [let savedSettings = {}] *)
Definition saved_init : saved := Saved None None None None [].

Record shell := Shell {
  sh_settings : xsettings;
  sh_active : bool;                  (** [isXiaobaixEnabled] *)
  sh_saved : saved;
  sh_checked : gmap jstr bool;       (** [$('#id').prop('checked')] *)
  sh_depth_field : option jsval;     (** [$('#xiaobaix_memory_depth').val()] *)
  sh_controls_enabled : bool;        (** [toggleSettingsControls] *)
  sh_listeners : list jstr;          (** [globalEventListeners], by event *)
  sh_timers : list nat;              (** [globalTimers] *)
  sh_cleanups : list jstr }.         (** [moduleCleanupFunctions], by module *)

(** ** [saveCurrentSettings] and [restoreSettings] *)

(** [moduleSettings] of [restoreSettings]: saved key, module, checkbox. *)
Definition module_settings : list (jstr * jstr * jstr) :=
  [(j["recordedEnabled"], j["recorded"], j["xiaobaix_recorded_enabled"]);
   (j["previewEnabled"], j["preview"], j["xiaobaix_preview_enabled"]);
   (j["scriptAssistantEnabled"], j["scriptAssistant"], j["xiaobaix_script_assistant"]);
   (j["scheduledTasksEnabled"], j["tasks"], j["scheduled_tasks_enabled"]);
   (j["templateEnabled"], j["templateEditor"], j["xiaobaix_template_enabled"]);
   (j["characterUpdaterEnabled"], j["characterUpdater"], j["character_updater_enabled"])].

Definition saveCurrentSettings (s : xsettings) : saved :=
  Saved (Some (x_sandboxMode s)) (Some (x_memoryEnabled s)) (Some (x_memoryInjectEnabled s))
        (Some (x_memoryInjectDepth s))
        (map (fun '(key, m, _) => (key, module_enabled s m)) module_settings).

(** [savedSettings[key]] *)
Definition saved_module (sv : saved) (key : jstr) : option bool :=
  match list_find (fun kv => kv.1 = key) (sv_modules sv) with Some (_, (_, e)) => e | None => None end.

Definition with_modules (mods : gmap jstr (option bool)) (s : xsettings) : xsettings :=
  XSettings (x_enabled s) (x_sandboxMode s) (x_memoryEnabled s) (x_memoryInjectEnabled s)
            (x_memoryInjectDepth s) mods.

(** [if (savedSettings.x !== undefined) $('#id').prop('checked', savedSettings.x)] *)
Definition check_if (id : jstr) (v : option bool) (ck : gmap jstr bool) : gmap jstr bool :=
  match v with Some b => <[id := b]> ck | None => ck end.

(** One iteration of [moduleSettings.forEach]: the module's [enabled]
    and its checkbox. *)
Definition restore_module (sv : saved) (acc : gmap jstr (option bool) * gmap jstr bool)
    (entry : jstr * jstr * jstr) : gmap jstr (option bool) * gmap jstr bool :=
  let '(key, m, control) := entry in
  match saved_module sv key with
  | Some b => (<[m := Some b]> acc.1, <[control := b]> acc.2)
  | None => acc
  end.

Definition restoreSettings (sh : shell) : shell :=
  let sv := sh_saved sh in
  let ck := check_if j["xiaobaix_memory_inject"] (sv_memoryInjectEnabled sv)
              (check_if j["xiaobaix_memory_enabled"] (sv_memoryEnabled sv)
                 (check_if j["xiaobaix_sandbox"] (sv_sandboxMode sv) (sh_checked sh))) in
  let depth := match sv_memoryInjectDepth sv with Some d => Some d | None => sh_depth_field sh end in
  let r := fold_left (restore_module sv) module_settings (x_modules (sh_settings sh), ck) in
  Shell (with_modules r.1 (sh_settings sh)) (sh_active sh) sv r.2 depth (sh_controls_enabled sh)
        (sh_listeners sh) (sh_timers sh) (sh_cleanups sh).

(** ** [cleanupAllResources], [setupEventListeners], [toggleAllFeatures] *)

Definition cleanupAllResources (sh : shell) : shell :=
  Shell (sh_settings sh) (sh_active sh) (sh_saved sh) (sh_checked sh) (sh_depth_field sh)
        (sh_controls_enabled sh) [] [] [].

(** The events [setupEventListeners] registers (the host defines the
    three optional ones), and the window's [message] listener,
    [handleIframeMessage]. *)
Definition listener_events : list jstr :=
  [j["MESSAGE_RECEIVED"]; j["USER_MESSAGE_RENDERED"]; j["CHARACTER_MESSAGE_RENDERED"];
   j["MESSAGE_SWIPED"]; j["MESSAGE_EDITED"]; j["MESSAGE_UPDATED"]; j["CHAT_CHANGED"]; j["message"]].

Definition setupEventListeners (sh : shell) : shell :=
  if negb (sh_active sh) then sh else
  Shell (sh_settings sh) (sh_active sh) (sh_saved sh) (sh_checked sh) (sh_depth_field sh)
        (sh_controls_enabled sh) (sh_listeners sh ++ listener_events) (sh_timers sh) (sh_cleanups sh).

Definition set_controls (e : bool) (sh : shell) : shell :=
  Shell (sh_settings sh) (sh_active sh) (sh_saved sh) (sh_checked sh) (sh_depth_field sh) e
        (sh_listeners sh) (sh_timers sh) (sh_cleanups sh).

(** The modules switched off, and the checkboxes unchecked. *)
Definition all_modules : list jstr :=
  [j["recorded"]; j["preview"]; j["scriptAssistant"]; j["tasks"]; j["immersive"]; j["templateEditor"];
   j["wallhaven"]; j["characterUpdater"]].

Definition all_checkboxes : list jstr :=
  [j["xiaobaix_sandbox"]; j["xiaobaix_memory_enabled"]; j["xiaobaix_memory_inject"];
   j["xiaobaix_recorded_enabled"]; j["xiaobaix_preview_enabled"]; j["xiaobaix_script_assistant"];
   j["scheduled_tasks_enabled"]; j["xiaobaix_template_enabled"]; j["wallhaven_enabled"];
   j["xiaobaix_immersive_enabled"]; j["character_updater_enabled"]].

Definition toggle_off (sh : shell) : shell :=
  let sh := cleanupAllResources
              (Shell (sh_settings sh) (sh_active sh) (saveCurrentSettings (sh_settings sh)) (sh_checked sh)
                     (sh_depth_field sh) (sh_controls_enabled sh) (sh_listeners sh) (sh_timers sh)
                     (sh_cleanups sh)) in
  let s := sh_settings sh in
  let s := XSettings (x_enabled s) false false false (x_memoryInjectDepth s)
             (fold_left (fun mods m => <[m := Some false]> mods) all_modules (x_modules s)) in
  let ck := fold_left (fun ck id => <[id := false]> ck) all_checkboxes (sh_checked sh) in
  set_controls false
    (Shell s (sh_active sh) (sh_saved sh) ck (sh_depth_field sh) (sh_controls_enabled sh)
           (sh_listeners sh) (sh_timers sh) (sh_cleanups sh)).

Definition toggle_on (sh : shell) : shell := setupEventListeners (set_controls true (restoreSettings sh)).

Definition toggleAllFeatures (enabled : bool) (sh : shell) : shell :=
  if enabled then toggle_on sh else toggle_off sh.

(** The first lines of the [#xiaobaix_enabled] change handler: the
    checkbox now shows [v], and [settings.enabled] and
    [isXiaobaixEnabled] take it. *)
Definition set_enabled (v : bool) (sh : shell) : shell :=
  let s := sh_settings sh in
  Shell (XSettings v (x_sandboxMode s) (x_memoryEnabled s) (x_memoryInjectEnabled s)
                   (x_memoryInjectDepth s) (x_modules s))
        v (sh_saved sh) (<[j["xiaobaix_enabled"] := v]> (sh_checked sh)) (sh_depth_field sh)
        (sh_controls_enabled sh) (sh_listeners sh) (sh_timers sh) (sh_cleanups sh).

(** The user sets [#xiaobaix_enabled] to [v]: its change handler. *)
Definition enabled_change (v : bool) (sh : shell) : shell :=
  let was := x_enabled (sh_settings sh) in
  let sh := set_enabled v sh in
  if bool_decide (v <> was) then toggleAllFeatures v sh else sh.

(** The user sets [#xiaobaix_sandbox] to [v]: its change handler. *)
Definition sandbox_change (v : bool) (sh : shell) : shell :=
  let s := sh_settings sh in
  let ck := <[j["xiaobaix_sandbox"] := v]> (sh_checked sh) in
  let s := if sh_active sh
           then XSettings (x_enabled s) v (x_memoryEnabled s) (x_memoryInjectEnabled s)
                          (x_memoryInjectDepth s) (x_modules s)
           else s in
  Shell s (sh_active sh) (sh_saved sh) ck (sh_depth_field sh) (sh_controls_enabled sh)
        (sh_listeners sh) (sh_timers sh) (sh_cleanups sh).

(** [if (settings.sandboxMode) iframe.setAttribute('sandbox', ...)] *)
Definition code_block_sandboxed (sh : shell) : bool := x_sandboxMode (sh_settings sh).

(** ** The other change handlers of [setupSettings] (754-877) *)

Definition entry_module (e : jstr * jstr * jstr) : jstr := e.1.2.
Definition entry_control (e : jstr * jstr * jstr) : jstr := e.2.

(** The checkbox [id] now shows [v]. *)
Definition set_checked (id : jstr) (v : bool) (sh : shell) : shell :=
  Shell (sh_settings sh) (sh_active sh) (sh_saved sh) (<[id := v]> (sh_checked sh)) (sh_depth_field sh)
        (sh_controls_enabled sh) (sh_listeners sh) (sh_timers sh) (sh_cleanups sh).

(** [if (!isXiaobaixEnabled) return;] then [f] on the settings. *)
Definition when_active (f : xsettings -> xsettings) (sh : shell) : shell :=
  if sh_active sh then
    Shell (f (sh_settings sh)) (sh_active sh) (sh_saved sh) (sh_checked sh) (sh_depth_field sh)
          (sh_controls_enabled sh) (sh_listeners sh) (sh_timers sh) (sh_cleanups sh)
  else sh.

Definition memory_change (v : bool) (sh : shell) : shell :=
  when_active (fun s => XSettings (x_enabled s) (x_sandboxMode s) v (x_memoryInjectEnabled s)
                                  (x_memoryInjectDepth s) (x_modules s))
              (set_checked j["xiaobaix_memory_enabled"] v sh).

Definition inject_change (v : bool) (sh : shell) : shell :=
  when_active (fun s => XSettings (x_enabled s) (x_sandboxMode s) (x_memoryEnabled s) v
                                  (x_memoryInjectDepth s) (x_modules s))
              (set_checked j["xiaobaix_memory_inject"] v sh).

(** [parseInt($(this).val()) || 2]: [n] is what [parseInt] returns,
    [None] for [NaN]; [NaN] and [0] are falsy. *)
Definition depth_value (n : option Z) : Z :=
  match n with Some z => if Z.eqb z 0 then 2 else z | None => 2 end.

Definition num_of_Z (z : Z) : jsnum := JsNum (Z.ltb z 0) (Z.to_N (Z.abs z)) 0.

Definition depth_change (n : option Z) (sh : shell) : shell :=
  when_active (fun s => XSettings (x_enabled s) (x_sandboxMode s) (x_memoryEnabled s) (x_memoryInjectEnabled s)
                                  (JNum (num_of_Z (depth_value n))) (x_modules s)) sh.

(** The eight module checkboxes: control, module, and the name its
    cleanup is registered under ([recorded] has none). *)
Definition module_handlers : list (jstr * jstr * jstr) :=
  [(j["xiaobaix_recorded_enabled"], j["recorded"], j["recorded"]);
   (j["xiaobaix_immersive_enabled"], j["immersive"], j["immersiveMode"]);
   (j["xiaobaix_preview_enabled"], j["preview"], j["messagePreview"]);
   (j["xiaobaix_script_assistant"], j["scriptAssistant"], j["scriptAssistant"]);
   (j["scheduled_tasks_enabled"], j["tasks"], j["scheduledTasks"]);
   (j["xiaobaix_template_enabled"], j["templateEditor"], j["templateEditor"]);
   (j["wallhaven_enabled"], j["wallhaven"], j["wallhavenBackground"]);
   (j["character_updater_enabled"], j["characterUpdater"], j["characterUpdater"])].

(** The module a checkbox controls. *)
Definition handler_module (ctl : jstr) : option (jstr * jstr) :=
  match list_find (fun e => e.1.1 = ctl) module_handlers with
  | Some (_, (_, m, cname)) => Some (m, cname)
  | None => None
  end.

(** The change handler of a module checkbox: [settings[m].enabled = v]
    (the object created when missing); the character updater's handler
    also deletes its registered cleanup.  The cleanups and [init*] calls
    run the modules' own code, which is not modelled. *)
Definition module_change (ctl : jstr) (v : bool) (sh : shell) : shell :=
  match handler_module ctl with
  | None => set_checked ctl v sh
  | Some (m, cname) =>
      let sh := set_checked ctl v sh in
      if negb (sh_active sh) then sh else
      let s := sh_settings sh in
      Shell (with_modules (<[m := Some v]> (x_modules s)) s) (sh_active sh) (sh_saved sh) (sh_checked sh)
            (sh_depth_field sh) (sh_controls_enabled sh) (sh_listeners sh) (sh_timers sh)
            (if bool_decide (m = j["characterUpdater"]) then filter (fun c => c <> cname) (sh_cleanups sh)
             else sh_cleanups sh)
  end.

(** The user's actions on the settings panel. *)
Inductive ui_event :=
| EvEnabled (v : bool)
| EvSandbox (v : bool)
| EvMemory (v : bool)
| EvInject (v : bool)
| EvDepth (n : option Z)
| EvModule (ctl : jstr) (v : bool).

Definition handle_ui (sh : shell) (ev : ui_event) : shell :=
  match ev with
  | EvEnabled v => enabled_change v sh
  | EvSandbox v => sandbox_change v sh
  | EvMemory v => memory_change v sh
  | EvInject v => inject_change v sh
  | EvDepth n => depth_change n sh
  | EvModule ctl v => module_change ctl v sh
  end.

Definition run_ui (evs : list ui_event) (sh : shell) : shell := fold_left handle_ui evs sh.

(** A module runs when the extension is on and its [enabled] holds. *)
Definition module_runs (sh : shell) (m : jstr) : bool :=
  sh_active sh && default false (module_enabled (sh_settings sh) m).

(** ** What the switch promises

    The user's view: the switch turns every module off, and turning it
    on again gives each module back the choice the user made for it. *)

Module SwitchSpec.

Record astate := AState { a_on : bool; a_pref : jstr -> bool }.

Definition a_step (a : astate) (ev : ui_event) : astate :=
  match ev with
  | EvEnabled v => AState v (a_pref a)
  | EvModule ctl v =>
      match handler_module ctl with
      | Some (m, _) =>
          if a_on a then AState true (fun m' => if bool_decide (m' = m) then v else a_pref a m') else a
      | None => a
      end
  | _ => a
  end.

Definition a_run (evs : list ui_event) (a : astate) : astate := fold_left a_step evs a.

Definition a_runs (a : astate) (m : jstr) : bool := a_on a && a_pref a m.

End SwitchSpec.
Import SwitchSpec.

(** The shell implements the specification for the six modules that
    [restoreSettings] knows: while on, a module's [enabled] is the
    user's choice; while off, it is [false] and the choice is saved. *)
Definition refinesb (sh : shell) (a : astate) : bool :=
  Bool.eqb (sh_active sh) (a_on a) && Bool.eqb (x_enabled (sh_settings sh)) (a_on a) &&
  forallb (fun '(key, m, _) =>
             if a_on a then Bool.eqb (default false (module_enabled (sh_settings sh) m)) (a_pref a m)
             else bool_decide (module_enabled (sh_settings sh) m = Some false) &&
                  Bool.eqb (default false (saved_module (sh_saved sh) key)) (a_pref a m))
          module_settings.

(** ** The state at load

    [extension_settings[EXT_ID]] when the host has none (17-31), and the
    state [setupSettings] leaves (737-862): every checkbox shows its
    setting ([settings.m?.enabled || false], [?? true] for the character
    updater), the controls are disabled when the extension is off. *)
Definition default_settings : xsettings :=
  XSettings true false true false (JNum (num_of_Z 4))
    (list_to_map [(j["recorded"], Some true); (j["templateEditor"], Some true); (j["tasks"], Some true);
                  (j["scriptAssistant"], Some false); (j["preview"], Some false); (j["wallhaven"], Some false);
                  (j["immersive"], Some false); (j["characterUpdater"], Some true)]).

Definition checked_at_load (s : xsettings) : gmap jstr bool :=
  fold_left (fun ck '(ctl, m, _) =>
               <[ctl := if bool_decide (m = j["characterUpdater"]) then default true (module_enabled s m)
                        else default false (module_enabled s m)]> ck)
            module_handlers
            (<[j["xiaobaix_memory_inject"] := x_memoryInjectEnabled s]>
              (<[j["xiaobaix_memory_enabled"] := x_memoryEnabled s]>
                (<[j["xiaobaix_sandbox"] := x_sandboxMode s]>
                  (<[j["xiaobaix_enabled"] := x_enabled s]> ∅)))).

Definition shell_at_load (s : xsettings) : shell :=
  Shell s (x_enabled s) saved_init (checked_at_load s) (Some (x_memoryInjectDepth s)) (x_enabled s) [] [] [].

(** The user's view at load: the switch and each module's [enabled]. *)
Definition view_at_load (s : xsettings) : astate :=
  AState (x_enabled s) (fun m => default false (module_enabled s m)).

(** The defaults with the sandbox turned on. *)
Definition ex_shell : shell :=
  sandbox_change true (shell_at_load default_settings).

Definition ex_view : astate := view_at_load default_settings.

(** Off, a click on the preview checkbox while off, on again. *)
Definition ex_events : list ui_event :=
  [EvEnabled false; EvModule j["xiaobaix_preview_enabled"] true; EvEnabled true].

(** The relation [refinesb] states, as a proposition. *)
Definition entry_refines (sh : shell) (a : astate) (e : jstr * jstr * jstr) : Prop :=
  let '(key, m, _) := e in
  if a_on a then default false (module_enabled (sh_settings sh) m) = a_pref a m
  else module_enabled (sh_settings sh) m = Some false /\
       default false (saved_module (sh_saved sh) key) = a_pref a m.

Definition refines (sh : shell) (a : astate) : Prop :=
  sh_active sh = a_on a /\ x_enabled (sh_settings sh) = a_on a /\
  Forall (entry_refines sh a) module_settings.

(** The handlers that leave the switch, the modules and the saved
    settings as they are. *)
Definition same_frame (sh sh' : shell) : Prop :=
  sh_active sh' = sh_active sh /\ x_enabled (sh_settings sh') = x_enabled (sh_settings sh) /\
  x_modules (sh_settings sh') = x_modules (sh_settings sh) /\ sh_saved sh' = sh_saved sh.

(** ** The fold lemmas *)

Section Folds.
Context (sv : saved).


Lemma fold_insert_false (l : list jstr) (mods : gmap jstr (option bool)) m :
  m ∈ l -> fold_left (fun mods m => <[m := Some false]> mods) l mods !! m = Some (Some false).
Proof.
  revert mods. induction l as [|x l IH] using rev_ind; intros mods Hm; [set_solver|].
  rewrite fold_left_app. cbn. destruct (decide (x = m)) as [->|Hne].
  - by rewrite lookup_insert_eq.
  - rewrite lookup_insert_ne by done. apply IH. set_solver.
Qed.

Lemma fold_insert_false_ck (l : list jstr) (ck : gmap jstr bool) c :
  c ∈ l -> fold_left (fun ck id => <[id := false]> ck) l ck !! c = Some false.
Proof.
  revert ck. induction l as [|x l IH] using rev_ind; intros ck Hc; [set_solver|].
  rewrite fold_left_app. cbn. destruct (decide (x = c)) as [->|Hne].
  - by rewrite lookup_insert_eq.
  - rewrite lookup_insert_ne by done. apply IH. set_solver.
Qed.

Lemma fold_restore_control (l : list (jstr * jstr * jstr)) (mods : gmap jstr (option bool)) ck c :
  c ∉ map entry_control l -> (fold_left (restore_module sv) l (mods, ck)).2 !! c = ck !! c.
Proof.
  revert mods ck. induction l as [|[[key m] ctl] l IH]; intros mods ck Hc; [done|].
  cbn in *. destruct (saved_module sv key); rewrite IH by set_solver; [|done].
  rewrite lookup_insert_ne; set_solver.
Qed.

Lemma fold_restore_other (l : list (jstr * jstr * jstr)) (mods : gmap jstr (option bool)) ck m :
  m ∉ map entry_module l -> (fold_left (restore_module sv) l (mods, ck)).1 !! m = mods !! m.
Proof.
  revert mods ck. induction l as [|[[key m'] ctl] l IH]; intros mods ck Hm; [done|].
  cbn in *. apply not_elem_of_cons in Hm as [Hne Hm].
  destruct (saved_module sv key); rewrite IH by done; [|done].
  rewrite lookup_insert_ne; congruence.
Qed.

Lemma fold_restore_module (l : list (jstr * jstr * jstr)) (mods : gmap jstr (option bool)) (ck : gmap jstr bool) key m ctl :
  NoDup (map entry_module l) -> (key, m, ctl) ∈ l ->
  (fold_left (restore_module sv) l (mods, ck)).1 !! m
  = match saved_module sv key with Some b => Some (Some b) | None => mods !! m end.
Proof.
  revert mods ck. induction l as [|[[key' m'] ctl'] l IH]; intros mods ck Hnd Hin; [set_solver|].
  cbn in Hnd. apply NoDup_cons in Hnd as [Hnot Hnd].
  apply elem_of_cons in Hin as [Heq|Hin].
  - injection Heq as <- <- <-. cbn.
    destruct (saved_module sv key); rewrite fold_restore_other by done; [by rewrite lookup_insert_eq|done].
  - assert (m' <> m).
    { intros ->. apply Hnot, list_elem_of_fmap. exists (key, m, ctl). done. }
    cbn. destruct (saved_module sv key') eqn:E; rewrite IH by done; [|done].
    destruct (saved_module sv key); [done|]. by rewrite lookup_insert_ne.
Qed.

End Folds.

Lemma saved_module_save s key m ctl :
  (key, m, ctl) ∈ module_settings -> saved_module (saveCurrentSettings s) key = module_enabled s m.
Proof.
  intros Hin. repeat (apply elem_of_cons in Hin as [Hin|Hin]; [simplify_eq; reflexivity|]).
  set_solver.
Qed.

Lemma module_settings_nodup : NoDup (map entry_module module_settings).
Proof. decide_closed. Qed.

Lemma module_settings_in_all key m ctl :
  (key, m, ctl) ∈ module_settings -> m ∈ all_modules.
Proof.
  intros Hin. repeat (apply elem_of_cons in Hin as [Hin|Hin]; [simplify_eq; set_solver|]).
  set_solver.
Qed.

(** ** What each operation does to the parts of the state *)

Lemma enabled_change_toggles v sh :
  x_enabled (sh_settings sh) = negb v -> enabled_change v sh = toggleAllFeatures v (set_enabled v sh).
Proof. intros Hv. unfold enabled_change. rewrite Hv, bool_decide_true by (destruct v; done). done. Qed.

Lemma enabled_change_same v sh :
  x_enabled (sh_settings sh) = v -> enabled_change v sh = set_enabled v sh.
Proof. intros Hv. unfold enabled_change. rewrite Hv, bool_decide_false by tauto. done. Qed.

Lemma toggle_off_flags sh :
  x_enabled (sh_settings (toggle_off sh)) = x_enabled (sh_settings sh) /\
  x_sandboxMode (sh_settings (toggle_off sh)) = false /\
  x_memoryEnabled (sh_settings (toggle_off sh)) = false /\
  x_memoryInjectEnabled (sh_settings (toggle_off sh)) = false /\
  x_memoryInjectDepth (sh_settings (toggle_off sh)) = x_memoryInjectDepth (sh_settings sh) /\
  sh_active (toggle_off sh) = sh_active sh /\
  sh_saved (toggle_off sh) = saveCurrentSettings (sh_settings sh) /\
  sh_listeners (toggle_off sh) = [] /\ sh_timers (toggle_off sh) = [] /\ sh_cleanups (toggle_off sh) = [] /\
  sh_controls_enabled (toggle_off sh) = false.
Proof. repeat split. Qed.

Lemma toggle_off_module sh m :
  m ∈ all_modules -> module_enabled (sh_settings (toggle_off sh)) m = Some false.
Proof. intros Hm. unfold module_enabled. cbn [toggle_off sh_settings set_controls x_modules]. by rewrite fold_insert_false. Qed.

Lemma toggle_off_checked sh c :
  c ∈ all_checkboxes -> sh_checked (toggle_off sh) !! c = Some false.
Proof. intros Hc. cbn [toggle_off sh_checked set_controls]. by rewrite fold_insert_false_ck. Qed.

Lemma toggle_on_flags sh :
  x_enabled (sh_settings (toggle_on sh)) = x_enabled (sh_settings sh) /\
  x_sandboxMode (sh_settings (toggle_on sh)) = x_sandboxMode (sh_settings sh) /\
  x_memoryEnabled (sh_settings (toggle_on sh)) = x_memoryEnabled (sh_settings sh) /\
  x_memoryInjectEnabled (sh_settings (toggle_on sh)) = x_memoryInjectEnabled (sh_settings sh) /\
  sh_active (toggle_on sh) = sh_active sh /\ sh_controls_enabled (toggle_on sh) = true.
Proof. unfold toggle_on, setupEventListeners. case_match; (repeat split); reflexivity. Qed.

Lemma toggle_on_listeners sh :
  sh_active sh = true -> sh_listeners (toggle_on sh) = sh_listeners sh ++ listener_events.
Proof. intros Ha. unfold toggle_on, setupEventListeners. cbn [set_controls restoreSettings sh_active]. by rewrite Ha. Qed.

Lemma toggle_on_module sh key m ctl :
  (key, m, ctl) ∈ module_settings ->
  module_enabled (sh_settings (toggle_on sh)) m
  = match saved_module (sh_saved sh) key with Some b => Some b | None => module_enabled (sh_settings sh) m end.
Proof.
  intros Hin. unfold toggle_on, setupEventListeners, module_enabled.
  cbn [set_controls restoreSettings sh_active].
  destruct (sh_active sh); cbn [negb set_controls restoreSettings sh_settings with_modules x_modules];
    rewrite (fold_restore_module (sh_saved sh) module_settings _ _ key m ctl module_settings_nodup Hin);
    by destruct (saved_module (sh_saved sh) key).
Qed.

Lemma toggle_on_checked_flag sh c :
  c ∉ map entry_control module_settings ->
  sh_checked (toggle_on sh) !! c
  = check_if j["xiaobaix_memory_inject"] (sv_memoryInjectEnabled (sh_saved sh))
      (check_if j["xiaobaix_memory_enabled"] (sv_memoryEnabled (sh_saved sh))
        (check_if j["xiaobaix_sandbox"] (sv_sandboxMode (sh_saved sh)) (sh_checked sh))) !! c.
Proof.
  intros Hc. unfold toggle_on, setupEventListeners.
  cbn [set_controls restoreSettings sh_active].
  destruct (sh_active sh); cbn [negb set_controls restoreSettings sh_checked]; by rewrite fold_restore_control.
Qed.

Lemma toggle_on_module_other sh m :
  m ∉ map entry_module module_settings ->
  module_enabled (sh_settings (toggle_on sh)) m = module_enabled (sh_settings sh) m.
Proof.
  intros Hm. unfold toggle_on, setupEventListeners, module_enabled.
  cbn [set_controls restoreSettings sh_active].
  destruct (sh_active sh); cbn [negb set_controls restoreSettings sh_settings with_modules x_modules];
    by rewrite fold_restore_other.
Qed.

(** Switching off then on: the saved settings are the ones before. *)
Lemma off_on_saved sh :
  sh_saved (set_enabled true (toggle_off (set_enabled false sh))) = saveCurrentSettings (sh_settings sh).
Proof. reflexivity. Qed.

(** ** The refinement of [SwitchSpec] *)

Lemma refinesb_refines sh a : refinesb sh a = true <-> refines sh a.
Proof.
  unfold refinesb, refines. rewrite !andb_true_iff, !Bool.eqb_true_iff, forallb_forall, Forall_forall.
  setoid_rewrite <- list_elem_of_In.
  split.
  - intros [[Ha He] Hall]. split; [done|split; [done|]].
    intros [[key m] ctl] Hin. apply Hall in Hin. unfold entry_refines. cbv beta iota in Hin |- *.
    destruct (a_on a); [by apply Bool.eqb_true_iff|].
    apply andb_true_iff in Hin as [H1 H2].
    split; [by apply bool_decide_eq_true in H1|by apply Bool.eqb_true_iff].
  - intros (Ha & He & Hall). split; [done|].
    intros [[key m] ctl] Hin. apply Hall in Hin. unfold entry_refines in Hin. cbv beta iota in Hin |- *.
    destruct (a_on a); [by apply Bool.eqb_true_iff|].
    destruct Hin as [H1 H2]. apply andb_true_iff.
    split; [by apply bool_decide_eq_true|by apply Bool.eqb_true_iff].
Qed.

Lemma set_enabled_module v sh m :
  module_enabled (sh_settings (set_enabled v sh)) m = module_enabled (sh_settings sh) m.
Proof. reflexivity. Qed.

Lemma module_enabled_insert s m' e m :
  module_enabled (with_modules (<[m' := e]> (x_modules s)) s) m
  = if bool_decide (m = m') then e else module_enabled s m.
Proof.
  unfold module_enabled. cbn [with_modules x_modules].
  case_bool_decide; [subst; by rewrite lookup_insert_eq|by rewrite lookup_insert_ne].
Qed.

Lemma refines_frame sh sh' a : same_frame sh sh' -> refines sh a -> refines sh' a.
Proof.
  intros (Ha & He & Hm & Hs) (Ha0 & He0 & Hall). split; [congruence|split; [congruence|]].
  eapply Forall_impl; [exact Hall|]. intros [[key m] ctl].
  unfold entry_refines, module_enabled. by rewrite Hm, Hs.
Qed.

Lemma same_frame_trans sh1 sh2 sh3 : same_frame sh1 sh2 -> same_frame sh2 sh3 -> same_frame sh1 sh3.
Proof. unfold same_frame. intuition congruence. Qed.

Lemma set_checked_frame id v sh : same_frame sh (set_checked id v sh).
Proof. repeat split. Qed.

Lemma when_active_frame f sh :
  (forall s, x_enabled (f s) = x_enabled s /\ x_modules (f s) = x_modules s) -> same_frame sh (when_active f sh).
Proof.
  intros Hf. unfold when_active, same_frame. destruct (sh_active sh) eqn:E; [|by repeat split].
  destruct (Hf (sh_settings sh)). by repeat split.
Qed.

Lemma flag_handlers_frame sh ev :
  match ev with EvEnabled _ | EvModule _ _ => True | _ => same_frame sh (handle_ui sh ev) end.
Proof.
  destruct ev; cbn [handle_ui]; try exact I.
  - unfold sandbox_change, same_frame. destruct (sh_active sh) eqn:E; by repeat split.
  - eapply same_frame_trans; [apply set_checked_frame|]. by apply when_active_frame.
  - eapply same_frame_trans; [apply set_checked_frame|]. by apply when_active_frame.
  - by apply when_active_frame.
Qed.

Lemma refines_enabled sh a v :
  refines sh a -> refines (enabled_change v sh) (a_step a (EvEnabled v)).
Proof.
  intros (Ha & He & Hall). cbn [a_step].
  destruct (decide (v = a_on a)) as [->|Hne].
  { rewrite enabled_change_same by done. split; [done|split; [done|]].
    eapply Forall_impl; [exact Hall|]. by intros [[key m] ctl]. }
  rewrite enabled_change_toggles by (rewrite He; revert Hne; destruct v, (a_on a); cbn; intros; congruence).
  rewrite Forall_forall in Hall.
  destruct v; cbn [toggleAllFeatures].
  - destruct (toggle_on_flags (set_enabled true sh)) as (He' & _ & _ & _ & Ha' & _).
    split; [by rewrite Ha'|split; [by rewrite He'|]].
    apply Forall_forall. intros [[key m] ctl] Hin. pose proof (Hall _ Hin) as Hx.
    unfold entry_refines in Hx |- *. cbn [a_on a_pref].
    replace (a_on a) with false in Hx by (revert Hne; destruct (a_on a); intros; congruence). destruct Hx as [Hm Hs].
    rewrite (toggle_on_module _ _ _ _ Hin). cbn [set_enabled sh_saved].
    destruct (saved_module (sh_saved sh) key); [done|]. by rewrite set_enabled_module, Hm.
  - destruct (toggle_off_flags (set_enabled false sh)) as (He' & _ & _ & _ & _ & Ha' & Hsv & _).
    split; [by rewrite Ha'|split; [by rewrite He'|]].
    apply Forall_forall. intros [[key m] ctl] Hin. pose proof (Hall _ Hin) as Hx.
    unfold entry_refines in Hx |- *. cbn [a_on a_pref].
    replace (a_on a) with true in Hx by (revert Hne; destruct (a_on a); intros; congruence).
    rewrite toggle_off_module by eauto using module_settings_in_all.
    by rewrite Hsv, (saved_module_save _ _ _ _ Hin), set_enabled_module.
Qed.

Lemma refines_module sh a ctl v :
  refines sh a -> refines (module_change ctl v sh) (a_step a (EvModule ctl v)).
Proof.
  intros Hr. unfold module_change. cbn [a_step].
  destruct (handler_module ctl) as [[m' c]|]; [|eapply refines_frame; [apply set_checked_frame|exact Hr]].
  destruct Hr as (Ha & He & Hall). cbn [set_checked sh_active negb].
  destruct (sh_active sh) eqn:Eact; rewrite <- Ha.
  - cbn [negb]. split; [done|split; [change (x_enabled (sh_settings sh) = true); congruence|]].
    eapply Forall_impl; [exact Hall|]. intros [[key m] ctl'].
    unfold entry_refines. rewrite <- Ha. cbn [a_on a_pref sh_settings].
    rewrite module_enabled_insert. case_bool_decide; [done|]. by cbn [set_checked sh_settings].
  - eapply refines_frame; [apply set_checked_frame|]. split; [|split]; congruence || done.
Qed.

Lemma refines_step sh a ev : refines sh a -> refines (handle_ui sh ev) (a_step a ev).
Proof.
  intros Hr. pose proof (flag_handlers_frame sh ev) as Hf.
  destruct ev; [by apply refines_enabled| | | | |by apply refines_module]; by eapply refines_frame.
Qed.

Lemma refines_run evs sh a : refines sh a -> refines (run_ui evs sh) (a_run evs a).
Proof.
  revert sh a. induction evs as [|ev evs IH]; intros sh a Hr; [done|].
  cbn. by apply IH, refines_step.
Qed.

Lemma refines_runs sh a key m ctl :
  refines sh a -> (key, m, ctl) ∈ module_settings -> module_runs sh m = a_runs a m.
Proof.
  intros (Ha & _ & Hall) Hin. apply Forall_forall with (x := (key, m, ctl)) in Hall; [|done].
  unfold module_runs, a_runs, entry_refines in *. rewrite Ha. by destruct (a_on a).
Qed.

(** C10: the settings panel implements [SwitchSpec] for the six modules
    [restoreSettings] knows: from a state related to the user's view,
    every sequence of changes on the panel (the switch, the flags, the
    depth, the module checkboxes) leads to a state related to the
    user's view after the same changes, and each of the six modules runs
    exactly when the view says it does. *)
Theorem settings_panel_refines_switch (sh : shell) (a : astate) (evs : list ui_event) :
  refinesb sh a = true ->
  refinesb (run_ui evs sh) (a_run evs a) = true /\
  (forall key m ctl, (key, m, ctl) ∈ module_settings ->
     module_runs (run_ui evs sh) m = a_runs (a_run evs a) m).
Proof.
  rewrite !refinesb_refines. intros Hr. pose proof (refines_run evs _ _ Hr) as Hr'.
  split; [done|]. intros key m ctl. by apply refines_runs.
Qed.

(** ** Switching off and on *)

(** C11: switching the extension off and on again leaves
    [settings.sandboxMode], [memoryEnabled] and [memoryInjectEnabled]
    false while their checkboxes show the values from before, so code
    blocks are rendered in iframes without a [sandbox] attribute; the six
    modules of [moduleSettings] get back their [enabled] (a module whose
    [enabled] was undefined stays [false]); [immersive] and [wallhaven]
    stay switched off; the event listeners are registered once again. *)
Theorem enabled_off_on_leaves_sandbox_off (sh : shell) :
  x_enabled (sh_settings sh) = true ->
  let sh' := enabled_change true (enabled_change false sh) in
  code_block_sandboxed sh' = false /\
  x_memoryEnabled (sh_settings sh') = false /\
  x_memoryInjectEnabled (sh_settings sh') = false /\
  sh_checked sh' !! j["xiaobaix_sandbox"] = Some (x_sandboxMode (sh_settings sh)) /\
  sh_checked sh' !! j["xiaobaix_memory_enabled"] = Some (x_memoryEnabled (sh_settings sh)) /\
  sh_checked sh' !! j["xiaobaix_memory_inject"] = Some (x_memoryInjectEnabled (sh_settings sh)) /\
  (forall key m ctl, (key, m, ctl) ∈ module_settings ->
     module_enabled (sh_settings sh') m = Some (default false (module_enabled (sh_settings sh) m))) /\
  module_enabled (sh_settings sh') j["immersive"] = Some false /\
  module_enabled (sh_settings sh') j["wallhaven"] = Some false /\
  sh_listeners sh' = listener_events.
Proof.
  intros Hen sh'. subst sh'.
  rewrite (enabled_change_toggles false) by (rewrite Hen; done). cbn [toggleAllFeatures].
  rewrite (enabled_change_toggles true) by reflexivity. cbn [toggleAllFeatures].
  set (sh2 := set_enabled true (toggle_off (set_enabled false sh))).
  destruct (toggle_on_flags sh2) as (_ & Hsb & Hme & Hmi & _).
  unfold code_block_sandboxed. rewrite Hsb, Hme, Hmi.
  assert (Hoff : forall m, m ∈ all_modules -> module_enabled (sh_settings sh2) m = Some false)
    by (intros m Hm; exact (toggle_off_module _ m Hm)).
  do 3 (split; [reflexivity|]).
  assert (Hsv : sh_saved sh2 = saveCurrentSettings (sh_settings sh)) by apply off_on_saved.
  rewrite !toggle_on_checked_flag by decide_closed. rewrite !Hsv.
  cbn [saveCurrentSettings sv_sandboxMode sv_memoryEnabled sv_memoryInjectEnabled check_if].
  split; [by rewrite lookup_insert_ne, lookup_insert_ne, lookup_insert_eq|].
  split; [by rewrite lookup_insert_ne, lookup_insert_eq|].
  split; [by rewrite lookup_insert_eq|].
  split; [|split; [|split]].
  - intros key m ctl Hin. rewrite (toggle_on_module _ _ _ _ Hin), Hsv.
    rewrite (saved_module_save _ _ _ _ Hin), Hoff by eauto using module_settings_in_all.
    by destruct (module_enabled (sh_settings sh) m).
  - rewrite toggle_on_module_other, Hoff by decide_closed. done.
  - rewrite toggle_on_module_other, Hoff by decide_closed. done.
  - by rewrite toggle_on_listeners.
Qed.

Lemma settings_panel_refines_switch_witness :
  refinesb ex_shell ex_view = true /\
  module_runs (run_ui ex_events ex_shell) j["recorded"] = true /\
  module_runs (run_ui ex_events ex_shell) j["preview"] = false.
Proof.
  assert (H : refinesb ex_shell ex_view = true) by (vm_compute; reflexivity).
  destruct (settings_panel_refines_switch ex_shell ex_view ex_events H) as [_ Hr].
  split; [exact H|split].
  - rewrite (Hr j["recordedEnabled"] j["recorded"] j["xiaobaix_recorded_enabled"]) by constructor.
    vm_compute. reflexivity.
  - rewrite (Hr j["previewEnabled"] j["preview"] j["xiaobaix_preview_enabled"]) by (do 2 constructor).
    vm_compute. reflexivity.
Defined.

Lemma enabled_off_on_leaves_sandbox_off_witness :
  x_enabled (sh_settings ex_shell) = true /\
  code_block_sandboxed (enabled_change true (enabled_change false ex_shell)) = false /\
  sh_checked (enabled_change true (enabled_change false ex_shell)) !! j["xiaobaix_sandbox"] = Some true.
Proof.
  destruct (enabled_off_on_leaves_sandbox_off ex_shell eq_refl) as (Hsb & _ & _ & Hck & _).
  split; [reflexivity|split; [exact Hsb|exact Hck]].
Defined.

End Shell.
