(* ===== verification/Page.v ===== *)
(** * Code blocks rendered into iframes (src/index.js)

    [processCodeBlocks] (694-714) walks the [pre > code] blocks of a
    message's [.mes_text]; a block not yet marked [data-xiaobaix-bound]
    has the first [iframe.xiaobaix-iframe] and the first
    [.xiaobaix-iframe-wrapper] of its parent removed, is marked, and, when
    [shouldRenderContent] selects its text, [renderHtmlInIframe]
    (548-581) inserts a wrapper with an iframe before it, with a
    [sandbox] attribute when [settings.sandboxMode] holds, and hides it.
    [processExistingMessages] (716-726) does this for every message.
    Switching the extension off removes every such iframe and wrapper
    ([cleanupAllResources], 327-328) and unmarks and shows the blocks
    (679-682).

    A message's [.mes_text] is the list of its child nodes; its code
    blocks are direct children (the markdown renderer's [<pre><code>]),
    identified by a number, as element identity is in the DOM.  The
    statistics tracker's memory buttons are not modelled. *)

From S2P Require Import Prelude JsValue Json Bridge Shell.
From stdpp Require Import gmap.

Module Page.
Import Bridge Shell.

(** ** The children of a [.mes_text] *)

Record iframe := IFrame { if_sandboxed : bool; if_doc : jstr }.

Inductive node :=
| NPre (pid : nat) (bound : bool) (hidden : bool) (code : jstr)
| NWrapper (ifr : option iframe)
| NOther (text : jstr).

(** [messageElement.querySelectorAll('pre > code')], by [pre]. *)
Fixpoint pre_ids (ns : list node) : list nat :=
  match ns with
  | [] => []
  | NPre p _ _ _ :: r => p :: pre_ids r
  | _ :: r => pre_ids r
  end.

Fixpoint find_pre (pid : nat) (ns : list node) : option (bool * jstr) :=
  match ns with
  | [] => None
  | NPre p b _ c :: r => if Nat.eqb p pid then Some (b, c) else find_pre pid r
  | _ :: r => find_pre pid r
  end.

(** [preElement.parentNode.querySelector('iframe.xiaobaix-iframe')?.remove()]:
    the first iframe of the parent leaves its wrapper. *)
Fixpoint remove_first_iframe (ns : list node) : list node :=
  match ns with
  | [] => []
  | NWrapper (Some _) :: r => NWrapper None :: r
  | n :: r => n :: remove_first_iframe r
  end.

(** [preElement.parentNode.querySelector('.xiaobaix-iframe-wrapper')?.remove()] *)
Fixpoint remove_first_wrapper (ns : list node) : list node :=
  match ns with
  | [] => []
  | NWrapper _ :: r => r
  | n :: r => n :: remove_first_wrapper r
  end.

(** [preElement.dataset.xiaobaixBound = 'true'] *)
Definition mark_bound (pid : nat) (ns : list node) : list node :=
  map (fun n => match n with
                | NPre p _ h c => if Nat.eqb p pid then NPre p true h c else n
                | _ => n
                end) ns.

(** [parentNode.insertBefore(wrapper, preElement)] with the iframe in
    the wrapper, and [preElement.style.display = 'none']. *)
Fixpoint insert_iframe (pid : nat) (ifr : iframe) (ns : list node) : list node :=
  match ns with
  | [] => []
  | NPre p b h c :: r =>
      if Nat.eqb p pid then NWrapper (Some ifr) :: NPre p b true c :: r
      else NPre p b h c :: insert_iframe pid ifr r
  | n :: r => n :: insert_iframe pid ifr r
  end.

Section Render.

(** The text of the API script of [createIframeApi]. *)
Variable api : jstr.

(** The iframe [renderHtmlInIframe] creates: the [sandbox] attribute
    from [settings.sandboxMode], the document [prepareHtmlContent]. *)
Definition renderHtmlInIframe (sandboxMode : bool) (htmlContent : jstr) : iframe :=
  IFrame sandboxMode (prepareHtmlContent api htmlContent).

(** The body of [codeBlocks.forEach] for the block [pid]. *)
Definition process_block (sandboxMode : bool) (ns : list node) (pid : nat) : list node :=
  match find_pre pid ns with
  | None => ns
  | Some (true, _) => ns
  | Some (false, code) =>
      let ns := mark_bound pid (remove_first_wrapper (remove_first_iframe ns)) in
      if shouldRenderContent code then insert_iframe pid (renderHtmlInIframe sandboxMode code) ns else ns
  end.

Definition processCodeBlocks (s : xsettings) (active : bool) (ns : list node) : list node :=
  if negb (x_enabled s && active) then ns
  else fold_left (process_block (x_sandboxMode s)) (pre_ids ns) ns.

Definition processExistingMessages (s : xsettings) (active : bool) (msgs : list (list node)) : list (list node) :=
  if negb (x_enabled s && active) then msgs else map (processCodeBlocks s active) msgs.

End Render.

(** What switching off does to a message: [cleanupAllResources] removes
    the iframes and their wrappers, then every bound [pre] is shown and
    unmarked. *)
Definition unbind (n : node) : node :=
  match n with NPre p true _ c => NPre p false false c | _ => n end.

Definition is_wrapper (n : node) : bool := match n with NWrapper _ => true | _ => false end.

Definition dom_off (ns : list node) : list node := map unbind (List.filter (fun n => negb (is_wrapper n)) ns).

(** ** The page: the shell and the messages on screen *)

Record page := Page { pg_shell : shell; pg_msgs : list (list node) }.

Definition page_enabled_change (v : bool) (pg : page) : page :=
  let was := x_enabled (sh_settings (pg_shell pg)) in
  Page (enabled_change v (pg_shell pg))
       (if bool_decide (v <> was) && negb v then map dom_off (pg_msgs pg) else pg_msgs pg).

(** The timer [toggleAllFeatures(true)] sets, and the five-second
    interval: [processExistingMessages]. *)
Definition page_process_existing (api : jstr) (pg : page) : page :=
  Page (pg_shell pg)
       (processExistingMessages api (sh_settings (pg_shell pg)) (sh_active (pg_shell pg)) (pg_msgs pg)).

(** The iframes of a message. *)
Fixpoint iframes (ns : list node) : list iframe :=
  match ns with
  | [] => []
  | NWrapper (Some i) :: r => i :: iframes r
  | _ :: r => iframes r
  end.

(** A chat of one message whose code block was rendered with the
    sandbox on, under the panel of [Shell.ex_shell]. *)
Definition ex_page : page :=
  Page ex_shell [[NWrapper (Some (IFrame true j["doc"])); NPre 0 true true j["<script>one()</script>"]]].

(** ** The node operations keep the code blocks *)

Lemma pre_ids_remove_first_iframe ns : pre_ids (remove_first_iframe ns) = pre_ids ns.
Proof. induction ns as [|[| [] |] ns IH]; cbn; congruence. Qed.

Lemma pre_ids_remove_first_wrapper ns : pre_ids (remove_first_wrapper ns) = pre_ids ns.
Proof. induction ns as [|[| |] ns IH]; cbn; congruence. Qed.

Lemma pre_ids_mark_bound pid ns : pre_ids (mark_bound pid ns) = pre_ids ns.
Proof. unfold mark_bound in *. induction ns as [|[p b h c| |] ns IH]; cbn; [done| |done|done]. destruct (Nat.eqb p pid); cbn; congruence. Qed.

Lemma pre_ids_insert_iframe pid ifr ns : pre_ids (insert_iframe pid ifr ns) = pre_ids ns.
Proof. induction ns as [|[p b h c| |] ns IH]; cbn; [done| |done|done]. destruct (Nat.eqb p pid); cbn; congruence. Qed.

Create Rewrite HintDb page_rw.
#[local] Hint Rewrite pre_ids_remove_first_iframe pre_ids_remove_first_wrapper pre_ids_mark_bound
  pre_ids_insert_iframe : page_rw.

Lemma find_pre_remove_first_iframe q ns : find_pre q (remove_first_iframe ns) = find_pre q ns.
Proof. induction ns as [|[| [] |] ns IH]; cbn; try congruence. by destruct (Nat.eqb _ q). Qed.

Lemma find_pre_remove_first_wrapper q ns : find_pre q (remove_first_wrapper ns) = find_pre q ns.
Proof. induction ns as [|[| |] ns IH]; cbn; try congruence. by destruct (Nat.eqb _ q). Qed.

Lemma find_pre_mark_bound q pid ns :
  find_pre q (mark_bound pid ns)
  = match find_pre q ns with Some (b, c) => Some (if Nat.eqb q pid then true else b, c) | None => None end.
Proof.
  unfold mark_bound in *. induction ns as [|[p b h c| |] ns IH]; cbn; [done| |done|done].
  destruct (Nat.eqb p q) eqn:Eq.
  - apply Nat.eqb_eq in Eq. subst. destruct (Nat.eqb q pid); cbn; by rewrite Nat.eqb_refl.
  - destruct (Nat.eqb p pid); cbn; by rewrite Eq.
Qed.

Lemma find_pre_insert_iframe q pid ifr ns : find_pre q (insert_iframe pid ifr ns) = find_pre q ns.
Proof. induction ns as [|[p b h c| |] ns IH]; cbn; [done| |done|done]. destruct (Nat.eqb p pid); cbn; by rewrite ?IH. Qed.

#[local] Hint Rewrite find_pre_remove_first_iframe find_pre_remove_first_wrapper find_pre_insert_iframe : page_rw.

Section Iframes.
Context (P : iframe -> Prop).

Ltac iframes_step :=
  cbn; intros Hall; try done;
  try (match goal with |- context [Nat.eqb ?p ?q] => destruct (Nat.eqb p q) end; cbn);
  try (by inversion Hall); try (inversion Hall; subst; constructor; by auto); by auto.

Lemma iframes_remove_first_iframe ns : Forall P (iframes ns) -> Forall P (iframes (remove_first_iframe ns)).
Proof. induction ns as [|[| [i|] |] ns IH]; iframes_step. Qed.

Lemma iframes_remove_first_wrapper ns : Forall P (iframes ns) -> Forall P (iframes (remove_first_wrapper ns)).
Proof. induction ns as [|[| [i|] |] ns IH]; iframes_step. Qed.

Lemma iframes_mark_bound pid ns : Forall P (iframes ns) -> Forall P (iframes (mark_bound pid ns)).
Proof. unfold mark_bound. induction ns as [|[p b h c| [i|] |] ns IH]; iframes_step. Qed.

Lemma iframes_insert_iframe pid ifr ns :
  P ifr -> Forall P (iframes ns) -> Forall P (iframes (insert_iframe pid ifr ns)).
Proof. intros Hi. induction ns as [|[p b h c| [i|] |] ns IH]; iframes_step. Qed.

End Iframes.

Section Blocks.
Context (api : jstr) (sb : bool).

Lemma pre_ids_process_block ns pid : pre_ids (process_block api sb ns pid) = pre_ids ns.
Proof. unfold process_block. repeat case_match; autorewrite with page_rw; done. Qed.

Lemma pre_ids_fold ids ns : pre_ids (fold_left (process_block api sb) ids ns) = pre_ids ns.
Proof. revert ns. induction ids as [|pid ids IH]; intros ns; [done|]. cbn. by rewrite IH, pre_ids_process_block. Qed.

(** After the block [pid] is processed it is marked; the others keep
    their mark. *)
Lemma find_pre_process_block q ns pid :
  find_pre q (process_block api sb ns pid)
  = match find_pre q ns with Some (b, c) => Some (if Nat.eqb q pid then true else b, c) | None => None end.
Proof.
  unfold process_block. destruct (find_pre pid ns) as [[[] c]|] eqn:E.
  - destruct (find_pre q ns) as [[b c']|] eqn:Eq; [|done].
    destruct (Nat.eqb q pid) eqn:Eqp; [|done]. apply Nat.eqb_eq in Eqp. subst. congruence.
  - case_match; autorewrite with page_rw; rewrite find_pre_mark_bound; autorewrite with page_rw; done.
  - destruct (find_pre q ns) as [[b c']|] eqn:Eq; [|done].
    destruct (Nat.eqb q pid) eqn:Eqp; [|done]. apply Nat.eqb_eq in Eqp. subst. congruence.
Qed.

Lemma find_pre_fold q ids ns :
  find_pre q (fold_left (process_block api sb) ids ns)
  = match find_pre q ns with Some (b, c) => Some (if bool_decide (q ∈ ids) then true else b, c) | None => None end.
Proof.
  revert ns. induction ids as [|pid ids IH]; intros ns; cbn.
  - destruct (find_pre q ns) as [[]|]; [by rewrite bool_decide_false by set_solver|done].
  - rewrite IH, find_pre_process_block. destruct (find_pre q ns) as [[b c]|]; [|done].
    f_equal. f_equal. destruct (Nat.eqb q pid) eqn:E.
    + apply Nat.eqb_eq in E. subst. rewrite (bool_decide_true (pid ∈ pid :: ids)) by set_solver.
      by destruct (bool_decide (pid ∈ ids)).
    + apply Nat.eqb_neq in E. repeat case_bool_decide; try done; set_solver.
Qed.

Lemma find_pre_in q ns : q ∈ pre_ids ns -> exists b c, find_pre q ns = Some (b, c).
Proof.
  induction ns as [|[p b h c| |] ns IH]; cbn; intros Hq; [set_solver| |auto|auto].
  destruct (Nat.eqb p q) eqn:E; [eauto|]. apply IH. apply Nat.eqb_neq in E. set_solver.
Qed.

(** A pass over blocks that are all marked changes nothing. *)
Lemma fold_all_bound ids ns :
  (forall q, q ∈ ids -> exists c, find_pre q ns = Some (true, c)) ->
  fold_left (process_block api sb) ids ns = ns.
Proof.
  revert ns. induction ids as [|pid ids IH]; intros ns Hb; [done|]. cbn.
  destruct (Hb pid) as [c Hc]; [set_solver|]. unfold process_block at 2. rewrite Hc.
  apply IH. intros q Hq. apply Hb. set_solver.
Qed.

(** The iframes a pass leaves: the ones it found, minus those it
    removed, and the ones it rendered. *)
Lemma iframes_process_block (P : iframe -> Prop) ns pid :
  (forall c, P (renderHtmlInIframe api sb c)) ->
  Forall P (iframes ns) -> Forall P (iframes (process_block api sb ns pid)).
Proof.
  intros Hr Hall. unfold process_block. repeat case_match; try done;
    eauto using iframes_insert_iframe, iframes_mark_bound, iframes_remove_first_wrapper,
      iframes_remove_first_iframe.
Qed.

Lemma iframes_fold (P : iframe -> Prop) ids ns :
  (forall c, P (renderHtmlInIframe api sb c)) ->
  Forall P (iframes ns) -> Forall P (iframes (fold_left (process_block api sb) ids ns)).
Proof.
  intros Hr. revert ns. induction ids as [|pid ids IH]; intros ns Hall; [done|].
  cbn. by apply IH, iframes_process_block.
Qed.

End Blocks.

Lemma iframes_dom_off ns : iframes (dom_off ns) = [].
Proof. unfold dom_off. induction ns as [|[p [] h c| [i|] |] ns IH]; cbn; done. Qed.

Lemma pre_ids_dom_off ns : pre_ids (dom_off ns) = pre_ids ns.
Proof. unfold dom_off. induction ns as [|[p [] h c| [i|] |] ns IH]; cbn; congruence. Qed.

(** The switch turned off then on: the flags the code-block pass reads. *)
Lemma off_on_shell sh :
  x_enabled (sh_settings sh) = true ->
  let sh' := enabled_change true (enabled_change false sh) in
  x_enabled (sh_settings (enabled_change false sh)) = false /\
  x_enabled (sh_settings sh') = true /\ sh_active sh' = true /\ x_sandboxMode (sh_settings sh') = false.
Proof.
  intros Hen sh'. subst sh'.
  rewrite (enabled_change_toggles false) by (rewrite Hen; done). cbn [toggleAllFeatures].
  rewrite (enabled_change_toggles true) by reflexivity. cbn [toggleAllFeatures].
  destruct (toggle_on_flags (set_enabled true (toggle_off (set_enabled false sh)))) as (He & Hsb & _ & _ & Ha & _).
  rewrite He, Hsb, Ha. repeat split.
Qed.

(** ** What the pass does *)

(** C12: a second pass over a message changes nothing: every block the
    first pass met is marked, and a marked block is skipped, so no code
    block is rendered twice (whatever the switch and the flags). *)
Theorem processCodeBlocks_idempotent (api : jstr) (s : xsettings) (active : bool) (ns : list node) :
  processCodeBlocks api s active (processCodeBlocks api s active ns) = processCodeBlocks api s active ns.
Proof.
  unfold processCodeBlocks. destruct (x_enabled s && active); cbn [negb]; [|done].
  rewrite pre_ids_fold. apply fold_all_bound. intros q Hq.
  destruct (find_pre_in q ns Hq) as (b & c & Hf). exists c.
  by rewrite find_pre_fold, Hf, bool_decide_true.
Qed.

(** C13: in a message whose text holds two code blocks that
    [shouldRenderContent] selects, the second block's pass removes the
    first iframe and wrapper of the common parent, which are the first
    block's: the first block ends hidden ([display: none]) and marked,
    with no iframe, and only the second block is shown. *)
Theorem processCodeBlocks_second_block_removes_first (api : jstr) (s : xsettings) (p1 p2 : nat) (c1 c2 : jstr) :
  x_enabled s = true -> p1 <> p2 -> shouldRenderContent c1 = true -> shouldRenderContent c2 = true ->
  processCodeBlocks api s true [NPre p1 false false c1; NPre p2 false false c2]
  = [NPre p1 true true c1; NWrapper (Some (renderHtmlInIframe api (x_sandboxMode s) c2)); NPre p2 true true c2].
Proof.
  intros Hen Hne Hc1 Hc2. apply Nat.eqb_neq in Hne as H12.
  assert (H21 : Nat.eqb p2 p1 = false) by (apply Nat.eqb_neq; congruence).
  unfold processCodeBlocks, process_block, mark_bound. rewrite Hen.
  cbn -[renderHtmlInIframe shouldRenderContent Nat.eqb].
  repeat (rewrite ?Nat.eqb_refl, ?H12, ?H21, ?Hc1, ?Hc2; cbn -[renderHtmlInIframe shouldRenderContent Nat.eqb]).
  reflexivity.
Qed.

(** C14: after the switch is turned off and on, the pass that
    [toggleAllFeatures(true)] schedules processes every code block of
    the chat again (each ends marked), and every iframe on the page then
    lacks the [sandbox] attribute, whatever [sandboxMode] was before;
    the code blocks are the same. *)
Theorem off_on_code_blocks_unsandboxed (api : jstr) (pg : page) :
  x_enabled (sh_settings (pg_shell pg)) = true ->
  let pg' := page_process_existing api (page_enabled_change true (page_enabled_change false pg)) in
  Forall (fun ns => Forall (fun i => if_sandboxed i = false) (iframes ns)) (pg_msgs pg') /\
  Forall (fun ns => forall q, q ∈ pre_ids ns -> exists c, find_pre q ns = Some (true, c)) (pg_msgs pg') /\
  map pre_ids (pg_msgs pg') = map pre_ids (pg_msgs pg).
Proof.
  intros Hen pg'. subst pg'. destruct (off_on_shell (pg_shell pg) Hen) as (Hoff & He & Ha & Hsb).
  unfold page_process_existing, page_enabled_change. cbn [pg_shell pg_msgs].
  rewrite Hen, Hoff, !bool_decide_true by done. cbn [andb negb].
  unfold processExistingMessages. rewrite He, Ha. cbn [andb negb]. split; [|split].
  - apply Forall_forall. intros ns Hin. apply list_elem_of_fmap in Hin as (ns0 & -> & Hin).
    apply list_elem_of_fmap in Hin as (ns1 & -> & _).
    unfold processCodeBlocks. rewrite He. cbn [andb negb]. rewrite Hsb.
    apply iframes_fold; [done|]. by rewrite iframes_dom_off.
  - apply Forall_forall. intros ns Hin. apply list_elem_of_fmap in Hin as (ns0 & -> & Hin).
    apply list_elem_of_fmap in Hin as (ns1 & -> & _).
    unfold processCodeBlocks. rewrite He. cbn [andb negb]. rewrite pre_ids_fold.
    intros q Hq. destruct (find_pre_in q _ Hq) as (b & c & Hf). exists c.
    by rewrite find_pre_fold, Hf, bool_decide_true.
  - rewrite !map_map. apply map_ext. intros ns.
    unfold processCodeBlocks. rewrite He. cbn [andb negb]. by rewrite pre_ids_fold, pre_ids_dom_off.
Qed.

Lemma processCodeBlocks_second_block_removes_first_witness :
  x_enabled default_settings = true /\ 0 <> 1 /\
  shouldRenderContent j["<script>one()</script>"] = true /\ shouldRenderContent j["<script>two()</script>"] = true /\
  processCodeBlocks j["api()"] default_settings true
    [NPre 0 false false j["<script>one()</script>"]; NPre 1 false false j["<script>two()</script>"]]
  = [NPre 0 true true j["<script>one()</script>"];
     NWrapper (Some (renderHtmlInIframe j["api()"] false j["<script>two()</script>"]));
     NPre 1 true true j["<script>two()</script>"]].
Proof.
  assert (Hen : x_enabled default_settings = true) by reflexivity.
  assert (H1 : shouldRenderContent j["<script>one()</script>"] = true) by reflexivity.
  assert (H2 : shouldRenderContent j["<script>two()</script>"] = true) by reflexivity.
  refine (conj Hen (conj _ (conj H1 (conj H2 _)))); [lia|].
  exact (processCodeBlocks_second_block_removes_first j["api()"] default_settings 0 1 _ _ Hen ltac:(lia) H1 H2).
Defined.

Lemma off_on_code_blocks_unsandboxed_witness :
  x_enabled (sh_settings (pg_shell ex_page)) = true /\
  pg_msgs (page_process_existing j["api()"] (page_enabled_change true (page_enabled_change false ex_page)))
  = [[NWrapper (Some (IFrame false (prepareHtmlContent j["api()"] j["<script>one()</script>"])));
      NPre 0 true true j["<script>one()</script>"]]] /\
  Forall (fun ns => Forall (fun i => if_sandboxed i = false) (iframes ns))
    (pg_msgs (page_process_existing j["api()"] (page_enabled_change true (page_enabled_change false ex_page)))).
Proof.
  assert (Hen : x_enabled (sh_settings (pg_shell ex_page)) = true) by reflexivity.
  split; [exact Hen|split; [vm_compute; reflexivity|]].
  exact (proj1 (off_on_code_blocks_unsandboxed j["api()"] ex_page Hen)).
Defined.

End Page.
