(* ===== verification/Update.v ===== *)
(** * The update check of src/index.js

    On [APP_READY] the extension schedules [performExtensionUpdateCheck]
    (254-277) after two seconds; guarded by [updateCheckPerformed] (44),
    it asks the host for the extension's version
    ([checkLittleWhiteBoxUpdate], 96-128, [null] on any failure) and,
    when the answer says [isUpToDate === false], adds a notice to the
    extension's header ([updateExtensionHeaderWithUpdateNotice],
    175-252), retrying every second while the header is not in the page.
    A click on the notice runs [updateLittleWhiteBoxExtension] (134-169)
    and removes the notice on success or restores it on failure.  The
    debugging hooks [testLittleWhiteBoxUpdate] and [testUpdateUI]
    (47-55) reset the flag or add the notice directly.

    The state counts the pending timers and requests; the host calls
    (the two [fetch]es and the toasts) are recorded in order.  The
    header search over four selectors is a boolean: whether an element
    whose text holds the extension's name is in the page.  Logging is
    not modelled; [getExtensionType] (63-91) is never called. *)

From S2P Require Import Prelude JsValue Json Channel.
From stdpp Require Import relations.

Module UpdateCheck.
Import Channel.

(** ** State *)

(** The text and style of [#littlewhitebox-update-extension]:
    [(有可用更新)] in orange, or [(更新中...)] in blue while updating. *)
Inductive notice := NAvailable | NUpdating.

(** The host calls, in order. *)
Inductive ucall :=
| CFetchVersion                 (** [fetch('/api/extensions/version')] *)
| CFetchUpdate                  (** [fetch('/api/extensions/update')] *)
| CToastSuccess (uptodate : bool)
| CToastError.

#[export] Instance ucall_eq_dec : EqDecision ucall.
Proof. solve_decision. Defined.

Record ustate := UState {
  u_checkPerformed : bool;     (** [updateCheckPerformed] *)
  u_header : bool;             (** the header element is in the page *)
  u_notice : option notice;    (** the notice, when attached to the header *)
  u_check_timers : nat;        (** [setTimeout(performExtensionUpdateCheck, 2000)] *)
  u_retry_timers : nat;        (** [setTimeout(updateExtensionHeaderWithUpdateNotice, 1000)] *)
  u_version_requests : nat;    (** version requests in flight *)
  u_update_requests : nat;     (** update requests in flight *)
  u_calls : list ucall }.

Definition ustate_init (header : bool) : ustate := UState false header None 0 0 0 0 [].

(** ** Operations *)

Definition add_call (c : ucall) (st : ustate) : ustate :=
  UState (u_checkPerformed st) (u_header st) (u_notice st) (u_check_timers st) (u_retry_timers st)
         (u_version_requests st) (u_update_requests st) (u_calls st ++ [c]).

Definition set_notice (n : option notice) (st : ustate) : ustate :=
  UState (u_checkPerformed st) (u_header st) n (u_check_timers st) (u_retry_timers st)
         (u_version_requests st) (u_update_requests st) (u_calls st).

(** [eventSource.on(event_types.APP_READY, ...)] (1017-1021) *)
Definition app_ready (st : ustate) : ustate :=
  UState (u_checkPerformed st) (u_header st) (u_notice st) (S (u_check_timers st)) (u_retry_timers st)
         (u_version_requests st) (u_update_requests st) (u_calls st).

(** The synchronous part of [performExtensionUpdateCheck]: the guard,
    the flag, and the request of [checkLittleWhiteBoxUpdate]. *)
Definition performExtensionUpdateCheck (st : ustate) : ustate :=
  if u_checkPerformed st then st else
  UState true (u_header st) (u_notice st) (u_check_timers st) (u_retry_timers st)
         (S (u_version_requests st)) (u_update_requests st) (u_calls st ++ [CFetchVersion]).

(** The two-second timer fires. *)
Definition fire_check (st : ustate) : ustate :=
  performExtensionUpdateCheck
    (UState (u_checkPerformed st) (u_header st) (u_notice st) (pred (u_check_timers st)) (u_retry_timers st)
            (u_version_requests st) (u_update_requests st) (u_calls st)).

Definition updateExtensionHeaderWithUpdateNotice (st : ustate) : ustate :=
  if negb (u_header st) then
    UState (u_checkPerformed st) (u_header st) (u_notice st) (u_check_timers st) (S (u_retry_timers st))
           (u_version_requests st) (u_update_requests st) (u_calls st)
  else match u_notice st with
       | Some _ => st
       | None => set_notice (Some NAvailable) st
       end.

(** The one-second retry fires. *)
Definition fire_retry (st : ustate) : ustate :=
  updateExtensionHeaderWithUpdateNotice
    (UState (u_checkPerformed st) (u_header st) (u_notice st) (u_check_timers st) (pred (u_retry_timers st))
            (u_version_requests st) (u_update_requests st) (u_calls st)).

(** [versionData && versionData.isUpToDate === false] *)
Definition needs_update (versionData : option jsval) : bool :=
  match versionData with
  | Some v => js_truthy v && match js_get v j["isUpToDate"] with Some (JBool false) => true | _ => false end
  | None => false
  end.

(** The rest of [performExtensionUpdateCheck], when
    [checkLittleWhiteBoxUpdate] settles with [versionData] ([None] for
    [null]: a response that is not ok, or an exception). *)
Definition version_settled (versionData : option jsval) (st : ustate) : ustate :=
  let st := UState (u_checkPerformed st) (u_header st) (u_notice st) (u_check_timers st) (u_retry_timers st)
                   (pred (u_version_requests st)) (u_update_requests st) (u_calls st) in
  if needs_update versionData then updateExtensionHeaderWithUpdateNotice st else st.

(** The answer of the update request. *)
Inductive update_response :=
| UROk (data : jsval)          (** [response.ok], and [response.json()] gave [data] *)
| URNotOk                      (** [!response.ok] *)
| URThrow.                     (** [fetch] or [response.json()] threw *)

(** [updateLittleWhiteBoxExtension] after its request: the toast and
    the result. *)
Definition update_outcome (r : update_response) : ucall * bool :=
  match r with
  | UROk data =>
      (CToastSuccess (match js_get data j["isUpToDate"] with Some v => js_truthy v | None => false end), true)
  | URNotOk => (CToastError, false)
  | URThrow => (CToastError, false)
  end.

(** The click handler of the notice, up to its [await]. *)
Definition click_notice (st : ustate) : ustate :=
  match u_notice st with
  | None => st
  | Some _ =>
      UState (u_checkPerformed st) (u_header st) (Some NUpdating) (u_check_timers st) (u_retry_timers st)
             (u_version_requests st) (S (u_update_requests st)) (u_calls st ++ [CFetchUpdate])
  end.

(** The rest of the click handler: [updateSpan.remove()] on success,
    the text and style restored on failure; a span already removed
    stays detached. *)
Definition update_settled (r : update_response) (st : ustate) : ustate :=
  let '(toast, success) := update_outcome r in
  let st := add_call toast
              (UState (u_checkPerformed st) (u_header st) (u_notice st) (u_check_timers st) (u_retry_timers st)
                      (u_version_requests st) (pred (u_update_requests st)) (u_calls st)) in
  match u_notice st with
  | None => st
  | Some _ => set_notice (if success then None else Some NAvailable) st
  end.

(** [window.testLittleWhiteBoxUpdate] up to its [await]. *)
Definition testLittleWhiteBoxUpdate (st : ustate) : ustate :=
  performExtensionUpdateCheck
    (UState false (u_header st) (u_notice st) (u_check_timers st) (u_retry_timers st)
            (u_version_requests st) (u_update_requests st) (u_calls st)).

(** The page changes: the header appears or goes. *)
Definition set_header (b : bool) (st : ustate) : ustate :=
  UState (u_checkPerformed st) b (if b then u_notice st else None) (u_check_timers st) (u_retry_timers st)
         (u_version_requests st) (u_update_requests st) (u_calls st).

(** ** The events, in any order the event loop delivers them

    The page's events; the console hook [testLittleWhiteBoxUpdate],
    which resets the flag, is left out. *)

Inductive ustep : ustate -> ustate -> Prop :=
| UAppReady st : ustep st (app_ready st)
| UFireCheck st : 0 < u_check_timers st -> ustep st (fire_check st)
| UVersion st v : 0 < u_version_requests st -> ustep st (version_settled v st)
| UFireRetry st : 0 < u_retry_timers st -> ustep st (fire_retry st)
| UClick st : ustep st (click_notice st)
| UUpdate st r : 0 < u_update_requests st -> ustep st (update_settled r st)
| UTestUI st : ustep st (updateExtensionHeaderWithUpdateNotice st)
| UHeader st b : ustep st (set_header b st).

(** The number of version requests made. *)
Definition version_fetches (st : ustate) : nat := length (filter (fun c => c = CFetchVersion) (u_calls st)).

(** ** Lemmas *)

Lemma version_fetches_add c st : c <> CFetchVersion -> version_fetches (add_call c st) = version_fetches st.
Proof.
  intros Hc. unfold version_fetches, add_call. cbn [u_calls].
  rewrite filter_app, length_app. cbn. rewrite decide_False by done. cbn. lia.
Qed.

Lemma updateHeader_frame st :
  u_checkPerformed (updateExtensionHeaderWithUpdateNotice st) = u_checkPerformed st /\
  u_calls (updateExtensionHeaderWithUpdateNotice st) = u_calls st.
Proof. unfold updateExtensionHeaderWithUpdateNotice. by repeat case_match. Qed.

(** [version_fetches] counts [CFetchVersion] exactly when the flag is set. *)
Definition uinv (st : ustate) : Prop :=
  version_fetches st = if u_checkPerformed st then 1 else 0.

Lemma uinv_frame st st' :
  u_checkPerformed st' = u_checkPerformed st -> version_fetches st' = version_fetches st -> uinv st -> uinv st'.
Proof. unfold uinv. intros H1 H2 H. by rewrite H1, H2. Qed.

Lemma uinv_updateHeader st : uinv st -> uinv (updateExtensionHeaderWithUpdateNotice st).
Proof.
  apply uinv_frame; destruct (updateHeader_frame st) as [H1 H2]; [done|]. unfold version_fetches. by rewrite H2.
Qed.

Lemma uinv_perform st : uinv st -> uinv (performExtensionUpdateCheck st).
Proof.
  unfold uinv, performExtensionUpdateCheck. destruct (u_checkPerformed st) eqn:E; [intros H; by rewrite E|].
  unfold version_fetches. cbn [u_calls u_checkPerformed]. rewrite filter_app, length_app. cbn.
  rewrite decide_True by done. cbn. intros H. unfold version_fetches in H. lia.
Qed.

Lemma uinv_step st st' : ustep st st' -> uinv st -> uinv st'.
Proof.
  intros Hs. destruct Hs as [st|st Hp|st v Hp|st Hp|st|st r Hp|st|st b].
  - by apply uinv_frame.
  - intros H. apply uinv_perform. by revert H; apply uinv_frame.
  - intros H. unfold version_settled. case_match; [apply uinv_updateHeader|]; by revert H; apply uinv_frame.
  - intros H. apply uinv_updateHeader. by revert H; apply uinv_frame.
  - unfold click_notice. case_match; [|done]. apply uinv_frame; [done|].
    unfold version_fetches. cbn [u_calls]. rewrite filter_app, length_app. cbn.
    rewrite decide_False by done. cbn. lia.
  - unfold update_settled. destruct (update_outcome r) as [toast success] eqn:Eo.
    assert (Ht : toast <> CFetchVersion) by (destruct r; cbn in Eo; congruence).
    intros H. assert (H' : uinv (add_call toast (UState (u_checkPerformed st) (u_header st) (u_notice st)
      (u_check_timers st) (u_retry_timers st) (u_version_requests st) (pred (u_update_requests st)) (u_calls st)))).
    { revert H. apply uinv_frame; [done|]. by rewrite version_fetches_add. }
    case_match; [|done]. revert H'. by apply uinv_frame.
  - apply uinv_updateHeader.
  - by apply uinv_frame.
Qed.

Lemma uinv_rtc st st' : uinv st -> rtc ustep st st' -> uinv st'.
Proof. intros Hinv Hr. induction Hr; eauto using uinv_step. Qed.

Lemma fire_retry_absent st :
  u_header st = false -> 0 < u_retry_timers st ->
  u_header (fire_retry st) = false /\ u_retry_timers (fire_retry st) = u_retry_timers st /\
  u_notice (fire_retry st) = u_notice st.
Proof. intros Hh Hr. unfold fire_retry, updateExtensionHeaderWithUpdateNotice. cbn. rewrite Hh. cbn. split; [done|split; [lia|done]]. Qed.

(** ** Properties *)

(** C15: however many times [APP_READY] fires and whatever the page
    does, the version is requested at most once: exactly once after
    [updateCheckPerformed] is set, never before. *)
Theorem version_fetched_at_most_once (header : bool) (st : ustate) :
  rtc ustep (ustate_init header) st -> version_fetches st = if u_checkPerformed st then 1 else 0.
Proof.
  intros Hr. apply (uinv_rtc (ustate_init header)); [reflexivity|exact Hr].
Qed.

(** C16: while the header is not in the page, the notice's retry never
    ends: after any number of one-second retries a retry is still
    pending (the step [UFireRetry] stays enabled) and no notice is
    shown; the timers are not registered with [addGlobalTimer]. *)
Theorem header_retry_never_ends (st : ustate) (n : nat) :
  u_header st = false ->
  let st' := Nat.iter n fire_retry (updateExtensionHeaderWithUpdateNotice st) in
  u_header st' = false /\ u_retry_timers st' = S (u_retry_timers st) /\ u_notice st' = u_notice st.
Proof.
  intros Hh st'. subst st'. induction n as [|n IH].
  - cbn [Nat.iter]. unfold updateExtensionHeaderWithUpdateNotice. rewrite Hh. cbn. auto.
  - rewrite Nat.iter_succ.
    destruct IH as (H1 & H2 & H3). destruct (fire_retry_absent _ H1) as (G1 & G2 & G3); [lia|].
    rewrite G1, G2, G3. auto.
Qed.

(** the notice's click handler does not disable itself: a second
    click while the first update runs sends a second update request;
    when the first succeeds and the second fails the user gets both
    toasts and the notice is gone. *)
Theorem update_notice_double_click (st : ustate) (data : jsval) :
  u_notice st = Some NAvailable ->
  let st2 := click_notice (click_notice st) in
  let st4 := update_settled URThrow (update_settled (UROk data) st2) in
  u_update_requests st2 = S (S (u_update_requests st)) /\
  u_calls st4 = u_calls st ++ [CFetchUpdate; CFetchUpdate; (update_outcome (UROk data)).1; CToastError] /\
  u_notice st4 = None /\ u_update_requests st4 = u_update_requests st.
Proof.
  intros Hn st2 st4. subst st2 st4. unfold click_notice. rewrite Hn. cbn.
  by rewrite <- !app_assoc.
Qed.

Lemma version_fetched_at_most_once_witness :
  rtc ustep (ustate_init true) (fire_check (fire_check (app_ready (app_ready (ustate_init true))))) /\
  version_fetches (fire_check (fire_check (app_ready (app_ready (ustate_init true))))) = 1.
Proof.
  assert (Hr : rtc ustep (ustate_init true) (fire_check (fire_check (app_ready (app_ready (ustate_init true)))))).
  { eapply rtc_l; [apply UAppReady|]. eapply rtc_l; [apply UAppReady|].
    eapply rtc_l; [apply UFireCheck; cbn; lia|]. eapply rtc_l; [apply UFireCheck; cbn; lia|].
    apply rtc_refl. }
  split; [exact Hr|]. rewrite (version_fetched_at_most_once true _ Hr). reflexivity.
Defined.

Lemma header_retry_never_ends_witness :
  u_header (ustate_init false) = false /\
  u_retry_timers (Nat.iter 10 fire_retry (updateExtensionHeaderWithUpdateNotice (ustate_init false))) = 1.
Proof.
  split; [reflexivity|]. exact (proj1 (proj2 (header_retry_never_ends (ustate_init false) 10 eq_refl))).
Defined.

Lemma update_notice_double_click_witness :
  u_notice (set_notice (Some NAvailable) (ustate_init true)) = Some NAvailable /\
  u_notice (update_settled URThrow (update_settled (UROk (JObj [(j["isUpToDate"], JBool false)]))
    (click_notice (click_notice (set_notice (Some NAvailable) (ustate_init true)))))) = None.
Proof.
  split; [reflexivity|].
  exact (proj1 (proj2 (proj2 (update_notice_double_click (set_notice (Some NAvailable) (ustate_init true))
    (JObj [(j["isUpToDate"], JBool false)]) eq_refl)))).
Defined.

End UpdateCheck.
