(* ===== verification/Editor.v ===== *)
(** * The template editor's form (src/template-editor.js)

    [openEditor] (1368-1441) fills a popup form from the current
    character's settings; its export button writes the form as
    [JSON.stringify(data, null, 2)] (1387-1398), its import input reads
    such a file back into the form (1400-1424), and its save button
    stores the form through [TemplateSettings.saveCurrentChar]
    (1428-1440).  The form is a record of the five fields; a text field
    holds the string jQuery's [val()] returns, a checkbox its [checked]
    property.  [JSON.stringify] with an indentation of two spaces is
    [JsValue.json_pretty]; [JSON.parse] is [Json.json_parse], and
    [JsonText.json_parse_pretty] reads the exported object back.  The
    file dialog, the [FileReader], [download] and the toasts are I/O
    and not modelled. *)

From S2P Require Import Prelude JsValue Json JsonText State.

Module Editor.
Import Json JsonText State.

(** ** The form *)

Record form := Form {
  fm_template : jstr;      (** [#fixed_text_template] *)
  fm_regex : jstr;         (** [#fixed_text_custom_regex] *)
  fm_limit : bool;         (** [#limit_to_recent_messages] *)
  fm_count : jstr;         (** [#recent_message_count] *)
  fm_skip : bool }.        (** [#skip_first_message] *)

(** ** Builtins *)

(** The double nearest to the natural number [m] (IEEE 754 binary64,
    round to nearest, ties to even), as a natural number: [m] itself
    below [2^53], otherwise [m] with the bits after its 53rd rounded. *)
Definition round_double (m : N) : N :=
  if (m <? 2 ^ 53)%N then m else
  let e := (N.log2 m - 52)%N in
  let q := N.shiftr m e in
  let r := (m - N.shiftl q e)%N in
  let h := N.shiftl 1 (e - 1) in
  let q' := if (r <? h)%N then q else if (h <? r)%N then N.succ q
            else if N.odd q then N.succ q else q in
  N.shiftl q' e.

(** A Number as [parseInt] can return it: [NaN], an infinity, or a
    finite double with an integer value. *)
Inductive js_number := NumNaN | NumInf (neg : bool) | NumInt (z : Z).

(** [𝔽(sign × m)]: the nearest double, an infinity from [2^1024] on. *)
Definition number_of_N (neg : bool) (m : N) : js_number :=
  let r := round_double m in
  if (r <? 2 ^ 1024)%N then NumInt (if neg then (- Z.of_N r)%Z else Z.of_N r) else NumInf neg.

(** [parseInt(s)] in base ten (ECMA-262 19.2.5): leading white space,
    a sign, the longest run of digits, and the Number of that integer;
    no digits is [NaN].  Implementations may replace the digits after
    the 20th by zeros; the model rounds the exact value, as V8 does. *)
Definition js_parseInt (s : jstr) : js_number :=
  let s := trim_start s in
  let '(neg, s) := match s with
                   | c :: r => if is_ch c 45 then (true, r) else if is_ch c 43 then (false, r) else (false, s)
                   | [] => (false, s)
                   end in
  match span_digits s with
  | ([], _) => NumNaN
  | (d, _) => number_of_N neg (digits_value d)
  end.

(** The number [z] as a [jsnum]. *)
Definition num_of_int (z : Z) : jsnum := JsNum (Z.ltb z 0) (Z.to_N (Z.abs z)) 0.

(** [Number::toString]'s digits for the double [m]: [m] itself below
    [2^53], where every integer is a double; above, the fewest
    significant digits [s], nearest to [m], such that [s * 10^k] is the
    same double. *)
Definition shortest_digits (m : N) : N * Z :=
  if (m <? 2 ^ 53)%N then (m, 0%Z) else
  let d := length (N_to_jstr m) in
  let cand p := let k := (d - p)%nat in let t := (10 ^ N.of_nat k)%N in (((m + t / 2) / t)%N, k) in
  match find (fun p => let '(s, k) := cand p in bool_decide (round_double (s * 10 ^ N.of_nat k) = m)) (seq 1 17) with
  | Some p => let '(s, k) := cand p in (s, Z.of_nat k)
  | None => (m, 0%Z)
  end.

(** The double [z] as the [jsnum] [JSON.stringify] prints. *)
Definition num_of_double (z : Z) : jsnum :=
  let '(s, k) := shortest_digits (Z.to_N (Z.abs z)) in JsNum (Z.ltb z 0) s k.

(** [JSON.stringify] of a Number: [null] for [NaN] and the infinities. *)
Definition number_json (x : js_number) : jsval :=
  match x with NumInt z => JNum (num_of_double z) | _ => JNull end.

(** ** [openEditor] *)

(** [$(...).val() || DEFAULT_CHAR_SETTINGS.customRegex] *)
Definition regex_value (s : jstr) : jstr :=
  match s with [] => cs_customRegex DEFAULT_CHAR_SETTINGS | _ => s end.

(** [parseInt(String($(...).val())) || 5]: [NaN] and zero are falsy. *)
Definition count_value (s : jstr) : js_number :=
  match js_parseInt s with
  | NumNaN => NumInt 5
  | NumInt z => if Z.eqb z 0 then NumInt 5 else NumInt z
  | NumInf neg => NumInf neg
  end.

(** The form as [openEditor] fills it from [getCurrentChar()]. *)
Definition openEditor_form (cs : char_settings) : form :=
  Form (cs_template cs) (regex_value (cs_customRegex cs)) (cs_limitToRecentMessages cs)
       (number_to_string (num_of_int (if Z.eqb (cs_recentMessageCount cs) 0 then 5 else cs_recentMessageCount cs)))
       (cs_skipFirstMessage cs).

(** The [data] object of the export button. *)
Definition export_data (fm : form) : jsval :=
  JObj [(j["template"], JStr (fm_template fm));
        (j["customRegex"], JStr (regex_value (fm_regex fm)));
        (j["limitToRecentMessages"], JBool (fm_limit fm));
        (j["recentMessageCount"], number_json (count_value (fm_count fm)));
        (j["skipFirstMessage"], JBool (fm_skip fm))].

(** The text of the exported file. *)
Definition exportCharacterSettings (fm : form) : jstr := json_pretty [] (export_data fm).

(** [$(...).val(x || d)]: the string the field then holds. *)
Definition val_or (x : option jsval) (d : jsval) : jstr :=
  match x with Some v => if js_truthy v then to_js_string v else to_js_string d | None => to_js_string d end.

(** [$(...).prop('checked', x || false)] *)
Definition checked_or_false (x : option jsval) : bool :=
  match x with Some v => js_truthy v | None => false end.

(** The body of [reader.onload] after [JSON.parse]: [None] when reading
    a property of [data] throws ([data] is [null]). *)
Definition import_data (data : jsval) : option form :=
  match data with
  | JNull => None
  | _ =>
      Some (Form (val_or (js_get data j["template"]) (JStr []))
                 (val_or (js_get data j["customRegex"]) (JStr (cs_customRegex DEFAULT_CHAR_SETTINGS)))
                 (checked_or_false (js_get data j["limitToRecentMessages"]))
                 (val_or (js_get data j["recentMessageCount"]) (JNum (num_of_int 5)))
                 (checked_or_false (js_get data j["skipFirstMessage"])))
  end.

(** The import input reads the file [text]: the form changes only when
    the text parses and the fields can be read. *)
Definition importCharacterSettings (text : jstr) (fm : form) : form :=
  match json_parse text ≫= import_data with Some fm' => fm' | None => fm end.

(** The settings the save button passes to [saveCurrentChar]; [None]
    for an infinite count, which the integer [cs_recentMessageCount]
    does not hold. *)
Definition save_settings (fm : form) : option char_settings :=
  match count_value (fm_count fm) with
  | NumInt z => Some (CharSettings true (fm_template fm) (regex_value (fm_regex fm)) (fm_limit fm) z (fm_skip fm))
  | _ => None
  end.

(** A form with a template, no custom regex, and a count of twelve. *)
Definition ex_form : form := Form j["<b>[[mood]]</b>"] [] true j["12"] false.

(** ** The exported text reads back *)

Lemma round_double_small (m : N) : (m < 2 ^ 53)%N -> round_double m = m.
Proof. intros Hm. unfold round_double. by rewrite (proj2 (N.ltb_lt _ _) Hm). Qed.

Lemma number_of_N_small (m : N) : (m < 2 ^ 53)%N -> number_of_N false m = NumInt (Z.of_N m).
Proof.
  intros Hm. unfold number_of_N. rewrite round_double_small by done.
  assert (H : (2 ^ 53 < 2 ^ 1024)%N) by (vm_compute; reflexivity).
  by rewrite (proj2 (N.ltb_lt _ _)) by lia.
Qed.

Lemma js_parseInt_N (n : N) :
  (0 < n)%N -> (n < 2 ^ 53)%N -> js_parseInt (N_to_jstr n) = NumInt (Z.of_N n).
Proof.
  intros Hn Hb. pose proof (digits_value_N_to_jstr n) as Hv. pose proof (N_to_jstr_digits n) as Hds.
  destruct (N_to_jstr_head n Hn) as (d & ds & E & Hd & H48). rewrite E in Hv, Hds |- *.
  destruct (json_digit_facts d Hd) as (_ & Hws & H45 & H43 & _).
  unfold js_parseInt. cbn [trim_start]. rewrite Hws, H45, H43.
  rewrite <- (app_nil_r (d :: ds)), span_digits_app by (done || (intros ? ? [=])).
  rewrite Hv. by apply number_of_N_small.
Qed.

Lemma num_of_double_small (n : N) : (n < 2 ^ 53)%N -> num_of_double (Z.of_N n) = JsNum false n 0.
Proof.
  intros Hb. unfold num_of_double, shortest_digits. rewrite Z.abs_eq, N2Z.id by lia.
  rewrite (proj2 (N.ltb_lt _ _) Hb). by rewrite (proj2 (Z.ltb_ge _ _)) by lia.
Qed.

(** The count field holding the spelling of a positive [n] below [2^53]
    exports [n]. *)
Lemma count_value_N (s : jstr) (n : N) :
  s = N_to_jstr n -> (0 < n)%N -> (n < 2 ^ 53)%N -> number_json (count_value s) = JNum (JsNum false n 0).
Proof.
  intros Hc Hn Hb. unfold count_value. rewrite Hc, js_parseInt_N by done.
  rewrite (proj2 (Z.eqb_neq _ _)) by lia. cbn. by rewrite num_of_double_small.
Qed.

(** The exported object is plain: its count is a positive integer of at
    most 21 digits, its keys distinct and no array index. *)
Lemma export_plain (fm : form) (n : N) :
  fm_count fm = N_to_jstr n -> (0 < n)%N -> (n < 2 ^ 53)%N -> length (N_to_jstr n) <= 21 ->
  plainb (export_data fm) = true.
Proof.
  intros Hc Hn Hb Hlen. unfold export_data. rewrite (count_value_N _ n Hc Hn Hb).
  cbn [plainb forallb fst snd]. unfold num_plain. cbn [num_exp num_mant num_neg].
  rewrite decide_False by lia. rewrite (proj2 (Nat.leb_le _ _)) by done. reflexivity.
Qed.

(** [JSON.parse] of the exported text gives back the exported object. *)
Lemma export_json_parse (fm : form) (n : N) :
  fm_count fm = N_to_jstr n -> (0 < n)%N -> (n < 2 ^ 53)%N -> length (N_to_jstr n) <= 21 ->
  json_parse (exportCharacterSettings fm) = Some (export_data fm).
Proof. intros Hc Hn Hb Hlen. apply json_parse_pretty, (export_plain fm n Hc Hn Hb Hlen). Qed.

(** ** Export and import *)

(** C17: importing the file the export button wrote restores the form:
    every field comes back as it was, except an empty custom regex,
    which both the export and the import replace by the default.  The
    count field holds the decimal spelling of a positive integer below
    [2^53] (so of at most 16 digits): [parseInt] returns a double, and
    a larger count comes back rounded to one. *)
Theorem export_import_roundtrip (fm fm0 : form) (n : N) :
  fm_count fm = N_to_jstr n -> (0 < n)%N -> (n < 2 ^ 53)%N -> length (fm_count fm) <= 21 ->
  importCharacterSettings (exportCharacterSettings fm) fm0
  = Form (fm_template fm) (regex_value (fm_regex fm)) (fm_limit fm) (fm_count fm) (fm_skip fm).
Proof.
  intros Hc Hn Hb Hlen. rewrite Hc in Hlen. unfold importCharacterSettings.
  rewrite (export_json_parse fm n Hc Hn Hb Hlen). cbn [mbind option_bind].
  pose proof (count_value_N _ n Hc Hn Hb) as Hx.
  assert (G1 : js_get (export_data fm) j["template"] = Some (JStr (fm_template fm))) by reflexivity.
  assert (G2 : js_get (export_data fm) j["customRegex"] = Some (JStr (regex_value (fm_regex fm)))) by reflexivity.
  assert (G3 : js_get (export_data fm) j["limitToRecentMessages"] = Some (JBool (fm_limit fm))) by reflexivity.
  assert (G4 : js_get (export_data fm) j["recentMessageCount"] = Some (JNum (JsNum false n 0)))
    by (rewrite <- Hx; reflexivity).
  assert (G5 : js_get (export_data fm) j["skipFirstMessage"] = Some (JBool (fm_skip fm))) by reflexivity.
  unfold import_data at 1. cbn delta [export_data] iota beta.
  rewrite G1, G2, G3, G4, G5. unfold val_or, checked_or_false. cbn [js_truthy to_js_string num_mant].
  f_equal.
  - by destruct (fm_template fm).
  - by destruct (fm_regex fm).
  - rewrite (proj2 (N.eqb_neq _ _)) by lia. cbn [negb].
    rewrite number_to_string_int by done. cbn [sign_text app]. by rewrite Hc.
Qed.


Lemma export_import_roundtrip_witness :
  fm_count ex_form = N_to_jstr 12 /\ (0 < 12)%N /\ (12 < 2 ^ 53)%N /\ length (fm_count ex_form) <= 21 /\
  importCharacterSettings (exportCharacterSettings ex_form) (Form [] [] false [] true)
  = Form j["<b>[[mood]]</b>"] (cs_customRegex DEFAULT_CHAR_SETTINGS) true j["12"] false.
Proof.
  assert (Hc : fm_count ex_form = N_to_jstr 12) by reflexivity.
  assert (Hn : (0 < 12)%N) by lia.
  assert (Hb : (12 < 2 ^ 53)%N) by (vm_compute; reflexivity).
  assert (Hl : length (fm_count ex_form) <= 21) by (cbn; lia).
  refine (conj Hc (conj Hn (conj Hb (conj Hl _)))).
  exact (export_import_roundtrip ex_form (Form [] [] false [] true) 12 Hc Hn Hb Hl).
Defined.

(** Above [2^53] the count is rounded: a field holding
    [99999999999999999] exports [100000000000000000]. *)
Lemma count_value_rounds :
  number_json (count_value j["99999999999999999"]) = JNum (JsNum false 1 17) /\
  number_to_string (JsNum false 1 17) = j["100000000000000000"].
Proof. split; vm_compute; reflexivity. Qed.

End Editor.
