(* ===== verification/Lifecycle.v ===== *)
(** * The template module's lifecycle (src/template-editor.js, src/index.js)

    [initTemplateEditor] (template-editor.js 1506-1595) registers the
    module's listeners: the host events of [eventHandlers], the
    document's [xiaobaixEnabledChanged], the [input] event of the
    checkbox [#xiaobaix_template_enabled] and the buttons of the panel;
    it installs the [innerHTML] interceptor and the message observer
    after 600 ms and checks the character's embedded template after
    1200 ms.  The checkbox also has the [change] listener of index.js
    (840-849), which runs the module's [cleanup] and calls
    [initTemplateEditor] again; [importGlobal] and [exportGlobal]
    (1444-1469) read and write the module's settings object.

    An [lworld] joins the handler's [world] (Handler.v) to the module's
    own state: the settings object [TemplateSettings.get()] as its list
    of properties, [window.isXiaobaixEnabled], the checkbox, whether the
    patched setter and the observer are installed, how many times each
    listener is registered, the module cleanup of index.js's registry,
    the pending timers of the module and the interface calls made in
    order.  The handler's interface is [host_of s] for the settings
    object [s], so that a change of [enabled] reaches every guard of
    the handler.  A listener registered [k] times runs [k] times:
    [Nat.iter k].

    The invariant [linv] of the hooks (the observer only with the
    setter, nothing before the first [initTemplateEditor]) is kept by
    every step, by rule induction over [lstep] from per-operation
    lemmas. *)

From S2P Require Import Prelude JsValue Json JsonText State Handler Editor.
From stdpp Require Import gmap relations.

Module Lifecycle.
Import Json JsonText State Handler Editor.

(** [if (TemplateSettings.get().enabled)]: the truthiness of the
    property, [false] when it is absent. *)
Definition settings_enabled (s : list (jstr * jsval)) : bool :=
  match obj_get j["enabled"] s with Some v => js_truthy v | None => false end.

(** The module's timers. *)
Inductive ltimer :=
| LInit                  (** the 600 ms timer of [initTemplateEditor] (1583-1589) *)
| LEnabledOn             (** the 150 ms timer of the [xiaobaixEnabledChanged] listener (1545-1553) *)
| LReapply               (** [setTimeout(() => MessageHandler.reapplyAll(), 150)] *)
| LCheckEmbedded         (** [setTimeout(checkEmbeddedTemplate, 1200)] *)
| LEmbeddedReapply       (** the 150 ms timer of [checkEmbeddedTemplate] (1477-1480) *)
| LReaderLoad (text : jstr). (** [reader.onload] of [importGlobal] with the file's text *)

(** The interface calls of the module, in order. *)
Inductive ui :=
| UIStatus                       (** [updateStatus()] *)
| UIOpenEditor                   (** [openEditor()] *)
| UIDownload (name text : jstr)  (** [download(name, text, 'text/plain')] *)
| UIToastExported
| UIToastImported
| UIToastImportError
| UIFileDialog.                  (** [$("#import_template_file").click()] *)

Record lworld := LWorld {
  lw_handler : world;
  lw_settings : list (jstr * jsval);  (** [TemplateSettings.get()] *)
  lw_xiaobaix : bool;                 (** [window.isXiaobaixEnabled] *)
  lw_checkbox : bool;                 (** [#xiaobaix_template_enabled] checked *)
  lw_setter : bool;                   (** [interceptor.originalSetter !== null] *)
  lw_observer : bool;                 (** [state.observers.message] observing [#chat] *)
  lw_copies : nat;                    (** calls of [initTemplateEditor] so far *)
  lw_cleanup_reg : bool;              (** [moduleCleanupFunctions.has('templateEditor')] *)
  lw_saved : option jsval;            (** [savedSettings.templateEnabled] of index.js *)
  lw_timers : list ltimer;
  lw_ui : list ui
}.

Definition set_handler w lw := LWorld w (lw_settings lw) (lw_xiaobaix lw) (lw_checkbox lw) (lw_setter lw)
  (lw_observer lw) (lw_copies lw) (lw_cleanup_reg lw) (lw_saved lw) (lw_timers lw) (lw_ui lw).
Definition set_settings s lw := LWorld (lw_handler lw) s (lw_xiaobaix lw) (lw_checkbox lw) (lw_setter lw)
  (lw_observer lw) (lw_copies lw) (lw_cleanup_reg lw) (lw_saved lw) (lw_timers lw) (lw_ui lw).
Definition set_xiaobaix b lw := LWorld (lw_handler lw) (lw_settings lw) b (lw_checkbox lw) (lw_setter lw)
  (lw_observer lw) (lw_copies lw) (lw_cleanup_reg lw) (lw_saved lw) (lw_timers lw) (lw_ui lw).
Definition set_checkbox b lw := LWorld (lw_handler lw) (lw_settings lw) (lw_xiaobaix lw) b (lw_setter lw)
  (lw_observer lw) (lw_copies lw) (lw_cleanup_reg lw) (lw_saved lw) (lw_timers lw) (lw_ui lw).
Definition set_setter b lw := LWorld (lw_handler lw) (lw_settings lw) (lw_xiaobaix lw) (lw_checkbox lw) b
  (lw_observer lw) (lw_copies lw) (lw_cleanup_reg lw) (lw_saved lw) (lw_timers lw) (lw_ui lw).
Definition set_observer b lw := LWorld (lw_handler lw) (lw_settings lw) (lw_xiaobaix lw) (lw_checkbox lw)
  (lw_setter lw) b (lw_copies lw) (lw_cleanup_reg lw) (lw_saved lw) (lw_timers lw) (lw_ui lw).
Definition set_copies n lw := LWorld (lw_handler lw) (lw_settings lw) (lw_xiaobaix lw) (lw_checkbox lw)
  (lw_setter lw) (lw_observer lw) n (lw_cleanup_reg lw) (lw_saved lw) (lw_timers lw) (lw_ui lw).
Definition set_cleanup_reg b lw := LWorld (lw_handler lw) (lw_settings lw) (lw_xiaobaix lw) (lw_checkbox lw)
  (lw_setter lw) (lw_observer lw) (lw_copies lw) b (lw_saved lw) (lw_timers lw) (lw_ui lw).
Definition set_saved o lw := LWorld (lw_handler lw) (lw_settings lw) (lw_xiaobaix lw) (lw_checkbox lw)
  (lw_setter lw) (lw_observer lw) (lw_copies lw) (lw_cleanup_reg lw) o (lw_timers lw) (lw_ui lw).
Definition set_timers ts lw := LWorld (lw_handler lw) (lw_settings lw) (lw_xiaobaix lw) (lw_checkbox lw)
  (lw_setter lw) (lw_observer lw) (lw_copies lw) (lw_cleanup_reg lw) (lw_saved lw) ts (lw_ui lw).
Definition add_timer t lw := set_timers (lw_timers lw ++ [t]) lw.
Definition add_ui u lw := LWorld (lw_handler lw) (lw_settings lw) (lw_xiaobaix lw) (lw_checkbox lw)
  (lw_setter lw) (lw_observer lw) (lw_copies lw) (lw_cleanup_reg lw) (lw_saved lw) (lw_timers lw)
  (lw_ui lw ++ [u]).

(** [TemplateSettings.get().enabled = b] *)
Definition set_enabled_prop (b : bool) (lw : lworld) : lworld :=
  set_settings (obj_set j["enabled"] (JBool b) (lw_settings lw)) lw.

(** [$(...).prop("checked", data.enabled)]: [checked] takes the
    truthiness of the value, [undefined] unchecks. *)
Definition checked_of (v : option jsval) : bool :=
  match v with Some x => js_truthy x | None => false end.

Definition export_file_name : jstr := j["xiaobai-template-global-settings.json"].

(** A settings object with the module on, and one chat message. *)
Definition ex_settings : list (jstr * jsval) := [(j["enabled"], JBool true); (j["characterBindings"], JObj [])].
Definition ex_chat : list message := [ex_msg].
(** The settings of another page: the module off and a binding. *)
Definition ex_other_settings : list (jstr * jsval) :=
  [(j["enabled"], JBool false); (j["characterBindings"], JObj [(j["a.png"], JObj [])])].
(** A settings file that turns the module on, and one without [enabled]. *)
Definition ex_file_on : jstr := j["{"] ++ quoted j["enabled"] ++ j[": true}"].
Definition ex_file_bindings : jstr := j["{"] ++ quoted j["characterBindings"] ++ j[": {}}"].
Definition ex_host (s : list (jstr * jsval)) : TemplateHost := example_host ex_inline ex_vars.

Section Lifecycle.
(** The handler's interface for a settings object. *)
Context (host_of : list (jstr * jsval) -> TemplateHost).
(** [document.querySelector('#chat')] is found. *)
Context (chat_present : bool).
(** [this_chid] and [characters[this_chid]] are set and the character's
    embedded settings are enabled with a template (1472-1476). *)
Context (embedded_active : bool).

Definition lhost (lw : lworld) : TemplateHost := host_of (lw_settings lw).

(** [utils.isEnabled()] (line 57) *)
Definition isEnabled (lw : lworld) : bool := lw_xiaobaix lw && settings_enabled (lw_settings lw).

Definition reapply (lw : lworld) : lworld :=
  set_handler (@reapplyAll (lhost lw) (lw_handler lw)) lw.

(** [updateStatus()] (1347-1366): a refresh of the status line. *)
Definition updateStatus (lw : lworld) : lworld := add_ui UIStatus lw.

(** [interceptor.setup()] (1226-1233): the setter is patched once.
    [Element.prototype]'s [innerHTML] always has a setter. *)
Definition interceptor_setup (lw : lworld) : lworld :=
  if lw_setter lw then lw else set_setter true lw.

(** [setupObserver] (1509-1530): the previous observer is disconnected
    and a new one observes [#chat] when it is found. *)
Definition setupObserver (lw : lworld) : lworld := set_observer chat_present lw.

(** [cleanup()] (1486-1504): the handler's [cleanup], the observer
    disconnected and the original setter put back. *)
Definition template_cleanup (lw : lworld) : lworld :=
  set_setter false (set_observer false (set_handler (cleanup (lw_handler lw)) lw)).

(** [interceptor.setup(); setupObserver(); MessageHandler.reapplyAll();] *)
Definition setup_all (lw : lworld) : lworld := reapply (setupObserver (interceptor_setup lw)).

(** [initTemplateEditor()] (1506-1595): every listener is registered
    once more. *)
Definition initTemplateEditor (lw : lworld) : lworld :=
  let lw := set_copies (S (lw_copies lw)) lw in
  let lw := updateStatus (set_checkbox (settings_enabled (lw_settings lw)) lw) in
  let lw := set_cleanup_reg true lw in
  let lw := if isEnabled lw then add_timer LInit lw else lw in
  add_timer LCheckEmbedded lw.

(** One copy of the [xiaobaixEnabledChanged] listener (1542-1555). *)
Definition enabled_changed_listener (enabled : bool) (lw : lworld) : lworld :=
  if enabled then add_timer LEnabledOn lw else template_cleanup lw.

Definition dispatch_enabled_changed (enabled : bool) (lw : lworld) : lworld :=
  Nat.iter (lw_copies lw) (enabled_changed_listener enabled) lw.

(** One copy of the checkbox's [input] listener (1557-1571). *)
Definition template_input (checked : bool) (lw : lworld) : lworld :=
  let lw := updateStatus (set_enabled_prop checked lw) in
  if checked then add_timer LReapply (setupObserver (interceptor_setup lw))
  else template_cleanup lw.

(** The checkbox's [change] listener of index.js (840-849): the module
    cleanup of the registry, then [initTemplateEditor] again. *)
Definition template_change (checked : bool) (lw : lworld) : lworld :=
  if negb (lw_xiaobaix lw) then lw else
  let lw := set_enabled_prop checked lw in
  let lw := if lw_cleanup_reg lw then template_cleanup lw else lw in
  if checked then initTemplateEditor lw else lw.

(** A click on the checkbox: [input] fires before [change]. *)
Definition checkbox_click (lw : lworld) : lworld :=
  let checked := negb (lw_checkbox lw) in
  let lw := set_checkbox checked lw in
  template_change checked (Nat.iter (lw_copies lw) (template_input checked) lw).

(** A host event: each registered copy of its handler runs.  The
    300 ms timer of [CHARACTER_SELECTED] (1338-1345) ends with
    [checkEmbeddedTemplate()], which [Handler]'s [TReapply] task does
    not model: each copy also sets it here, as a timer of the module
    that the interleaving of [lstep] may run before or after the
    reapply task. *)
Definition host_event (e : event) (lw : lworld) : lworld :=
  let lw := set_handler (Nat.iter (lw_copies lw) (handle_event e) (lw_handler lw)) lw in
  match e with
  | CHARACTER_SELECTED => Nat.iter (lw_copies lw) (add_timer LCheckEmbedded) lw
  | _ => lw
  end.

(** [exportGlobal] (1444-1447) *)
Definition exportGlobal (lw : lworld) : lworld :=
  add_ui UIToastExported
    (add_ui (UIDownload export_file_name (json_pretty [] (JObj (lw_settings lw)))) lw).

(** [importGlobal] (1449-1469), the [change] listener of the file
    input, with [event.target.files[0]]: [event.target.value = '']
    empties the input, so a later copy of the listener finds no file. *)
Definition importGlobal (file : option jstr) (lw : lworld) : option jstr * lworld :=
  match file with
  | None => (None, lw)
  | Some text => (None, add_timer (LReaderLoad text) lw)
  end.

(** [reader.onload]: [Object.assign(TemplateSettings.get(), data)], then
    [data.enabled] into the checkbox; on [null] that read throws. *)
Definition import_load (text : jstr) (lw : lworld) : lworld :=
  match json_parse text with
  | None => add_ui UIToastImportError lw
  | Some data =>
    let lw := set_settings (obj_assign (lw_settings lw) data) lw in
    match data with
    | JNull => add_ui UIToastImportError lw
    | _ => add_ui UIToastImported (add_timer LReapply
             (updateStatus (set_checkbox (checked_of (js_get data j["enabled"])) lw)))
    end
  end.

(** [checkEmbeddedTemplate] (1471-1484) *)
Definition checkEmbeddedTemplate (lw : lworld) : lworld :=
  if embedded_active then add_timer LEmbeddedReapply lw else lw.

Definition run_ltimer (t : ltimer) (lw : lworld) : lworld :=
  match t with
  | LInit => setup_all lw
  | LEnabledOn => if settings_enabled (lw_settings lw) then setup_all lw else lw
  | LReapply => reapply lw
  | LCheckEmbedded => checkEmbeddedTemplate lw
  | LEmbeddedReapply => let lw := updateStatus lw in if isEnabled lw then reapply lw else lw
  | LReaderLoad text => import_load text lw
  end.

(** The switch [#xiaobaix_enabled] turned to [b] (index.js 737-746),
    with [toggleAllFeatures(b)] (658-692) as far as it reaches this
    module: [restoreSettings] (624-652) or [saveCurrentSettings]
    (609-622) for [templateEnabled], [cleanupAllResources] (292-336),
    which runs the registered module cleanup and empties the registry,
    and the [xiaobaixEnabledChanged] event. *)
Definition master_switch (b : bool) (lw : lworld) : lworld :=
  if Bool.eqb b (lw_xiaobaix lw) then lw else
  let lw := set_xiaobaix b lw in
  if b then
    let lw := match lw_saved lw with
              | Some v => set_checkbox (js_truthy v) (set_settings (obj_set j["enabled"] v (lw_settings lw)) lw)
              | None => lw
              end in
    dispatch_enabled_changed true lw
  else
    let lw := set_saved (obj_get j["enabled"] (lw_settings lw)) lw in
    let lw := if lw_cleanup_reg lw then template_cleanup lw else lw in
    let lw := set_checkbox false (set_enabled_prop false (set_cleanup_reg false lw)) in
    dispatch_enabled_changed false lw.

(** The behaviours of the page: a host event, a pending task, a tick or
    an edit of the chat as in [Handler.step]; an [innerHTML] write or
    new message elements, reaching the module only while its setter or
    observer is installed; a timer of the module; a click on the
    checkbox (disabled while the extension is off), on the editor,
    export or import buttons, a file chosen for the import; the
    extension's switch. *)
Inductive lstep : lworld -> lworld -> Prop :=
| LHost e lw : lstep lw (host_event e lw)
| LTask pre t post lw : w_pending (lw_handler lw) = pre ++ t :: post ->
    lstep lw (set_handler (@run_task (lhost lw) t (set_pending (pre ++ post) (lw_handler lw))) lw)
| LTick lw : streaming_timer (w_state (lw_handler lw)) = true ->
    lstep lw (set_handler (@streaming_tick (lhost lw) (lw_handler lw)) lw)
| LChat c lw : lstep lw (set_handler (set_chat c (lw_handler lw)) lw)
| LIntercept target has_wrapper value lw : lw_setter lw = true ->
    lstep lw (set_handler (@intercept (lhost lw) target has_wrapper value (lw_handler lw)).1 lw)
| LObserve ids lw : lw_observer lw = true ->
    lstep lw (set_handler (@observe_new_messages (lhost lw) ids (lw_handler lw)) lw)
| LTimer pre t post lw : lw_timers lw = pre ++ t :: post -> lstep lw (run_ltimer t (set_timers (pre ++ post) lw))
| LClick lw : lw_xiaobaix lw = true -> lstep lw (checkbox_click lw)
| LOpenEditor lw : lstep lw (Nat.iter (lw_copies lw) (add_ui UIOpenEditor) lw)
| LExport lw : lstep lw (Nat.iter (lw_copies lw) exportGlobal lw)
| LImportButton lw : lstep lw (Nat.iter (lw_copies lw) (add_ui UIFileDialog) lw)
| LImportFile text lw :
    lstep lw (Nat.iter (lw_copies lw) (fun p => importGlobal p.1 p.2) (Some text, lw)).2
| LMaster b lw : lstep lw (master_switch b lw).

(** The page load (index.js 999-1026): the checkbox shows the setting
    (840) and [initTemplateEditor] runs when the extension and the
    module are enabled. *)
Definition load (chat : list message) (s : list (jstr * jsval)) (xb : bool) : lworld :=
  let lw := LWorld (initial_world chat) s xb (settings_enabled s) false false 0 false None [] [] in
  if xb && settings_enabled s then initTemplateEditor lw else lw.

Definition lreachable (chat : list message) (s : list (jstr * jsval)) (xb : bool) (lw : lworld) : Prop :=
  rtc lstep (load chat s xb) lw.

(** ** Lemmas *)

Lemma settings_enabled_set (b : bool) (s : list (jstr * jsval)) :
  settings_enabled (obj_set j["enabled"] (JBool b) s) = b.
Proof. unfold settings_enabled. by rewrite obj_get_set_eq. Qed.

(** The fields a click's listeners share: registrations, the switch and
    the checkbox. *)
Definition same_panel (lw lw' : lworld) : Prop :=
  lw_copies lw' = lw_copies lw /\ lw_xiaobaix lw' = lw_xiaobaix lw /\ lw_checkbox lw' = lw_checkbox lw.

Lemma same_panel_iter (f : lworld -> lworld) (n : nat) (lw : lworld) :
  (forall y, same_panel y (f y)) -> same_panel lw (Nat.iter n f lw).
Proof.
  intros Hf. split_and!; apply iter_keep; intros y; by destruct (Hf y) as (? & ? & ?).
Qed.

Lemma template_cleanup_panel (lw : lworld) : same_panel lw (template_cleanup lw).
Proof. done. Qed.

Lemma template_input_panel (b : bool) (lw : lworld) : same_panel lw (template_input b lw).
Proof. unfold template_input, interceptor_setup. destruct b; cbn; [case_match|]; done. Qed.

Lemma enabled_changed_listener_panel (b : bool) (lw : lworld) : same_panel lw (enabled_changed_listener b lw).
Proof. by destruct b. Qed.

Lemma initTemplateEditor_panel (lw : lworld) :
  lw_copies (initTemplateEditor lw) = S (lw_copies lw) /\ lw_xiaobaix (initTemplateEditor lw) = lw_xiaobaix lw /\
  lw_checkbox (initTemplateEditor lw) = settings_enabled (lw_settings lw).
Proof. unfold initTemplateEditor. by case_match. Qed.

#[local] Hint Resolve template_cleanup_panel template_input_panel enabled_changed_listener_panel : core.

(** A click with the extension on flips the checkbox and, when it turns
    the module on, registers its listeners once more. *)
Lemma checkbox_click_panel (lw : lworld) :
  lw_xiaobaix lw = true ->
  lw_xiaobaix (checkbox_click lw) = true /\ lw_checkbox (checkbox_click lw) = negb (lw_checkbox lw) /\
  lw_copies (checkbox_click lw) = (if lw_checkbox lw then lw_copies lw else S (lw_copies lw)).
Proof.
  intros Hx. unfold checkbox_click.
  destruct (same_panel_iter (template_input (negb (lw_checkbox lw))) (lw_copies lw)
              (set_checkbox (negb (lw_checkbox lw)) lw)) as (Hc & Hx' & Hk); [auto|].
  remember (Nat.iter _ _ _) as lw1. cbn in Hc, Hx', Hk. clear Heqlw1.
  unfold template_change. rewrite Hx', Hx. cbn [negb].
  destruct (lw_checkbox lw); cbn [negb];
    [|match goal with |- context [initTemplateEditor ?l] => destruct (initTemplateEditor_panel l) as (-> & -> & ->) end];
    repeat case_match; cbn; by rewrite ?settings_enabled_set, ?Hx', ?Hk, ?Hc, ?Hx.
Qed.

Lemma host_event_pending (id : nat) (lw : lworld) :
  w_pending (lw_handler (host_event (MESSAGE_UPDATED id) lw)) =
  w_pending (lw_handler lw) ++ repeat (TProcess id) (lw_copies lw).
Proof. unfold host_event. cbn. by apply iter_snoc. Qed.

(** *** The invariant of the setter and the observer *)

(** The observer is connected only while the setter is patched, and
    nothing of the module runs before [initTemplateEditor]. *)
Definition linv (lw : lworld) : Prop :=
  (lw_observer lw = true -> lw_setter lw = true) /\
  (lw_copies lw = 0 -> lw_setter lw = false /\ lw_observer lw = false /\ lw_timers lw = []).

(** What every operation of the module keeps: the pair (setter,
    observer) unchanged, or patched and then observed, or both reset. *)
Definition hooks_ok (lw lw' : lworld) : Prop :=
  lw_copies lw <= lw_copies lw' /\
  (lw_observer lw' = true -> lw_setter lw' = true \/ (lw_observer lw = true /\ lw_setter lw' = lw_setter lw)) /\
  (lw_setter lw' = true -> lw_setter lw = true \/ 1 <= lw_copies lw') /\
  (lw_copies lw' = 0 -> (lw_observer lw' = true -> lw_observer lw = true) /\ lw_timers lw' = lw_timers lw).

Lemma hooks_ok_refl (lw : lworld) : hooks_ok lw lw.
Proof. unfold hooks_ok. naive_solver. Qed.

Lemma hooks_ok_trans (lw1 lw2 lw3 : lworld) : hooks_ok lw1 lw2 -> hooks_ok lw2 lw3 -> hooks_ok lw1 lw3.
Proof.
  unfold hooks_ok. intros (Hk1 & Ho1 & Hs1 & Hz1) (Hk2 & Ho2 & Hs2 & Hz2). split_and!; [lia| | |].
  - intros Ho. destruct (Ho2 Ho) as [|[Ho' ->]]; [by left|]. destruct (Ho1 Ho') as [|[? ->]]; [by left|by right].
  - intros Hs. destruct (Hs2 Hs) as [Hs'|]; [|by right]. destruct (Hs1 Hs') as [|]; [by left|right; lia].
  - intros H0. destruct Hz2 as [Ho3 ->]; [done|]. destruct Hz1 as [Ho2' ->]; [lia|]. naive_solver.
Qed.

Lemma linv_hooks (lw lw' : lworld) : linv lw -> hooks_ok lw lw' -> linv lw'.
Proof.
  unfold linv, hooks_ok. intros (Ho & Hz) (Hk & Hob & Hs & Hz'). split.
  - intros Ho'. destruct (Hob Ho') as [|[Ho1 ->]]; [done|by apply Ho].
  - intros H0. destruct (Hz ltac:(lia)) as (Hs0 & Ho0 & Ht0). destruct (Hz' H0) as [Ho1 ->].
    split_and!; [|destruct (lw_observer lw'); [rewrite Ho0 in Ho1; by discriminate Ho1|done]|done]. destruct (lw_setter lw') eqn:E; [|done].
    destruct (Hs eq_refl) as [Hs1|Hs1]; [congruence|lia].
Qed.

Lemma hooks_frame (lw lw' : lworld) :
  lw_copies lw' = lw_copies lw -> lw_observer lw' = lw_observer lw -> lw_setter lw' = lw_setter lw ->
  lw_timers lw' = lw_timers lw -> hooks_ok lw lw'.
Proof. intros Hk Ho Hs Ht. unfold hooks_ok. rewrite Hk, Ho, Hs, Ht. split_and!; auto. Qed.

(** Registered work: a timer may be added once a listener exists. *)
Lemma hooks_registered (lw lw' : lworld) :
  1 <= lw_copies lw -> lw_copies lw' = lw_copies lw ->
  (lw_observer lw' = true -> lw_setter lw' = true \/ (lw_observer lw = true /\ lw_setter lw' = lw_setter lw)) ->
  hooks_ok lw lw'.
Proof. intros Hk Hk' Ho. split_and!; [lia|done|intros _; right; lia|lia]. Qed.

Lemma hooks_cleanup (lw : lworld) : hooks_ok lw (template_cleanup lw).
Proof. split_and!; cbn; [lia|done|done|done]. Qed.

Lemma hooks_reapply (lw : lworld) : hooks_ok lw (reapply lw).
Proof. by apply hooks_frame. Qed.

Lemma hooks_init (lw : lworld) : hooks_ok lw (initTemplateEditor lw).
Proof.
  destruct (initTemplateEditor_panel lw) as (Hk & _ & _).
  unfold initTemplateEditor in *. split_and!; rewrite ?Hk; [lia| | |lia]; case_match; cbn; naive_solver.
Qed.

Lemma hooks_setup_all (lw : lworld) : 1 <= lw_copies lw -> hooks_ok lw (setup_all lw).
Proof.
  intros Hk. unfold setup_all, interceptor_setup. case_match; (apply hooks_registered; [done|done|]); cbn; naive_solver.
Qed.

Lemma hooks_template_input (b : bool) (lw : lworld) : 1 <= lw_copies lw -> hooks_ok lw (template_input b lw).
Proof.
  intros Hk. unfold template_input. destruct b; [|apply (hooks_ok_trans _ (updateStatus (set_enabled_prop false lw))); [by apply hooks_frame|apply hooks_cleanup]].
  unfold interceptor_setup. case_match; (apply hooks_registered; [done|done|]); cbn; naive_solver.
Qed.

Lemma hooks_listener (b : bool) (lw : lworld) : 1 <= lw_copies lw -> hooks_ok lw (enabled_changed_listener b lw).
Proof. intros Hk. destruct b; [apply hooks_registered; auto|apply hooks_cleanup]. Qed.

Lemma hooks_iter (f : lworld -> lworld) (lw : lworld) :
  (forall y, 1 <= lw_copies y -> hooks_ok y (f y)) -> hooks_ok lw (Nat.iter (lw_copies lw) f lw).
Proof.
  intros Hf. destruct (lw_copies lw) as [|n] eqn:E; [apply hooks_ok_refl|].
  assert (Hg : forall m, hooks_ok lw (Nat.iter m f lw)).
  { induction m as [|m IH]; [apply hooks_ok_refl|]. rewrite Nat.iter_succ.
    eapply hooks_ok_trans; [exact IH|]. apply Hf. destruct IH as (Hk & _). lia. }
  apply Hg.
Qed.

Lemma hooks_host_event (e : event) (lw : lworld) : hooks_ok lw (host_event e lw).
Proof.
  unfold host_event.
  apply (hooks_ok_trans _ (set_handler (Nat.iter (lw_copies lw) (handle_event e) (lw_handler lw)) lw));
    [by apply hooks_frame|].
  destruct e; try apply hooks_ok_refl. apply hooks_iter. intros y Hy. apply hooks_registered; [done|done|]. cbn. naive_solver.
Qed.

Lemma hooks_import (text : jstr) (lw : lworld) :
  hooks_ok lw (Nat.iter (lw_copies lw) (fun p => importGlobal p.1 p.2) (Some text, lw)).2.
Proof.
  destruct (lw_copies lw) as [|n] eqn:E; [apply hooks_ok_refl|].
  assert (Hg : forall m o, hooks_ok lw (Nat.iter m (fun p => importGlobal p.1 p.2) (o, lw)).2).
  { induction m as [|m IH]; intros o; [apply hooks_ok_refl|]. rewrite Nat.iter_succ.
    specialize (IH o). destruct (Nat.iter m _ _) as [[t|] y]; cbn in *; [|done].
    eapply hooks_ok_trans; [exact IH|]. apply hooks_registered; [destruct IH; lia|done|auto]. }
  apply Hg.
Qed.

#[local] Hint Resolve hooks_ok_refl hooks_cleanup hooks_reapply hooks_init hooks_setup_all
  hooks_template_input hooks_listener : core.

Lemma hooks_template_change (b : bool) (lw : lworld) : hooks_ok lw (template_change b lw).
Proof.
  unfold template_change. case_match; [apply hooks_ok_refl|].
  apply (hooks_ok_trans _ (set_enabled_prop b lw)); [by apply hooks_frame|].
  set (lw1 := set_enabled_prop b lw).
  apply (hooks_ok_trans _ (if lw_cleanup_reg lw1 then template_cleanup lw1 else lw1)); [case_match; auto|].
  destruct b; auto.
Qed.

Lemma hooks_checkbox_click (lw : lworld) : hooks_ok lw (checkbox_click lw).
Proof.
  unfold checkbox_click. eapply hooks_ok_trans; [|apply hooks_template_change].
  apply (hooks_ok_trans _ (set_checkbox (negb (lw_checkbox lw)) lw)); [by apply hooks_frame|].
  apply hooks_iter. auto.
Qed.

Lemma hooks_master_switch (b : bool) (lw : lworld) : hooks_ok lw (master_switch b lw).
Proof.
  unfold master_switch, dispatch_enabled_changed. case_match; [apply hooks_ok_refl|].
  destruct b; (eapply hooks_ok_trans; [|apply hooks_iter; auto]).
  - by repeat case_match; apply hooks_frame.
  - set (lw1 := set_saved _ (set_xiaobaix false lw)).
    apply (hooks_ok_trans _ (if lw_cleanup_reg lw1 then template_cleanup lw1 else lw1));
      [case_match; [apply (hooks_ok_trans _ lw1); [by apply hooks_frame|auto]|by apply hooks_frame]|].
    by apply hooks_frame.
Qed.

Lemma hooks_import_load (text : jstr) (lw : lworld) : 1 <= lw_copies lw -> hooks_ok lw (import_load text lw).
Proof. intros Hk. unfold import_load. repeat case_match; apply hooks_registered; cbn; auto. Qed.

Lemma hooks_run_ltimer (t : ltimer) (lw : lworld) : 1 <= lw_copies lw -> hooks_ok lw (run_ltimer t lw).
Proof.
  intros Hk. destruct t; cbn [run_ltimer]; auto using hooks_import_load.
  - case_match; auto.
  - unfold checkEmbeddedTemplate. case_match; [apply hooks_registered|]; auto.
  - case_match; [|by apply hooks_frame]. apply (hooks_ok_trans _ (updateStatus lw)); [by apply hooks_frame|auto].
Qed.

(** Every behaviour of the page keeps the invariant. *)
Lemma linv_step (lw lw' : lworld) : lstep lw lw' -> linv lw -> linv lw'.
Proof.
  intros Hs Hi. apply (linv_hooks lw); [done|].
  destruct Hs as [e lw|pre t post lw Ht|lw Ht|c lw|target hw value lw Ht|ids lw Ht|pre t post lw Ht
                 |lw Ht|lw|lw|lw|text lw|b lw];
    try (by apply hooks_frame);
    auto using hooks_host_event, hooks_checkbox_click, hooks_import, hooks_master_switch.
  - assert (Hk : 1 <= lw_copies lw).
    { destruct (lw_copies lw) eqn:E; [|lia]. destruct Hi as (_ & Hz). destruct (Hz E) as (_ & _ & Ht0).
      rewrite Ht0 in Ht. by destruct pre. }
    apply (hooks_ok_trans _ (set_timers (pre ++ post) lw)); [apply hooks_registered; cbn; naive_solver|].
    by apply hooks_run_ltimer.
  - apply hooks_iter. intros y _. by apply hooks_frame.
  - apply hooks_iter. intros y _. by apply hooks_frame.
  - apply hooks_iter. intros y _. by apply hooks_frame.
Qed.

Lemma linv_load (chat : list message) (s : list (jstr * jsval)) (xb : bool) : linv (load chat s xb).
Proof. unfold load, linv, initTemplateEditor. repeat case_match; cbn; naive_solver. Qed.

Lemma linv_rtc (lw lw' : lworld) : rtc lstep lw lw' -> linv lw -> linv lw'.
Proof. induction 1; eauto using linv_step. Qed.

Lemma import_load_obj (text : jstr) (ps : list (jstr * jsval)) (lw : lworld) :
  json_parse text = Some (JObj ps) ->
  import_load text lw = add_ui UIToastImported (add_timer LReapply (updateStatus
    (set_checkbox (checked_of (obj_get j["enabled"] ps)) (set_settings (obj_assign (lw_settings lw) (JObj ps)) lw)))).
Proof. intros Hp. unfold import_load. by rewrite Hp. Qed.

(** ** Properties *)

(** C18: Turning the template checkbox off and on registers every
    listener of the module once more ([initTemplateEditor] runs again
    from index.js's [change] listener and nothing removes the old
    ones): after [n] such cycles a [MESSAGE_UPDATED] event schedules
    [process] once per registration, and a click on the editor button
    opens as many editors. *)
Theorem template_toggle_duplicates_listeners (lw : lworld) (n id : nat) :
  lw_xiaobaix lw = true -> lw_checkbox lw = true ->
  let lw' := Nat.iter n (fun l => checkbox_click (checkbox_click l)) lw in
  lw_copies lw' = lw_copies lw + n /\
  w_pending (lw_handler (host_event (MESSAGE_UPDATED id) lw')) =
    w_pending (lw_handler lw') ++ repeat (TProcess id) (lw_copies lw + n) /\
  lw_ui (Nat.iter (lw_copies lw') (add_ui UIOpenEditor) lw') = lw_ui lw' ++ repeat UIOpenEditor (lw_copies lw + n).
Proof.
  intros Hx Hc lw'.
  assert (Hk : lw_xiaobaix lw' = true /\ lw_checkbox lw' = true /\ lw_copies lw' = lw_copies lw + n).
  { subst lw'. induction n as [|n (Hx' & Hc' & Hk')]; [by rewrite Nat.add_0_r|]. rewrite Nat.iter_succ.
    destruct (checkbox_click_panel _ Hx') as (Hx1 & Hc1 & Hk1).
    destruct (checkbox_click_panel _ Hx1) as (Hx2 & Hc2 & Hk2).
    rewrite Hc' in Hc1, Hk1. rewrite Hc1 in Hc2, Hk2. cbn in *. split_and!; [done|done|lia]. }
  destruct Hk as (_ & _ & Hk). split_and!; [done| |].
  - rewrite <- Hk. apply host_event_pending.
  - rewrite <- Hk. by apply iter_snoc.
Qed.

(** C19: In every state the page reaches from its load, through any
    interleaving of host events, timers, clicks, imports and the
    extension's switch, the message observer is connected only while
    the [innerHTML] setter is patched, and before [initTemplateEditor]
    first runs neither is installed and no timer of the module is
    pending. *)
Theorem module_hooks_invariant (chat : list message) (s : list (jstr * jsval)) (xb : bool) (lw : lworld) :
  lreachable chat s xb lw ->
  (lw_observer lw = true -> lw_setter lw = true) /\
  (lw_copies lw = 0 -> lw_setter lw = false /\ lw_observer lw = false /\ lw_timers lw = []).
Proof. intros Hr. apply (linv_rtc _ _ Hr), linv_load. Qed.

(** C20: Importing a settings file that turns the module on
    ([Object.assign] of [{"enabled": true, ...}]) enables the templates
    and checks the box, but unlike the checkbox it neither patches the
    [innerHTML] setter nor connects the observer, and schedules nothing
    that would: once its [reapplyAll] has run, the setter and the
    observer are as before. *)
Theorem import_enables_without_interceptor (lw : lworld) (text : jstr) (ps : list (jstr * jsval)) :
  json_parse text = Some (JObj ps) -> NoDup ps.*1 -> obj_get j["enabled"] ps = Some (JBool true) ->
  let lw' := run_ltimer LReapply (set_timers (lw_timers lw) (import_load text lw)) in
  settings_enabled (lw_settings lw') = true /\ lw_checkbox lw' = true /\
  lw_setter lw' = lw_setter lw /\ lw_observer lw' = lw_observer lw /\ lw_timers lw' = lw_timers lw.
Proof.
  intros Hp Hnd He lw'. subst lw'. rewrite (import_load_obj _ ps) by done. cbn -[obj_assign obj_get].
  unfold settings_enabled. rewrite obj_get_assign by done.
  cbn [lit String.list_ascii_of_string] in He |- *. by rewrite He.
Qed.

(** Importing a settings file without an [enabled] property leaves
    the templates enabled but unchecks the box ([prop("checked",
    data.enabled)] with [undefined]): the panel shows the module off
    while it runs. *)
Theorem import_without_enabled_unchecks (lw : lworld) (text : jstr) (ps : list (jstr * jsval)) :
  json_parse text = Some (JObj ps) -> obj_get j["enabled"] ps = None ->
  settings_enabled (lw_settings lw) = true ->
  settings_enabled (lw_settings (import_load text lw)) = true /\ lw_checkbox (import_load text lw) = false.
Proof.
  intros Hp He Hs. rewrite (import_load_obj _ ps) by done. cbn -[obj_assign obj_get].
  unfold settings_enabled in *. rewrite obj_get_assign_absent by done.
  cbn [lit String.list_ascii_of_string] in He, Hs |- *. by rewrite He.
Qed.

(** C21: The file [exportGlobal] downloads, read back by the import
    ([reader.onload] of [importGlobal]) on any page, whatever settings
    it has, gives every property of the exported settings object its
    exported value and leaves the page's other properties as they were;
    the checkbox shows the exported [enabled].  This holds for a
    settings object whose keys are distinct and not array indices and
    whose numbers print as they parse. *)
Theorem export_import_global_roundtrip (lw lw' : lworld) :
  plainb (JObj (lw_settings lw)) = true ->
  exists text, lw_ui (exportGlobal lw) = lw_ui lw ++ [UIDownload export_file_name text; UIToastExported] /\
    (forall k, obj_get k (lw_settings (import_load text lw')) =
       match obj_get k (lw_settings lw) with Some v => Some v | None => obj_get k (lw_settings lw') end) /\
    lw_checkbox (import_load text lw') = settings_enabled (lw_settings lw).
Proof.
  intros Hp. exists (json_pretty [] (JObj (lw_settings lw))). split; [cbn; by rewrite <- app_assoc|].
  rewrite (import_load_obj _ (lw_settings lw)) by (by apply json_parse_pretty). cbn -[obj_assign obj_get].
  split; [|done]. intros k. apply obj_get_assign.
  cbn [plainb] in Hp. apply andb_true_iff in Hp as [Hnd _]. by apply bool_decide_eq_true in Hnd.
Qed.

End Lifecycle.

(** ** Witnesses *)

Lemma template_toggle_duplicates_listeners_witness :
  lw_xiaobaix (load ex_chat ex_settings true) = true /\ lw_checkbox (load ex_chat ex_settings true) = true /\
  lw_copies (Nat.iter 2 (fun l => checkbox_click true (checkbox_click true l)) (load ex_chat ex_settings true)) = 3.
Proof.
  split_and!; [reflexivity|reflexivity|].
  exact (proj1 (template_toggle_duplicates_listeners true (load ex_chat ex_settings true) 2 0 eq_refl eq_refl)).
Defined.

Lemma module_hooks_invariant_witness :
  lreachable ex_host true false ex_chat ex_settings true (checkbox_click true (load ex_chat ex_settings true)) /\
  (lw_observer (checkbox_click true (load ex_chat ex_settings true)) = true ->
   lw_setter (checkbox_click true (load ex_chat ex_settings true)) = true).
Proof.
  assert (Hr : lreachable ex_host true false ex_chat ex_settings true (checkbox_click true (load ex_chat ex_settings true))).
  { apply rtc_once. apply LClick. reflexivity. }
  split; [exact Hr|]. exact (proj1 (module_hooks_invariant ex_host true false _ _ _ _ Hr)).
Defined.

Lemma import_enables_without_interceptor_witness :
  json_parse ex_file_on = Some (JObj [(j["enabled"], JBool true)]) /\
  lw_setter (checkbox_click true (load ex_chat ex_settings true)) = false /\
  settings_enabled (lw_settings (run_ltimer ex_host true false LReapply
    (set_timers (lw_timers (checkbox_click true (load ex_chat ex_settings true)))
       (import_load ex_file_on (checkbox_click true (load ex_chat ex_settings true)))))) = true.
Proof.
  assert (Hp : json_parse ex_file_on = Some (JObj [(j["enabled"], JBool true)])) by reflexivity.
  split_and!; [exact Hp|reflexivity|].
  refine (proj1 (import_enables_without_interceptor ex_host true false _ ex_file_on _ Hp _ eq_refl)).
  decide_closed.
Defined.

Lemma import_without_enabled_unchecks_witness :
  json_parse ex_file_bindings = Some (JObj [(j["characterBindings"], JObj [])]) /\
  lw_checkbox (import_load ex_file_bindings (load ex_chat ex_settings true)) = false.
Proof.
  assert (Hp : json_parse ex_file_bindings = Some (JObj [(j["characterBindings"], JObj [])])) by reflexivity.
  split; [exact Hp|].
  exact (proj2 (import_without_enabled_unchecks (load ex_chat ex_settings true) ex_file_bindings _ Hp eq_refl eq_refl)).
Defined.

(** Importing [ex_settings] on a page whose settings disable the
    module and bind a character: the bindings and [enabled] are the
    file's. *)
Lemma export_import_global_roundtrip_witness :
  plainb (JObj ex_settings) = true /\
  exists text, obj_get j["characterBindings"] (lw_settings (import_load text (load ex_chat ex_other_settings true))) =
                 Some (JObj []) /\
               lw_checkbox (import_load text (load ex_chat ex_other_settings true)) = true.
Proof.
  assert (Hp : plainb (JObj (lw_settings (load ex_chat ex_settings true))) = true) by reflexivity.
  split; [exact Hp|].
  destruct (export_import_global_roundtrip (load ex_chat ex_settings true) (load ex_chat ex_other_settings true) Hp)
    as (text & _ & Hs & Hc).
  exists text. split; [rewrite Hs; reflexivity|rewrite Hc; reflexivity].
Defined.

End Lifecycle.
