(* ===== verification/Startup.v ===== *)
(** * Start-up of the extension and its timers (src/index.js)

    The [jQuery] ready handler (1000-1069) reads [settings.enabled]
    into [isXiaobaixEnabled], builds the settings panel
    ([setupSettings], [Shell.shell_at_load]), registers the host event
    listeners when the extension is on ([setupEventListeners], 897-991),
    calls the [init] function of every enabled module, and sets four
    timers through [addGlobalTimer] (289-291): the menu tabs, the
    registration of the preview module's cleanup
    ([registerModuleCleanup], 278-280), a first pass over the chat and a
    five-second interval running [processExistingMessages].  The
    handlers of the message events schedule [processCodeBlocks] for
    their message (902-923) and [CHAT_CHANGED] schedules a pass over the
    chat (948-986), also through [addGlobalTimer].  Switching the
    extension off clears every registered timer ([cleanupAllResources]);
    switching it on schedules one pass over the chat (653).

    A [boot] joins the [Page] (the [Shell] state and the messages on
    screen) to the host's pending timers with their ids, the next id,
    and the [init] calls of the other modules, whose sources are not in
    the repository.  [bstep] interleaves the timers (in any order: the
    delays are not modelled), the host's message events, chat switches,
    messages added to the DOM without an event, and the switch. *)

From S2P Require Import Prelude JsValue Json Bridge Shell Page.
From stdpp Require Import gmap relations.

Module Startup.
Import Shell Page.

(** The timers of the extension's start-up and listeners. *)
Inductive btimer :=
| BMenuTabs          (** [setTimeout(setupMenuTabs, 500)] (1035-1036) *)
| BPreviewInit       (** [setTimeout(initMessagePreview, 1500)] (1029-1032) *)
| BPreviewCleanup    (** the [registerModuleCleanup('messagePreview', ...)] timer (1038-1042) *)
| BHistory           (** [timer3] (1044-1060): a pass over the chat *)
| BScan              (** the interval of 5000 ms (1062-1065) *)
| BChatScan          (** [chatChangedHandler]'s [timer1] (951-952) *)
| BChatStats         (** [chatChangedHandler]'s statistics timer (955-985) *)
| BToggleScan        (** [toggleAllFeatures(true)]'s pass over the chat (653) *)
| BHandle (mid : nat). (** [handleMessage]'s timer for [data] = [mid] (905-922) *)

(** [setInterval] repeats; the others run once. *)
Definition periodic (t : btimer) : bool := match t with BScan => true | _ => false end.

Record boot := Boot {
  bt_page : page;
  bt_pending : list (nat * btimer);  (** the host's pending timers, by id *)
  bt_next : nat;                     (** the id of the next [setTimeout] / [setInterval] *)
  bt_calls : list jstr               (** [init] functions of the other modules called, in order *)
}.

Definition bt_shell (b : boot) : shell := pg_shell (bt_page b).
Definition bt_settings (b : boot) : xsettings := sh_settings (bt_shell b).

Definition with_page (f : page -> page) (b : boot) : boot :=
  Boot (f (bt_page b)) (bt_pending b) (bt_next b) (bt_calls b).
Definition with_shell (f : shell -> shell) (b : boot) : boot :=
  with_page (fun pg => Page (f (pg_shell pg)) (pg_msgs pg)) b.
Definition call (f : jstr) (b : boot) : boot :=
  Boot (bt_page b) (bt_pending b) (bt_next b) (bt_calls b ++ [f]).

(** [setTimeout(f, d)] or [setInterval(f, d)]: the timer's id. *)
Definition set_timer (t : btimer) (b : boot) : nat * boot :=
  (bt_next b, Boot (bt_page b) (bt_pending b ++ [(bt_next b, t)]) (S (bt_next b)) (bt_calls b)).

(** [addGlobalTimer(timerId)] (289-291) *)
Definition addGlobalTimer (id : nat) (sh : shell) : shell :=
  Shell (sh_settings sh) (sh_active sh) (sh_saved sh) (sh_checked sh) (sh_depth_field sh)
        (sh_controls_enabled sh) (sh_listeners sh) (sh_timers sh ++ [id]) (sh_cleanups sh).

(** [registerModuleCleanup(name, fn)] (278-280): [Map.prototype.set]
    keeps an existing key in its place. *)
Definition registerModuleCleanup (name : jstr) (sh : shell) : shell :=
  Shell (sh_settings sh) (sh_active sh) (sh_saved sh) (sh_checked sh) (sh_depth_field sh)
        (sh_controls_enabled sh) (sh_listeners sh) (sh_timers sh)
        (if bool_decide (name ∈ sh_cleanups sh) then sh_cleanups sh else sh_cleanups sh ++ [name]).

(** [addGlobalTimer(setTimeout(...))] *)
Definition global_timer (t : btimer) (b : boot) : boot :=
  let '(id, b) := set_timer t b in with_shell (addGlobalTimer id) b.

(** [settings.<module>?.enabled] *)
Definition module_on (s : xsettings) (m : jstr) : bool := default false (module_enabled s m).

(** The modules whose [init] the ready handler calls (1023-1028). *)
Definition module_inits : list (jstr * jstr) :=
  [(j["tasks"], j["initTasks"]); (j["scriptAssistant"], j["initScriptAssistant"]);
   (j["immersive"], j["initImmersiveMode"]); (j["templateEditor"], j["initTemplateEditor"]);
   (j["wallhaven"], j["initWallhavenBackground"]); (j["characterUpdater"], j["initCharacterUpdater"])].

(** [if (isXiaobaixEnabled) { ... }] (1022-1032) *)
Definition init_modules (b : boot) : boot :=
  let s := bt_settings b in
  let b := fold_left (fun b mf => if module_on s mf.1 then call mf.2 b else b) module_inits b in
  if module_on s j["preview"] || module_on s j["recorded"] then global_timer BPreviewInit b else b.

(** The ready handler on the settings [s] and the chat [msgs] on
    screen.  The style sheet, [statsTracker.init] and the [APP_READY]
    listener (Update.v) are not modelled; [setupSettings] is awaited
    before anything else is registered. *)
Definition boot_init (s : xsettings) (msgs : list (list node)) : boot :=
  let b := Boot (Page (shell_at_load s) msgs) [] 0 [] in
  let b := if x_enabled s then with_shell setupEventListeners b else b in
  let b := if x_enabled s then init_modules b else b in
  let b := global_timer BMenuTabs b in
  let b := global_timer BPreviewCleanup b in
  let b := global_timer BHistory b in
  global_timer BScan b.

(** The six host events whose listener is [handleMessage]. *)
Definition message_events : list jstr :=
  [j["MESSAGE_RECEIVED"]; j["USER_MESSAGE_RENDERED"]; j["CHARACTER_MESSAGE_RENDERED"];
   j["MESSAGE_SWIPED"]; j["MESSAGE_EDITED"]; j["MESSAGE_UPDATED"]].

(** How many times a listener of [ev] is registered. *)
Definition registrations (ev : jstr) (sh : shell) : nat :=
  length (List.filter (fun e => bool_decide (e = ev)) (sh_listeners sh)).

Section Timers.
(** The text of the API script of [createIframeApi]. *)
Variable api : jstr.
(** [window.messagePreviewCleanup] is defined (by message-preview.js). *)
Variable preview_cleanup : bool.

(** [processExistingMessages()] *)
Definition process_existing (b : boot) : boot := with_page (page_process_existing api) b.

(** [processCodeBlocks] on the [.mes_text] of message [mid]; no element,
    no work.  The selector [.mes[mesid="mid"]] is read as the message at
    index [mid] of the page: the host numbers the [mesid] attributes of
    the messages on screen by their index in the chat. *)
Definition process_message (mid : nat) (b : boot) : boot :=
  with_page (fun pg => Page (pg_shell pg)
    (match pg_msgs pg !! mid with
     | Some ns => <[mid := processCodeBlocks api (sh_settings (pg_shell pg)) (sh_active (pg_shell pg)) ns]> (pg_msgs pg)
     | None => pg_msgs pg
     end)) b.

Definition run_timer (t : btimer) (b : boot) : boot :=
  match t with
  | BMenuTabs => b
  | BPreviewInit => call j["initMessagePreview"] b
  | BPreviewCleanup => if preview_cleanup then with_shell (registerModuleCleanup j["messagePreview"]) b else b
  | BHistory | BScan => if sh_active (bt_shell b) then process_existing b else b
  | BChatScan | BToggleScan => process_existing b
  | BChatStats => b
  | BHandle mid => if Nat.eqb mid 0 then b else process_message mid b   (** [if (!messageId) return;] *)
  end.

End Timers.

(** One registered copy of [handleMessage] for the message [mid]. *)
Definition handleMessage (mid : nat) (b : boot) : boot :=
  if negb (x_enabled (bt_settings b) && sh_active (bt_shell b)) then b else (set_timer (BHandle mid) b).2.

(** One registered copy of [chatChangedHandler]. *)
Definition chatChangedHandler (b : boot) : boot :=
  if negb (sh_active (bt_shell b)) then b else
  let b := global_timer BChatScan b in
  if x_memoryEnabled (bt_settings b) then global_timer BChatStats b else b.

Definition message_event (ev : jstr) (mid : nat) (b : boot) : boot :=
  Nat.iter (registrations ev (bt_shell b)) (handleMessage mid) b.

(** The host switches to a chat whose messages are [msgs]. *)
Definition chat_changed (msgs : list (list node)) (b : boot) : boot :=
  let b := with_page (fun pg => Page (pg_shell pg) msgs) b in
  Nat.iter (registrations j["CHAT_CHANGED"] (bt_shell b)) chatChangedHandler b.

(** [clearTimeout(id); clearInterval(id)] for every id of [globalTimers]. *)
Definition cancel (ids : list nat) (pending : list (nat * btimer)) : list (nat * btimer) :=
  List.filter (fun p => negb (bool_decide (p.1 ∈ ids))) pending.

(** The switch [#xiaobaix_enabled] set to [v]: the page's change
    ([Page.page_enabled_change]) with the timers: off clears the
    registered ones, on sets the pass of [toggleAllFeatures(true)]. *)
Definition switch (v : bool) (b : boot) : boot :=
  let was := x_enabled (bt_settings b) in
  let ids := sh_timers (bt_shell b) in
  let b' := with_page (page_enabled_change v) b in
  if bool_decide (v <> was) then
    if v then (set_timer BToggleScan b').2
    else Boot (bt_page b') (cancel ids (bt_pending b')) (bt_next b') (bt_calls b')
  else b'.

Section Steps.
Variable api : jstr.
Variable preview_cleanup : bool.

Inductive bstep : boot -> boot -> Prop :=
| BFire pre id t post b : bt_pending b = pre ++ (id, t) :: post ->
    bstep b (run_timer api preview_cleanup t
               (Boot (bt_page b) (if periodic t then bt_pending b else pre ++ post) (bt_next b) (bt_calls b)))
| BMessage ev mid b : ev ∈ message_events -> bstep b (message_event ev mid b)
| BChat msgs b : bstep b (chat_changed msgs b)
| BAppend ns b : bstep b (with_page (fun pg => Page (pg_shell pg) (pg_msgs pg ++ [ns])) b)
| BSwitch v b : bstep b (switch v b).

Definition boot_reach (s : xsettings) (msgs : list (list node)) (b : boot) : Prop :=
  rtc bstep (boot_init s msgs) b.

End Steps.

(** A chat of two messages, each with a code block the pass renders. *)
Definition ex_msgs : list (list node) :=
  [[NPre 0 false false j["<script>go()</script>"]]; [NPre 1 false false j["<script>go()</script>"]]].

(** The ready handler on the default settings (extension on, memory on). *)
Definition ex_boot : boot := boot_init default_settings ex_msgs.

(** ** Lemmas *)

(** The timers [cleanupAllResources] must clear: all but the pass of
    [toggleAllFeatures(true)] and [handleMessage]'s. *)
Definition registered_kind (t : btimer) : bool :=
  match t with BToggleScan | BHandle _ => false | _ => true end.

(** [isXiaobaixEnabled] follows [settings.enabled], the host listeners
    are registered once while it is on and not at all while it is off,
    and every pending timer set through [addGlobalTimer] is in
    [globalTimers]. *)
Definition binv (b : boot) : Prop :=
  sh_active (bt_shell b) = x_enabled (bt_settings b) /\
  sh_listeners (bt_shell b) = (if x_enabled (bt_settings b) then listener_events else []) /\
  (forall id t, (id, t) ∈ bt_pending b -> registered_kind t = true -> id ∈ sh_timers (bt_shell b)).

(** [b'] has no pending timer that [b] does not have, but of a kind [P]. *)
Definition adds_only (P : btimer -> Prop) (b b' : boot) : Prop :=
  forall id t, (id, t) ∈ bt_pending b' -> (id, t) ∈ bt_pending b \/ P t.

Lemma binv_change (b b' : boot) :
  binv b ->
  x_enabled (bt_settings b') = x_enabled (bt_settings b) -> sh_active (bt_shell b') = sh_active (bt_shell b) ->
  sh_listeners (bt_shell b') = sh_listeners (bt_shell b) ->
  sh_timers (bt_shell b) ⊆ sh_timers (bt_shell b') ->
  (forall id t, (id, t) ∈ bt_pending b' -> registered_kind t = true ->
     (id, t) ∈ bt_pending b \/ id ∈ sh_timers (bt_shell b')) ->
  binv b'.
Proof.
  intros (Ha & Hl & Ht) He Ha' Hl' Hsub Hp. split_and!; [congruence|by rewrite Hl', He|].
  intros id t Hin Hk. destruct (Hp id t Hin Hk) as [Hin'|]; [apply Hsub; by apply (Ht id t)|done].
Qed.

Ltac binv_tac H := apply (binv_change _ _ H); cbn; try done; try set_solver.

Lemma binv_global_timer (t : btimer) (b : boot) : binv b -> binv (global_timer t b).
Proof. intros H. binv_tac H. Qed.

Lemma binv_set_timer (t : btimer) (b : boot) : registered_kind t = false -> binv b -> binv (set_timer t b).2.
Proof.
  intros Hk H. binv_tac H. intros id t' [Hin|[= -> ->]%list_elem_of_singleton]%elem_of_app Hk'; [by left|congruence].
Qed.

Lemma binv_call (f : jstr) (b : boot) : binv b -> binv (call f b).
Proof. intros H. binv_tac H. Qed.

(** A change of the messages only. *)
Lemma binv_msgs (f : list (list node) -> list (list node)) (b : boot) :
  binv b -> binv (with_page (fun pg => Page (pg_shell pg) (f (pg_msgs pg))) b).
Proof. intros H. binv_tac H. Qed.

Lemma binv_init_modules (b : boot) : binv b -> binv (init_modules b).
Proof.
  intros H. unfold init_modules. set (s := bt_settings b).
  assert (Hf : forall l b, binv b -> binv (fold_left (fun b mf => if module_on s mf.1 then call mf.2 b else b) l b)).
  { induction l as [|mf l IH]; intros b' Hb; [done|]. cbn. apply IH. case_match; [by apply binv_call|done]. }
  case_match; [apply binv_global_timer|]; by apply Hf.
Qed.

Lemma binv_init (s : xsettings) (msgs : list (list node)) : binv (boot_init s msgs).
Proof.
  unfold boot_init. repeat apply binv_global_timer.
  destruct (x_enabled s) eqn:E; [apply binv_init_modules|];
    unfold binv, with_shell, with_page, bt_shell, bt_settings, setupEventListeners;
    cbn -[checked_at_load]; rewrite E; cbn -[checked_at_load]; rewrite ?E;
    (split_and!; [done|done|intros ?? Hin; by apply elem_of_nil in Hin]).
Qed.


Lemma binv_iter (f : boot -> boot) (n : nat) (b : boot) :
  (forall b, binv b -> binv (f b)) -> binv b -> binv (Nat.iter n f b).
Proof. intros Hf. by apply Nat.iter_invariant. Qed.

Lemma binv_handleMessage (mid : nat) (b : boot) : binv b -> binv (handleMessage mid b).
Proof. intros H. unfold handleMessage. case_match; [done|by apply binv_set_timer]. Qed.

Lemma binv_chatChangedHandler (b : boot) : binv b -> binv (chatChangedHandler b).
Proof.
  intros H. unfold chatChangedHandler. case_match; [done|].
  case_match; repeat apply binv_global_timer; done.
Qed.

Lemma binv_message_event (ev : jstr) (mid : nat) (b : boot) : binv b -> binv (message_event ev mid b).
Proof. intros H. apply binv_iter; [apply binv_handleMessage|done]. Qed.

Lemma binv_chat_changed (msgs : list (list node)) (b : boot) : binv b -> binv (chat_changed msgs b).
Proof. intros H. apply binv_iter; [apply binv_chatChangedHandler|by binv_tac H]. Qed.

Lemma binv_run_timer (api : jstr) (pc : bool) (t : btimer) (b : boot) : binv b -> binv (run_timer api pc t b).
Proof. intros H. destruct t; cbn [run_timer]; repeat case_match; try done; by binv_tac H. Qed.

Lemma binv_fire (pre post : list (nat * btimer)) (id : nat) (t : btimer) (b : boot) :
  bt_pending b = pre ++ (id, t) :: post -> binv b ->
  binv (Boot (bt_page b) (if periodic t then bt_pending b else pre ++ post) (bt_next b) (bt_calls b)).
Proof.
  intros Hp H. binv_tac H. intros id' t' Hin _. left. case_match; [done|]. rewrite Hp. set_solver.
Qed.

Lemma toggle_on_timers (sh : shell) : sh_timers (toggle_on sh) = sh_timers sh.
Proof. unfold toggle_on, setupEventListeners. by case_match. Qed.

Lemma switch_shell (v : bool) (b : boot) : bt_shell (switch v b) = enabled_change v (bt_shell b).
Proof. unfold switch. by repeat case_match. Qed.

Lemma switch_pending (v : bool) (b : boot) :
  bt_pending (switch v b) =
  if bool_decide (v <> x_enabled (bt_settings b)) then
    (if v then bt_pending b ++ [(bt_next b, BToggleScan)] else cancel (sh_timers (bt_shell b)) (bt_pending b))
  else bt_pending b.
Proof. unfold switch. by repeat case_match. Qed.

Lemma elem_of_cancel (ids : list nat) (ps : list (nat * btimer)) (p : nat * btimer) :
  p ∈ cancel ids ps <-> p ∈ ps /\ p.1 ∉ ids.
Proof.
  unfold cancel. rewrite list_elem_of_In, filter_In, <- list_elem_of_In.
  by rewrite negb_true_iff, bool_decide_eq_false.
Qed.

Lemma binv_switch (v : bool) (b : boot) : binv b -> binv (switch v b).
Proof.
  intros H. pose proof H as (Ha & Hl & Ht).
  unfold binv, bt_settings. rewrite switch_shell, switch_pending.
  destruct (decide (v = x_enabled (bt_settings b))) as [Hv|Hv].
  - rewrite bool_decide_false by tauto. rewrite enabled_change_same by done.
    cbn. unfold bt_settings in *. rewrite <- Hv in Ha, Hl. split_and!; [done|done|]. exact Ht.
  - rewrite bool_decide_true by done. unfold bt_settings in *.
    rewrite enabled_change_toggles by (destruct v, (x_enabled (sh_settings (bt_shell b))); done).
    destruct v; cbn [toggleAllFeatures].
    + assert (Hoff : x_enabled (sh_settings (bt_shell b)) = false) by (destruct (x_enabled _); done).
      destruct (toggle_on_flags (set_enabled true (bt_shell b))) as (He & _ & _ & _ & Hact & _).
      rewrite He, Hact, toggle_on_listeners, toggle_on_timers by done. cbn. rewrite Hoff in Hl. rewrite Hl.
      split_and!; [done|done|]. intros id t [Hin|[= -> ->]%list_elem_of_singleton]%elem_of_app Hk; [|done].
      by apply (Ht id t).
    + destruct (toggle_off_flags (set_enabled false (bt_shell b))) as (He & _ & _ & _ & _ & Hact & _ & Hl' & Ht' & _).
      rewrite He, Hact, Hl', Ht'. cbn. split_and!; [done|done|].
      intros id t [Hin Hid]%elem_of_cancel Hk. destruct Hid. by apply (Ht id t).
Qed.

Lemma binv_step (api : jstr) (pc : bool) (b b' : boot) : bstep api pc b b' -> binv b -> binv b'.
Proof.
  intros Hs H. destruct Hs as [pre id t post b Hp|ev mid b _|msgs b|ns b|v b].
  - by apply binv_run_timer, (binv_fire pre post id).
  - by apply binv_message_event.
  - by apply binv_chat_changed.
  - by binv_tac H.
  - by apply binv_switch.
Qed.

Lemma binv_reach (api : jstr) (pc : bool) (s : xsettings) (msgs : list (list node)) (b : boot) :
  boot_reach api pc s msgs b -> binv b.
Proof.
  unfold boot_reach. intros Hr. remember (boot_init s msgs) as b0 eqn:E.
  assert (H0 : binv b0) by (subst; apply binv_init). clear E.
  induction Hr; eauto using binv_step.
Qed.


(** The timers a step may set: the pass of [toggleAllFeatures(true)],
    [chatChangedHandler]'s two and [handleMessage]'s. *)
Definition step_kind (t : btimer) : Prop :=
  t = BToggleScan \/ t = BChatScan \/ t = BChatStats \/ exists mid, t = BHandle mid.

Lemma adds_only_same (P : btimer -> Prop) (b b' : boot) : bt_pending b' = bt_pending b -> adds_only P b b'.
Proof. intros E id t. rewrite E. by left. Qed.

Lemma adds_only_trans (P : btimer -> Prop) (b1 b2 b3 : boot) :
  adds_only P b1 b2 -> adds_only P b2 b3 -> adds_only P b1 b3.
Proof. intros H12 H23 id t Hin. destruct (H23 id t Hin) as [Hin'|]; [apply (H12 id t Hin')|]; by right. Qed.

Lemma adds_only_iter (P : btimer -> Prop) (f : boot -> boot) (n : nat) (b : boot) :
  (forall b, adds_only P b (f b)) -> adds_only P b (Nat.iter n f b).
Proof.
  intros Hf. induction n as [|n IH]; [by apply adds_only_same|].
  rewrite Nat.iter_succ. eapply adds_only_trans; [exact IH|apply Hf].
Qed.

Lemma adds_only_set_timer (P : btimer -> Prop) (t : btimer) (b : boot) : P t -> adds_only P b (set_timer t b).2.
Proof. intros Ht id t' [Hin|[= -> ->]%list_elem_of_singleton]%elem_of_app; [by left|by right]. Qed.

Lemma adds_only_global_timer (P : btimer -> Prop) (t : btimer) (b : boot) : P t -> adds_only P b (global_timer t b).
Proof. apply adds_only_set_timer. Qed.

Lemma run_timer_pending (api : jstr) (pc : bool) (t : btimer) (b : boot) :
  bt_pending (run_timer api pc t b) = bt_pending b.
Proof. destruct t; cbn [run_timer]; by repeat case_match. Qed.

Lemma run_timer_timers (api : jstr) (pc : bool) (t : btimer) (b : boot) :
  sh_timers (bt_shell (run_timer api pc t b)) = sh_timers (bt_shell b).
Proof. destruct t; cbn [run_timer]; by repeat case_match. Qed.

Lemma bstep_adds_only (api : jstr) (pc : bool) (b b' : boot) : bstep api pc b b' -> adds_only step_kind b b'.
Proof.
  intros Hs. destruct Hs as [pre id t post b Hp|ev mid b _|msgs b|ns b|v b].
  - intros id' t' Hin. left. rewrite run_timer_pending in Hin. cbn in Hin.
    case_match; [done|]. rewrite Hp. set_solver.
  - apply adds_only_iter. intros b'. unfold handleMessage. case_match; [by apply adds_only_same|].
    apply adds_only_set_timer. unfold step_kind. eauto.
  - unfold chat_changed. apply (adds_only_trans _ _ (with_page (fun pg => Page (pg_shell pg) msgs) b));
      [by apply adds_only_same|].
    apply adds_only_iter. intros b'. unfold chatChangedHandler. case_match; [by apply adds_only_same|].
    case_match; [eapply adds_only_trans|]; apply adds_only_global_timer; unfold step_kind; eauto.
  - by apply adds_only_same.
  - intros id t. rewrite switch_pending. case_match; [|by left]. destruct v.
    + intros [Hin|[= -> ->]%list_elem_of_singleton]%elem_of_app; [by left|right; by left].
    + intros [Hin _]%elem_of_cancel. by left.
Qed.


Lemma no_scan_rtc (api : jstr) (pc : bool) (b b' : boot) :
  rtc (bstep api pc) b b' -> (forall id, (id, BScan) ∉ bt_pending b) -> forall id, (id, BScan) ∉ bt_pending b'.
Proof.
  induction 1 as [|b1 b2 b3 Hs _ IH]; [done|]. intros Hn. apply IH. intros id Hin.
  destruct (bstep_adds_only _ _ _ _ Hs id BScan Hin) as [Hin'|Hk]; [by apply (Hn id)|].
  by destruct Hk as [?|[?|[?|[? ?]]]].
Qed.

(** While the extension is on, each listener of [setupEventListeners]
    is registered once. *)
Lemma registrations_on (ev : jstr) (sh : shell) :
  sh_listeners sh = listener_events -> ev ∈ j["CHAT_CHANGED"] :: message_events -> registrations ev sh = 1.
Proof.
  unfold registrations. intros ->.
  intros Hev. repeat (apply elem_of_cons in Hev as [->|Hev]; [reflexivity|]). by apply elem_of_nil in Hev.
Qed.

Lemma global_timer_pending (t : btimer) (b : boot) : (bt_next b, t) ∈ bt_pending (global_timer t b).
Proof. cbn. set_solver. Qed.

Lemma global_timer_shell (t : btimer) (b : boot) :
  bt_settings (global_timer t b) = bt_settings b /\ sh_active (bt_shell (global_timer t b)) = sh_active (bt_shell b) /\
  length (sh_timers (bt_shell (global_timer t b))) = S (length (sh_timers (bt_shell b))).
Proof. split_and!; [done|done|]. cbn. rewrite length_app. unfold bt_shell. cbn. lia. Qed.

Lemma chat_changed_timers (msgs : list (list node)) (b : boot) :
  binv b -> x_enabled (bt_settings b) = true ->
  binv (chat_changed msgs b) /\ bt_settings (chat_changed msgs b) = bt_settings b /\
  length (sh_timers (bt_shell (chat_changed msgs b))) =
    length (sh_timers (bt_shell b)) + (if x_memoryEnabled (bt_settings b) then 2 else 1).
Proof.
  intros H He. split; [by apply binv_chat_changed|]. destruct H as (Ha & Hl & _).
  set (b0 := with_page (fun pg => Page (pg_shell pg) msgs) b).
  assert (E0 : bt_shell b0 = bt_shell b) by reflexivity.
  assert (E1 : chat_changed msgs b = chatChangedHandler b0).
  { unfold chat_changed. fold b0. rewrite E0, registrations_on; [done| |by left]. by rewrite Hl, He. }
  assert (Hs : bt_settings b0 = bt_settings b) by (unfold bt_settings; by rewrite E0).
  rewrite E1. unfold chatChangedHandler. rewrite E0, Ha, He. cbn [negb].
  destruct (global_timer_shell BChatScan b0) as (Hs1 & _ & Hl1). rewrite Hs1, Hs.
  destruct (x_memoryEnabled (bt_settings b)).
  - destruct (global_timer_shell BChatStats (global_timer BChatScan b0)) as (Hs2 & _ & Hl2).
    rewrite Hs2, Hs1, Hs, Hl2, Hl1, E0. split; [done|lia].
  - rewrite Hl1, E0. split; [done|lia].
Qed.

(** ** Properties *)

(** C22: The five-second interval that runs [processExistingMessages]
    is set by the ready handler and registered in [globalTimers]; once
    the switch is turned off, [cleanupAllResources] clears it and nothing
    sets it again: in every state reached after that, whatever the
    events, chat switches and later switch changes, no periodic pass
    over the chat is pending. *)
Theorem periodic_scan_lost_after_off (api : jstr) (pc : bool) (s : xsettings) (msgs : list (list node)) (b b' : boot) :
  boot_reach api pc s msgs b -> x_enabled (bt_settings b) = true -> rtc (bstep api pc) (switch false b) b' ->
  (exists id, (id, BScan) ∈ bt_pending (boot_init s msgs)) /\ forall id, (id, BScan) ∉ bt_pending b'.
Proof.
  intros Hr He Hr'. split; [eexists; apply global_timer_pending|].
  apply (no_scan_rtc api pc (switch false b)); [done|]. intros id.
  destruct (binv_reach _ _ _ _ _ Hr) as (_ & _ & Ht).
  rewrite switch_pending, bool_decide_true by (rewrite He; done).
  intros [Hin Hid]%elem_of_cancel. apply Hid, (Ht id BScan Hin). done.
Qed.

(** C24: [globalTimers] keeps the id of every timer set through
    [addGlobalTimer] until the switch is turned off: a timer that fires
    leaves its id, and while the extension is on each [CHAT_CHANGED]
    adds one id, two when the memory is enabled, so [n] chat switches
    grow it by [n] or [2n]. *)
Theorem global_timers_grow (api : jstr) (pc : bool) (s : xsettings) (msgs c : list (list node)) (b : boot) (n : nat) :
  boot_reach api pc s msgs b -> x_enabled (bt_settings b) = true ->
  length (sh_timers (bt_shell (Nat.iter n (chat_changed c) b))) =
    length (sh_timers (bt_shell b)) + n * (if x_memoryEnabled (bt_settings b) then 2 else 1) /\
  (forall t, sh_timers (bt_shell (run_timer api pc t b)) = sh_timers (bt_shell b)).
Proof.
  intros Hr He. split; [|intros t; apply run_timer_timers].
  assert (Hi : binv (Nat.iter n (chat_changed c) b) /\ bt_settings (Nat.iter n (chat_changed c) b) = bt_settings b /\
               length (sh_timers (bt_shell (Nat.iter n (chat_changed c) b))) =
               length (sh_timers (bt_shell b)) + n * (if x_memoryEnabled (bt_settings b) then 2 else 1)).
  { induction n as [|n (Hb & Hs & Hl)]; [split_and!; [by apply (binv_reach api pc s msgs)|done|simpl; lia]|].
    rewrite Nat.iter_succ. destruct (chat_changed_timers c _ Hb) as (Hb' & Hs' & Hl'); [by rewrite Hs|].
    split_and!; [done|congruence|]. rewrite Hl', Hl, Hs. lia. }
  apply Hi.
Qed.

(** C23: A message event for message [mid] while the extension is on
    schedules one [processCodeBlocks] for that message, and the timer
    renders its code blocks, except for the first message of the chat:
    [if (!messageId) return;] takes the id [0] for a missing one, so
    the greeting's code blocks are only rendered by the passes over the
    chat. *)
Theorem message_event_skips_first (api : jstr) (pc : bool) (s : xsettings) (msgs : list (list node)) (b : boot)
    (ev : jstr) (mid : nat) :
  boot_reach api pc s msgs b -> ev ∈ message_events -> x_enabled (bt_settings b) = true ->
  bt_pending (message_event ev mid b) = bt_pending b ++ [(bt_next b, BHandle mid)] /\
  pg_msgs (bt_page (run_timer api pc (BHandle mid) (message_event ev mid b))) =
    if Nat.eqb mid 0 then pg_msgs (bt_page b)
    else match pg_msgs (bt_page b) !! mid with
         | Some ns => <[mid := processCodeBlocks api (bt_settings b) true ns]> (pg_msgs (bt_page b))
         | None => pg_msgs (bt_page b)
         end.
Proof.
  intros Hr Hev He. destruct (binv_reach _ _ _ _ _ Hr) as (Ha & Hl & _). unfold bt_settings in *.
  unfold message_event. rewrite registrations_on; [|by rewrite Hl, He|by right].
  change (Nat.iter 1 ?f ?x) with (f x). unfold handleMessage, bt_settings. rewrite Ha, He. cbn.
  split; [done|]. destruct (Nat.eqb mid 0); [done|]. unfold process_message, bt_shell in *. cbn. by rewrite Ha, He.
Qed.


(** ** Witnesses *)

Lemma periodic_scan_lost_after_off_witness :
  x_enabled (bt_settings ex_boot) = true /\
  forall id, (id, BScan) ∉ bt_pending (switch true (switch false ex_boot)).
Proof.
  split; [reflexivity|].
  exact (proj2 (periodic_scan_lost_after_off j["api"] false default_settings ex_msgs ex_boot _
                  (rtc_refl _ _) eq_refl (rtc_once _ _ (BSwitch _ _ _ _)))).
Defined.

Lemma global_timers_grow_witness :
  x_enabled (bt_settings ex_boot) = true /\
  length (sh_timers (bt_shell (Nat.iter 2 (chat_changed ex_msgs) ex_boot))) = 9.
Proof.
  split; [reflexivity|].
  rewrite (proj1 (global_timers_grow j["api"] false default_settings ex_msgs ex_msgs ex_boot 2 (rtc_refl _ _) eq_refl)).
  reflexivity.
Defined.

Lemma message_event_skips_first_witness :
  x_enabled (bt_settings ex_boot) = true /\
  pg_msgs (bt_page (run_timer j["api"] false (BHandle 0) (message_event j["MESSAGE_RECEIVED"] 0 ex_boot))) = ex_msgs.
Proof.
  split; [reflexivity|].
  exact (proj2 (message_event_skips_first j["api"] false default_settings ex_msgs ex_boot j["MESSAGE_RECEIVED"] 0
                  (rtc_refl _ _) (proj2 (elem_of_cons _ _ _) (or_introl eq_refl)) eq_refl)).
Defined.

End Startup.
