(* ===== verification/LiveUpdate.v ===== *)
(** * Live update of a template iframe (src/template-editor.js)

    A rendered template is a document whose placeholders [replaceVars]
    wrapped in [<bdi data-xiaobaix-var="name">value</bdi>] (812).  The
    bridge script [getInlineScript] (875-939) writes into the iframe
    defines [window.updateTemplateVariables] (887-909): for every entry
    of [Object.entries(variables)] it selects the elements whose
    [data-xiaobaix-var] the selector [[data-xiaobaix-var="${varName}"]]
    matches and sets their [textContent] to the value stringified as
    [replaceVars] does; then it calls the template's
    [window.updateAllData] if there is one, fires [contentUpdated] and
    sends its height.  [IframeManager.updateVariables] (998-1019) calls
    it in the message's iframe, at once when the document is loaded and
    on its [load] event otherwise, inside a [try].

    The iframe's document is the list of the [bdi] elements of the
    placeholders in document order, each with its variable name and its
    text.  [tagged_of] reads them off the rendered template by following
    the HTML tokenizer ([html_step]) on the template's text: a
    placeholder in data state whose name and value contain no character
    the parser would change ([<], [&], a double quote, CR, NUL) becomes a [bdi]
    holding exactly its value.  Where the tokenizer does something the
    model does not follow (a placeholder inside a tag, a comment or a
    script, tables and the other [unmodelled_tags], a template that
    writes [data-xiaobaix-var] itself, a value with markup, which
    [replaceVars] renders as markup but the update writes as text),
    [tagged_of] is [None].

    The selector is a CSS attribute selector whose value is a CSS string
    token ([selector_of], CSS Syntax 4.3.5): it matches the attribute
    value the string token spells when the token ends at the closing
    quote; a line break in the string makes a bad string and
    [querySelectorAll] throws a [SyntaxError]; any other selector (a
    name whose quote ends the string early, a hexadecimal escape) is a
    section parameter [exotic], the elements it selects or its throw.
    The template's own scripts and [el.style.display = ''] are not
    modelled. *)

From S2P Require Import Prelude JsValue Json Render.
From stdpp Require Import list.

Module LiveUpdate.
Import Json Render.

(** An element tagged by [replaceVars]: its [data-xiaobaix-var] and its
    [textContent]. *)
Record tagged := Tagged { tg_var : jstr; tg_text : jstr }.

(** ** The HTML parse of a rendered template

    The states of the HTML tokenizer the model follows, character by
    character, on the text between placeholders.  It errs on one side
    only: where it cannot follow the parser it goes to [HBad], and the
    document is then outside the model. *)
Inductive hstate :=
| HData                           (** data: text and tags *)
| HLt                             (** after [<] *)
| HStartName (n : jstr)           (** a start tag's name, lower case *)
| HAttrs (n : jstr)               (** in the start tag, between attributes *)
| HAttrEq (n : jstr)              (** after [=] *)
| HAttrQ (n : jstr) (q : ascii)   (** in a value quoted by [q] *)
| HAttrUnq (n : jstr)             (** in an unquoted value *)
| HEndTag                         (** [</...], up to [>] *)
| HBang (dash : bool)             (** after [<!] or [<!-] *)
| HComment (dashes : nat)         (** in a comment, after that many [-] *)
| HDecl                           (** [<!DOCTYPE ...>] and other [<!...>] *)
| HRaw (n : jstr) (tail : jstr)   (** raw text of element [n]; [tail] a prefix of its end tag *)
| HBad.

#[export] Instance hstate_eq_dec : EqDecision hstate.
Proof. solve_decision. Defined.

Definition to_lower (c : ascii) : ascii :=
  if (65 <=? code c) && (code c <=? 90) then ascii_of_nat (code c + 32) else c.











(** ** The selector

    [querySelectorAll(`[data-xiaobaix-var="${varName}"]`)]: the string
    token that starts after the first quote. *)
Inductive sel_result :=
| SelMatches (v : jstr)   (** the elements whose attribute is [v] *)
| SelThrows               (** a bad string: [SyntaxError] *)
| SelOther.               (** another selector *)

Definition css_newline (c : ascii) : bool := is_ch c 10 || is_ch c 12 || is_ch c 13.
Definition is_hex (c : ascii) : bool :=
  is_digit c || ((97 <=? code (to_lower c)) && (code (to_lower c) <=? 102)).

(** The string token's characters ([acc] reversed), then what follows
    it: [SelMatches] when exactly the closing bracket follows. *)
Fixpoint css_string (fuel : nat) (s acc : jstr) : sel_result :=
  match fuel with
  | 0 => SelOther
  | S f =>
    match s with
    | [] => SelOther
    | c :: r =>
      if is_ch c 34 then (if bool_decide (r = j["]"]) then SelMatches (rev acc) else SelOther)
      else if css_newline c then SelThrows
      else if is_ch c 92 then
        match r with
        | [] => SelOther
        | d :: r' =>
          if is_ch d 13 then (match r' with e :: r'' => if is_ch e 10 then css_string f r'' acc else css_string f r' acc
                                            | [] => css_string f r' acc end)
          else if css_newline d then css_string f r' acc
          else if is_hex d || is_ch d 0 then SelOther
          else css_string f r' (d :: acc)
        end
      else if is_ch c 0 then SelOther
      else css_string f r (c :: acc)
    end
  end.

Definition selector_of (k : jstr) : sel_result := css_string (S (length k)) (k ++ [dq] ++ j["]"]) [].

(** A name that the string token spells as itself. *)
Definition css_plain (c : ascii) : bool := negb (is_ch c 34 || is_ch c 92 || css_newline c || is_ch c 0).

(** What the update does besides the elements. *)
Inductive update_effect :=
| EUpdateAllData        (** [window.updateAllData()] *)
| EContentUpdated       (** [window.dispatchEvent(new Event('contentUpdated'))] *)
| EResize (height : nat). (** [STBridge.updateHeight()]: a [resize] message *)

(** The message's iframe: loaded or not, the bridge function defined
    or not, the template's hook, its height, its tagged elements, the
    effects so far and the updates waiting for [load]. *)
Record frame := Frame {
  fr_loaded : bool;            (** [contentDocument.readyState === 'complete'] *)
  fr_bridge : bool;            (** [contentWindow.updateTemplateVariables] is defined *)
  fr_updateAllData : bool;
  fr_height : nat;
  fr_els : list tagged;
  fr_effects : list update_effect;
  fr_on_load : list jsval      (** the [load] listeners, by their [vars] *)
}.

Section update.

(** What a selector of another shape selects, or [None] when it throws. *)
Context (exotic : jstr -> option (tagged -> bool)).

(** The elements [querySelectorAll] returns for the entry [k], or
    [None] when it throws. *)
Definition select (k : jstr) : option (tagged -> bool) :=
  match selector_of k with
  | SelMatches v => Some (fun el => bool_decide (tg_var el = v))
  | SelThrows => None
  | SelOther => exotic k
  end.

(** [elements.forEach(el => { el.textContent = ... })] for one entry;
    the text is the value stringified as in [replaceVars]. *)
Definition set_var_text (sel : tagged -> bool) (v : jsval) (els : list tagged) : list tagged :=
  map (fun el => if sel el then Tagged (tg_var el) (render_value (Some v)) else el) els.

(** [Object.entries(variables).forEach(...)]: the first entry whose
    selector throws ends the loop; the writes before it stay.  The
    boolean says whether it threw. *)
Fixpoint update_entries (kvs : list (jstr * jsval)) (els : list tagged) : list tagged * bool :=
  match kvs with
  | [] => (els, false)
  | (k, v) :: r => match select k with Some sel => update_entries r (set_var_text sel v els) | None => (els, true) end
  end.

(** [window.updateTemplateVariables(variables)] in a document whose
    template defines [updateAllData] or not and whose body is [height]
    pixels high. *)
Definition updateTemplateVariables (has_updateAllData : bool) (height : nat) (vars : jsval) (els : list tagged)
    : list tagged * list update_effect * bool :=
  let '(els', threw) := update_entries (enum_entries vars) els in
  if threw then (els', [], true)
  else (els', (if has_updateAllData then [EUpdateAllData] else []) ++ [EContentUpdated] ++
              (if Nat.ltb 0 height then [EResize height] else []), false).

(** [update()] of [updateVariables]: the exception is caught and logged. *)
Definition run_update (vars : jsval) (fr : frame) : frame :=
  if negb (fr_bridge fr) then fr else
  let '(els, effs, _) := updateTemplateVariables (fr_updateAllData fr) (fr_height fr) vars (fr_els fr) in
  Frame (fr_loaded fr) (fr_bridge fr) (fr_updateAllData fr) (fr_height fr) els (fr_effects fr ++ effs) (fr_on_load fr).


(** The iframe's [load] event: the waiting updates run in order, once
    ([{ once: true }]). *)
Definition frame_load (fr : frame) : frame :=
  fold_left (fun fr vars => run_update vars fr) (fr_on_load fr)
    (Frame true (fr_bridge fr) (fr_updateAllData fr) (fr_height fr) (fr_els fr) (fr_effects fr) []).

End update.

Definition ex_els0 : list tagged := [Tagged j["mood"] j["calm"]; Tagged j["hp"] j["3"]].
(** Variables whose second name holds a line break. *)
Definition ex_newline : list (jstr * jsval) :=
  [(j["mood"], JStr j["angry"]); (j["a"] ++ [ascii_of_nat 10] ++ j["b"], JNum (num_of_N 1)); (j["hp"], JNum (num_of_N 2))].

(** ** Lemmas *)

(** An element after the entries [kvs] with plain names: the last
    entry of its name wins. *)
Definition update_one (kvs : list (jstr * jsval)) (el : tagged) : tagged :=
  match obj_get (tg_var el) (reverse kvs) with
  | Some v => Tagged (tg_var el) (render_value (Some v))
  | None => el
  end.

Lemma update_one_nil (els : list tagged) : map (update_one []) els = els.
Proof. induction els as [|el els IH]; [done|]. cbn. by rewrite IH. Qed.

Lemma update_one_set (k : jstr) (v : jsval) (kvs : list (jstr * jsval)) (els : list tagged) :
  map (update_one kvs) (set_var_text (fun el => bool_decide (tg_var el = k)) v els) =
  map (update_one ((k, v) :: kvs)) els.
Proof.
  unfold set_var_text. rewrite map_map. apply map_ext. intros el. unfold update_one.
  rewrite reverse_cons, obj_get_app.
  assert (Hv : tg_var (if bool_decide (tg_var el = k) then Tagged (tg_var el) (render_value (Some v)) else el)
               = tg_var el) by (by case_bool_decide).
  rewrite Hv. destruct (obj_get (tg_var el) (reverse kvs)); [done|]. cbn.
  case_bool_decide as E; [by rewrite decide_True|by rewrite decide_False].
Qed.

(** The string token of a plain name spells the name. *)
Lemma css_string_plain (k acc : jstr) (f : nat) :
  length k < f -> forallb css_plain k = true -> css_string f (k ++ [dq] ++ j["]"]) acc = SelMatches (rev acc ++ k).
Proof.
  revert acc f. induction k as [|c k IH]; intros acc [|f] Hf Hk; cbn in Hf; try lia.
  - cbn. by rewrite app_nil_r.
  - cbn in Hk. apply andb_true_iff in Hk as [Hc Hk]. unfold css_plain in Hc.
    apply negb_true_iff, orb_false_iff in Hc as [Hc H0]. apply orb_false_iff in Hc as [Hc Hnl].
    apply orb_false_iff in Hc as [Hq Hb].
    cbn [app css_string]. rewrite Hq, Hnl, Hb, H0, IH by (done || lia). cbn [rev]. by rewrite <- app_assoc.
Qed.

Lemma selector_of_plain (k : jstr) : forallb css_plain k = true -> selector_of k = SelMatches k.
Proof. intros Hk. unfold selector_of. rewrite css_string_plain by (done || lia). done. Qed.

(** A line break before any quote or backslash makes a bad string. *)
Lemma css_string_newline (a rest acc : jstr) (f : nat) :
  length a < f -> forallb css_plain a = true -> css_string f (a ++ ascii_of_nat 10 :: rest) acc = SelThrows.
Proof.
  revert acc f. induction a as [|c a IH]; intros acc [|f] Hf Ha; cbn in Hf; try lia; [done|].
  cbn in Ha. apply andb_true_iff in Ha as [Hc Ha]. unfold css_plain in Hc.
  apply negb_true_iff, orb_false_iff in Hc as [Hc H0]. apply orb_false_iff in Hc as [Hc Hnl].
  apply orb_false_iff in Hc as [Hq Hb].
  cbn [app css_string]. rewrite Hq, Hnl, Hb, H0. apply IH; [lia|done].
Qed.

Lemma selector_of_newline (a b : jstr) :
  forallb css_plain a = true -> selector_of (a ++ ascii_of_nat 10 :: b) = SelThrows.
Proof.
  intros Ha. unfold selector_of. rewrite <- app_assoc. cbn [app].
  apply css_string_newline; [rewrite length_app; cbn; lia|done].
Qed.

Section lemmas.

Context (exotic : jstr -> option (tagged -> bool)).

Lemma select_plain (k : jstr) :
  forallb css_plain k = true -> select exotic k = Some (fun el => bool_decide (tg_var el = k)).
Proof. intros Hk. unfold select. by rewrite selector_of_plain. Qed.

(** The entries before [rest] whose names are plain are written in
    full. *)
Lemma update_entries_app_ok (pre rest : list (jstr * jsval)) (els : list tagged) :
  Forall (fun kv => forallb css_plain kv.1 = true) pre ->
  update_entries exotic (pre ++ rest) els = update_entries exotic rest (map (update_one pre) els).
Proof.
  revert els. induction pre as [|[k v] pre IH]; intros els Hok; [by rewrite update_one_nil|].
  apply Forall_cons in Hok as [Hk Hok]. cbn in Hk |- *. rewrite select_plain, IH by done.
  by rewrite update_one_set.
Qed.


End lemmas.







(** ** Properties *)

Section properties.

Context (exotic : jstr -> option (tagged -> bool)).


(** C27: A variable whose name holds a line break (before any quote or
    backslash) makes the selector of [updateTemplateVariables] a bad
    string, and [querySelectorAll] throws: the entries after it are not
    written, [updateAllData] and [contentUpdated] do not run and no
    height is sent; [updateVariables] catches the error. *)
Theorem live_update_newline_aborts (has : bool) (h : nat) (vars : jsval) (pre post : list (jstr * jsval))
    (a b : jstr) (v : jsval) (els : list tagged) :
  enum_entries vars = pre ++ (a ++ ascii_of_nat 10 :: b, v) :: post ->
  Forall (fun kv => forallb css_plain kv.1 = true) pre -> forallb css_plain a = true ->
  updateTemplateVariables exotic has h vars els = (map (update_one pre) els, [], true).
Proof.
  intros Hv Hpre Ha. unfold updateTemplateVariables. rewrite Hv, update_entries_app_ok by done.
  cbn. unfold select. by rewrite selector_of_newline.
Qed.

End properties.

(** ** Witnesses *)


Lemma live_update_newline_aborts_witness :
  updateTemplateVariables (fun _ => None) false 120 (JObj ex_newline) ex_els0 =
  (map (update_one [(j["mood"], JStr j["angry"])]) ex_els0, [], true).
Proof.
  apply (live_update_newline_aborts (fun _ => None) false 120 (JObj ex_newline) [(j["mood"], JStr j["angry"])]
           [(j["hp"], JNum (num_of_N 2))] j["a"] j["b"] (JNum (num_of_N 1))); [reflexivity| |reflexivity].
  repeat constructor.
Defined.

End LiveUpdate.
