(* ===== verification/FrameWait.v ===== *)
(** * Waiting for a template iframe (src/template-editor.js)

    [IframeManager.sendUpdate] (942-957) awaits
    [IframeManager.waitForIframe] (959-996) and posts a
    [VARIABLE_UPDATE] message to the iframe it resolves with.
    [waitForIframe] returns a cached, loaded iframe at once; otherwise
    its promise checks the DOM ([checkIframe]): a loaded iframe resolves
    it, an iframe still loading gets a [load] listener that will.  When
    that first check finds no iframe, a missing message element resolves
    it with [null]; else a [MutationObserver] repeats the check on every
    change of the message, and a timer of [maxAttempts * delay] ms
    (1000 ms) disconnects the observer and resolves with [null].  When
    the first check finds an iframe still loading, the function returns
    before the timer is set.

    A [wait] is the state of one promise: its result, whether the
    observer is connected, whether a [load] listener waits, the
    remaining milliseconds of the timer, and the DOM as far as the
    promise sees it (the message's iframe: absent, loading or loaded).
    [wstep] is what can happen next: a change of the message's DOM, the
    iframe's [load] event, a millisecond of the clock, the timer. *)

From S2P Require Import Prelude JsValue.
From stdpp Require Import list relations.

Module FrameWait.

(** [maxAttempts * delay] with the defaults [20] and [50]. *)
Definition wait_budget : nat := 20 * 50.

Record wait := Wait {
  wt_result : option bool;   (** pending, or resolved with the iframe ([true]) or [null] ([false]) *)
  wt_observing : bool;       (** the [MutationObserver] is connected *)
  wt_on_load : bool;         (** a [load] listener calls [resolve(iframe)] *)
  wt_timer : option nat;     (** the milliseconds before the timeout, if it is set *)
  wt_iframe : option bool    (** [document.querySelector(selector)]: absent, or loaded or not *)
}.

(** [resolve(v)]: a promise settles once. *)
Definition resolve (b : bool) (w : wait) : wait :=
  match wt_result w with
  | Some _ => w
  | None => Wait (Some b) (wt_observing w) (wt_on_load w) (wt_timer w) (wt_iframe w)
  end.

Definition set_on_load (w : wait) : wait :=
  Wait (wt_result w) (wt_observing w) true (wt_timer w) (wt_iframe w).
Definition set_observing (o : bool) (w : wait) : wait :=
  Wait (wt_result w) o (wt_on_load w) (wt_timer w) (wt_iframe w).
Definition set_wait_timer (t : option nat) (w : wait) : wait :=
  Wait (wt_result w) (wt_observing w) (wt_on_load w) t (wt_iframe w).
Definition set_iframe (d : option bool) (w : wait) : wait :=
  Wait (wt_result w) (wt_observing w) (wt_on_load w) (wt_timer w) d.

(** [checkIframe()] (967-979): whether an iframe was found. *)
Definition checkIframe (w : wait) : bool * wait :=
  match wt_iframe w with
  | Some true => (true, resolve true w)
  | Some false => (true, set_on_load w)
  | None => (false, w)
  end.

(** [waitForIframe(messageId)] up to the return of its executor: the
    cached iframe is loaded or not, the message element is present or
    not, and the DOM holds the message's iframe [dom]. *)
Definition waitForIframe (cached_ready message_present : bool) (dom : option bool) : wait :=
  if cached_ready then Wait (Some true) false false None dom else
  let '(found, w) := checkIframe (Wait None false false None dom) in
  if found then w
  else if negb message_present then resolve false w
  else set_wait_timer (Some wait_budget) (set_observing true w).

(** A change of the message's subtree to [dom]: the observer's
    callback checks again and disconnects once an iframe is found. *)
Definition dom_change (dom : option bool) (w : wait) : wait :=
  let w := set_iframe dom w in
  if wt_observing w then
    let '(found, w) := checkIframe w in if found then set_observing false w else w
  else w.

(** The iframe's [load] event: the listener runs once. *)
Definition iframe_load (w : wait) : wait :=
  let w := set_iframe (Some true) w in
  if wt_on_load w then Wait (wt_result (resolve true w)) (wt_observing w) false (wt_timer w) (wt_iframe w) else w.

(** A millisecond passes; at zero the timer runs
    [observer.disconnect(); resolve(null)]. *)
Definition clock (w : wait) : wait :=
  match wt_timer w with
  | Some (S n) => set_wait_timer (Some n) w
  | Some 0 => set_wait_timer None (resolve false (set_observing false w))
  | None => w
  end.

Inductive wstep : wait -> wait -> Prop :=
| WDom dom w : wstep w (dom_change dom w)
| WLoad w : wt_iframe w = Some false -> wstep w (iframe_load w)
| WClock w : wstep w (clock w).

(** The message [sendUpdate] posts. *)
Record variable_update := VariableUpdate { vu_messageId : nat; vu_variables : jsval }.

(** [sendUpdate(messageId, vars)] once the wait has settled: an iframe
    gets the message, [null] nothing; a pending wait has posted nothing
    yet. *)
Definition sendUpdate (mid : nat) (vars : jsval) (w : wait) : option variable_update :=
  match wt_result w with
  | Some true => Some (VariableUpdate mid vars)
  | _ => None
  end.

(** The steps of a run in which the iframe's [load] event never comes
    (the iframe is removed or never finishes loading). *)
Inductive wstep_noload : wait -> wait -> Prop :=
| NDom dom w : wstep_noload w (dom_change dom w)
| NClock w : wstep_noload w (clock w).

(** ** Lemmas *)

(** An invariant of the steps holds along every run. *)
Lemma rtc_preserved {A} (R : relation A) (P : A -> Prop) :
  (forall x y, R x y -> P x -> P y) -> forall x y, rtc R x y -> P x -> P y.
Proof. intros HP x y H. induction H; eauto. Qed.

Lemma wstep_noload_wstep (w w' : wait) : wstep_noload w w' -> wstep w w'.
Proof. destruct 1; constructor. Qed.

Lemma resolve_result (b : bool) (w : wait) :
  wt_result (resolve b w) = Some (default b (wt_result w)).
Proof. destruct w as [[r|] o l t d]; reflexivity. Qed.

Lemma resolve_timer (b : bool) (w : wait) : wt_timer (resolve b w) = wt_timer w.
Proof. destruct w as [[r|] o l t d]; reflexivity. Qed.

(** While the promise is pending, the timer is set and at most
    [wait_budget] away. *)
Definition timer_armed (w : wait) : Prop :=
  wt_result w = None -> exists n, n <= wait_budget /\ wt_timer w = Some n.

(** A change of the DOM and a [load] event leave the timer, and a
    promise they leave pending was pending. *)
Lemma dom_change_frame (dom : option bool) (w : wait) :
  wt_timer (dom_change dom w) = wt_timer w /\ (wt_result (dom_change dom w) = None -> wt_result w = None).
Proof. destruct w as [[r|] [|] l t d], dom as [[|]|]; cbn; split; auto; discriminate. Qed.

Lemma iframe_load_frame (w : wait) :
  wt_timer (iframe_load w) = wt_timer w /\ (wt_result (iframe_load w) = None -> wt_result w = None).
Proof. destruct w as [[r|] o [|] t d]; cbn; split; auto; discriminate. Qed.

Lemma timer_armed_step (w w' : wait) : wstep w w' -> timer_armed w -> timer_armed w'.
Proof.
  intros Hs Ha Hr. destruct Hs as [dom w|w _|w].
  - destruct (dom_change_frame dom w) as [-> Hp]. by apply Ha, Hp.
  - destruct (iframe_load_frame w) as [-> Hp]. by apply Ha, Hp.
  - unfold clock in *. destruct (wt_timer w) as [[|n]|] eqn:E; cbn in *.
    + rewrite resolve_result in Hr. discriminate.
    + destruct (Ha Hr) as (m & Hm & Em). rewrite E in Em. injection Em as Em. subst m. exists n. split; [unfold wait_budget in *; lia|done].
    + destruct (Ha Hr) as (m & _ & Em). congruence.
Qed.

(** [n + 1] milliseconds after the timer shows [n], the promise has
    settled; a pending one settles with [null]. *)
Lemma clock_settles (n : nat) (w : wait) :
  wt_timer w = Some n -> wt_result (Nat.iter (S n) clock w) = Some (default false (wt_result w)).
Proof.
  revert w. induction n as [|n IH]; intros w Ht.
  - cbn. unfold clock. rewrite Ht. cbn. rewrite resolve_result. done.
  - rewrite Nat.iter_succ_r. unfold clock at 2. rewrite Ht. rewrite IH; done.
Qed.

(** The clock alone makes a run without [load]. *)
Lemma clock_noload_rtc (k : nat) (w : wait) : rtc wstep_noload w (Nat.iter k clock w).
Proof.
  induction k as [|k IH]; [done|]. rewrite Nat.iter_succ. eapply rtc_r; [exact IH|apply NClock].
Qed.

(** On a run without [load], a wait with a [load] listener, no timer and
    no observer stays as it is. *)
Definition stuck (w : wait) : Prop :=
  wt_result w = None /\ wt_timer w = None /\ wt_observing w = false.

Lemma stuck_noload (w w' : wait) : wstep_noload w w' -> stuck w -> stuck w'.
Proof.
  intros Hs (Hr & Ht & Ho). destruct Hs as [dom w|w].
  - unfold dom_change. cbn. rewrite Ho. done.
  - unfold clock. rewrite Ht. done.
Qed.

(** ** Properties *)

(** C28: When the first check finds no iframe, [waitForIframe]'s wait is
    bounded: in every state the promise reaches, whatever the changes of
    the message and the [load] events, a pending promise has its timer
    set at most [maxAttempts * delay] ms away, and when that many
    milliseconds have passed it has settled with [null]. *)
Theorem wait_settles_by_timeout (mp : bool) (w : wait) :
  rtc wstep (waitForIframe false mp None) w -> wt_result w = None ->
  exists n, n <= wait_budget /\ wt_timer w = Some n /\ wt_result (Nat.iter (S n) clock w) = Some false.
Proof.
  intros Hr Hp.
  assert (Ha : timer_armed w).
  { apply (rtc_preserved _ _ timer_armed_step _ _ Hr).
    destruct mp; cbn; [intros _; by exists wait_budget|done]. }
  destruct (Ha Hp) as (n & Hn & Ht). exists n. split_and!; [done|done|].
  rewrite clock_settles by done. by rewrite Hp.
Qed.

(** C29: When the first check finds the iframe still loading,
    [waitForIframe] returns before setting its timer: on every run in
    which the iframe's [load] event does not come (it is removed, or
    re-rendered), the promise stays pending with no timer and no
    observer, and [sendUpdate] never posts; the wait is not bounded. *)
Theorem wait_unbounded_while_loading (mp : bool) (mid : nat) (vars : jsval) (w : wait) :
  rtc wstep_noload (waitForIframe false mp (Some false)) w ->
  wt_result w = None /\ wt_timer w = None /\ sendUpdate mid vars w = None.
Proof.
  intros Hr. assert (Hs : stuck w).
  { by apply (rtc_preserved _ _ stuck_noload _ _ Hr). }
  destruct Hs as (Hres & Ht & _). unfold sendUpdate. by rewrite Hres.
Qed.

(** ** Witnesses *)

(** The iframe appears loading, is found by the observer, and never
    loads: the timer still settles the promise with [null]. *)
Lemma wait_settles_by_timeout_witness :
  exists n, n <= wait_budget /\
    wt_timer (dom_change (Some false) (waitForIframe false true None)) = Some n /\
    wt_result (Nat.iter (S n) clock (dom_change (Some false) (waitForIframe false true None))) = Some false.
Proof.
  apply (wait_settles_by_timeout true); [apply rtc_once, WDom|reflexivity].
Defined.

(** The loading iframe is removed: nothing ever settles the promise. *)
Lemma wait_unbounded_while_loading_witness :
  wt_result (Nat.iter 5000 clock (dom_change None (waitForIframe false true (Some false)))) = None.
Proof.
  refine (proj1 (wait_unbounded_while_loading true 0 (JObj []) _ _)).
  eapply rtc_l; [apply NDom|apply clock_noload_rtc].
Defined.

End FrameWait.
