(* ===== verification/DomCache.v ===== *)
(** * The DOM lookup cache (src/template-editor.js)

    [state.getElement(selector, parent)] (42-51) memoises
    [parent.querySelector(selector)] in [state.caches.dom] under the key
    [doc-<selector>] or [el-<selector>], and returns a cached element
    as long as it is still connected ([cached?.isConnected]), without
    asking whether it still matches the selector.  [state.clear()]
    (36-40) empties the cache on a change of conversation.

    The document is the list of its connected elements in document
    order; an element has an identity, its attributes and the
    attributes of its ancestors, and the selector engine
    ([Element.matches]) is a parameter of the section.  The cache maps
    keys to identities; the element it returns is the one of that
    identity in the current document, as a reference would be. *)

From S2P Require Import Prelude JsValue.
From stdpp Require Import list strings gmap.

Module DomCache.

Definition attrs := list (jstr * jstr).

Record element := Element {
  el_id : nat;
  el_attrs : attrs;
  el_ancestors : list (nat * attrs)   (** the ancestors' identities and attributes *)
}.

(** The connected elements in document order. *)
Definition document := list element.

(** [caches.dom] *)
Notation dom_cache := (gmap jstr nat).

(** The element with identity [id], if it is connected. *)
Definition find_element (id : nat) (doc : document) : option element :=
  find (fun e => bool_decide (el_id e = id)) doc.

Definition cache_key (sel : jstr) (parent : option nat) : jstr :=
  (if parent is None then j["doc"] else j["el"]) ++ j["-"] ++ sel.

Section dom_cache.

Context (matches : jstr -> element -> bool).

(** [parent.querySelector(selector)]: the first matching descendant of
    [parent], or of the document. *)
Definition querySelector (sel : jstr) (parent : option nat) (doc : document) : option element :=
  find (fun e => matches sel e &&
                 match parent with
                 | None => true
                 | Some p => bool_decide (p ∈ (el_ancestors e).*1)
                 end) doc.

(** [state.getElement(selector, parent)] *)
Definition getElement (sel : jstr) (parent : option nat) (doc : document) (cache : dom_cache) :
    option element * dom_cache :=
  let key := cache_key sel parent in
  match cache !! key ≫= fun id => find_element id doc with
  | Some e => (Some e, cache)
  | None =>
      match querySelector sel parent doc with
      | Some e => (Some e, <[key := el_id e]> cache)
      | None => (None, cache)
      end
  end.

(** [state.caches.dom.clear()] in [state.clear()] *)
Definition cache_clear (cache : dom_cache) : dom_cache := ∅.

(** The cache agrees with the document: every connected element cached
    under a document key is what [querySelector] now returns. *)
Definition fresh (doc : document) (cache : dom_cache) : Prop :=
  forall sel id e, cache !! cache_key sel None = Some id -> find_element id doc = Some e ->
  querySelector sel None doc = Some e.

End dom_cache.

(** The selector of a message's template iframe, built by
    [waitForIframe] (960) and [updateVariables] (999). *)
Definition iframe_selector (mid : jstr) : jstr :=
  j["#chat .mes[mesid="] ++ [dq] ++ mid ++ [dq] ++ j["] iframe.xiaobaix-iframe"].

(** [Element.matches] on the selectors [iframe_selector mid]: an
    element inside a message whose [mesid] attribute is [mid]. *)
Definition iframe_engine (sel : jstr) (e : element) : bool :=
  existsb (fun a => existsb (fun kv => bool_decide (kv.1 = j["mesid"] /\ sel = iframe_selector kv.2)) a.2)
          (el_ancestors e).

(** A chat whose messages 5 and 6 hold a template iframe each, and the
    same chat once message 4 is deleted and the host has renumbered the
    [mesid] attributes of the messages after it. *)
Definition mes (id : nat) (mid : jstr) : nat * attrs := (id, [(j["class"], j["mes"]); (j["mesid"], mid)]).
Definition ex_before : document :=
  [Element 5 [(j["class"], j["xiaobaix-iframe"])] [mes 50 j["5"]];
   Element 6 [(j["class"], j["xiaobaix-iframe"])] [mes 60 j["6"]]].
Definition ex_after : document :=
  [Element 5 [(j["class"], j["xiaobaix-iframe"])] [mes 50 j["4"]];
   Element 6 [(j["class"], j["xiaobaix-iframe"])] [mes 60 j["5"]]].

(** ** Lemmas *)

Lemma find_element_id (id : nat) (doc : document) (e : element) :
  find_element id doc = Some e -> el_id e = id.
Proof. intros [_ H]%find_some. by apply bool_decide_eq_true in H. Qed.

Lemma find_element_elem (doc : document) (e : element) :
  NoDup (el_id <$> doc) -> e ∈ doc -> find_element (el_id e) doc = Some e.
Proof.
  induction doc as [|e' doc IH]; [by intros _ ?%elem_of_nil|].
  rewrite fmap_cons. intros [Hn Hd]%NoDup_cons [->|Hin]%elem_of_cons; cbn.
  - by rewrite bool_decide_true.
  - rewrite bool_decide_false; [by apply IH|].
    intros Heq. apply Hn. rewrite Heq. by apply list_elem_of_fmap_2.
Qed.

Lemma querySelector_elem (matches : jstr -> element -> bool) (sel : jstr) (parent : option nat) (doc : document) (e : element) :
  querySelector matches sel parent doc = Some e -> e ∈ doc.
Proof. by intros [?%list_elem_of_In _]%find_some. Qed.

Lemma cache_key_doc_inj (sel sel' : jstr) : cache_key sel None = cache_key sel' None -> sel = sel'.
Proof. unfold cache_key; cbn. intros H. by simplify_list_eq. Qed.

Lemma cache_key_doc_el (sel sel' : jstr) (p : nat) : cache_key sel None <> cache_key sel' (Some p).
Proof. by unfold cache_key. Qed.

Section lookups.

Context (matches : jstr -> element -> bool).

Lemma fresh_empty (doc : document) : fresh matches doc ∅.
Proof. intros sel id e Hl. by rewrite lookup_empty in Hl. Qed.

Lemma fresh_insert_doc (sel : jstr) (doc : document) (cache : dom_cache) (e : element) :
  NoDup (el_id <$> doc) -> fresh matches doc cache -> querySelector matches sel None doc = Some e ->
  fresh matches doc (<[cache_key sel None := el_id e]> cache).
Proof.
  intros Hnd Hf Hq sel' id e' Hl He.
  destruct (decide (cache_key sel None = cache_key sel' None)) as [Hk|Hk].
  - rewrite <-Hk, lookup_insert_eq in Hl. injection Hl as <-. apply cache_key_doc_inj in Hk as <-.
    rewrite find_element_elem in He; [congruence|done|by eapply querySelector_elem].
  - rewrite lookup_insert_ne in Hl by done. by eapply Hf.
Qed.

Lemma fresh_insert_el (sel : jstr) (p id : nat) (doc : document) (cache : dom_cache) :
  fresh matches doc cache -> fresh matches doc (<[cache_key sel (Some p) := id]> cache).
Proof.
  intros Hf sel' id' e Hl. rewrite lookup_insert_ne in Hl by apply not_eq_sym, cache_key_doc_el. by apply Hf.
Qed.

(** A lookup under any parent keeps the cache fresh. *)
Lemma getElement_fresh (sel : jstr) (parent : option nat) (doc : document) (cache : dom_cache) :
  NoDup (el_id <$> doc) -> fresh matches doc cache -> fresh matches doc (getElement matches sel parent doc cache).2.
Proof.
  intros Hnd Hf. unfold getElement.
  destruct (cache !! cache_key sel parent ≫= _); [done|].
  destruct (querySelector matches sel parent doc) as [e|] eqn:Hq; [|done]. cbn.
  destruct parent as [p|]; [by apply fresh_insert_el|by apply fresh_insert_doc].
Qed.

(** ** Properties *)

(** C30: Between two changes of the document, [state.getElement] on the
    document implements [document.querySelector]: from a cache that
    agrees with the document (the empty one, after [state.clear()],
    for instance), it returns what [querySelector] returns, and it leaves
    the cache agreeing with the document. *)
Theorem getElement_refines_query (sel : jstr) (doc : document) (cache : dom_cache) :
  NoDup (el_id <$> doc) -> fresh matches doc cache ->
  (getElement matches sel None doc cache).1 = querySelector matches sel None doc /\
  fresh matches doc (getElement matches sel None doc cache).2.
Proof.
  intros Hnd Hf. split; [|by apply getElement_fresh]. unfold getElement.
  destruct (cache !! cache_key sel None) as [id|] eqn:Hl; cbn; [|by case_match].
  destruct (find_element id doc) as [e|] eqn:He; cbn; [|by case_match].
  symmetry. by eapply Hf.
Qed.

(** C31: [state.getElement] returns the element it cached for a selector
    as long as that element is connected, whether or not it still
    matches: once the document changes, a later call returns the cached
    element in its new state, even when [querySelector] would return
    another one. *)
Theorem getElement_stale (sel : jstr) (doc doc' : document) (cache cache' : dom_cache) (e e' : element) :
  getElement matches sel None doc cache = (Some e, cache') ->
  find_element (el_id e) doc' = Some e' ->
  getElement matches sel None doc' cache' = (Some e', cache').
Proof.
  intros Hg He'. unfold getElement in Hg |- *.
  destruct (cache !! cache_key sel None) as [id|] eqn:Hl; cbn in Hg.
  - destruct (find_element id doc) as [e0|] eqn:He.
    + injection Hg as <- <-. apply find_element_id in He as <-. by rewrite Hl; cbn; rewrite He'.
    + destruct (querySelector matches sel None doc); [|discriminate].
      injection Hg as -> <-. by rewrite lookup_insert_eq; cbn; rewrite He'.
  - destruct (querySelector matches sel None doc); [|discriminate].
    injection Hg as -> <-. by rewrite lookup_insert_eq; cbn; rewrite He'.
Qed.

End lookups.

(** ** Witnesses *)

(** A second lookup of message 5's iframe, from the cache the first
    one filled, is the document's answer. *)
Lemma getElement_refines_query_witness :
  (getElement iframe_engine (iframe_selector j["5"]) None ex_before
     (getElement iframe_engine (iframe_selector j["5"]) None ex_before ∅).2).1 =
  querySelector iframe_engine (iframe_selector j["5"]) None ex_before.
Proof.
  apply getElement_refines_query; [decide_closed|].
  apply getElement_refines_query; [decide_closed|apply fresh_empty].
Defined.

(** After message 4 is deleted, the lookup of message 5's iframe
    returns the iframe of the message now numbered 4, while
    [querySelector] returns the one of the message now numbered 5. *)
Lemma getElement_stale_witness :
  getElement iframe_engine (iframe_selector j["5"]) None ex_after
    (getElement iframe_engine (iframe_selector j["5"]) None ex_before ∅).2 =
    (Some (Element 5 [(j["class"], j["xiaobaix-iframe"])] [mes 50 j["4"]]),
     (getElement iframe_engine (iframe_selector j["5"]) None ex_before ∅).2) /\
  querySelector iframe_engine (iframe_selector j["5"]) None ex_after =
    Some (Element 6 [(j["class"], j["xiaobaix-iframe"])] [mes 60 j["5"]]).
Proof.
  split; [|vm_compute; reflexivity].
  apply (getElement_stale _ _ ex_before _ ∅ _ (Element 5 [(j["class"], j["xiaobaix-iframe"])] [mes 50 j["5"]]));
    vm_compute; reflexivity.
Defined.

End DomCache.
