(* ===== verification/LinkGuard.v ===== *)
(** * The link guard of code-block iframes (src/index.js)

    [createIframeApi] (358-468) ends with [setupSecurity] (444-453),
    which the script runs once the iframe's document is ready: a
    [click] listener on the document that takes [e.target.closest('a')]
    and, for a link whose [href] starts with [http] and whose [target]
    is not [_blank], calls [e.preventDefault()] and
    [window.open(link.href, '_blank')].

    A click is the path of elements from its target to the root, with
    the content's own listeners on them: whether one calls
    [preventDefault] and whether one stops the propagation, in which
    case the document's listener never runs ([stopped_before] is a stop
    in the capture phase or by an earlier listener of the document).
    [closest('a')] finds HTML and SVG [<a>] elements alike; for an SVG
    [<a>], [link.href] is an [SVGAnimatedString], truthy and without
    [startsWith], so the listener throws a [TypeError] before it calls
    anything.  What the browser then does is the activation behaviour
    (HTML, "following hyperlinks") of the nearest element on the path
    that has one, an [<a>], [<area>] or SVG [<a>] with an [href],
    unless the default was prevented: a navigation of the iframe
    itself, of its parent or top, or of a new or named browsing
    context. *)

From S2P Require Import Prelude.
From stdpp Require Import list sets.

Module LinkGuard.

Inductive kind := KA | KSvgA | KArea | KOther.

(** An element on the path of a click: what it is, its resolved URL
    ([link.href]; empty without an [href] attribute), its [target], and
    whether a listener of the content on it calls [preventDefault] or
    stops the propagation. *)
Record path_node := Node {
  nd_kind : kind;
  nd_href : jstr;
  nd_target : jstr;
  nd_prevents : bool;
  nd_stops : bool
}.

#[export] Instance kind_eq_dec : EqDecision kind.
Proof. solve_decision. Defined.
#[export] Instance path_node_eq_dec : EqDecision path_node.
Proof. solve_decision. Defined.

(** [e.target.closest('a')]: the type selector [a] matches HTML and
    SVG [<a>]. *)
Definition closest_a (path : list path_node) : option path_node :=
  find (fun n => match nd_kind n with KA | KSvgA => true | _ => false end) path.

Inductive guard_call := PreventDefault | WindowOpen (url name : jstr).

#[export] Instance guard_call_eq_dec : EqDecision guard_call.
Proof. solve_decision. Defined.

(** The [click] listener of [setupSecurity]: the calls it makes, or
    [None] when it throws. *)
Definition security_click (path : list path_node) : option (list guard_call) :=
  match closest_a path with
  | Some link =>
      match nd_kind link with
      | KSvgA => None
      | _ =>
        if bool_decide (nd_href link <> []) && starts_with j["http"] (nd_href link) then
          if bool_decide (nd_target link <> j["_blank"])
          then Some [PreventDefault; WindowOpen (nd_href link) j["_blank"]]
          else Some []
        else Some []
      end
  | None => Some []
  end.

Inductive navigation :=
| NavSelf (url : jstr)          (** the iframe itself *)
| NavParent (url : jstr)
| NavTop (url : jstr)
| NavNew (url : jstr)           (** a new top-level browsing context *)
| NavNamed (name url : jstr).

(** The element whose activation behaviour a click runs: the nearest
    hyperlink with an [href] on the path. *)
Definition activation (path : list path_node) : option path_node :=
  find (fun n => match nd_kind n with KOther => false | _ => bool_decide (nd_href n <> []) end) path.

(** Following a hyperlink (the browser's, not the extension's). *)
Definition follow (link : path_node) : list navigation :=
  if bool_decide (nd_href link = []) then [] else
  let t := nd_target link in
  if bool_decide (t = []) || bool_decide (t = j["_self"]) then [NavSelf (nd_href link)]
  else if bool_decide (t = j["_blank"]) then [NavNew (nd_href link)]
  else if bool_decide (t = j["_parent"]) then [NavParent (nd_href link)]
  else if bool_decide (t = j["_top"]) then [NavTop (nd_href link)]
  else [NavNamed t (nd_href link)].

(** [window.open(url, name)] *)
Definition open_nav (c : guard_call) : list navigation :=
  match c with
  | WindowOpen url name => if bool_decide (name = j["_blank"]) then [NavNew url] else [NavNamed name url]
  | PreventDefault => []
  end.

(** The elements whose listeners run in the bubbling phase: up to the
    first that stops the propagation. *)
Fixpoint bubble (path : list path_node) : list path_node :=
  match path with
  | [] => []
  | n :: r => if nd_stops n then [n] else n :: bubble r
  end.

(** The navigations of a click: the listener's [window.open] calls,
    then the default action unless a listener prevented it.  [guarded]
    says whether [setupSecurity] ran. *)
Definition click (guarded stopped_before : bool) (path : list path_node) : list navigation :=
  let ran := if stopped_before then [] else bubble path in
  let reached := guarded && negb stopped_before && negb (existsb nd_stops path) in
  let calls := if reached then default [] (security_click path) else [] in
  mjoin (open_nav <$> calls) ++
  (if existsb nd_prevents ran || bool_decide (PreventDefault ∈ calls) then []
   else match activation path with Some link => follow link | None => [] end).

(** A navigation that replaces a document the iframe's content does not
    open for the user: the iframe's own, its parent's or the top one. *)
Definition in_place (n : navigation) : option jstr :=
  match n with
  | NavSelf u | NavParent u | NavTop u => Some u
  | _ => None
  end.

(** A plain HTML link with no listener of its own. *)
Definition html_link (href target : jstr) : path_node := Node KA href target false false.

(** ** Lemmas *)

(** The activation of a link replaces a document only with the link's
    own, non-empty URL, and not for [_blank]. *)
Lemma follow_in_place (link : path_node) (n : navigation) (u : jstr) :
  n ∈ follow link -> in_place n = Some u ->
  u = nd_href link /\ nd_href link <> [] /\ nd_target link <> j["_blank"].
Proof.
  unfold follow. case_bool_decide as Hh; [by intros ?%elem_of_nil|].
  destruct (decide (nd_target link = j["_blank"])) as [Ht|Ht].
  - rewrite Ht. cbn. by intros ->%list_elem_of_singleton.
  - repeat case_match; intros ->%list_elem_of_singleton; cbn; intros; simplify_eq; auto.
Qed.

Lemma open_nav_not_in_place (c : guard_call) (n : navigation) :
  n ∈ open_nav c -> in_place n = None.
Proof.
  destruct c as [|url name]; cbn; [by intros ?%elem_of_nil|].
  case_bool_decide; by intros ->%list_elem_of_singleton.
Qed.

Lemma calls_not_in_place (calls : list guard_call) (n : navigation) :
  n ∈ mjoin (open_nav <$> calls) -> in_place n = None.
Proof.
  intros (l & Hn & Hl)%list_elem_of_join. apply list_elem_of_fmap in Hl as (c & -> & _).
  by eapply open_nav_not_in_place.
Qed.

(** ** Properties *)

(** C32: With [setupSecurity]'s listener installed, a click replaces the
    iframe's, its parent's or the top document with an [http] URL only
    in one of these ways round the guard: the propagation is stopped
    before the document's listener, the nearest [<a>] is not the link
    the click follows (an [<area>], or an [<a>] without [href] around
    the target), or the followed link is not an HTML [<a>] (an
    [<area>], or an SVG [<a>], on which the listener throws).  In
    every other case the link opens in a new browsing context. *)
Theorem guarded_click_http_in_place_bypass (stopped_before : bool) (path : list path_node) (n : navigation) (u : jstr) :
  n ∈ click true stopped_before path -> in_place n = Some u -> starts_with j["http"] u = true ->
  stopped_before = true \/ existsb nd_stops path = true \/ closest_a path <> activation path \/
  exists link, activation path = Some link /\ nd_kind link <> KA.
Proof.
  intros Hn Hi Hs.
  destruct stopped_before; [by left|right]. destruct (existsb nd_stops path) eqn:Hst; [by left|right].
  destruct (decide (closest_a path = activation path)) as [Hca|]; [right|by left].
  destruct (activation path) as [link|] eqn:Ha.
  2:{ exfalso. unfold click in Hn. rewrite Hst, Ha in Hn. cbn -[security_click] in Hn.
      apply elem_of_app in Hn as [Hn|Hn]; [by rewrite (calls_not_in_place _ _ Hn) in Hi|].
      case_match; by apply elem_of_nil in Hn. }
  exists link. split; [done|]. intros Hk. exfalso.
  unfold click in Hn. rewrite Hst, Ha in Hn. cbn -[security_click follow] in Hn.
  assert (Hsc : security_click path = Some [PreventDefault; WindowOpen (nd_href link) j["_blank"]] \/
                forall m, m ∈ follow link -> in_place m = Some u -> False).
  { unfold security_click. rewrite Hca, ?Ha, Hk. cbv beta iota.
    destruct (bool_decide (nd_href link <> []) && starts_with j["http"] (nd_href link)) eqn:Hg; cbv beta iota.
    - destruct (decide (nd_target link ≠ j["_blank"])) as [Ht|Ht];
        [rewrite bool_decide_true by done; by left|rewrite bool_decide_false by done; right].
      intros m Hm Hmi. destruct (follow_in_place link m u Hm Hmi) as (_ & _ & ?). by apply Ht.
    - right. intros m Hm Hmi. destruct (follow_in_place link m u Hm Hmi) as (-> & Hh & _).
      apply andb_false_iff in Hg as [Hg|Hg]; [by apply bool_decide_eq_false in Hg|congruence]. }
  destruct Hsc as [Hsc|Hno].
  - rewrite Hsc in Hn. cbn [default] in Hn. apply elem_of_app in Hn as [Hn|Hn].
    + by rewrite (calls_not_in_place _ _ Hn) in Hi.
    + rewrite bool_decide_true, orb_true_r in Hn by set_solver. by apply elem_of_nil in Hn.
  - apply elem_of_app in Hn as [Hn|Hn]; [by rewrite (calls_not_in_place _ _ Hn) in Hi|].
    case_match; [by apply elem_of_nil in Hn|]. by apply (Hno n).
Qed.

(** ** Witnesses *)

(** An SVG link: [closest('a')] finds it, the listener throws, and the
    browser follows it in place. *)
Lemma guarded_click_http_in_place_bypass_witness :
  NavSelf j["http://x.test/"] ∈ click true false [Node KSvgA j["http://x.test/"] [] false false] /\
  exists link, activation [Node KSvgA j["http://x.test/"] [] false false] = Some link /\ nd_kind link <> KA.
Proof.
  assert (Hn : NavSelf j["http://x.test/"] ∈ click true false [Node KSvgA j["http://x.test/"] [] false false])
    by (vm_compute; left).
  split; [exact Hn|].
  destruct (guarded_click_http_in_place_bypass false [Node KSvgA j["http://x.test/"] [] false false]
              (NavSelf j["http://x.test/"]) j["http://x.test/"] Hn eq_refl eq_refl) as [H|[H|[H|H]]];
    [discriminate|discriminate|exfalso; apply H; reflexivity|exact H].
Defined.

End LinkGuard.
